(* ===== verification/_CoqProject ===== *)
-Q . S2P
Prelude.v
Prog.v
Ledger.v
GuestErrno.v
GuestMemory.v
HostPath.v
Cli.v
GuestPath.v
FdTable.v
HostFiles.v
MemHost.v
Sandbox.v
HostFilesProofs.v
FileSafety.v
FileCalls.v
FileLeaks.v
FileIo.v
HostSockets.v
MemNet.v
HostSocketsProofs.v
SocketSafety.v
SocketLeaks.v
SocketCalls.v
SocketTotal.v
HostSocketsWindows.v
MemWinSock.v
WinSocketSafety.v
WinSocketLeaks.v
WinSocketCalls.v
WinSocketTotal.v
ShutdownSignals.v
WasiThreads.v
ImportedMemories.v
WasiContext.v
BoundedWork.v
WinBoundedWork.v
System.v
Assembly.v
BuildScript.v
