(* ===== verification/Prelude.v ===== *)
(** * wasmtime-mysql: a verification of the native host

    The program (src/src/*.rs, Rust) runs a MySQL server compiled to WebAssembly.
    It embeds the module, starts it under Wasmtime with WASI Preview 1, and gives
    it what WASI lacks: files opened by guest path with positioned I/O and locks,
    BSD sockets, threads, and a shutdown flag.  All threads of the guest share one
    memory, one file table, one socket table and one flag; each calls the host
    functions when it likes.  This development models those host functions, the
    tables behind them and the code that assembles the process, on Unix and on
    Windows, and proves what a reader of the code relies on.

    ** How the code is modelled

    A host function is a [Prog.prog]: a sequence of atomic actions on the state
    the threads share, ending in a value or in a Rust panic.  An action is a
    critical section of a [Mutex], one system call, one atomic operation, or one
    access to guest memory (of a shared memory: one byte).  Waiting for the [Mutex]
    and blocking in the system call are part of the action, which is always
    enabled: safety under every interleaving can be stated, time and deadlock
    cannot.  [Prog.run] runs a call
    alone; [Prog.pool_step] interleaves any number of threads, each with a state of
    its own ([errno] on Windows) and the shared state.  A guest thread is a
    [GuestMemory.guest]: it stores what it likes into memory, and calls imports,
    choosing the next one by the results of the last.  The theorems quantify over
    all guests, so nothing is assumed of the WebAssembly module.

    Integers are [Z] with the width written out where the code converts
    ([as_i32], [i32_try_from], [usize_checked_add], saturating and wrapping
    addition).  Fallible functions return [result], whose error is a guest errno.
    Maps of descriptors are [gmap]; a buffer is a list of bytes; a Rust string or
    Unix path is a [string] of bytes.  Loops are structural; the only fuel is that
    of [utf8_valid] and [chunks_exact], the length of the list they consume.

    The operating system, Wasmtime, WASI, signal-hook and the [wat] compiler are
    not code of the program: each is a type class with one function per call the
    code makes, and a second class with the documented behaviour a theorem needs
    ([HostFsLaws], [FileContentsLaws], [UnixSocketsLaws], [UnixPollLaws], [WinSockLaws],
    [SignalHookLaws], [WasmtimeLaws]).  Each has a concrete instance on which the
    hypotheses of the theorems are checked and the imports run ([MemHost],
    [MemNet], [MemWinSock], [list_hooks], [map_wasmtime], [toy_engine]).

    ** Files, and the code they model

    - Prelude: results, machine integers, byte lists, automation.  Prog: programs
      of atomic actions and the methods used on them (invariants of a pool,
      accounts of resources, totality, bounded work).  Ledger: books of handed out
      and returned resources.  FdTable: the interface of a descriptor table, which
      both tables implement.
    - GuestErrno: guest_errno.rs, its constants and translation tables.
    - GuestMemory: [checked_len], [checked_range], [read_guest], [write_guest],
      [read_cstr] (host_files.rs; host_sockets.rs repeats the first four) and
      [read_u32], [write_u32] (host_sockets.rs).
    - Cli: the options of main.rs and [exit_code_from_i32].
    - HostPath, GuestPath: [std::path] on Unix, and [normalize_guest_path],
      [join_suffix], [HostFiles::resolve], [resolve_parent] (host_files.rs).
    - HostFiles: [HostFilesInner] and the nine imports of host_files.rs on both
      platforms.  MemHost: a host in memory.
    - HostSockets: [HostSocketsInner] and the seventeen imports of host_sockets.rs.
      MemNet: a kernel in memory.
    - HostSocketsWindows: host_sockets_windows.rs and the Windows half of the
      table.  MemWinSock: a WinSock in memory.
    - ShutdownSignals, WasiThreads, ImportedMemories, WasiContext: the functions of
      main.rs around the imports.  Assembly: [run] and [run_wasi_thread], with
      [AppState] and [RuntimeEnv].  System: all imports over the state the threads
      share ([build_base_linker]), with the socket component of either platform
      behind the interface [SocketHost].
    - BuildScript: build.rs.

    ** What is proved

    - The process as a whole (System, Assembly): from the state [run] builds, under
      every interleaving of threads using all imports, both tables stay well
      formed, every path the host is asked for is inside a preopen of the command
      line (Unix), and with [--no-network] no socket is ever open or touched; every
      thread works on the tables, flag, memories and permissions of the main
      thread; the exit status, from [Cli::parse] to the guest's own exit.
    - Safety of each component (FileSafety, SocketSafety, WinSocketSafety): no use
      of a descriptor after it is closed, the disabled network, Windows locks.
    - Resources (FileLeaks, SocketLeaks, WinSocketLeaks): when the threads have
      ended, what the host handed out is, object by object, in a table or was given
      back.  The proofs weigh the resources by an arbitrary price list and show
      that no call's price is left unpaid.
    - Totality (FileCalls, SocketTotal, WinSocketTotal): every import returns a
      value of its type or the negation of a guest errno, and does not panic (on
      Unix, if the guest leaves room for addresses and does not pass [MSG_TRUNC]).
    - Bounded work (BoundedWork, WinBoundedWork): at most how many actions an
      import performs, whatever other threads do: the bounds [file_budget] and
      [sock_budget] follow the lengths and counts the guest passes and the limits
      of 16 MiB, 16 KiB and 16384 entries in the code.  They say nothing of time.
    - The sandbox (Sandbox): [resolve], [resolve_parent] and
      [normalize_guest_path] against specifications by the components of paths.
    - Functional behaviour and round trips (GuestMemory, FileCalls, FileIo,
      SocketCalls, WinSocketCalls, GuestErrno and the files of main.rs).
    - Five theorems record defects: [SocketLeaks.accept_long_address_panics],
      [SocketTotal.recv_long_message_panics], [SocketSafety.send_races_with_close],
      [FileSafety.windows_lock_held_forever] and [FileIo.descriptor_numbers].

    ** Not modelled

    - Byte order: native-endian fields of addresses, [SO_ERROR] values and timeouts
      are written little-endian, as on every platform the program is built for.
    - Waiting: a critical section is one action, even where the code holds its
      [Mutex] during file I/O, and so is a system call that blocks, such as [recv]
      or [accept].  There is no theorem about how long a call takes or that it gets
      its turn.  Poisoning after a panic is not modelled, since no critical section
      of the program can panic.
    - Allocation: a buffer of the size a guest asks for is always available.
    - Windows paths (drive prefixes, backslashes): containment is stated for Unix.
    - clap's parsing, of which only the outcome is a parameter; the text of messages
      beyond what the code composes; the configuration flags of Wasmtime's engine.
    - The unit tests of the files; the MySQL patches, packaging, smoke tests and
      workflows of the repository, which are not part of the program.
    - The copies of [checked_range], [checked_len], [read_guest], [write_guest] and
      [neg_errno] in host_sockets.rs, and of the address functions in
      host_sockets_windows.rs, which are the same code as those modelled. *)

From stdpp Require Export base gmap list strings.
From Stdlib Require Export ZArith Lia.

#[export] Set Default Goal Selector "!".
#[global] Open Scope Z_scope.

(** * Results *)

(** [std::result::Result<A, i32>]: the error is a guest errno. *)
Inductive result (A : Type) : Type :=
| Ok (a : A)
| Err (errno : Z).
Arguments Ok {A} a.
Arguments Err {A} errno.

Definition result_bind {A B} (r : result A) (k : A -> result B) : result B :=
  match r with Ok a => k a | Err e => Err e end.

Definition ok_or {A} (o : option A) (e : Z) : result A :=
  match o with Some a => Ok a | None => Err e end.

Declare Scope rust_scope.
Delimit Scope rust_scope with rust.
Notation "x <-? r ;; k" := (result_bind r (fun x => k))
  (at level 100, r at next level, right associativity) : rust_scope.

#[export] Instance result_eq_dec {A} `{EqDecision A} : EqDecision (result A).
Proof. solve_decision. Defined.

(** * Machine integers, as [Z] with their width written out *)

Definition i32_min : Z := - 2 ^ 31.
Definition i32_max : Z := 2 ^ 31 - 1.
Definition u32_max : Z := 2 ^ 32 - 1.
Definition i64_max : Z := 2 ^ 63 - 1.
Definition u64_max : Z := 2 ^ 64 - 1.

Definition is_i32 (x : Z) : Prop := i32_min <= x <= i32_max.
Definition is_i64 (x : Z) : Prop := - 2 ^ 63 <= x <= i64_max.
Definition is_u32 (x : Z) : Prop := 0 <= x <= u32_max.
Definition is_byte (x : Z) : Prop := 0 <= x < 256.

(** Two's complement reinterpretation at [n] bits. *)
Definition wrap_signed (n x : Z) : Z := (x + 2 ^ (n - 1)) mod 2 ^ n - 2 ^ (n - 1).
Definition wrap_unsigned (n x : Z) : Z := x mod 2 ^ n.

(** [x as i32], [x as u64]. *)
Definition as_i32 (x : Z) : Z := wrap_signed 32 x.
Definition as_u64 (x : Z) : Z := wrap_unsigned 64 x.

(** [usize::try_from] and [u64::try_from] of a signed integer. *)
Definition unsigned_try_from (x : Z) : option Z :=
  if decide (0 <= x) then Some x else None.

(** [i32::try_from] of a wider integer, [u16::try_from] of an [i32]. *)
Definition i32_try_from (x : Z) : option Z :=
  if decide (i32_min <= x <= i32_max) then Some x else None.
Definition i64_try_from (x : Z) : option Z :=
  if decide (- 2 ^ 63 <= x <= i64_max) then Some x else None.
Definition u16_try_from (x : Z) : option Z :=
  if decide (0 <= x < 2 ^ 16) then Some x else None.
Definition u8_try_from (x : Z) : option Z :=
  if decide (0 <= x < 2 ^ 8) then Some x else None.

(** [i32::saturating_add], [i64::saturating_add], [i64::saturating_mul]. *)
Definition saturate (lo hi x : Z) : Z := Z.min hi (Z.max lo x).
Definition i32_saturating_add (x y : Z) : Z := saturate i32_min i32_max (x + y).
Definition i64_saturate (x : Z) : Z := saturate (- 2 ^ 63) i64_max x.

(** [usize::checked_add] on the 64-bit targets the program is released for. *)
Definition usize_checked_add (x y : Z) : option Z :=
  if decide (x + y < 2 ^ 64) then Some (x + y) else None.

(** * Little-endian byte strings *)

(** [to_le_bytes] of an [n]-byte integer of either sign. *)
Fixpoint to_le_bytes (n : nat) (x : Z) : list Z :=
  match n with
  | O => []
  | S n => x mod 256 :: to_le_bytes n (x / 256)
  end.

(** [from_le_bytes] of an unsigned integer; the signed ones reinterpret it. *)
Fixpoint from_le_bytes (bs : list Z) : Z :=
  match bs with
  | [] => 0
  | b :: bs => b + 256 * from_le_bytes bs
  end.
Definition i16_from_le_bytes (bs : list Z) : Z := wrap_signed 16 (from_le_bytes bs).
Definition i32_from_le_bytes (bs : list Z) : Z := wrap_signed 32 (from_le_bytes bs).
Definition i64_from_le_bytes (bs : list Z) : Z := wrap_signed 64 (from_le_bytes bs).

(** [slice.chunks_exact(n)]: the whole chunks of [n] elements. *)
Fixpoint chunks_exact_fuel {A} (fuel n : nat) (l : list A) : list (list A) :=
  match fuel with
  | O => []
  | S fuel =>
      if decide (length l < n)%nat then []
      else take n l :: chunks_exact_fuel fuel n (drop n l)
  end.
Definition chunks_exact {A} (n : nat) (l : list A) : list (list A) :=
  chunks_exact_fuel (length l) n l.

(** Overwriting part of a buffer in place, for an offset in range. *)
Definition splice {A} (i : nat) (new old : list A) : list A :=
  take i old ++ new ++ drop (i + length new) old.

(** Overwriting a file's bytes at any offset: the file grows when it must, and a
    gap reads as zeros. *)
Definition write_bytes (offset : nat) (bytes d : list Z) : list Z :=
  splice offset bytes (d ++ replicate (offset + length bytes - length d) 0).

(** * Automation *)

Create HintDb rust.
Create Rewrite HintDb rust.

(** Closes arithmetic over the named integer bounds. *)
Ltac bounds :=
  unfold is_i32, is_i64, is_u32, is_byte, i32_min, i32_max, u32_max, i64_max, u64_max in *;
  lia.

(** Splits every [match] and [if] of the goal, keeping the equations. *)
Ltac cases :=
  repeat (case_match; simplify_eq/=); simplify_eq/=; try done.

(** Evaluates a decidable goal. *)
Ltac compute_decision := cbn [fst snd]; refine (bool_decide_unpack _ _); vm_compute; exact I.

(** * Lemmas on machine integers *)

Lemma wrap_signed_id n x :
  1 <= n -> - 2 ^ (n - 1) <= x < 2 ^ (n - 1) -> wrap_signed n x = x.
Proof.
  intros Hn Hx. unfold wrap_signed.
  assert (2 ^ n = 2 * 2 ^ (n - 1)).
  { rewrite <- Z.pow_succ_r by lia. f_equal. lia. }
  rewrite Z.mod_small; lia.
Qed.

Lemma wrap_signed_range n x :
  1 <= n -> - 2 ^ (n - 1) <= wrap_signed n x < 2 ^ (n - 1).
Proof.
  intros Hn. unfold wrap_signed.
  assert (2 ^ n = 2 * 2 ^ (n - 1)).
  { rewrite <- Z.pow_succ_r by lia. f_equal. lia. }
  pose proof (Z.mod_pos_bound (x + 2 ^ (n - 1)) (2 ^ n)). lia.
Qed.

Lemma wrap_signed_mod n x : 1 <= n -> wrap_signed n (x mod 2 ^ n) = wrap_signed n x.
Proof. intros Hn. unfold wrap_signed. by rewrite Zplus_mod_idemp_l. Qed.

Lemma as_i32_id x : is_i32 x -> as_i32 x = x.
Proof. intros H. apply wrap_signed_id; bounds. Qed.

Lemma as_i32_range x : is_i32 (as_i32 x).
Proof.
  unfold as_i32. pose proof (wrap_signed_range 32 x ltac:(lia)). bounds.
Qed.

Lemma i32_try_from_Some x y : i32_try_from x = Some y <-> x = y /\ is_i32 x.
Proof. unfold i32_try_from, is_i32. case_decide; split; intuition congruence. Qed.

Lemma unsigned_try_from_Some x y : unsigned_try_from x = Some y <-> x = y /\ 0 <= x.
Proof. unfold unsigned_try_from. case_decide; split; intuition congruence. Qed.

Lemma unsigned_try_from_None x : unsigned_try_from x = None <-> x < 0.
Proof. unfold unsigned_try_from. case_decide; split; intros; try done; lia. Qed.

Lemma i32_saturating_add_range x y : is_i32 (i32_saturating_add x y).
Proof. unfold i32_saturating_add, saturate. bounds. Qed.

Lemma i32_saturating_succ x : is_i32 x -> i32_saturating_add x 1 = Z.min i32_max (x + 1).
Proof. unfold i32_saturating_add, saturate. bounds. Qed.

#[export] Hint Resolve as_i32_range i32_saturating_add_range : rust.

(** * Lemmas on byte strings *)

Lemma length_to_le_bytes n x : length (to_le_bytes n x) = n.
Proof. revert x. induction n; intros; simpl; auto. Qed.

Lemma to_le_bytes_byte n x : Forall is_byte (to_le_bytes n x).
Proof.
  revert x. induction n; intros; simpl; constructor; auto.
  unfold is_byte. apply Z.mod_pos_bound. lia.
Qed.

Lemma from_to_le_bytes n x : from_le_bytes (to_le_bytes n x) = x mod 256 ^ Z.of_nat n.
Proof.
  revert x. induction n as [|n IH]; intros x; simpl from_le_bytes.
  { by rewrite Z.mod_1_r. }
  rewrite IH, Nat2Z.inj_succ, Z.pow_succ_r by lia.
  rewrite Z.rem_mul_r by lia. lia.
Qed.

Lemma to_from_le_bytes bs :
  Forall is_byte bs -> to_le_bytes (length bs) (from_le_bytes bs) = bs.
Proof.
  induction 1 as [|b bs Hb Hbs IH]; simpl; [done|].
  unfold is_byte in Hb.
  replace (b + 256 * from_le_bytes bs) with (from_le_bytes bs * 256 + b) by lia.
  rewrite Z.div_add_l, (Z.div_small b) by lia.
  rewrite Z.add_comm, Z.mod_add, Z.mod_small by lia.
  by rewrite Z.add_0_r, IH.
Qed.

Lemma from_le_bytes_range bs :
  Forall is_byte bs -> 0 <= from_le_bytes bs < 256 ^ Z.of_nat (length bs).
Proof.
  induction 1 as [|b bs Hb Hbs IH]; cbn [from_le_bytes length]; [lia|].
  rewrite Nat2Z.inj_succ, Z.pow_succ_r by lia. unfold is_byte in Hb. lia.
Qed.

(** Decoding the bytes of an in-range integer gives it back, signed or not. *)
Lemma signed_from_to_le_bytes n x :
  (1 <= n)%nat -> - 2 ^ (8 * Z.of_nat n - 1) <= x < 2 ^ (8 * Z.of_nat n - 1) ->
  wrap_signed (8 * Z.of_nat n) (from_le_bytes (to_le_bytes n x)) = x.
Proof.
  intros Hn Hx. rewrite from_to_le_bytes.
  replace (256 ^ Z.of_nat n) with (2 ^ (8 * Z.of_nat n)) by (by rewrite Z.pow_mul_r by lia).
  rewrite wrap_signed_mod, wrap_signed_id; lia.
Qed.

Lemma from_to_le_bytes_u32 x : is_u32 x -> from_le_bytes (to_le_bytes 4 x) = x.
Proof. intros H. rewrite from_to_le_bytes. apply Z.mod_small. simpl. bounds. Qed.

#[export] Hint Resolve to_le_bytes_byte : rust.
#[export] Hint Rewrite length_to_le_bytes : rust.

(** * Lemmas on buffers *)

Section Splice.
Context {A : Type}.
Implicit Types old new : list A.

Lemma length_splice i new old :
  (i + length new <= length old)%nat -> length (splice i new old) = length old.
Proof. intros H. unfold splice. rewrite !length_app, length_take, length_drop. lia. Qed.

Lemma splice_read i new old :
  (i + length new <= length old)%nat ->
  take (length new) (drop i (splice i new old)) = new.
Proof.
  intros H. unfold splice.
  rewrite drop_app_length' by (rewrite length_take; lia).
  by rewrite take_app_length.
Qed.

Lemma splice_lookup_out i new old j :
  (i + length new <= length old)%nat -> (j < i \/ i + length new <= j)%nat ->
  splice i new old !! j = old !! j.
Proof.
  intros H Hj. unfold splice. destruct Hj as [Hj|Hj].
  - rewrite lookup_app_l by (rewrite length_take; lia). by apply lookup_take_lt.
  - rewrite lookup_app_r by (rewrite length_take; lia).
    rewrite lookup_app_r by (rewrite length_take; lia).
    rewrite lookup_drop, length_take. f_equal. lia.
Qed.

Lemma splice_lookup_in i new old j :
  (i + length new <= length old)%nat -> (i <= j < i + length new)%nat ->
  splice i new old !! j = new !! (j - i)%nat.
Proof.
  intros H Hj. unfold splice.
  rewrite lookup_app_r by (rewrite length_take; lia).
  rewrite length_take, Nat.min_l by lia. by apply lookup_app_l; lia.
Qed.

Lemma splice_read_prefix i n new old :
  (i + length new <= length old)%nat -> (n <= length new)%nat ->
  take n (drop i (splice i new old)) = take n new.
Proof.
  intros H Hn. unfold splice.
  rewrite drop_app_length' by (rewrite length_take; lia). by rewrite take_app_le by lia.
Qed.

Lemma splice_nil i old : splice i [] old = old.
Proof. unfold splice. simpl. rewrite Nat.add_0_r. apply take_drop. Qed.


Lemma splice_insert i b new old :
  (i + S (length new) <= length old)%nat ->
  splice (S i) new (<[i := b]> old) = splice i (b :: new) old.
Proof.
  intros H. apply list_eq. intros j.
  destruct (decide (S i <= j < S i + length new)%nat).
  { rewrite !splice_lookup_in by (rewrite ?length_insert; simpl; lia).
    by replace (j - i)%nat with (S (j - S i)) by lia. }
  rewrite splice_lookup_out by (rewrite ?length_insert; simpl; lia).
  destruct (decide (j = i)) as [->|].
  - rewrite list_lookup_insert_eq by lia. rewrite splice_lookup_in by (simpl; lia).
    by rewrite Nat.sub_diag.
  - rewrite list_lookup_insert_ne by lia. by rewrite splice_lookup_out by (simpl; lia).
Qed.
End Splice.

Lemma write_bytes_read offset n bytes d :
  (n <= length bytes)%nat -> take n (drop offset (write_bytes offset bytes d)) = take n bytes.
Proof.
  intros Hn. apply splice_read_prefix; [|done]. rewrite length_app, length_replicate. lia.
Qed.

Lemma length_write_bytes offset bytes d :
  (offset + length bytes <= length (write_bytes offset bytes d))%nat.
Proof.
  unfold write_bytes. rewrite length_splice; rewrite length_app, length_replicate; lia.
Qed.

(** Outside the bytes written, the file is as before. *)
Lemma write_bytes_elsewhere offset bytes d j :
  (j < length d)%nat -> (j < offset \/ offset + length bytes <= j)%nat ->
  write_bytes offset bytes d !! j = d !! j.
Proof.
  intros Hj Ho. unfold write_bytes.
  rewrite splice_lookup_out by (rewrite ?length_app, ?length_replicate; lia || done).
  by apply lookup_app_l.
Qed.
