(* ===== verification/Prog.v ===== *)
(** Host-call programs: what a host import does, as a sequence of atomic
    actions on the state the threads share.

    Every Wasm thread of the program calls the same host functions on the same
    tables, and a host function takes a lock only around a part of its work.
    A [prog] is a resumption: [Step f k] performs one atomic action [f] (a
    critical section of a [Mutex], one system call, one access to guest memory)
    and goes on with [k].  [run] is the sequential meaning, [pool_step] the
    interleaved one.  An action is always enabled: waiting for the [Mutex] and
    blocking in the kernel are part of it, so that what every order of the actions
    can do is modelled, and how long one takes is not. *)

From S2P Require Import Prelude.

Inductive prog (S A : Type) : Type :=
| Ret (a : A)
| Panic
| Step {R : Type} (f : S -> R * S) (k : R -> prog S A).
Arguments Ret {S A} a.
Arguments Panic {S A}.
Arguments Step {S A R} f k.

(** What a call ends with: a value, or a Rust panic. *)
Inductive outcome (A : Type) : Type :=
| Done (a : A)
| Panicked.
Arguments Done {A} a.
Arguments Panicked {A}.

Fixpoint bind {S A B} (p : prog S A) (k : A -> prog S B) : prog S B :=
  match p with
  | Ret a => k a
  | Panic => Panic
  | Step f c => Step f (fun r => bind (c r) k)
  end.

Definition atomically {S A} (f : S -> A * S) : prog S A := Step f Ret.
Definition read {S A} (f : S -> A) : prog S A := atomically (fun s => (f s, s)).
Definition modify {S} (f : S -> S) : prog S unit := atomically (fun s => (tt, f s)).

Declare Scope prog_scope.
Delimit Scope prog_scope with prog.
Notation "x <- p ;; k" := (bind p (fun x => k))
  (at level 100, p at next level, right associativity) : prog_scope.
Notation "p ;; k" := (bind p (fun _ => k))
  (at level 100, right associativity) : prog_scope.

(** [match r { Ok(x) => x, Err(errno) => return neg_errno(errno) }]: the early
    return every host import uses; [neg] is the [neg_errno] of its file. *)
Definition or_return {S A} (neg : Z -> Z) (r : result A) (k : A -> prog S Z) : prog S Z :=
  match r with Ok a => k a | Err e => Ret (neg e) end.

(** Sequential execution: the call runs alone. *)
Fixpoint run {S A} (p : prog S A) (s : S) : outcome A * S :=
  match p with
  | Ret a => (Done a, s)
  | Panic => (Panicked, s)
  | Step f k => let '(r, s') := f s in run (k r) s'
  end.

(** * Zooming: a component's call on the state of a larger one *)

Record lens (S T : Type) := Lens { view : S -> T; put : T -> S -> S }.
Arguments Lens {S T} _ _.
Arguments view {S T} _ _.
Arguments put {S T} _ _ _.

Class LensLaws {S T} (l : lens S T) : Prop := {
  view_put : forall t s, view l (put l t s) = t;
  put_view : forall s, put l (view l s) s = s;
  put_put : forall t t' s, put l t (put l t' s) = put l t s
}.

(** The state of one thread's call that has nothing of its own. *)
Definition shared_lens {L S : Type} : lens (L * S) S := Lens snd (fun s ls => (ls.1, s)).

Fixpoint zoom {S T A} (l : lens S T) (p : prog T A) : prog S A :=
  match p with
  | Ret a => Ret a
  | Panic => Panic
  | Step f k =>
      Step (fun s => let '(r, t) := f (view l s) in (r, put l t s))
           (fun r => zoom l (k r))
  end.

(** * Interleaved execution *)

(** A thread of the pool: the state only it sees (its [errno]) and the rest of
    its call. *)
Record thread (L S A : Type) := Thread { local : L; code : prog (L * S) A }.
Arguments Thread {L S A} _ _.
Arguments local {L S A} _.
Arguments code {L S A} _.

Definition thread_step {L S A} (t : thread L S A) (s : S) : option (thread L S A * S) :=
  match code t with
  | Ret _ | Panic => None
  | Step f k =>
      let '(r, (l', s')) := f (local t, s) in Some (Thread l' (k r), s')
  end.

(** One scheduling decision: thread [i] performs its next atomic action. *)
Definition sched_step {L S A} (i : nat) (cfg : list (thread L S A) * S)
  : list (thread L S A) * S :=
  let '(ts, s) := cfg in
  match ts !! i with
  | Some t =>
      match thread_step t s with
      | Some (t', s') => (<[i := t']> ts, s')
      | None => (ts, s)
      end
  | None => (ts, s)
  end.

Definition run_schedule {L S A} (sched : list nat) (cfg : list (thread L S A) * S)
  : list (thread L S A) * S :=
  fold_left (fun c i => sched_step i c) sched cfg.

Inductive pool_step {L S A} : list (thread L S A) * S -> list (thread L S A) * S -> Prop :=
| PoolStep ts s i t t' s' :
    ts !! i = Some t -> thread_step t s = Some (t', s') ->
    pool_step (ts, s) (<[i := t']> ts, s').

(** * Invariants *)

(** Every atomic action of [p], whatever the other threads did before it,
    keeps [I]. *)
Fixpoint preserves {S A} (I : S -> Prop) (p : prog S A) : Prop :=
  match p with
  | Ret _ | Panic => True
  | Step f k => forall s, I s -> I (f s).2 /\ preserves I (k (f s).1)
  end.

(** [preserves] with a postcondition on the result. *)
Fixpoint establishes {S A} (I : S -> Prop) (Q : A -> Prop) (p : prog S A) : Prop :=
  match p with
  | Ret a => Q a
  | Panic => True
  | Step f k => forall s, I s -> I (f s).2 /\ establishes I Q (k (f s).1)
  end.

(** No path of [p] panics. *)
Fixpoint no_panic {S A} (p : prog S A) : Prop :=
  match p with
  | Ret _ => True
  | Panic => False
  | Step f k => forall s, no_panic (k (f s).1)
  end.

(** Whatever the other threads do between its actions, [p] performs at most [n] of
    its own, has then a result in [Q], and panics only if [P] holds.  This bounds
    the work of [p], not its time: an action that waits for a [Mutex] or blocks in
    the kernel counts as one, and when it is over is not said. *)
Fixpoint ends_within {S A} (P : Prop) (n : Z) (Q : A -> Prop) (p : prog S A) : Prop :=
  match p with
  | Ret a => 0 <= n /\ Q a
  | Panic => 0 <= n /\ P
  | Step f k => 0 < n /\ forall s, ends_within P (n - 1) Q (k (f s).1)
  end.

(** Run alone from a state in [I], [p] ends without a panic, in [I] and with a
    result in [Q]. *)
Definition ensures {S A} (I : S -> Prop) (Q : A -> Prop) (p : prog S A) : Prop :=
  forall s, I s -> exists a s', run p s = (Done a, s') /\ I s' /\ Q a.

(** * The sequential semantics *)

Lemma run_ret {S A} (a : A) (s : S) : run (Ret a) s = (Done a, s).
Proof. done. Qed.

Lemma run_bind {S A B} (p : prog S A) (k : A -> prog S B) s :
  run (bind p k) s =
  match run p s with
  | (Done a, s') => run (k a) s'
  | (Panicked, s') => (Panicked, s')
  end.
Proof.
  revert s. induction p as [a| |R f c IH]; intros s; simpl; try done.
  destruct (f s) as [r s']. apply IH.
Qed.

#[export] Instance shared_lens_laws {L S} : LensLaws (shared_lens (L := L) (S := S)).
Proof. split; [done| |done]. by intros []. Qed.

Lemma bind_assoc {S A B C} (p : prog S A) (k : A -> prog S B) (h : B -> prog S C) s :
  run (bind (bind p k) h) s = run (bind p (fun a => bind (k a) h)) s.
Proof.
  rewrite !run_bind. destruct (run p s) as [[a|] s']; [|done].
  by rewrite run_bind.
Qed.

Lemma run_read {S A} (f : S -> A) s : run (read f) s = (Done (f s), s).
Proof. done. Qed.

Lemma run_modify {S} (f : S -> S) s : run (modify f) s = (Done tt, f s).
Proof. done. Qed.

Lemma run_atomically {S A} (f : S -> A * S) s :
  run (atomically f) s = (Done (f s).1, (f s).2).
Proof. unfold atomically. simpl. by destruct (f s). Qed.

Lemma run_or_return_Ok {S A} neg (a : A) (k : A -> prog S Z) s :
  run (or_return neg (Ok a) k) s = run (k a) s.
Proof. done. Qed.

Lemma run_or_return_Err {S A} neg e (k : A -> prog S Z) s :
  run (or_return neg (Err e) k) s = (Done (neg e), s).
Proof. done. Qed.

Lemma run_zoom {S T A} (l : lens S T) `{!LensLaws l} (p : prog T A) s :
  run (zoom l p) s = ((run p (view l s)).1, put l (run p (view l s)).2 s).
Proof.
  revert s. induction p as [a| |R f c IH]; intros s; simpl.
  - by rewrite put_view.
  - by rewrite put_view.
  - destruct (f (view l s)) as [r t] eqn:Hf. rewrite IH.
    by rewrite view_put, put_put.
Qed.

#[export] Hint Rewrite @run_ret @run_bind @run_read @run_modify @run_atomically
  @run_or_return_Ok @run_or_return_Err : rust.

(** * Rules for [preserves] *)

Section Preserves.
Context {S : Type} (I : S -> Prop).

Lemma preserves_bind {A B} (p : prog S A) (k : A -> prog S B) :
  preserves I p -> (forall a, preserves I (k a)) -> preserves I (bind p k).
Proof.
  intros Hp Hk. induction p as [a| |R f c IH]; simpl in *; auto.
  intros s Hs. destruct (Hp s Hs) as [??]. auto.
Qed.

Lemma preserves_atomically {A} (f : S -> A * S) :
  (forall s, I s -> I (f s).2) -> preserves I (atomically f).
Proof. intros H s Hs. split; [auto|done]. Qed.

Lemma preserves_read {A} (f : S -> A) : preserves I (read f).
Proof. by apply preserves_atomically. Qed.

Lemma preserves_modify (f : S -> S) : (forall s, I s -> I (f s)) -> preserves I (modify f).
Proof. intros H. by apply preserves_atomically. Qed.

Lemma preserves_or_return {A} neg (r : result A) (k : A -> prog S Z) :
  (forall a, preserves I (k a)) -> preserves I (or_return neg r k).
Proof. intros H. by destruct r; simpl. Qed.

Lemma preserves_run {A} (p : prog S A) s : preserves I p -> I s -> I (run p s).2.
Proof.
  revert s. induction p as [a| |R f c IH]; intros s Hp Hs; simpl in *; auto.
  destruct (Hp s Hs) as [H1 H2]. destruct (f s) as [r s']. by apply IH.
Qed.

(** A zoomed program keeps [I] when nothing behind the lens matters to it. *)
Lemma preserves_zoom_frame {T A} (l : lens S T) (p : prog T A) :
  (forall t s, I s -> I (put l t s)) -> preserves I (zoom l p).
Proof.
  intros HI. induction p as [a| |R f c IH]; simpl; auto.
  intros s Hs. destruct (f (view l s)) as [r t]; simpl. auto.
Qed.
End Preserves.

Section Establishes.
Context {S : Type} (I : S -> Prop).

Lemma preserves_establishes {A B} (Q : A -> Prop) (p : prog S A) (k : A -> prog S B) :
  establishes I Q p -> (forall a, Q a -> preserves I (k a)) -> preserves I (bind p k).
Proof.
  intros Hp Hk. induction p as [a| |R f c IH]; simpl in *; auto.
  intros s Hs. destruct (Hp s Hs) as [??]. auto.
Qed.

Lemma establishes_bind {A B} (R : A -> Prop) (Q : B -> Prop) p k :
  establishes I R p -> (forall a, R a -> establishes I Q (k a)) -> establishes I Q (bind p k).
Proof.
  intros Hp Hk. induction p as [a| |X f c IH]; simpl in *; auto.
  intros s Hs. destruct (Hp s Hs) as [??]. auto.
Qed.
End Establishes.

Lemma preserves_zoom {S T A} (l : lens S T) `{!LensLaws l} (J : T -> Prop) (p : prog T A) :
  preserves J p -> preserves (fun s => J (view l s)) (zoom l p).
Proof.
  induction p as [a| |R f c IH]; simpl; auto.
  intros Hp s Hs. destruct (Hp _ Hs) as [H1 H2].
  destruct (f (view l s)) as [r t]; simpl in *. rewrite view_put. auto.
Qed.

#[export] Hint Resolve preserves_bind preserves_read preserves_or_return : rust.

Lemma no_panic_bind {S A B} (p : prog S A) (k : A -> prog S B) :
  no_panic p -> (forall a, no_panic (k a)) -> no_panic (bind p k).
Proof. intros Hp Hk. induction p; simpl in *; auto. Qed.

(** * Rules for [ensures] *)

Section Ensures.
Context {S : Type} (I : S -> Prop).

Lemma ensures_ret {A} (Q : A -> Prop) a : Q a -> ensures I Q (Ret a).
Proof. intros HQ s Hs. by exists a, s. Qed.

Lemma ensures_bind {A B} (R : A -> Prop) (Q : B -> Prop) p k :
  ensures I R p -> (forall a, R a -> ensures I Q (k a)) -> ensures I Q (bind p k).
Proof.
  intros Hp Hk s Hs. destruct (Hp s Hs) as (a & s' & Hr & Hs' & Ha).
  destruct (Hk a Ha s' Hs') as (b & s2 & Hr2 & H2). exists b, s2.
  by rewrite run_bind, Hr.
Qed.

Lemma ensures_atomically {A} (Q : A -> Prop) (f : S -> A * S) :
  (forall s, I s -> I (f s).2 /\ Q (f s).1) -> ensures I Q (atomically f).
Proof.
  intros H s Hs. destruct (H s Hs). rewrite run_atomically. eauto.
Qed.

Lemma ensures_read {A} (Q : A -> Prop) (f : S -> A) :
  (forall s, I s -> Q (f s)) -> ensures I Q (read f).
Proof. intros H. apply ensures_atomically. intros s Hs. split; [done|]. by apply H. Qed.

Lemma ensures_or_return {A} (Q : Z -> Prop) neg (r : result A) k :
  (forall e, r = Err e -> Q (neg e)) -> (forall a, r = Ok a -> ensures I Q (k a)) ->
  ensures I Q (or_return neg r k).
Proof. intros He Hk. destruct r as [a|e]; [by apply Hk|]. by apply ensures_ret, He. Qed.

Lemma ensures_weaken {A} (Q Q' : A -> Prop) p :
  ensures I Q p -> (forall a, Q a -> Q' a) -> ensures I Q' p.
Proof. intros Hp HQ s Hs. destruct (Hp s Hs) as (a & s' & ? & ? & ?). eauto 10. Qed.

(** A zoomed program that always ends with a result in [Q]. *)
Lemma ensures_zoom {T A} (l : lens S T) `{!LensLaws l} (Q : A -> Prop) p :
  (forall t s, I s -> I (put l t s)) ->
  (forall t, exists a t', run p t = (Done a, t') /\ Q a) -> ensures I Q (zoom l p).
Proof.
  intros HI Hp s Hs. destruct (Hp (view l s)) as (a & t' & Hr & Ha).
  exists a, (put l t' s). rewrite run_zoom by done. rewrite Hr. auto.
Qed.
End Ensures.

(** * The interleaved semantics *)

Section Pool.
Context {L S A : Type}.
Implicit Types ts : list (thread L S A).

(** Every schedule is a sequence of pool steps (skipped turns aside). *)
Lemma run_schedule_reachable sched (cfg : list (thread L S A) * S) :
  rtc pool_step cfg (run_schedule sched cfg).
Proof.
  revert cfg. induction sched as [|i sched IH]; intros cfg; [done|].
  unfold run_schedule. simpl. destruct cfg as [ts s]. simpl.
  destruct (ts !! i) as [t|] eqn:Ht; [|apply IH].
  destruct (thread_step t s) as [[t' s']|] eqn:Hst; [|apply IH].
  eapply rtc_l; [by econstructor|apply IH].
Qed.

Lemma run_schedule_steps sched (cfg : list (thread L S A) * S) :
  rtc pool_step cfg ((run_schedule sched cfg).1, (run_schedule sched cfg).2).
Proof. rewrite <- surjective_pairing. apply run_schedule_reachable. Qed.

Lemma run_schedule_app sched1 sched2 (cfg : list (thread L S A) * S) :
  run_schedule (sched1 ++ sched2) cfg = run_schedule sched2 (run_schedule sched1 cfg).
Proof. apply fold_left_app. Qed.

(** A thread that is given enough turns in a row runs to its end as if alone. *)
Lemma run_schedule_alone ts i (c : prog (L * S) A) l s a l' s' :
  ts !! i = Some (Thread l c) -> run c (l, s) = (Done a, (l', s')) ->
  exists n, run_schedule (replicate n i) (ts, s) = (<[i := Thread l' (Ret a)]> ts, s').
Proof.
  revert ts l s. induction c as [b| |R f k IH]; intros ts l s Hi Hrun; simpl in Hrun; [|done|].
  - simplify_eq. exists O. by rewrite list_insert_id.
  - destruct (f (l, s)) as [r [l1 s1]] eqn:Hf.
    destruct (IH r (<[i := Thread l1 (k r)]> ts) l1 s1) as [n Hn]; [|done|].
    { apply list_lookup_insert_eq. by eapply lookup_lt_Some. }
    exists (Datatypes.S n). cbn [replicate]. unfold run_schedule in *. cbn [fold_left]. simpl.
    rewrite Hi. unfold thread_step. simpl. rewrite Hf, Hn. by rewrite list_insert_insert_eq.
Qed.

(** An invariant of the shared state that every atomic action of every thread
  keeps holds in every reachable configuration. *)
Lemma pool_invariant (I : S -> Prop) cfg cfg' :
  rtc pool_step cfg cfg' ->
  Forall (fun t : thread L S A => preserves (fun ls : L * S => I ls.2) (code t)) cfg.1 -> I cfg.2 ->
  Forall (fun t : thread L S A => preserves (fun ls : L * S => I ls.2) (code t)) cfg'.1 /\ I cfg'.2.
Proof.
  induction 1 as [cfg|cfg1 cfg2 cfg3 Hstep _ IH]; intros Hts HI; [done|].
  destruct Hstep as [ts s i t t' s' Hi Hst]. simpl in *.
  pose proof Hi as Ht. eapply Forall_lookup_1 in Ht; [|exact Hts].
  unfold thread_step in Hst. destruct t as [l c]. simpl in *.
  destruct c as [a| |R f k]; simplify_eq/=.
  destruct (Ht (l, s) HI) as [H1 H2].
  destruct (f (l, s)) as [r [l' s1]]. simplify_eq/=.
  apply IH; [|done]. by apply Forall_insert.
Qed.
End Pool.

(** * Accounts

    Resources that a call takes from the host and must give back: [moves s d s']
    says that a step from [s] to [s'] may raise the call's debt by [d].  A call
    [settles] its debt [x] when, whatever the other threads do between its
    actions, it ends with the debt [Q] allows, or panics with one [E] allows. *)

Section Settles.
Context {S : Type} (moves : S -> Z -> S -> Prop) (E : Z -> Prop).

Fixpoint settles {A} (x : Z) (Q : A -> Z -> Prop) (p : prog S A) : Prop :=
  match p with
  | Ret a => Q a x
  | Panic => E x
  | Step f k => forall s, exists d, moves s d (f s).2 /\ settles (x + d) Q (k (f s).1)
  end.

Lemma settles_bind {A B} x (R : A -> Z -> Prop) (Q : B -> Z -> Prop) (p : prog S A) k :
  settles x R p -> (forall a y, R a y -> settles y Q (k a)) -> settles x Q (bind p k).
Proof.
  intros Hp Hk. revert x Hp. induction p as [a| |T f c IH]; intros x Hp; simpl in *; auto.
  intros s. destruct (Hp s) as (d & Hm & Hc). exists d. auto.
Qed.

Lemma settles_weaken {A} x (Q Q' : A -> Z -> Prop) (p : prog S A) :
  settles x Q p -> (forall a y, Q a y -> Q' a y) -> settles x Q' p.
Proof.
  intros Hp HQ. revert x Hp. induction p as [a| |T f c IH]; intros x Hp; simpl in *; auto.
  intros s. destruct (Hp s) as (d & Hm & Hc). eauto.
Qed.

Lemma settles_atomically {A} x (Q : A -> Z -> Prop) (f : S -> A * S) :
  (forall s, exists d, moves s d (f s).2 /\ Q (f s).1 (x + d)) -> settles x Q (atomically f).
Proof. done. Qed.

Lemma settles_or_return {A} x (Q : Z -> Z -> Prop) neg (r : result A) (k : A -> prog S Z) :
  (forall e, Q (neg e) x) -> (forall a, settles x Q (k a)) -> settles x Q (or_return neg r k).
Proof. intros He Hk. by destruct r; simpl. Qed.

(** A call on a part of the state the account does not depend on. *)
Lemma settles_zoom_frame {T A} x (l : lens S T) (p : prog T A) :
  no_panic p -> (forall t s, moves s 0 (put l t s)) -> settles x (fun _ y => y = x) (zoom l p).
Proof.
  intros Hp Hl. induction p as [a| |R f c IH]; simpl in *; try done.
  intros s. exists 0. specialize (Hp (view l s)).
  destruct (f (view l s)) as [r t]; simpl. rewrite Z.add_0_r. auto.
Qed.
End Settles.

Lemma settles_zoom {S T A} (moves : T -> Z -> T -> Prop) E (l : lens S T) `{!LensLaws l} x
    (Q : A -> Z -> Prop) (p : prog T A) :
  settles moves E x Q p ->
  settles (fun s d s' => moves (view l s) d (view l s')) E x Q (zoom l p).
Proof.
  revert x. induction p as [a| |R f c IH]; intros x Hp; simpl in *; try done.
  intros s. destruct (Hp (view l s)) as (d & Hm & Hk). exists d.
  destruct (f (view l s)) as [r t]; simpl in *. rewrite view_put. auto.
Qed.

(** Follows the structure of a call whose parts leave the debt alone; [reveal]
    knows the helpers of one file. *)
Ltac settle_with reveal :=
  repeat match goal with
  | _ => progress reveal
  | |- settles _ _ ?x _ (bind _ _) =>
      apply (settles_bind _ _ x (fun _ y => y = x)); [solve [auto with rust]|intros ? ? ->]
  | |- settles _ _ _ _ (or_return _ _ _) => apply settles_or_return; [done|intros ?]
  | |- settles _ _ _ _ (Ret _) => done
  | |- settles _ _ _ _ Panic => done
  | |- settles _ _ _ _ (let '(_, _) := ?x in _) => destruct x
  | |- settles _ _ _ _ (match ?x with Ok _ => _ | Err _ => _ end) => destruct x
  | |- settles _ _ _ _ (if ?b then _ else _) => destruct b
  end; try solve [auto with rust].

(** The thread has returned. *)
Definition returned {L S A} (t : thread L S A) : Prop :=
  match code t with Ret _ => True | _ => False end.

(** The thread has returned or panicked. *)
Definition ended {L S A} (t : thread L S A) : Prop :=
  match code t with Step _ _ => False | _ => True end.

(** Any number of calls that settle their debts: the account has moved by the
    sum of what the threads still owe. *)
Section SettlePool.
Context {L S A : Type} (moves : S -> Z -> S -> Prop) (E : Z -> Prop) (Q : A -> Z -> Prop).
Context (moves_refl : forall s, moves s 0 s).
Context (moves_trans : forall s d s' d' s'', moves s d s' -> moves s' d' s'' -> moves s (d + d') s'').

Definition owes (t : thread L S A) (x : Z) : Prop :=
  settles (fun ls d ls' => moves ls.2 d ls'.2) E x Q (code t).

Definition total_debt (debts : list Z) : Z := foldr Z.add 0 debts.

Lemma total_debt_insert debts i x y :
  debts !! i = Some x -> total_debt (<[i := y]> debts) = total_debt debts + (y - x).
Proof.
  unfold total_debt. revert i. induction debts as [|z debts IH]; intros [|i] Hi; simplify_eq/=; [lia|].
  rewrite (IH i Hi). lia.
Qed.

Lemma pool_settles (cfg cfg' : list (thread L S A) * S) debts :
  rtc pool_step cfg cfg' -> Forall2 owes cfg.1 debts ->
  exists debts', Forall2 owes cfg'.1 debts' /\
    moves cfg.2 (total_debt debts' - total_debt debts) cfg'.2.
Proof.
  intros Hsteps. revert debts. induction Hsteps as [cfg|cfg1 cfg2 cfg3 Hstep _ IH]; intros debts Hd.
  { exists debts. split; [done|]. by rewrite Z.sub_diag. }
  destruct Hstep as [ts s i t t' s' Hi Hst]. simpl in *.
  destruct (Forall2_lookup_l _ _ _ _ _ Hd Hi) as (x & Hx & Ht).
  unfold thread_step in Hst. destruct t as [l c]. unfold owes in Ht. simpl in *.
  destruct c as [a| |R f k]; simplify_eq/=.
  destruct (Ht (l, s)) as (d & Hm & Hk).
  destruct (f (l, s)) as [r [l' s1]]. simplify_eq/=.
  destruct (IH (<[i := x + d]> debts)) as (debts' & Hd' & Hm').
  { by apply Forall2_insert. }
  exists debts'. split; [done|]. rewrite (total_debt_insert _ _ x) in Hm' by done.
  replace (total_debt debts' - total_debt debts) with
    (d + (total_debt debts' - (total_debt debts + (x + d - x)))) by lia.
  by eapply moves_trans.
Qed.

(** When every thread has ended and owes nothing, the account is where it was. *)
Lemma pool_settled (ts ts' : list (thread L S A)) s s' :
  rtc pool_step (ts, s) (ts', s') -> Forall (fun t => owes t 0) ts ->
  Forall (fun t => match code t with
    | Ret a => forall x, Q a x -> x = 0 | Panic => forall x, E x -> x = 0 | Step _ _ => False end) ts' ->
  moves s 0 s'.
Proof.
  intros Hsteps Hts Hend.
  assert (Forall2 owes ts (replicate (length ts) 0)) as Hd.
  { clear -Hts. induction Hts; simpl; by constructor. }
  destruct (pool_settles (ts, s) (ts', s') _ Hsteps Hd) as (debts' & Hd' & Hm). simpl in *.
  assert (total_debt debts' = 0) as H0.
  { clear -Hd' Hend. induction Hd' as [|t x ts' debts Ht _ IH]; simpl; [done|].
    inversion Hend as [|? ? Hte Htse]; subst. unfold total_debt in *. simpl.
    rewrite (IH Htse). unfold owes in Ht. destruct (code t); simpl in *; [rewrite (Hte x)|rewrite (Hte x)|]; by auto. }
  assert (total_debt (replicate (length ts) 0) = 0) as H1.
  { clear. unfold total_debt. induction (length ts); simpl; [done|lia]. }
  by rewrite H0, H1 in Hm.
Qed.
End SettlePool.

(** * Bounded work *)

Section BoundedWork.
Context {S : Type} (P : Prop).

Lemma ends_within_mono {A} n n' (Q Q' : A -> Prop) (p : prog S A) :
  ends_within P n Q p -> n <= n' -> (forall a, Q a -> Q' a) -> ends_within P n' Q' p.
Proof.
  intros Hp Hn HQ. revert n n' Hp Hn.
  induction p as [a| |R f k IH]; intros n n' Hp Hn; simpl in *; destruct Hp as [H0 Hp].
  - split; [lia|auto].
  - split; [lia|done].
  - split; [lia|]. intros s. eapply IH; [apply Hp|lia].
Qed.

Lemma ends_within_bind {A B} n m (R : A -> Prop) (Q : B -> Prop) (p : prog S A) k :
  ends_within P n R p -> 0 <= m -> (forall a, R a -> ends_within P m Q (k a)) ->
  ends_within P (n + m) Q (bind p k).
Proof.
  intros Hp Hm Hk. revert n Hp.
  induction p as [a| |T f c IH]; intros n Hp; simpl in *; destruct Hp as [H0 Hp].
  - eapply ends_within_mono; [by apply Hk|lia|done].
  - split; [lia|done].
  - split; [lia|]. intros s. replace (n + m - 1) with (n - 1 + m) by lia. by apply IH.
Qed.

(** The first of two programs spends [n] of a budget of [m]. *)
Lemma ends_within_seq {A B} n m (R : A -> Prop) (Q : B -> Prop) (p : prog S A) k :
  ends_within P n R p -> n <= m -> (forall a, R a -> ends_within P (m - n) Q (k a)) ->
  ends_within P m Q (bind p k).
Proof.
  intros Hp Hn Hk. replace m with (n + (m - n)) by lia. eapply ends_within_bind; [done|lia|done].
Qed.

Lemma ends_within_atomically {A} n (Q : A -> Prop) (f : S -> A * S) :
  0 < n -> (forall s, Q (f s).1) -> ends_within P n Q (atomically f).
Proof. intros Hn HQ. split; [done|]. intros s. simpl. split; [lia|done]. Qed.

Lemma ends_within_or_return {A} n (Q : Z -> Prop) neg (r : result A) (k : A -> prog S Z) :
  0 <= n -> (forall e, Q (neg e)) -> (forall a, r = Ok a -> ends_within P n Q (k a)) ->
  ends_within P n Q (or_return neg r k).
Proof. intros Hn He Hk. destruct r; simpl; auto. Qed.

Lemma ends_within_zoom {T A} n (l : lens T S) (Q : A -> Prop) (p : prog S A) :
  ends_within P n Q p -> ends_within P n Q (zoom l p).
Proof.
  revert n. induction p as [a| |R f k IH]; intros n Hp; simpl in *; [done..|].
  destruct Hp as [Hn Hp]. split; [done|]. intros s. specialize (Hp (view l s)).
  destruct (f (view l s)) as [r t]; simpl in *. by apply IH.
Qed.
End BoundedWork.

Lemma ends_within_panic {S A} (P P' : Prop) n (Q : A -> Prop) (p : prog S A) :
  (P -> P') -> ends_within P n Q p -> ends_within P' n Q p.
Proof.
  intros HP. revert n. induction p as [a| |R f k IH]; intros n Hp; simpl in *; [done| |].
  - destruct Hp. auto.
  - destruct Hp as [Hn Hp]. split; [done|]. auto.
Qed.
