(* ===== verification/Ledger.v ===== *)
(** Ledgers: the resources a host has handed out and the ones it got back, by
    name, and the arithmetic that balances them against what a table holds. *)

From S2P Require Import Prelude.

(** What was handed out and what was given back, the latest first. *)
Record Ledger (R : Type) := { taken : list R; given_back : list R }.
Arguments taken {R} _.
Arguments given_back {R} _.
Arguments Build_Ledger {R} _ _.

Definition blank {R} : Ledger R := {| taken := []; given_back := [] |}.
Definition take_out {R} (r : R) (l : Ledger R) : Ledger R :=
  {| taken := r :: taken l; given_back := given_back l |}.
Definition give_in {R} (r : R) (l : Ledger R) : Ledger R :=
  {| taken := taken l; given_back := r :: given_back l |}.

(** Everything handed out was given back or is held, each as often as it was
    handed out. *)
Definition balanced {R} (l : Ledger R) (held : list R) : Prop :=
  taken l ≡ₚ given_back l ++ held.

(** The values of a table, one per key. *)
Definition values {K V} `{Countable K} (m : gmap K V) : list V := (map_to_list m).*2.

(** The sum of a price list over resources. *)
Definition weigh {R} (w : R -> Z) (rs : list R) : Z := foldr (fun r n => w r + n) 0 rs.
Definition balance {R} (w : R -> Z) (l : Ledger R) : Z := weigh w (taken l) - weigh w (given_back l).

(** * Lemmas *)

Section Weigh.
Context {R : Type}.
Implicit Types (w : R -> Z) (rs : list R).

Lemma weigh_app w rs rs' : weigh w (rs ++ rs') = weigh w rs + weigh w rs'.
Proof. induction rs as [|r rs IH]; simpl; [done|]. rewrite IH. lia. Qed.

#[export] Instance weigh_proper w : Proper (Permutation ==> eq) (weigh w).
Proof. induction 1; simpl; lia. Qed.

Lemma weigh_one_member `{EqDecision R} r rs :
  weigh (fun x => if decide (x = r) then 1 else 0) rs <> 0 -> r ∈ rs.
Proof.
  induction rs as [|x rs IH]; simpl; [done|]. rewrite elem_of_cons.
  destruct (decide (x = r)); [by left|]. intros Hn. right. by apply IH.
Qed.

Lemma weigh_one_nonneg `{EqDecision R} r rs :
  0 <= weigh (fun x => if decide (x = r) then 1 else 0) rs.
Proof. induction rs as [|x rs IH]; simpl; [done|]. case_decide; lia. Qed.

(** Resources that weigh the same for every price list are the same. *)
Lemma weigh_inj `{EqDecision R} rs rs' : (forall w, weigh w rs = weigh w rs') -> rs ≡ₚ rs'.
Proof.
  revert rs'. induction rs as [|r rs IH]; intros rs' Hw.
  - destruct rs' as [|r rs']; [done|]. specialize (Hw (fun x => if decide (x = r) then 1 else 0)).
    simpl in Hw. rewrite decide_True in Hw by done. pose proof (weigh_one_nonneg r rs'). lia.
  - assert (r ∈ rs') as [k Hk]%elem_of_Permutation.
    { apply weigh_one_member. rewrite <- Hw. simpl. rewrite decide_True by done.
      pose proof (weigh_one_nonneg r rs). lia. }
    rewrite Hk. f_equiv. apply IH. intros w. specialize (Hw w). rewrite Hk in Hw. simpl in Hw. lia.
Qed.

Lemma balanced_weigh `{EqDecision R} (l : Ledger R) held :
  balanced l held <-> forall w, balance w l = weigh w held.
Proof.
  unfold balanced, balance. split.
  - intros Hp w. rewrite Hp, weigh_app. lia.
  - intros Hw. apply weigh_inj. intros w. rewrite weigh_app. specialize (Hw w). lia.
Qed.

Lemma balance_take_out w r (l : Ledger R) : balance w (take_out r l) = balance w l + w r.
Proof. unfold balance. simpl. lia. Qed.

Lemma balance_give_in w r (l : Ledger R) : balance w (give_in r l) = balance w l - w r.
Proof. unfold balance. simpl. lia. Qed.
End Weigh.

Section Values.
Context {K V : Type} `{Countable K}.
Implicit Types m : gmap K V.

Lemma values_delete m i x :
  m !! i = Some x -> values m ≡ₚ x :: values (delete i m).
Proof. intros Hi. unfold values. by rewrite <- (map_to_list_delete m i x Hi). Qed.

Lemma values_insert_fresh m i x :
  m !! i = None -> values (<[i := x]> m) ≡ₚ x :: values m.
Proof. intros Hi. unfold values. by rewrite (map_to_list_insert m i x Hi). Qed.

Lemma values_replace m i x y :
  m !! i = Some y -> y :: values (<[i := x]> m) ≡ₚ x :: values m.
Proof.
  intros Hi. rewrite (values_delete m i y Hi), <- insert_delete_eq.
  rewrite values_insert_fresh by apply lookup_delete_eq. apply perm_swap.
Qed.
End Values.

#[export] Hint Rewrite @weigh_app @balance_take_out @balance_give_in : rust.
