(* ===== verification/GuestErrno.v ===== *)
(** Guest errno values (src/guest_errno.rs).

    The wasm32-wasip1-threads guest sees the errno enumeration of WASI Preview
    1; the host's numbers differ per platform.  The constants of the guest are
    those of the file.  The host's are the [libc] crate's, one record of them
    per platform. *)

From S2P Require Import Prelude.

Definition E2BIG : Z := 1.
Definition EACCES : Z := 2.
Definition EADDRINUSE : Z := 3.
Definition EADDRNOTAVAIL : Z := 4.
Definition EAFNOSUPPORT : Z := 5.
Definition EAGAIN : Z := 6.
Definition EALREADY : Z := 7.
Definition EBADF : Z := 8.
Definition EBUSY : Z := 10.
Definition ECONNABORTED : Z := 13.
Definition ECONNREFUSED : Z := 14.
Definition ECONNRESET : Z := 15.
Definition EDESTADDRREQ : Z := 17.
Definition EEXIST : Z := 20.
Definition EFAULT : Z := 21.
Definition EFBIG : Z := 22.
Definition EHOSTUNREACH : Z := 23.
Definition EINPROGRESS : Z := 26.
Definition EINTR : Z := 27.
Definition EINVAL : Z := 28.
Definition EIO : Z := 29.
Definition EISCONN : Z := 30.
Definition EISDIR : Z := 31.
Definition ELOOP : Z := 32.
Definition EMFILE : Z := 33.
Definition EMSGSIZE : Z := 35.
Definition ENAMETOOLONG : Z := 37.
Definition ENETDOWN : Z := 38.
Definition ENETRESET : Z := 39.
Definition ENETUNREACH : Z := 40.
Definition ENFILE : Z := 41.
Definition ENOBUFS : Z := 42.
Definition ENODEV : Z := 43.
Definition ENOENT : Z := 44.
Definition ENOMEM : Z := 48.
Definition ENOPROTOOPT : Z := 50.
Definition ENOSPC : Z := 51.
Definition ENOSYS : Z := 52.
Definition ENOTCONN : Z := 53.
Definition ENOTDIR : Z := 54.
Definition ENOTEMPTY : Z := 55.
Definition ENOTSOCK : Z := 57.
Definition ENOTSUP : Z := 58.
Definition EOPNOTSUPP : Z := ENOTSUP.
Definition EOVERFLOW : Z := 61.
Definition EPERM : Z := 63.
Definition EPIPE : Z := 64.
Definition EPROTONOSUPPORT : Z := 66.
Definition EPROTOTYPE : Z := 67.
Definition ERANGE : Z := 68.
Definition EROFS : Z := 69.
Definition ESPIPE : Z := 70.
Definition ETIMEDOUT : Z := 73.
Definition ENOTCAPABLE : Z := 76.

(** The guest's enumeration, as far as the host ever answers with it. *)
Definition guest_errnos : list Z :=
  [E2BIG; EACCES; EADDRINUSE; EADDRNOTAVAIL; EAFNOSUPPORT; EAGAIN;
   EALREADY; EBADF; EBUSY; ECONNABORTED; ECONNREFUSED; ECONNRESET;
   EDESTADDRREQ; EEXIST; EFAULT; EFBIG; EHOSTUNREACH; EINPROGRESS;
   EINTR; EINVAL; EIO; EISCONN; EISDIR; ELOOP;
   EMFILE; EMSGSIZE; ENAMETOOLONG; ENETDOWN; ENETRESET; ENETUNREACH;
   ENFILE; ENOBUFS; ENODEV; ENOENT; ENOMEM; ENOPROTOOPT;
   ENOSPC; ENOSYS; ENOTCONN; ENOTDIR; ENOTEMPTY; ENOTSOCK;
   ENOTSUP; EOPNOTSUPP; EOVERFLOW; EPERM; EPIPE; EPROTONOSUPPORT;
   EPROTOTYPE; ERANGE; EROFS; ESPIPE; ETIMEDOUT; ENOTCAPABLE].

(** The [libc] crate's errno constants of the host. *)
Class LibcErrno := {
  libc_E2BIG : Z;
  libc_EACCES : Z;
  libc_EADDRINUSE : Z;
  libc_EADDRNOTAVAIL : Z;
  libc_EAFNOSUPPORT : Z;
  libc_EAGAIN : Z;
  libc_EWOULDBLOCK : Z;
  libc_EALREADY : Z;
  libc_EBADF : Z;
  libc_EBUSY : Z;
  libc_ECONNABORTED : Z;
  libc_ECONNREFUSED : Z;
  libc_ECONNRESET : Z;
  libc_EDESTADDRREQ : Z;
  libc_EEXIST : Z;
  libc_EFAULT : Z;
  libc_EFBIG : Z;
  libc_EHOSTUNREACH : Z;
  libc_EINPROGRESS : Z;
  libc_EINTR : Z;
  libc_EINVAL : Z;
  libc_EISCONN : Z;
  libc_EISDIR : Z;
  libc_ELOOP : Z;
  libc_EMFILE : Z;
  libc_EMSGSIZE : Z;
  libc_ENAMETOOLONG : Z;
  libc_ENETDOWN : Z;
  libc_ENETRESET : Z;
  libc_ENETUNREACH : Z;
  libc_ENFILE : Z;
  libc_ENOBUFS : Z;
  libc_ENODEV : Z;
  libc_ENOENT : Z;
  libc_ENOMEM : Z;
  libc_ENOPROTOOPT : Z;
  libc_ENOSPC : Z;
  libc_ENOSYS : Z;
  libc_ENOTCONN : Z;
  libc_ENOTDIR : Z;
  libc_ENOTEMPTY : Z;
  libc_ENOTSOCK : Z;
  libc_EOPNOTSUPP : Z;
  libc_ENOTSUP : Z;
  libc_EOVERFLOW : Z;
  libc_EPERM : Z;
  libc_EPIPE : Z;
  libc_EPROTONOSUPPORT : Z;
  libc_EPROTOTYPE : Z;
  libc_ERANGE : Z;
  libc_EROFS : Z;
  libc_ESPIPE : Z;
  libc_ETIMEDOUT : Z
}.

Definition linux_errno : LibcErrno := {|
  libc_E2BIG := 7;
  libc_EACCES := 13;
  libc_EADDRINUSE := 98;
  libc_EADDRNOTAVAIL := 99;
  libc_EAFNOSUPPORT := 97;
  libc_EAGAIN := 11;
  libc_EWOULDBLOCK := 11;
  libc_EALREADY := 114;
  libc_EBADF := 9;
  libc_EBUSY := 16;
  libc_ECONNABORTED := 103;
  libc_ECONNREFUSED := 111;
  libc_ECONNRESET := 104;
  libc_EDESTADDRREQ := 89;
  libc_EEXIST := 17;
  libc_EFAULT := 14;
  libc_EFBIG := 27;
  libc_EHOSTUNREACH := 113;
  libc_EINPROGRESS := 115;
  libc_EINTR := 4;
  libc_EINVAL := 22;
  libc_EISCONN := 106;
  libc_EISDIR := 21;
  libc_ELOOP := 40;
  libc_EMFILE := 24;
  libc_EMSGSIZE := 90;
  libc_ENAMETOOLONG := 36;
  libc_ENETDOWN := 100;
  libc_ENETRESET := 102;
  libc_ENETUNREACH := 101;
  libc_ENFILE := 23;
  libc_ENOBUFS := 105;
  libc_ENODEV := 19;
  libc_ENOENT := 2;
  libc_ENOMEM := 12;
  libc_ENOPROTOOPT := 92;
  libc_ENOSPC := 28;
  libc_ENOSYS := 38;
  libc_ENOTCONN := 107;
  libc_ENOTDIR := 20;
  libc_ENOTEMPTY := 39;
  libc_ENOTSOCK := 88;
  libc_EOPNOTSUPP := 95;
  libc_ENOTSUP := 95;
  libc_EOVERFLOW := 75;
  libc_EPERM := 1;
  libc_EPIPE := 32;
  libc_EPROTONOSUPPORT := 93;
  libc_EPROTOTYPE := 91;
  libc_ERANGE := 34;
  libc_EROFS := 30;
  libc_ESPIPE := 29;
  libc_ETIMEDOUT := 110
|}.

Definition macos_errno : LibcErrno := {|
  libc_E2BIG := 7;
  libc_EACCES := 13;
  libc_EADDRINUSE := 48;
  libc_EADDRNOTAVAIL := 49;
  libc_EAFNOSUPPORT := 47;
  libc_EAGAIN := 35;
  libc_EWOULDBLOCK := 35;
  libc_EALREADY := 37;
  libc_EBADF := 9;
  libc_EBUSY := 16;
  libc_ECONNABORTED := 53;
  libc_ECONNREFUSED := 61;
  libc_ECONNRESET := 54;
  libc_EDESTADDRREQ := 39;
  libc_EEXIST := 17;
  libc_EFAULT := 14;
  libc_EFBIG := 27;
  libc_EHOSTUNREACH := 65;
  libc_EINPROGRESS := 36;
  libc_EINTR := 4;
  libc_EINVAL := 22;
  libc_EISCONN := 56;
  libc_EISDIR := 21;
  libc_ELOOP := 62;
  libc_EMFILE := 24;
  libc_EMSGSIZE := 40;
  libc_ENAMETOOLONG := 63;
  libc_ENETDOWN := 50;
  libc_ENETRESET := 52;
  libc_ENETUNREACH := 51;
  libc_ENFILE := 23;
  libc_ENOBUFS := 55;
  libc_ENODEV := 19;
  libc_ENOENT := 2;
  libc_ENOMEM := 12;
  libc_ENOPROTOOPT := 42;
  libc_ENOSPC := 28;
  libc_ENOSYS := 78;
  libc_ENOTCONN := 57;
  libc_ENOTDIR := 20;
  libc_ENOTEMPTY := 66;
  libc_ENOTSOCK := 38;
  libc_EOPNOTSUPP := 102;
  libc_ENOTSUP := 45;
  libc_EOVERFLOW := 84;
  libc_EPERM := 1;
  libc_EPIPE := 32;
  libc_EPROTONOSUPPORT := 43;
  libc_EPROTOTYPE := 41;
  libc_ERANGE := 34;
  libc_EROFS := 30;
  libc_ESPIPE := 29;
  libc_ETIMEDOUT := 60
|}.

(** [from_host_errno] (unix). *)
Definition from_host_errno `{LibcErrno} (code : Z) : Z :=
  if code =? libc_E2BIG then E2BIG
  else if code =? libc_EACCES then EACCES
  else if code =? libc_EADDRINUSE then EADDRINUSE
  else if code =? libc_EADDRNOTAVAIL then EADDRNOTAVAIL
  else if code =? libc_EAFNOSUPPORT then EAFNOSUPPORT
  else if (code =? libc_EAGAIN) || (code =? libc_EWOULDBLOCK) then EAGAIN
  else if code =? libc_EALREADY then EALREADY
  else if code =? libc_EBADF then EBADF
  else if code =? libc_EBUSY then EBUSY
  else if code =? libc_ECONNABORTED then ECONNABORTED
  else if code =? libc_ECONNREFUSED then ECONNREFUSED
  else if code =? libc_ECONNRESET then ECONNRESET
  else if code =? libc_EDESTADDRREQ then EDESTADDRREQ
  else if code =? libc_EEXIST then EEXIST
  else if code =? libc_EFAULT then EFAULT
  else if code =? libc_EFBIG then EFBIG
  else if code =? libc_EHOSTUNREACH then EHOSTUNREACH
  else if code =? libc_EINPROGRESS then EINPROGRESS
  else if code =? libc_EINTR then EINTR
  else if code =? libc_EINVAL then EINVAL
  else if code =? libc_EISCONN then EISCONN
  else if code =? libc_EISDIR then EISDIR
  else if code =? libc_ELOOP then ELOOP
  else if code =? libc_EMFILE then EMFILE
  else if code =? libc_EMSGSIZE then EMSGSIZE
  else if code =? libc_ENAMETOOLONG then ENAMETOOLONG
  else if code =? libc_ENETDOWN then ENETDOWN
  else if code =? libc_ENETRESET then ENETRESET
  else if code =? libc_ENETUNREACH then ENETUNREACH
  else if code =? libc_ENFILE then ENFILE
  else if code =? libc_ENOBUFS then ENOBUFS
  else if code =? libc_ENODEV then ENODEV
  else if code =? libc_ENOENT then ENOENT
  else if code =? libc_ENOMEM then ENOMEM
  else if code =? libc_ENOPROTOOPT then ENOPROTOOPT
  else if code =? libc_ENOSPC then ENOSPC
  else if code =? libc_ENOSYS then ENOSYS
  else if code =? libc_ENOTCONN then ENOTCONN
  else if code =? libc_ENOTDIR then ENOTDIR
  else if code =? libc_ENOTEMPTY then ENOTEMPTY
  else if code =? libc_ENOTSOCK then ENOTSOCK
  else if (code =? libc_EOPNOTSUPP) || (code =? libc_ENOTSUP) then ENOTSUP
  else if code =? libc_EOVERFLOW then EOVERFLOW
  else if code =? libc_EPERM then EPERM
  else if code =? libc_EPIPE then EPIPE
  else if code =? libc_EPROTONOSUPPORT then EPROTONOSUPPORT
  else if code =? libc_EPROTOTYPE then EPROTOTYPE
  else if code =? libc_ERANGE then ERANGE
  else if code =? libc_EROFS then EROFS
  else if code =? libc_ESPIPE then ESPIPE
  else if code =? libc_ETIMEDOUT then ETIMEDOUT
  else EIO.

(** [from_windows_error] (windows). *)
Definition from_windows_error (code : Z) : Z :=
  if (code =? 2) || (code =? 3) then ENOENT
  else if (code =? 5) then EACCES
  else if (code =? 6) then EBADF
  else if (code =? 8) || (code =? 14) then ENOMEM
  else if (code =? 19) then EROFS
  else if (code =? 32) then EBUSY
  else if (code =? 33) then EAGAIN
  else if (code =? 80) || (code =? 183) then EEXIST
  else if (code =? 87) then EINVAL
  else if (code =? 112) then ENOSPC
  else if (code =? 145) then ENOTEMPTY
  else if (code =? 267) then ENOTDIR
  else if (code =? 995) then EINTR
  else EIO.

(** [neg_errno]: how an import reports an error in its [i32] result. *)
Definition neg_errno (errno : Z) : Z := - errno.

(** * A reference definition: the translation as a table *)

Definition errno_table `{LibcErrno} : list (Z * Z) :=
  [(libc_E2BIG, E2BIG); (libc_EACCES, EACCES); (libc_EADDRINUSE, EADDRINUSE);
   (libc_EADDRNOTAVAIL, EADDRNOTAVAIL); (libc_EAFNOSUPPORT, EAFNOSUPPORT); (libc_EAGAIN, EAGAIN);
   (libc_EWOULDBLOCK, EAGAIN); (libc_EALREADY, EALREADY); (libc_EBADF, EBADF);
   (libc_EBUSY, EBUSY); (libc_ECONNABORTED, ECONNABORTED); (libc_ECONNREFUSED, ECONNREFUSED);
   (libc_ECONNRESET, ECONNRESET); (libc_EDESTADDRREQ, EDESTADDRREQ); (libc_EEXIST, EEXIST);
   (libc_EFAULT, EFAULT); (libc_EFBIG, EFBIG); (libc_EHOSTUNREACH, EHOSTUNREACH);
   (libc_EINPROGRESS, EINPROGRESS); (libc_EINTR, EINTR); (libc_EINVAL, EINVAL);
   (libc_EISCONN, EISCONN); (libc_EISDIR, EISDIR); (libc_ELOOP, ELOOP);
   (libc_EMFILE, EMFILE); (libc_EMSGSIZE, EMSGSIZE); (libc_ENAMETOOLONG, ENAMETOOLONG);
   (libc_ENETDOWN, ENETDOWN); (libc_ENETRESET, ENETRESET); (libc_ENETUNREACH, ENETUNREACH);
   (libc_ENFILE, ENFILE); (libc_ENOBUFS, ENOBUFS); (libc_ENODEV, ENODEV);
   (libc_ENOENT, ENOENT); (libc_ENOMEM, ENOMEM); (libc_ENOPROTOOPT, ENOPROTOOPT);
   (libc_ENOSPC, ENOSPC); (libc_ENOSYS, ENOSYS); (libc_ENOTCONN, ENOTCONN);
   (libc_ENOTDIR, ENOTDIR); (libc_ENOTEMPTY, ENOTEMPTY); (libc_ENOTSOCK, ENOTSOCK);
   (libc_EOPNOTSUPP, ENOTSUP); (libc_ENOTSUP, ENOTSUP); (libc_EOVERFLOW, EOVERFLOW);
   (libc_EPERM, EPERM); (libc_EPIPE, EPIPE); (libc_EPROTONOSUPPORT, EPROTONOSUPPORT);
   (libc_EPROTOTYPE, EPROTOTYPE); (libc_ERANGE, ERANGE); (libc_EROFS, EROFS);
   (libc_ESPIPE, ESPIPE); (libc_ETIMEDOUT, ETIMEDOUT)].

Fixpoint table_lookup (code : Z) (table : list (Z * Z)) : option Z :=
  match table with
  | [] => None
  | (h, g) :: table => if code =? h then Some g else table_lookup code table
  end.

(** What a platform's constants satisfy: they are positive, and two names of
    the table share a number only if the guest does not tell them apart. *)
Class LibcErrnoLaws `{LibcErrno} : Prop := {
  host_errno_pos : Forall (fun hg => 0 < hg.1) errno_table;
  host_errno_functional : forall h g g',
    (h, g) ∈ errno_table -> (h, g') ∈ errno_table -> g = g'
}.

(** * Lemmas *)

Lemma table_lookup_Some code table g :
  table_lookup code table = Some g -> (code, g) ∈ table.
Proof.
  induction table as [|[h g'] table IH]; simpl; [done|].
  destruct (Z.eqb_spec code h) as [->|]; intros; simplify_eq; set_solver.
Qed.

Lemma table_lookup_None code table :
  table_lookup code table = None -> code ∉ table.*1.
Proof.
  induction table as [|[h g'] table IH]; simpl; [set_solver|].
  destruct (Z.eqb_spec code h); [done|]. set_solver.
Qed.

(** The chain of comparisons is the lookup in the table. *)
Lemma from_host_errno_table `{LibcErrno} code :
  from_host_errno code = default EIO (table_lookup code errno_table).
Proof.
  unfold from_host_errno, errno_table, table_lookup.
  repeat match goal with
  | |- (if ?b || ?c then _ else _) = _ => destruct b; [done|]; simpl orb; destruct c; [done|]
  | |- (if ?b then _ else _) = _ => destruct b; [done|]
  end. done.
Qed.

Lemma errno_table_guest `{LibcErrno} : Forall (fun hg => hg.2 ∈ guest_errnos) errno_table.
Proof.
  unfold errno_table.
  repeat (apply Forall_cons_2; [compute_decision|]).
  by apply Forall_nil_2.
Qed.

Lemma from_windows_error_guest code : from_windows_error code ∈ guest_errnos.
Proof.
  unfold from_windows_error.
  repeat match goal with |- (if ?b then _ else _) ∈ _ => destruct b end;
  compute_decision.
Qed.

Lemma from_host_errno_guest `{LibcErrno} code : from_host_errno code ∈ guest_errnos.
Proof.
  rewrite from_host_errno_table.
  destruct (table_lookup code errno_table) as [g|] eqn:E; simpl.
  - apply table_lookup_Some in E. pose proof errno_table_guest as Hg.
    rewrite Forall_forall in Hg. apply (Hg _ E).
  - compute_decision.
Qed.

Lemma guest_errnos_pos e : e ∈ guest_errnos -> 0 < e <= 76.
Proof.
  intros He. cut (Forall (fun e => 0 < e <= 76) guest_errnos).
  { rewrite Forall_forall. auto. }
  compute_decision.
Qed.

Lemma neg_errno_neg e : e ∈ guest_errnos -> - 76 <= neg_errno e < 0.
Proof. intros He%guest_errnos_pos. unfold neg_errno. lia. Qed.

(** A result of an import: a count, a descriptor or a position, or the negation
    of a guest errno. *)
Definition guest_result (limit rc : Z) : Prop :=
  0 <= rc <= limit \/ exists e, e ∈ guest_errnos /\ rc = neg_errno e.

Definition errs_in_guest {A} (r : result A) : Prop :=
  match r with Ok _ => True | Err e => e ∈ guest_errnos end.

Lemma guest_error limit e : e ∈ guest_errnos -> guest_result limit (neg_errno e).
Proof. right. eauto. Qed.

Lemma guest_zero limit : 0 <= limit -> guest_result limit 0.
Proof. left. lia. Qed.

Lemma errs_or_return {A} (r : result A) limit e :
  errs_in_guest r -> r = Err e -> guest_result limit (neg_errno e).
Proof. intros Hr ->. by apply guest_error. Qed.

#[export] Instance linux_errno_laws : @LibcErrnoLaws linux_errno.
Proof.
  constructor.
  - compute_decision.
  - intros h g g' H1 H2.
    assert (Forall (fun x => Forall (fun y => x.1 = y.1 -> x.2 = y.2)
      (@errno_table linux_errno)) (@errno_table linux_errno)) as HF.
    { compute_decision. }
    rewrite Forall_forall in HF. specialize (HF _ H1).
    rewrite Forall_forall in HF. exact (HF _ H2 eq_refl).
Qed.

(** * Properties *)

(** C34. On every host whose errno numbers are unambiguous, the translation is
    total and correct against the table: each host number of the table becomes
    the guest errno of the same name, and every other number becomes [EIO]. *)
Theorem from_host_errno_correct `{LibcErrnoLaws} :
  (forall h g, (h, g) ∈ errno_table -> from_host_errno h = g) /\
  (forall h, h ∉ errno_table.*1 -> from_host_errno h = EIO).
Proof.
  split.
  - intros h g Hhg. rewrite from_host_errno_table.
    destruct (table_lookup h errno_table) as [g'|] eqn:E; simpl.
    + apply table_lookup_Some in E. eauto using host_errno_functional.
    + apply table_lookup_None in E. destruct E. apply list_elem_of_fmap. by exists (h, g).
  - intros h Hh. rewrite from_host_errno_table.
    destruct (table_lookup h errno_table) as [g'|] eqn:E; [|done].
    apply table_lookup_Some in E. destruct Hh. apply list_elem_of_fmap. by exists (h, g').
Qed.

(** Connection refused on Linux, and a number no name of the table has. *)
Lemma from_host_errno_correct_witness :
  @from_host_errno linux_errno 111 = ECONNREFUSED /\ @from_host_errno linux_errno 9999 = EIO.
Proof.
  destruct (@from_host_errno_correct linux_errno _) as [H1 H2]. split.
  - apply H1. compute_decision.
  - apply H2. compute_decision.
Defined.
