(* ===== verification/GuestMemory.v ===== *)
(** Guest memory as the host imports reach it (the helpers at the end of
    src/host_files.rs and src/host_sockets.rs).

    A caller may or may not export a memory, and the memory is private to the
    instance or shared by all threads.  A private memory is copied in one
    action; a shared one cell by cell, so other threads' writes may fall in
    between. *)

From S2P Require Import Prelude.
From S2P Require Import Prog.
From S2P Require Import GuestErrno.
Local Open Scope rust_scope.
Local Open Scope prog_scope.

(** [caller.get_export("memory")]. *)
Inductive Extern : Type :=
| ExtMemory (data : list Z)
| ExtSharedMemory (data : list Z)
| ExtOther.

Definition GuestMem : Type := option Extern.

Definition MAX_IO_LEN : Z := 16 * 1024 * 1024.
Definition MAX_PATH_LEN : Z := 16 * 1024.

(** [checked_len]. *)
Definition checked_len (len : Z) : result Z :=
  len <-? ok_or (unsigned_try_from len) EINVAL;;
  if decide (len > MAX_IO_LEN) then Err EINVAL else Ok len.

(** [checked_range]: the range [ptr..end] as its two bounds. *)
Definition checked_range (ptr len memory_len : Z) : result (Z * Z) :=
  ptr <-? ok_or (unsigned_try_from ptr) EFAULT;;
  len <-? checked_len len;;
  end_ <-? ok_or (usize_checked_add ptr len) EFAULT;;
  if decide (end_ > memory_len) then Err EFAULT else Ok (ptr, end_).

(** ** Accesses *)

Inductive export_kind := KMemory | KSharedMemory | KOther.
#[export] Instance export_kind_eq_dec : EqDecision export_kind.
Proof. solve_decision. Defined.

Definition extern_data (e : Extern) : list Z :=
  match e with ExtMemory d | ExtSharedMemory d => d | ExtOther => [] end.

Definition extern_kind (e : Extern) : export_kind :=
  match e with
  | ExtMemory _ => KMemory | ExtSharedMemory _ => KSharedMemory | ExtOther => KOther
  end.

Definition mem_data (m : GuestMem) : list Z :=
  match m with Some e => extern_data e | None => [] end.

Definition update_data (f : list Z -> list Z) (m : GuestMem) : GuestMem :=
  match m with
  | Some (ExtMemory d) => Some (ExtMemory (f d))
  | Some (ExtSharedMemory d) => Some (ExtSharedMemory (f d))
  | _ => m
  end.

(** The export's kind and [data.len()]. *)
Definition get_export : prog GuestMem (option (export_kind * Z)) :=
  read (fun m =>
    match m with
    | Some e => Some (extern_kind e, Z.of_nat (length (extern_data e)))
    | None => None
    end).

(** [data[start..end_].to_vec()] of a private memory. *)
Definition load_slice (start end_ : Z) : prog GuestMem (list Z) :=
  read (fun m => take (Z.to_nat (end_ - start)) (drop (Z.to_nat start) (mem_data m))).

(** One cell of a shared memory. *)
Definition load_cell (a : nat) : prog GuestMem Z :=
  read (fun m => default 0 (mem_data m !! a)).
Definition store_cell (a : nat) (b : Z) : prog GuestMem unit :=
  modify (update_data (fun d => <[a := b]> d)).

Fixpoint load_cells (a n : nat) : prog GuestMem (list Z) :=
  match n with
  | O => Ret []
  | S n => b <- load_cell a;; bs <- load_cells (S a) n;; Ret (b :: bs)
  end.

Fixpoint store_cells (a : nat) (bs : list Z) : prog GuestMem unit :=
  match bs with
  | [] => Ret tt
  | b :: bs => store_cell a b;; store_cells (S a) bs
  end.

(** [data[range].copy_from_slice(bytes)] of a private memory. *)
Definition store_slice (start : Z) (bytes : list Z) : prog GuestMem unit :=
  modify (update_data (splice (Z.to_nat start) bytes)).

(** [read_guest]. *)
Definition read_guest (ptr len : Z) : prog GuestMem (result (list Z)) :=
  export <- get_export;;
  match export with
  | None => Ret (Err EFAULT)
  | Some (KMemory, data_len) =>
      match checked_range ptr len data_len with
      | Err e => Ret (Err e)
      | Ok (start, end_) => bytes <- load_slice start end_;; Ret (Ok bytes)
      end
  | Some (KSharedMemory, data_len) =>
      match checked_range ptr len data_len with
      | Err e => Ret (Err e)
      | Ok (start, end_) =>
          bytes <- load_cells (Z.to_nat start) (Z.to_nat (end_ - start));;
          Ret (Ok bytes)
      end
  | Some (KOther, _) => Ret (Err EFAULT)
  end.

(** The range [write_guest] writes to. *)
Definition write_range (ptr : Z) (bytes : list Z) (data_len : Z) : result (Z * Z) :=
  len <-? ok_or (i32_try_from (Z.of_nat (length bytes))) EINVAL;;
  checked_range ptr len data_len.

(** [write_guest]. *)
Definition write_guest (ptr : Z) (bytes : list Z) : prog GuestMem (result unit) :=
  export <- get_export;;
  match export with
  | None => Ret (Err EFAULT)
  | Some (KMemory, data_len) =>
      match write_range ptr bytes data_len with
      | Err e => Ret (Err e)
      | Ok (start, _) => store_slice start bytes;; Ret (Ok tt)
      end
  | Some (KSharedMemory, data_len) =>
      match write_range ptr bytes data_len with
      | Err e => Ret (Err e)
      | Ok (start, _) => store_cells (Z.to_nat start) bytes;; Ret (Ok tt)
      end
  | Some (KOther, _) => Ret (Err EFAULT)
  end.

(** [read_u32] and [write_u32] (src/host_sockets.rs). *)
Definition read_u32 (ptr : Z) : prog GuestMem (result Z) :=
  r <- read_guest ptr 4;;
  Ret (bytes <-? r;; Ok (from_le_bytes bytes)).

Definition write_u32 (ptr value : Z) : prog GuestMem (result unit) :=
  write_guest ptr (to_le_bytes 4 value).

(** ** C strings *)

(** [std::str::from_utf8]: well-formed UTF-8 (Unicode, table 3-7). *)
Definition in_range (lo hi b : Z) : bool := (lo <=? b) && (b <=? hi).

Fixpoint utf8_valid (fuel : nat) (bs : list Z) : bool :=
  match fuel, bs with
  | _, [] => true
  | O, _ => false
  | S fuel, b0 :: bs =>
      if in_range 0 127 b0 then utf8_valid fuel bs
      else if in_range 194 223 b0 then
        match bs with
        | b1 :: bs => in_range 128 191 b1 && utf8_valid fuel bs
        | _ => false
        end
      else if in_range 224 239 b0 then
        match bs with
        | b1 :: b2 :: bs =>
            in_range (if b0 =? 224 then 160 else 128) (if b0 =? 237 then 159 else 191) b1
            && in_range 128 191 b2 && utf8_valid fuel bs
        | _ => false
        end
      else if in_range 240 244 b0 then
        match bs with
        | b1 :: b2 :: b3 :: bs =>
            in_range (if b0 =? 240 then 144 else 128) (if b0 =? 244 then 143 else 191) b1
            && in_range 128 191 b2 && in_range 128 191 b3 && utf8_valid fuel bs
        | _ => false
        end
      else false
  end.

(** A Rust string is its UTF-8 bytes. *)
Definition byte_to_ascii (b : Z) : Ascii.ascii := Ascii.ascii_of_N (Z.to_N b).
Definition string_of_bytes (bs : list Z) : string :=
  String.string_of_list_ascii (byte_to_ascii <$> bs).
Definition from_utf8 (bs : list Z) : option string :=
  if utf8_valid (length bs) bs then Some (string_of_bytes bs) else None.

(** [iter().position(|byte| *byte == 0)]. *)
Fixpoint position_nul (bs : list Z) : option nat :=
  match bs with
  | [] => None
  | b :: bs => if b =? 0 then Some O else S <$> position_nul bs
  end.

(** The loop over the cells of a shared memory: the bytes before the first NUL
    among the [n] cells from [a]. *)
Fixpoint load_cstr (a n : nat) (bytes : list Z) : prog GuestMem (option (list Z)) :=
  match n with
  | O => Ret None
  | S n =>
      byte <- load_cell a;;
      if byte =? 0 then Ret (Some bytes) else load_cstr (S a) n (bytes ++ [byte])
  end.

(** [start.saturating_add(MAX_PATH_LEN).min(data.len())]; the sum of an [i32]
    and the bound does not reach the width of [usize]. *)
Definition cstr_end (start data_len : Z) : Z :=
  Z.min (Z.min (start + MAX_PATH_LEN) (2 ^ 64 - 1)) data_len.

(** [read_cstr] (src/host_files.rs). *)
Definition read_cstr (ptr : Z) : prog GuestMem (result string) :=
  match unsigned_try_from ptr with
  | None => Ret (Err EFAULT)
  | Some start =>
      export <- get_export;;
      match export with
      | None => Ret (Err EFAULT)
      | Some (KMemory, data_len) =>
          if decide (start >= data_len) then Ret (Err EFAULT)
          else
            bytes <- load_slice start (cstr_end start data_len);;
            match position_nul bytes with
            | None => Ret (Err ENAMETOOLONG)
            | Some end_ => Ret (ok_or (from_utf8 (take end_ bytes)) EINVAL)
            end
      | Some (KSharedMemory, data_len) =>
          if decide (start >= data_len) then Ret (Err EFAULT)
          else
            found <- load_cstr (Z.to_nat start)
                       (Z.to_nat (cstr_end start data_len - start)) [];;
            match found with
            | None => Ret (Err ENAMETOOLONG)
            | Some bytes => Ret (ok_or (from_utf8 bytes) EINVAL)
            end
      | Some (KOther, _) => Ret (Err EFAULT)
      end
  end.

(** * Guest threads *)

(** What a guest thread does to the host: it calls imports, chooses the next one
    from the results, and writes to its memory in between. *)
Inductive guest (C : Type) : Type :=
| GuestDone
| GuestCall (c : C) (k : Z -> guest C)
| GuestStore (f : GuestMem -> GuestMem) (k : guest C).
Arguments GuestDone {C}.
Arguments GuestCall {C} c k.
Arguments GuestStore {C} f k.

Fixpoint guest_prog {C S} (l : lens S GuestMem) (import : C -> prog S Z) (g : guest C)
  : prog S unit :=
  match g with
  | GuestDone => Ret tt
  | GuestCall c k => rc <- import c;; guest_prog l import (k rc)
  | GuestStore f k => zoom l (modify f);; guest_prog l import k
  end.

(** One pool thread per guest, each with the private state [init]. *)
Definition guest_pool {L C S} (init : L) (l : lens (L * S) GuestMem)
    (import : C -> prog (L * S) Z) (gs : list (guest C)) : list (thread L S unit) :=
  (fun g => Thread init (guest_prog l import g)) <$> gs.

(** * Specification: the accesses as functions of the memory's bytes *)

Definition mem_bytes (m : GuestMem) : option (list Z) :=
  match m with
  | Some (ExtMemory d) | Some (ExtSharedMemory d) => Some d
  | _ => None
  end.

Definition read_spec (m : GuestMem) (ptr len : Z) : result (list Z) :=
  data <-? ok_or (mem_bytes m) EFAULT;;
  r <-? checked_range ptr len (Z.of_nat (length data));;
  Ok (take (Z.to_nat (r.2 - r.1)) (drop (Z.to_nat r.1) data)).

Definition write_spec (m : GuestMem) (ptr : Z) (bytes : list Z) : result GuestMem :=
  data <-? ok_or (mem_bytes m) EFAULT;;
  r <-? write_range ptr bytes (Z.of_nat (length data));;
  Ok (update_data (splice (Z.to_nat r.1) bytes) m).

Definition cstr_spec (m : GuestMem) (ptr : Z) : result string :=
  start <-? ok_or (unsigned_try_from ptr) EFAULT;;
  data <-? ok_or (mem_bytes m) EFAULT;;
  if decide (start >= Z.of_nat (length data)) then Err EFAULT
  else
    let window := take (Z.to_nat MAX_PATH_LEN) (drop (Z.to_nat start) data) in
    match position_nul window with
    | None => Err ENAMETOOLONG
    | Some n => ok_or (from_utf8 (take n window)) EINVAL
    end.

(** What follows a write: the outcome and the memory after it. *)
Definition after_write {A} (m : GuestMem) (r : result GuestMem) (k : A) : result A * GuestMem :=
  match r with Ok m' => (Ok k, m') | Err e => (Err e, m) end.

(** * Lemmas *)

Lemma checked_len_Ok len n : checked_len len = Ok n <-> n = len /\ 0 <= len <= MAX_IO_LEN.
Proof.
  unfold checked_len, ok_or. destruct (unsigned_try_from len) as [x|] eqn:E; simpl.
  - apply unsigned_try_from_Some in E as [<- ?].
    case_decide; split; intros; destruct_and?; simplify_eq; try done; lia.
  - apply unsigned_try_from_None in E. split; [done|lia].
Qed.

Lemma checked_len_Err len e : checked_len len = Err e -> e = EINVAL.
Proof.
  unfold checked_len, ok_or. destruct (unsigned_try_from len); simpl; [case_decide|];
    intros; by simplify_eq.
Qed.

Lemma checked_range_Ok ptr len n r :
  checked_range ptr len n = Ok r <->
  r = (ptr, ptr + len) /\ 0 <= ptr /\ 0 <= len <= MAX_IO_LEN /\
  ptr + len < 2 ^ 64 /\ ptr + len <= n.
Proof.
  unfold checked_range, ok_or. destruct (unsigned_try_from ptr) as [p|] eqn:E; simpl.
  2:{ apply unsigned_try_from_None in E. split; [done|lia]. }
  apply unsigned_try_from_Some in E as [<- ?].
  destruct (checked_len len) as [l|e] eqn:El; simpl.
  2:{ split; [done|]. intros (_ & _ & H2 & _). destruct (checked_len_Ok len len) as [_ H3].
      rewrite H3 in El; [done|auto]. }
  apply checked_len_Ok in El as [-> ?]. unfold usize_checked_add.
  case_decide; simpl; [case_decide|]; split; intros; destruct_and?; simplify_eq; try done;
    try lia; split_and!; auto; lia.
Qed.

Lemma checked_range_Err ptr len n e :
  checked_range ptr len n = Err e -> e = EFAULT \/ e = EINVAL.
Proof.
  unfold checked_range, ok_or. destruct (unsigned_try_from ptr); simpl; [|naive_solver].
  destruct (checked_len len) eqn:El; simpl.
  - unfold usize_checked_add. case_decide; simpl; [case_decide|]; naive_solver.
  - apply checked_len_Err in El. naive_solver.
Qed.

Lemma mem_data_update f m :
  mem_bytes m <> None -> mem_data (update_data f m) = f (mem_data m).
Proof. by destruct m as [[]|]. Qed.

Lemma mem_bytes_update f m : mem_bytes (update_data f m) = f <$> mem_bytes m.
Proof. by destruct m as [[]|]. Qed.

Lemma update_data_compose f g m : update_data f (update_data g m) = update_data (f ∘ g) m.
Proof. by destruct m as [[]|]. Qed.

Lemma update_data_ext f g m :
  (forall d, mem_bytes m = Some d -> f d = g d) -> update_data f m = update_data g m.
Proof. intros H. destruct m as [[]|]; simpl in *; try done; by rewrite H. Qed.

Lemma run_load_cells a n m :
  (a + n <= length (mem_data m))%nat ->
  run (load_cells a n) m = (Done (take n (drop a (mem_data m))), m).
Proof.
  revert a. induction n as [|n IH]; intros a Hlen; cbn [load_cells]; [done|].
  unfold load_cell. autorewrite with rust. rewrite IH by lia. simpl.
  destruct (mem_data m !! a) as [b|] eqn:Hb.
  - simpl. by erewrite (drop_S _ b a).
  - apply lookup_ge_None in Hb. lia.
Qed.

Lemma run_store_cells a bs m :
  mem_bytes m <> None -> (a + length bs <= length (mem_data m))%nat ->
  run (store_cells a bs) m = (Done tt, update_data (splice a bs) m).
Proof.
  revert a m. induction bs as [|b bs IH]; intros a m Hm Hlen; cbn [store_cells]; simpl in Hlen.
  - rewrite run_ret. f_equal. destruct m as [[d|d|]|]; simpl; by rewrite ?splice_nil.
  - unfold store_cell. autorewrite with rust. rewrite IH.
    + f_equal. rewrite update_data_compose. apply update_data_ext. intros d Hd. simpl.
      apply splice_insert. destruct m as [[]|]; naive_solver.
    + by destruct m as [[]|].
    + rewrite mem_data_update by done. rewrite length_insert. lia.
Qed.

Lemma run_read_guest ptr len m : run (read_guest ptr len) m = (Done (read_spec m ptr len), m).
Proof.
  unfold read_guest, get_export, read_spec. autorewrite with rust.
  destruct m as [[d|d|]|]; simpl; try done;
    destruct (checked_range ptr len _) as [[s e]|err] eqn:Hr; simpl; try done.
  autorewrite with rust. apply checked_range_Ok in Hr as (? & ? & ? & ? & ?). simplify_eq.
  rewrite run_load_cells; simpl; [done|lia].
Qed.

Lemma write_range_Ok ptr bs n r :
  write_range ptr bs n = Ok r ->
  r = (ptr, ptr + Z.of_nat (length bs)) /\
  checked_range ptr (Z.of_nat (length bs)) n = Ok r /\ 0 <= ptr /\
  Z.of_nat (length bs) <= MAX_IO_LEN /\ ptr + Z.of_nat (length bs) <= n.
Proof.
  unfold write_range, ok_or. destruct (i32_try_from _) as [l|] eqn:E; simpl; [|done].
  apply i32_try_from_Some in E as [<- _]. intros Hr.
  pose proof Hr as ?%checked_range_Ok. naive_solver lia.
Qed.

Lemma run_write_guest ptr bs m :
  run (write_guest ptr bs) m =
  (Done (after_write m (write_spec m ptr bs) tt).1, (after_write m (write_spec m ptr bs) tt).2).
Proof.
  unfold write_guest, get_export, write_spec. autorewrite with rust.
  destruct m as [[d|d|]|]; simpl; try done;
    destruct (write_range ptr bs _) as [[s e]|err] eqn:Hr; simpl; try done.
  autorewrite with rust. apply write_range_Ok in Hr as (? & ? & ? & ? & ?). simplify_eq.
  rewrite run_store_cells; simpl; [done|done|lia].
Qed.

Lemma cstr_window start (data : list Z) :
  0 <= start <= i32_max -> start < Z.of_nat (length data) ->
  take (Z.to_nat (cstr_end start (Z.of_nat (length data)) - start)) (drop (Z.to_nat start) data)
  = take (Z.to_nat MAX_PATH_LEN) (drop (Z.to_nat start) data).
Proof.
  intros Hs Hlt. unfold cstr_end.
  assert (start + MAX_PATH_LEN < 2 ^ 64) by (unfold MAX_PATH_LEN; bounds).
  destruct (decide (start + MAX_PATH_LEN <= Z.of_nat (length data))).
  - f_equal. lia.
  - rewrite !take_ge; [done| |]; rewrite length_drop; lia.
Qed.

Lemma run_load_cstr a n acc m :
  (a + n <= length (mem_data m))%nat ->
  run (load_cstr a n acc) m =
  (Done ((fun k => acc ++ take k (drop a (mem_data m))) <$>
         position_nul (take n (drop a (mem_data m)))), m).
Proof.
  revert a acc. induction n as [|n IH]; intros a acc Hlen; cbn [load_cstr]; [done|].
  unfold load_cell. autorewrite with rust.
  destruct (mem_data m !! a) as [b|] eqn:Hb; [|apply lookup_ge_None in Hb; lia].
  simpl. rewrite (drop_S _ b a) by done. simpl.
  destruct (b =? 0); simpl.
  { by rewrite app_nil_r. }
  rewrite IH by lia. destruct (position_nul _); simpl; [|done].
  by rewrite <- app_assoc.
Qed.

Lemma position_nul_take n l k : position_nul (take n l) = Some k -> (k < n)%nat.
Proof.
  revert n k. induction l as [|b l IH]; intros [|n] k; simpl; try done.
  destruct (b =? 0); [intros; simplify_eq; lia|].
  destruct (position_nul (take n l)) as [j|] eqn:E; simpl; [|done].
  intros; simplify_eq. apply IH in E. lia.
Qed.

Lemma position_nul_length l k : position_nul l = Some k -> (k < length l)%nat.
Proof. intros H. apply (position_nul_take (length l) l). by rewrite firstn_all. Qed.

Lemma run_read_cstr ptr m :
  is_i32 ptr -> run (read_cstr ptr) m = (Done (cstr_spec m ptr), m).
Proof.
  intros Hptr. unfold read_cstr, cstr_spec, get_export, ok_or.
  destruct (unsigned_try_from ptr) as [start|] eqn:E; simpl; [|done].
  apply unsigned_try_from_Some in E as [<- ?].
  destruct m as [[d|d|]|]; simpl; try done; (case_decide; [done|]).
  - simpl. rewrite cstr_window by (bounds || lia). by destruct (position_nul _).
  - autorewrite with rust.
    assert (Hend : cstr_end ptr (Z.of_nat (length d)) <= Z.of_nat (length d))
      by (unfold cstr_end; lia).
    rewrite run_load_cstr by (simpl; lia). simpl mem_data.
    rewrite cstr_window by (bounds || lia).
    destruct (position_nul _) as [k|] eqn:Ek; simpl; [|done].
    apply position_nul_take in Ek. by rewrite take_take, Nat.min_l by lia.
Qed.

Lemma run_read_u32 ptr m :
  run (read_u32 ptr) m = (Done (bytes <-? read_spec m ptr 4;; Ok (from_le_bytes bytes)), m).
Proof. unfold read_u32. rewrite run_bind, run_read_guest. done. Qed.

Lemma run_write_u32 ptr v m :
  run (write_u32 ptr v) m =
  (Done (after_write m (write_spec m ptr (to_le_bytes 4 v)) tt).1,
   (after_write m (write_spec m ptr (to_le_bytes 4 v)) tt).2).
Proof. apply run_write_guest. Qed.

#[export] Hint Rewrite run_read_guest run_write_guest run_read_u32 run_write_u32 : rust.

Lemma write_spec_Ok m ptr bs m' :
  write_spec m ptr bs = Ok m' ->
  exists d, mem_bytes m = Some d /\ 0 <= ptr /\ Z.of_nat (length bs) <= MAX_IO_LEN /\
    ptr + Z.of_nat (length bs) <= Z.of_nat (length d) /\
    checked_range ptr (Z.of_nat (length bs)) (Z.of_nat (length d)) =
      Ok (ptr, ptr + Z.of_nat (length bs)) /\
    mem_bytes m' = Some (splice (Z.to_nat ptr) bs d) /\
    m' = update_data (splice (Z.to_nat ptr) bs) m.
Proof.
  unfold write_spec, ok_or. destruct (mem_bytes m) as [d|] eqn:Hd; simpl; [|done].
  destruct (write_range _ _ _) as [r|] eqn:Hr; simpl; [|done].
  apply write_range_Ok in Hr as (-> & ? & ? & ? & ?). intros; simplify_eq/=.
  exists d. rewrite mem_bytes_update, Hd. done.
Qed.

Lemma checked_len_errs len : errs_in_guest (checked_len len).
Proof.
  destruct (checked_len len) as [|e] eqn:E; [done|]. simpl.
  rewrite (checked_len_Err _ _ E). compute_decision.
Qed.

Lemma checked_range_errs ptr len n : errs_in_guest (checked_range ptr len n).
Proof.
  destruct (checked_range ptr len n) as [|e] eqn:E; [done|]. simpl.
  destruct (checked_range_Err _ _ _ _ E) as [-> | ->]; compute_decision.
Qed.

Lemma read_spec_errs m ptr len : errs_in_guest (read_spec m ptr len).
Proof.
  unfold read_spec, ok_or. destruct (mem_bytes m) as [d|]; simpl; [|compute_decision].
  pose proof (checked_range_errs ptr len (Z.of_nat (length d))) as H.
  by destruct (checked_range _ _ _).
Qed.

Lemma write_spec_errs m ptr bs : errs_in_guest (write_spec m ptr bs).
Proof.
  unfold write_spec, write_range, ok_or.
  destruct (mem_bytes m) as [d|]; simpl; [|compute_decision].
  destruct (i32_try_from _) as [n|]; simpl; [|compute_decision].
  pose proof (checked_range_errs ptr n (Z.of_nat (length d))) as H.
  by destruct (checked_range _ _ _).
Qed.

Lemma cstr_spec_errs m ptr : errs_in_guest (cstr_spec m ptr).
Proof.
  unfold cstr_spec, ok_or. destruct (unsigned_try_from ptr); simpl; [|compute_decision].
  destruct (mem_bytes m); simpl; [|compute_decision]. case_decide; simpl; [compute_decision|].
  destruct (position_nul _); simpl; [|compute_decision].
  destruct (from_utf8 _); simpl; [done|compute_decision].
Qed.

Lemma no_panic_load_cells a n : no_panic (load_cells a n).
Proof.
  revert a. induction n as [|n IH]; intros a; cbn [load_cells]; [done|].
  apply no_panic_bind; [done|]. intros b. by apply no_panic_bind.
Qed.

Lemma no_panic_store_cells a bs : no_panic (store_cells a bs).
Proof.
  revert a. induction bs as [|b bs IH]; intros a; cbn [store_cells]; [done|]. by apply no_panic_bind.
Qed.

Lemma no_panic_read_guest ptr len : no_panic (read_guest ptr len).
Proof.
  unfold read_guest. apply no_panic_bind; [done|]. intros [ [ [] n]|]; try done;
    destruct (checked_range ptr len n) as [ []|]; try done.
  apply no_panic_bind; [apply no_panic_load_cells|done].
Qed.

Lemma no_panic_write_guest ptr bytes : no_panic (write_guest ptr bytes).
Proof.
  unfold write_guest. apply no_panic_bind; [done|]. intros [ [ [] n]|]; try done;
    destruct (write_range ptr bytes n) as [ []|]; try done.
  apply no_panic_bind; [apply no_panic_store_cells|done].
Qed.

Lemma no_panic_read_u32 ptr : no_panic (read_u32 ptr).
Proof. apply no_panic_bind; [apply no_panic_read_guest|done]. Qed.

Lemma no_panic_write_u32 ptr value : no_panic (write_u32 ptr value).
Proof. apply no_panic_write_guest. Qed.

Lemma no_panic_load_cstr a n acc : no_panic (load_cstr a n acc).
Proof.
  revert a acc. induction n as [|n IH]; intros a acc; cbn [load_cstr]; [done|].
  apply no_panic_bind; [done|]. intros b. by destruct (b =? 0).
Qed.

Lemma no_panic_read_cstr ptr : no_panic (read_cstr ptr).
Proof.
  unfold read_cstr. destruct (unsigned_try_from ptr); [|done].
  apply no_panic_bind; [done|]. intros [ [ [] n]|]; try done; case_decide; try done.
  - apply no_panic_bind; [done|]. intros bytes. by destruct (position_nul bytes).
  - apply no_panic_bind; [apply no_panic_load_cstr|]. by intros [].
Qed.

#[export] Hint Resolve no_panic_read_guest no_panic_write_guest no_panic_read_u32
  no_panic_write_u32 no_panic_read_cstr : rust.

(** A guest whose imports settle their debts owes nothing. *)
Lemma settles_guest_prog {C S} (moves : S -> Z -> S -> Prop) (E : Z -> Prop) (l : lens S GuestMem)
    import (g : guest C) :
  (forall m s, moves s 0 (put l m s)) ->
  (forall c, settles moves E 0 (fun _ x => x = 0) (import c)) ->
  settles moves E 0 (fun _ x => x = 0) (guest_prog l import g).
Proof.
  intros Hm Hc. induction g as [|c k IH|f k IH]; cbn [guest_prog]; [done| |].
  - eapply settles_bind; [apply Hc|]. intros rc x ->. apply IH.
  - eapply settles_bind; [by apply settles_zoom_frame|]. by intros _ x ->.
Qed.

Lemma preserves_guest_prog {C S} (I : S -> Prop) (l : lens S GuestMem) import (g : guest C) :
  (forall m s, I s -> I (put l m s)) -> (forall c, preserves I (import c)) ->
  preserves I (guest_prog l import g).
Proof.
  intros Hm Hc. induction g as [|c k IH|f k IH]; cbn [guest_prog]; [done| |].
  - by apply preserves_bind.
  - apply preserves_bind; [by apply preserves_zoom_frame|done].
Qed.

(** An invariant of the shared state that every import keeps, action by action,
    holds however any number of guest threads interleave. *)
Lemma guest_pool_invariant {L C S} (I : S -> Prop) (init : L) (l : lens (L * S) GuestMem)
    import (gs : list (guest C)) s ts' s' :
  (forall m ls, I ls.2 -> I (put l m ls).2) ->
  (forall c, preserves (fun ls : L * S => I ls.2) (import c)) ->
  I s -> rtc pool_step (guest_pool init l import gs, s) (ts', s') -> I s'.
Proof.
  intros Hm Hc Hs Hstep. eapply (pool_invariant I) in Hstep; [apply Hstep| |done].
  unfold guest_pool. simpl. apply Forall_fmap, Forall_true. intros g. simpl.
  by apply preserves_guest_prog.
Qed.

(** * Properties *)

(** C20. Reading guest memory is the same function of its bytes whether the
    memory is private to the instance or shared by the threads: with no other
    thread running, the cell-by-cell loops read and write exactly the range the
    checks admit, and never touch the cells outside it. *)
Theorem guest_access_correct ptr len bytes m :
  run (read_guest ptr len) m = (Done (read_spec m ptr len), m) /\
  run (write_guest ptr bytes) m =
    match write_spec m ptr bytes with
    | Ok m' => (Done (Ok tt), m')
    | Err e => (Done (Err e), m)
    end.
Proof.
  rewrite run_read_guest, run_write_guest. split; [done|]. by destruct (write_spec _ _ _).
Qed.

(** C21. The bounds check: an access is admitted exactly when the pointer and the
    length are not negative, the length is at most 16 MiB and the range lies in
    the memory; a negative or out-of-range pointer is [EFAULT] and a bad length
    [EINVAL], the pointer being looked at first. *)
Theorem checked_range_spec ptr len n :
  is_i32 ptr -> is_i32 len ->
  checked_range ptr len n =
    if decide (ptr < 0) then Err EFAULT
    else if decide (len < 0 \/ MAX_IO_LEN < len) then Err EINVAL
    else if decide (n < ptr + len) then Err EFAULT
    else Ok (ptr, ptr + len).
Proof.
  intros Hp Hl. unfold checked_range, checked_len, ok_or, unsigned_try_from, usize_checked_add.
  repeat (case_decide; simpl; try done; try lia). unfold MAX_IO_LEN in *. bounds.
Qed.

(** C22. A write followed by a read of the same range gives the bytes back, and
    every cell outside the range keeps its value. *)
Theorem write_read_roundtrip ptr bytes m m' :
  run (write_guest ptr bytes) m = (Done (Ok tt), m') ->
  run (read_guest ptr (Z.of_nat (length bytes))) m' = (Done (Ok bytes), m') /\
  length (mem_data m') = length (mem_data m) /\
  (forall a, (a < Z.to_nat ptr \/ Z.to_nat ptr + length bytes <= a)%nat ->
    mem_data m' !! a = mem_data m !! a).
Proof.
  rewrite run_write_guest, run_read_guest.
  destruct (write_spec m ptr bytes) as [m1|e] eqn:E; intros [= ->].
  apply write_spec_Ok in E as (d & Hd & H0 & H1 & H2 & Hr & Hd' & ->).
  assert (mem_data m = d) as Hm by (by destruct m as [[]|]; simplify_eq/=).
  rewrite mem_data_update, Hm by (by rewrite Hd).
  pose proof (length_splice (Z.to_nat ptr) bytes d ltac:(lia)) as Hlen.
  split_and!; [|done|intros a Ha; apply splice_lookup_out; lia].
  do 2 f_equal. unfold read_spec. rewrite Hd'. simpl. rewrite Hlen, Hr. simpl. f_equal.
  replace (ptr + _ - ptr) with (Z.of_nat (length bytes)) by lia.
  rewrite Nat2Z.id. apply splice_read. lia.
Qed.

(** C23. A C string argument: the bytes from the pointer up to, and without, the
    first NUL, when there is one within 16 KiB and within the memory and they
    are UTF-8. A negative pointer or one past the end is [EFAULT], a string
    without a NUL in the window [ENAMETOOLONG], and other bytes [EINVAL]. The
    memory is not written, and shared and private memories agree. *)
Theorem read_cstr_correct ptr m data :
  is_i32 ptr -> mem_bytes m = Some data ->
  let tail := drop (Z.to_nat ptr) data in
  run (read_cstr ptr) m =
  (Done (if decide (ptr < 0 \/ Z.of_nat (length data) <= ptr) then Err EFAULT
         else match position_nul (take (Z.to_nat MAX_PATH_LEN) tail) with
              | None => Err ENAMETOOLONG
              | Some n => if utf8_valid n (take n tail) then Ok (string_of_bytes (take n tail))
                          else Err EINVAL
              end), m).
Proof.
  intros Hp Hm tail. rewrite run_read_cstr by done. do 2 f_equal. unfold cstr_spec, ok_or.
  destruct (unsigned_try_from ptr) as [start|] eqn:E; simpl.
  2:{ apply unsigned_try_from_None in E. by rewrite decide_True by auto. }
  apply unsigned_try_from_Some in E as [<- H0]. rewrite Hm. simpl. fold tail.
  destruct (decide (ptr >= Z.of_nat (length data))) as [|Hlt].
  { by rewrite decide_True by lia. }
  rewrite decide_False by lia. destruct (position_nul _) as [n|] eqn:En; [|done].
  pose proof (position_nul_take _ _ _ En) as Hn. rewrite take_take, Nat.min_l by lia.
  pose proof (position_nul_length _ _ En) as Hl. rewrite length_take in Hl.
  unfold from_utf8. rewrite length_take, Nat.min_l by lia. by destruct (utf8_valid _ _).
Qed.

(** * Concrete accesses *)

Lemma checked_range_spec_witness :
  checked_range 8 16 64 = Ok (8, 24) /\ checked_range (-1) (-1) 64 = Err EFAULT /\
  checked_range 0 (2 ^ 30) (2 ^ 31) = Err EINVAL.
Proof.
  assert (forall x, x = 8 \/ x = 16 \/ x = -1 \/ x = 0 \/ x = 2 ^ 30 -> is_i32 x) as Hx by bounds.
  split_and!; (etransitivity; [apply checked_range_spec; apply Hx; auto|reflexivity]).
Defined.

Lemma write_read_roundtrip_witness :
  let m := Some (ExtSharedMemory (replicate 8 0)) in
  let m' := Some (ExtSharedMemory [0; 0; 7; 8; 9; 0; 0; 0]) in
  run (write_guest 2 [7; 8; 9]) m = (Done (Ok tt), m') /\
  run (read_guest 2 3) m' = (Done (Ok [7; 8; 9]), m').
Proof.
  intros m m'. assert (run (write_guest 2 [7; 8; 9]) m = (Done (Ok tt), m')) as H by reflexivity.
  split; [exact H|]. exact (proj1 (write_read_roundtrip 2 [7; 8; 9] m m' H)).
Defined.

Lemma read_cstr_correct_witness :
  run (read_cstr 1) (Some (ExtMemory [9; 97; 98; 0; 99])) =
    (Done (Ok "ab"%string), Some (ExtMemory [9; 97; 98; 0; 99])).
Proof.
  etransitivity; [apply (read_cstr_correct 1 _ [9; 97; 98; 0; 99]); [bounds|reflexivity]|].
  reflexivity.
Defined.
