(* ===== verification/HostPath.v ===== *)
(** The parts of [str] and [std::path] (on Unix) that src/host_files.rs uses.

    A Rust string or a Unix path is its bytes, a Rocq [string]. *)

From S2P Require Import Prelude.

(** ASCII 47, the separator. *)
Definition slash : Ascii.ascii := Ascii.ascii_of_nat 47.

(** [str::split('/')]. *)
Fixpoint split_slash (s : string) : list string :=
  match s with
  | EmptyString => [""%string]
  | String c s =>
      if decide (c = slash) then ""%string :: split_slash s
      else match split_slash s with
           | h :: t => String c h :: t
           | [] => [String c ""]
           end
  end.

(** [[str]::join("/")]. *)
Definition join_slash (parts : list string) : string := String.concat "/" parts.

Definition starts_with (prefix s : string) : bool := String.prefix prefix s.

(** [s.strip_prefix(prefix)] and the tail [&s[n..]]. *)
Fixpoint str_drop (n : nat) (s : string) : string :=
  match n, s with
  | S n, String _ s => str_drop n s
  | _, _ => s
  end.
Definition strip_prefix (prefix s : string) : option string :=
  if starts_with prefix s then Some (str_drop (String.length prefix) s) else None.

(** * [std::path] on Unix *)

Inductive Component : Type :=
| RootDir
| CurDir
| ParentDir
| Normal (name : string).
#[export] Instance Component_eq_dec : EqDecision Component.
Proof. solve_decision. Defined.

(** A piece between separators as [Path::components] yields it. *)
Definition piece_component (piece : string) : option Component :=
  if decide (piece = "" \/ piece = ".")%string then None
  else if decide (piece = "..")%string then Some ParentDir
  else Some (Normal piece).

Definition components_of_pieces (pieces : list string) : list Component :=
  match pieces with
  | [] => []
  | p :: rest =>
      if decide (p = ""%string /\ rest <> []) then RootDir :: omap piece_component rest
      else if decide (p = "."%string) then CurDir :: omap piece_component rest
      else omap piece_component pieces
  end.

(** [Path::components]. *)
Definition components (p : string) : list Component := components_of_pieces (split_slash p).

(** [Path::starts_with]: component by component. *)
Definition path_starts_with (p base : string) : Prop :=
  components base `prefix_of` components p.
#[export] Instance path_starts_with_dec p base : Decision (path_starts_with p base).
Proof. unfold path_starts_with. apply _. Defined.

Fixpoint ends_with_slash (s : string) : bool :=
  match s with
  | EmptyString => false
  | String c EmptyString => bool_decide (c = slash)
  | String _ s => ends_with_slash s
  end.

(** [PathBuf::push]: an absolute operand replaces the path. *)
Definition path_push (p c : string) : string :=
  if starts_with "/" c then c
  else if decide (p = ""%string) then c
  else if ends_with_slash p then (p +:+ c)%string
  else (p +:+ "/" +:+ c)%string.

(** [Path::parent]: the path without its last component, trailing separators and
    [.] pieces aside. *)
Fixpoint trim_back (rev_pieces : list string) : list string :=
  match rev_pieces with
  | [] => []
  | p :: rest => if decide (p = "" \/ p = ".")%string then trim_back rest else rev_pieces
  end.
Definition trim_pieces (pieces : list string) : list string := rev (trim_back (rev pieces)).

Definition path_parent (p : string) : option string :=
  let without_last (pieces : list string) := trim_pieces (removelast (trim_pieces pieces)) in
  match split_slash p with
  | [] => None
  | first :: rest =>
      if decide (first = ""%string /\ rest <> []) then
        if decide (trim_pieces rest = []) then None
        else Some ("/" +:+ join_slash (without_last rest))%string
      else if decide (first = "."%string) then
        if decide (trim_pieces rest = []) then Some ""%string
        else Some (join_slash ("."%string :: without_last rest))
      else
        if decide (trim_pieces (first :: rest) = []) then None
        else Some (join_slash (without_last (first :: rest)))
  end.

(** * Lemmas *)

(** A piece without a separator. *)
Definition no_slash (s : string) : Prop := split_slash s = [s].
(** A name a path can be extended with: one ordinary component. *)
Definition normal_name (s : string) : Prop :=
  no_slash s /\ s <> ""%string /\ s <> "."%string /\ s <> ".."%string.
#[export] Instance no_slash_dec s : Decision (no_slash s).
Proof. unfold no_slash. apply _. Defined.
#[export] Instance normal_name_dec s : Decision (normal_name s).
Proof. unfold normal_name. apply _. Defined.

Example split_abs : split_slash "/a//b" = [""; "a"; ""; "b"]%string.
Proof. reflexivity. Qed.
Example parent_1 : path_parent "/srv/data//ib.log" = Some "/srv/data"%string.
Proof. reflexivity. Qed.
Example parent_2 : path_parent "./run" = Some "."%string.
Proof. reflexivity. Qed.
Example parent_3 : path_parent "/" = None /\ path_parent "run" = Some ""%string.
Proof. split; reflexivity. Qed.
Example components_1 :
  components "/srv/./data/../x" = [RootDir; Normal "srv"; Normal "data"; ParentDir; Normal "x"].
Proof. reflexivity. Qed.

Lemma split_slash_nonempty s : split_slash s <> [].
Proof. destruct s as [|c s]; simpl; [done|]. case_decide; [done|]. by destruct (split_slash s). Qed.

Lemma split_slash_app a b :
  split_slash (a +:+ "/" +:+ b) = split_slash a ++ split_slash b.
Proof.
  induction a as [|c a IH]; simpl; [done|].
  case_decide; [by rewrite IH|].
  change (a +:+ String slash b)%string with (a +:+ "/" +:+ b)%string. rewrite IH.
  pose proof (split_slash_nonempty a). by destruct (split_slash a).
Qed.

Lemma split_slash_root b : split_slash ("/" +:+ b) = ""%string :: split_slash b.
Proof. apply (split_slash_app ""). Qed.

Lemma split_slash_pieces s : Forall no_slash (split_slash s).
Proof.
  unfold no_slash. induction s as [|c s IH]; simpl; [by repeat constructor|].
  case_decide; [by constructor|].
  pose proof (split_slash_nonempty s). destruct (split_slash s) as [|h t]; [done|].
  inversion IH as [|?? Hh Ht]; subst. constructor; [|done].
  simpl. rewrite decide_False by done. by rewrite Hh.
Qed.

Lemma join_split s : join_slash (split_slash s) = s.
Proof.
  unfold join_slash. induction s as [|c s IH]; simpl; [done|].
  pose proof (split_slash_nonempty s) as Hne.
  case_decide as Hc.
  - destruct (split_slash s) as [|h t]; [done|]. simpl in *. by rewrite IH, Hc.
  - destruct (split_slash s) as [|h [|h' t]]; [done| |]; exact (f_equal (String c) IH).
Qed.

Lemma split_join parts :
  parts <> [] -> Forall no_slash parts -> split_slash (join_slash parts) = parts.
Proof.
  intros Hne. induction 1 as [|p parts Hp Hparts IH]; [done|].
  destruct parts as [|p' parts]; [done|].
  change (join_slash (p :: p' :: parts)) with (p +:+ "/" +:+ join_slash (p' :: parts))%string.
  rewrite split_slash_app, IH by done. by rewrite Hp.
Qed.

Lemma omap_normal names :
  Forall normal_name names -> omap piece_component names = Normal <$> names.
Proof.
  induction 1 as [|n names Hn _ IH]; [done|]. destruct Hn as (_ & H1 & H2 & H3).
  csimpl. unfold piece_component at 1. rewrite decide_False by (by intros []).
  rewrite decide_False by done. by rewrite IH.
Qed.

Lemma omap_snoc_empty l : omap piece_component (l ++ [""%string]) = omap piece_component l.
Proof. rewrite omap_app. apply app_nil_r. Qed.

(** A last piece [c] after at least one other piece is one more component. *)
Lemma components_of_pieces_snoc pieces c :
  pieces <> [] -> normal_name c ->
  components_of_pieces (pieces ++ [c]) =
  components_of_pieces (pieces ++ [""%string]) ++ [Normal c].
Proof.
  intros Hne Hc. destruct pieces as [|p ps]; [done|]. simpl app.
  assert (Hom : forall l, omap piece_component (l ++ [c]) =
    omap piece_component (l ++ [""%string]) ++ [Normal c]).
  { intros l. rewrite omap_snoc_empty, omap_app.
    by rewrite (omap_normal [c]) by (by apply Forall_singleton). }
  unfold components_of_pieces.
  assert (ps ++ [c] <> [] /\ ps ++ [""%string] <> []) as [] by (by destruct ps).
  repeat (case_decide; destruct_and?; simplify_eq; try tauto);
    first [by rewrite Hom|apply (Hom (p :: ps))].
Qed.

(** A trailing separator is not seen. *)
Lemma components_of_pieces_trailing pieces :
  pieces <> [""%string] -> pieces <> [] ->
  components_of_pieces (pieces ++ [""%string]) = components_of_pieces pieces.
Proof.
  intros Hp Hne. destruct pieces as [|p ps]; [done|]. simpl app.
  unfold components_of_pieces. destruct (decide (p = ""%string)) as [->|Hp'].
  { destruct ps as [|p' ps]; [done|]. rewrite (decide_True (P := _ /\ _)) by done.
    rewrite (decide_True (P := _ /\ _)) by done. by rewrite omap_snoc_empty. }
  repeat (case_decide; destruct_and?; simplify_eq; try done);
    first [by rewrite omap_snoc_empty|apply (omap_snoc_empty (p :: ps))].
Qed.

Lemma ends_with_slash_app p : ends_with_slash p = true -> exists q, p = (q +:+ "/")%string.
Proof.
  induction p as [|c p IH]; simpl; [done|].
  destruct p as [|c' p].
  - intros Hc%bool_decide_eq_true. subst. by exists ""%string.
  - intros H. destruct (IH H) as [q Hq]. exists (String c q). simpl. by rewrite Hq.
Qed.

Lemma starts_with_cons c g c' s :
  starts_with (String c g) (String c' s) =
  if Ascii.ascii_dec c c' then starts_with g s else false.
Proof. reflexivity. Qed.

Lemma starts_with_empty s : starts_with "" s = true.
Proof. by destruct s. Qed.

Lemma string_app_assoc a b c : (a +:+ (b +:+ c) = (a +:+ b) +:+ c)%string.
Proof. induction a as [|x a IH]; simpl; [done|]. exact (f_equal (String x) IH). Qed.

Lemma normal_name_relative c : normal_name c -> starts_with "/" c = false.
Proof.
  intros (Hc & H1 & _). destruct c as [|a c]; [done|]. unfold no_slash in Hc. simpl in Hc.
  change "/"%string with (String slash ""). rewrite starts_with_cons. destruct (Ascii.ascii_dec slash a) as [<-|]; [|done].
  rewrite decide_True in Hc by done. pose proof (split_slash_nonempty c).
  by destruct (split_slash c).
Qed.

(** The pieces of a path and of its extension by a name. *)
Lemma push_pieces p c :
  p <> ""%string -> normal_name c ->
  exists pieces, pieces <> [] /\ Forall no_slash pieces /\
    split_slash (path_push p c) = pieces ++ [c] /\
    components p = components_of_pieces (pieces ++ [""%string]).
Proof.
  intros Hp Hc. unfold path_push. rewrite normal_name_relative by done.
  rewrite decide_False by done.
  assert (Hs : split_slash c = [c]) by apply Hc.
  destruct (ends_with_slash p) eqn:E.
  - apply ends_with_slash_app in E as [q ->]. exists (split_slash q).
    rewrite <- string_app_assoc, split_slash_app, Hs. unfold components.
    replace (q +:+ "/")%string with (q +:+ "/" +:+ "")%string by done.
    rewrite split_slash_app. auto using split_slash_nonempty, split_slash_pieces.
  - exists (split_slash p). rewrite split_slash_app, Hs.
    split_and!; auto using split_slash_nonempty, split_slash_pieces.
    unfold components. symmetry.
    apply components_of_pieces_trailing; [|apply split_slash_nonempty].
    intros Hq. apply Hp. by rewrite <- (join_split p), Hq.
Qed.

(** Extending a path by an ordinary name appends one component. *)
Lemma components_push p c :
  p <> ""%string -> normal_name c -> components (path_push p c) = components p ++ [Normal c].
Proof.
  intros Hp Hc. destruct (push_pieces p c Hp Hc) as (ps & Hne & _ & Hs & Hcp).
  unfold components at 1. rewrite Hs, Hcp. by apply components_of_pieces_snoc.
Qed.

Lemma components_push_empty c : normal_name c -> components (path_push "" c) = [Normal c].
Proof.
  intros Hc. unfold path_push. rewrite normal_name_relative by done. simpl.
  unfold components. pose proof Hc as (Hs & H1 & H2 & H3). rewrite Hs.
  unfold components_of_pieces. rewrite decide_False by (by intros []).
  rewrite decide_False by done. by rewrite (omap_normal [c]) by (by apply Forall_singleton).
Qed.

Lemma path_push_nonempty p c : p <> ""%string -> path_push p c <> ""%string.
Proof.
  intros Hp. unfold path_push. destruct (starts_with "/" c) eqn:E.
  { by destruct c. }
  rewrite decide_False by done. destruct p; [done|]. by destruct (ends_with_slash _).
Qed.

Lemma trim_back_skip l :
  exists h, l = h ++ trim_back l /\ Forall (fun p => piece_component p = None) h.
Proof.
  induction l as [|p l (h & IH & Hh)]; [by exists []|]. cbn [trim_back].
  case_decide as Hp; [|by exists []].
  exists (p :: h). simpl. split; [by f_equal|]. constructor; [|done].
  unfold piece_component. by rewrite decide_True.
Qed.

Lemma trim_pieces_app l :
  exists t, l = trim_pieces l ++ t /\ omap piece_component t = [].
Proof.
  destruct (trim_back_skip (rev l)) as (h & Hl & Hh). exists (rev h). unfold trim_pieces. split.
  - by rewrite <- rev_app_distr, <- Hl, rev_involutive.
  - apply Forall_rev in Hh. induction Hh as [|p t Hp _ IH]; [done|]. csimpl. by rewrite Hp.
Qed.

Lemma omap_trim l : omap piece_component (trim_pieces l) = omap piece_component l.
Proof.
  destruct (trim_pieces_app l) as (t & Hl & Ht). rewrite Hl at 2.
  by rewrite omap_app, Ht, app_nil_r.
Qed.

Lemma trim_pieces_Forall (P : string -> Prop) l : Forall P l -> Forall P (trim_pieces l).
Proof. destruct (trim_pieces_app l) as (t & Hl & _). rewrite Hl at 1. by intros [? _]%Forall_app. Qed.

Lemma trim_pieces_snoc l c : normal_name c -> trim_pieces (l ++ [c]) = l ++ [c].
Proof.
  intros (_ & H1 & H2 & _). unfold trim_pieces. rewrite rev_app_distr. simpl.
  rewrite decide_False by (by intros []). simpl. by rewrite rev_involutive.
Qed.

Lemma split_cons_join p l :
  no_slash p -> Forall no_slash l -> split_slash (join_slash (p :: l)) = p :: l.
Proof. intros Hp Hl. apply split_join; [done|by constructor]. Qed.

(** The parent of an extended path is the path again, up to [Path] equality. *)
Lemma path_parent_push p c :
  p <> ""%string -> normal_name c ->
  exists q, path_parent (path_push p c) = Some q /\ components q = components p.
Proof.
  intros Hp Hc. destruct (push_pieces p c Hp Hc) as (ps & Hne & Hns & Hs & Hcp).
  unfold path_parent. rewrite Hs, Hcp. destruct ps as [|f ps]; [done|]. simpl app.
  apply Forall_cons in Hns as [Hf Hns].
  assert (Hnil : ps ++ [c] <> [] /\ ps ++ [""%string] <> []) by (by destruct ps).
  pose proof (trim_pieces_Forall no_slash ps Hns) as Htr.
  case_decide as H1; [|case_decide as H2].
  - destruct H1 as [-> _]. rewrite trim_pieces_snoc, decide_False by tauto.
    rewrite removelast_last. eexists; split; [done|].
    unfold components. rewrite split_slash_root.
    unfold components_of_pieces at 2. rewrite decide_True by tauto. rewrite omap_snoc_empty.
    unfold components_of_pieces.
    rewrite decide_True by (split; [done|apply split_slash_nonempty]). f_equal.
    rewrite <- (omap_trim ps).
    destruct (trim_pieces ps) as [|t ts] eqn:Et; [done|]. by rewrite split_join by done.
  - subst f. rewrite trim_pieces_snoc, decide_False by tauto.
    rewrite removelast_last. eexists; split; [done|].
    unfold components. rewrite split_cons_join by done.
    unfold components_of_pieces. repeat (rewrite decide_False by (by intros [])).
    rewrite !decide_True by done. by rewrite omap_trim, omap_snoc_empty.
  - rewrite app_comm_cons, trim_pieces_snoc by done.
    rewrite decide_False by (by destruct ps). rewrite removelast_last.
    eexists; split; [done|].
    assert (f <> ""%string) as Hf' by tauto.
    transitivity (omap piece_component (f :: ps)).
    + rewrite <- (omap_trim (f :: ps)). destruct (trim_pieces_app (f :: ps)) as (t & Hl & _).
      pose proof (trim_pieces_Forall no_slash (f :: ps) ltac:(by constructor)) as Htf.
      destruct (trim_pieces (f :: ps)) as [|f' T]; [done|]. injection Hl as -> _.
      unfold components. rewrite split_join by done. unfold components_of_pieces.
      rewrite decide_False by tauto. by rewrite decide_False.
    + unfold components_of_pieces. simpl app.
      rewrite decide_False by tauto. rewrite decide_False by done.
      symmetry. apply (omap_snoc_empty (f :: ps)).
Qed.
