(* ===== verification/Cli.v ===== *)
(** The command line (src/main.rs): the options that reach the host tables and
    the parsers of their values, and the exit code of a guest's status. *)

From S2P Require Import Prelude.
From S2P Require Import HostPath.

(** [struct Preopen] and [struct EnvPair]. *)
Record Preopen := { preopen_host_path : string; preopen_guest_path : string }.
Record EnvPair := { key : string; value : string }.
#[export] Instance Preopen_eq_dec : EqDecision Preopen.
Proof. solve_decision. Defined.
#[export] Instance EnvPair_eq_dec : EqDecision EnvPair.
Proof. solve_decision. Defined.

(** [struct Cli]. *)
Record Cli := {
  show_embedded_source : bool;
  no_default_preopen : bool;
  no_inherit_env : bool;
  no_network : bool;
  cli_preopens : list Preopen;
  cli_env : list EnvPair;
  guest_args : list string
}.

(** [str::split_once('=')]. *)
Definition equals_sign : Ascii.ascii := Ascii.ascii_of_nat 61.
Fixpoint split_once_eq (s : string) : option (string * string) :=
  match s with
  | EmptyString => None
  | String c s =>
      if decide (c = equals_sign) then Some (""%string, s)
      else match split_once_eq s with
           | Some (a, b) => Some (String c a, b)
           | None => None
           end
  end.

(** A parse result: the error is the message shown to the user. *)
Inductive parse (A : Type) : Type :=
| Parsed (a : A)
| Rejected (message : string).
Arguments Parsed {A} a.
Arguments Rejected {A} message.

(** [Preopen::from_str]. *)
Definition preopen_from_str (value : string) : parse Preopen :=
  match split_once_eq value with
  | None => Rejected "expected HOST=GUEST"
  | Some (host, guest) =>
      if decide (host = ""%string) then Rejected "host path cannot be empty"
      else if decide (guest = ""%string) then Rejected "guest path cannot be empty"
      else Parsed {| preopen_host_path := host; preopen_guest_path := guest |}
  end.

(** [EnvPair::from_str]. *)
Definition env_pair_from_str (value : string) : parse EnvPair :=
  match split_once_eq value with
  | None => Rejected "expected KEY=VALUE"
  | Some (key, env_value) =>
      if decide (key = ""%string) then Rejected "environment key cannot be empty"
      else Parsed {| key := key; value := env_value |}
  end.

(** [std::process::ExitCode]. *)
Inductive ExitCode := ExitCodeSuccess | ExitCodeFailure | ExitCodeFrom (code : Z).

(** [exit_code_from_i32]. *)
Definition exit_code_from_i32 (status : Z) : ExitCode :=
  if status =? 0 then ExitCodeSuccess
  else match u8_try_from status with
       | Some code => if negb (code =? 0) then ExitCodeFrom code else ExitCodeFailure
       | None => ExitCodeFailure
       end.

(** The number the operating system sees. *)
Definition exit_status (c : ExitCode) : Z :=
  match c with ExitCodeSuccess => 0 | ExitCodeFailure => 1 | ExitCodeFrom code => code end.

Example parses_preopen :
  preopen_from_str "/tmp/mysql=/data" =
  Parsed {| preopen_host_path := "/tmp/mysql"; preopen_guest_path := "/data" |}.
Proof. reflexivity. Qed.
Example parses_env_pair :
  env_pair_from_str "MYSQL_HOME=/data" = Parsed {| key := "MYSQL_HOME"; value := "/data" |}.
Proof. reflexivity. Qed.
Example rejects_empty_preopen_guest :
  preopen_from_str "/tmp/mysql=" = Rejected "guest path cannot be empty".
Proof. reflexivity. Qed.

(** * Lemmas *)

(** No [=] in a string. *)
Fixpoint no_equals (s : string) : bool :=
  match s with
  | EmptyString => true
  | String c s => bool_decide (c <> equals_sign) && no_equals s
  end.

Lemma split_once_eq_Some s a b :
  split_once_eq s = Some (a, b) <-> s = (a +:+ "=" +:+ b)%string /\ no_equals a = true.
Proof.
  revert a b. induction s as [|c s IH]; intros a b; simpl.
  { split; [done|]. by intros [? _]; destruct a. }
  case_decide as Hc.
  - subst c. split; [by intros [= <- <-]|]. intros [Hs Ha].
    destruct a as [|c a]; [by injection Hs as ->|].
    injection Hs as <- _. discriminate Ha.
  - destruct (split_once_eq s) as [[a' b']|] eqn:E.
    + destruct (proj1 (IH a' b') eq_refl) as [Hs' Ha']. split.
      * intros [= <- <-]. split; [by rewrite Hs'|]. simpl. by rewrite bool_decide_true.
      * intros [Hs Ha]. destruct a as [|c' a]; [by injection Hs as ->|].
        injection Hs as -> Hs. simpl in Ha. apply andb_prop in Ha as [_ Ha].
        by injection (proj2 (IH a b) (conj Hs Ha)) as -> ->.
    + split; [done|]. intros [Hs Ha]. destruct a as [|c' a]; [by injection Hs as ->|].
      injection Hs as -> Hs. simpl in Ha. apply andb_prop in Ha as [_ Ha].
      by pose proof (proj2 (IH a b) (conj Hs Ha)).
Qed.

(** * Properties *)

(** The [--preopen] parser inverts the spelling [HOST=GUEST]: it accepts
    exactly the values with a first [=] between two nonempty parts, splits them
    there, and the parts spell the value again; everything else is refused with
    the message that names the missing part. *)
Lemma preopen_from_str_correct v :
  match preopen_from_str v with
  | Parsed p =>
      v = (preopen_host_path p +:+ "=" +:+ preopen_guest_path p)%string /\
      no_equals (preopen_host_path p) = true /\
      preopen_host_path p <> ""%string /\ preopen_guest_path p <> ""%string
  | Rejected m =>
      (m = "expected HOST=GUEST"%string /\ forall a b, v = (a +:+ "=" +:+ b)%string -> no_equals a = false) \/
      (m = "host path cannot be empty"%string /\ exists b, v = ("=" +:+ b)%string) \/
      (m = "guest path cannot be empty"%string /\
        exists a, a <> ""%string /\ no_equals a = true /\ v = (a +:+ "=")%string)
  end.
Proof.
  unfold preopen_from_str. destruct (split_once_eq v) as [[a b]|] eqn:E.
  - apply split_once_eq_Some in E as [-> Ha].
    case_decide as Ha'; [right; left; subst; eauto|].
    case_decide as Hb; [right; right; subst; eauto|]. done.
  - left. split; [done|]. intros a b Hv. destruct (no_equals a) eqn:Ha; [|done].
    by rewrite (proj2 (split_once_eq_Some v a b) (conj Hv Ha)) in E.
Qed.

(** The exit status: 0 only for a guest that exited with 0, the guest's own
    status when it fits a byte, and 1 for every status that does not. *)
Lemma exit_code_correct status :
  is_i32 status ->
  exit_status (exit_code_from_i32 status) =
    (if decide (0 <= status < 256) then status else 1) /\
  (exit_status (exit_code_from_i32 status) = 0 <-> status = 0).
Proof.
  intros Hs. unfold exit_code_from_i32, u8_try_from.
  destruct (Z.eqb_spec status 0) as [->|H0]; [done|].
  case_decide as H1.
  - rewrite decide_True by lia. apply Z.eqb_neq in H0. rewrite H0. simpl.
    apply Z.eqb_neq in H0. lia.
  - rewrite decide_False by lia. simpl. lia.
Qed.
