(* ===== verification/GuestPath.v ===== *)
(** Guest paths and preopens (src/host_files.rs): normalising the path the
    guest names and mapping it below the host directory of a preopen. *)

From S2P Require Import Prelude.
From S2P Require Import GuestErrno.
From S2P Require Import HostPath.
Local Open Scope rust_scope.

(** The loop of [normalize_guest_path] over [path.split('/')]. *)
Fixpoint normalize_parts (pieces parts : list string) : result (list string) :=
  match pieces with
  | [] => Ok parts
  | part :: pieces =>
      if decide (part = "" \/ part = ".")%string then normalize_parts pieces parts
      else if decide (part = "..")%string then
        match parts with
        | [] => Err ENOTCAPABLE
        | _ => normalize_parts pieces (removelast parts)
        end
      else normalize_parts pieces (parts ++ [part])
  end.

(** [normalize_guest_path]. *)
Definition normalize_guest_path (path : string) : result string :=
  if decide (path = ""%string) then Err ENOENT
  else
    let absolute := starts_with "/" path in
    parts <-? normalize_parts (split_slash path) [];;
    let joined := join_slash parts in
    if absolute then
      if decide (joined = ""%string) then Ok "/"%string else Ok ("/" +:+ joined)%string
    else if decide (joined = ""%string) then Ok "."%string
    else Ok joined.

(** [join_suffix]. *)
Definition join_suffix (root suffix : string) : string :=
  fold_left
    (fun path component =>
       if decide (component <> "" /\ component <> ".")%string
       then path_push path component else path)
    (split_slash suffix) root.

Record PreopenMapping := { guest : string; host : string }.
#[export] Instance PreopenMapping_eq_dec : EqDecision PreopenMapping.
Proof. solve_decision. Defined.

(** [preopens.sort_by(|l, r| r.guest.len().cmp(&l.guest.len()))], a stable sort:
    longest guest path first. *)
Fixpoint insert_preopen (x : PreopenMapping) (l : list PreopenMapping) : list PreopenMapping :=
  match l with
  | [] => [x]
  | y :: l' =>
      if decide (String.length (guest y) <= String.length (guest x))%nat then x :: l
      else y :: insert_preopen x l'
  end.
Definition sort_preopens (l : list PreopenMapping) : list PreopenMapping :=
  foldr insert_preopen [] l.

(** The suffix below the preopen, when the loop of [resolve] does not
    [continue]. *)
Definition match_preopen (guest normalized : string) : option string :=
  if decide (guest = "."%string /\ starts_with "/" normalized = false) then Some normalized
  else if decide (guest = "/"%string) then
    Some (default normalized (strip_prefix "/" normalized))
  else if decide (normalized = guest) then Some ""%string
  else if decide (starts_with guest normalized = true /\
                  String.get (String.length guest) normalized = Some slash) then
    Some (str_drop (String.length guest + 1) normalized)
  else None.

(** The loop of [resolve]. *)
Fixpoint resolve_in (preopens : list PreopenMapping) (normalized : string) : result string :=
  match preopens with
  | [] => Err ENOTCAPABLE
  | preopen :: preopens =>
      match match_preopen (guest preopen) normalized with
      | Some suffix => Ok (join_suffix (host preopen) suffix)
      | None => resolve_in preopens normalized
      end
  end.

(** [HostFiles::resolve]. *)
Definition resolve (preopens : list PreopenMapping) (guest_path : string) : result string :=
  normalized <-? normalize_guest_path guest_path;;
  resolve_in preopens normalized.

(** [HostFiles::resolve_parent]. *)
Definition resolve_parent (preopens : list PreopenMapping) (guest_path : string) : result string :=
  path <-? resolve preopens guest_path;;
  parent <-? ok_or (path_parent path) EINVAL;;
  if decide (Exists (fun preopen => path_starts_with parent (host preopen)) preopens)
  then Ok parent else Err ENOTCAPABLE.

(** * Specification: guest paths as lists of names *)

Record gpath := GPath { absolute : bool; names : list string }.

(** The canonical spelling of a guest path. *)
Definition render (g : gpath) : string :=
  match absolute g, names g with
  | true, ns => ("/" +:+ join_slash ns)%string
  | false, [] => "."%string
  | false, ns => join_slash ns
  end.

(** The number of names a sequence of pieces goes down, [..] counting -1. *)
Fixpoint depth (pieces : list string) : Z :=
  match pieces with
  | [] => 0
  | p :: pieces =>
      (if decide (p = "" \/ p = ".")%string then 0
       else if decide (p = "..")%string then -1 else 1) + depth pieces
  end.

(** Some prefix of the path leaves the directory the path starts at. *)
Definition escapes (pieces : list string) : Prop := exists k, depth (take k pieces) < 0.

(** The walk read from its end: each name is taken back by a [..] that follows it
    and has no other name to take back.  The number of [..] left over for what
    comes before, and the names that stay. *)
Fixpoint walk_back (pieces : list string) : nat * list string :=
  match pieces with
  | [] => (O, [])
  | p :: pieces =>
      let '(up, ns) := walk_back pieces in
      if decide (p = "" \/ p = ".")%string then (up, ns)
      else if decide (p = "..")%string then (S up, ns)
      else match up with O => (O, p :: ns) | S up => (up, ns) end
  end.

Fixpoint strip_names (g p : list string) : option (list string) :=
  match g, p with
  | [], _ => Some p
  | n :: g, m :: p => if decide (n = m) then strip_names g p else None
  | _ :: _, [] => None
  end.

(** The names of [p] below the preopen [g]: the preopen [.] takes the relative
    paths, [/] every path, any other one the paths of its kind it is a prefix of. *)
Definition gmatch (g p : gpath) : option (list string) :=
  match names g with
  | [] => if absolute g then Some (names p) else if absolute p then None else Some (names p)
  | _ => if bool_decide (absolute g = absolute p) then strip_names (names g) (names p) else None
  end.

Definition push_names (root : string) (ns : list string) : string := fold_left path_push ns root.

(** What [new] establishes of the preopen table. *)
Record preopen_ok (p : PreopenMapping) : Prop := {
  preopen_host : host p <> ""%string;
  preopen_guest : exists g, guest p = render g /\ Forall normal_name (names g)
}.

(** * Lemmas *)

Ltac pieces_cases :=
  repeat (case_decide; destruct_or?; subst; try done).

Lemma normalize_parts_normal pieces parts out :
  Forall no_slash pieces -> Forall normal_name parts ->
  normalize_parts pieces parts = Ok out -> Forall normal_name out.
Proof.
  intros Hp. revert parts. induction Hp as [|p pieces Hp _ IH]; intros parts Hn; simpl.
  { by intros [= ->]. }
  case_decide as H1; [by apply IH|]. case_decide as H2.
  - destruct parts as [|q qs] eqn:Eq; [done|]. apply IH.
    rewrite (app_removelast_last q (l := q :: qs)) in Hn by done.
    by apply Forall_app in Hn as [? _].
  - apply IH. apply Forall_app. split; [done|]. apply Forall_singleton.
    repeat split; tauto.
Qed.

(** The stack of the loop loses as many names as [walk_back] has [..] left. *)
Lemma normalize_parts_walk_back pieces parts :
  normalize_parts pieces parts =
  let '(up, ns) := walk_back pieces in
  if decide (up <= length parts)%nat then Ok (take (length parts - up) parts ++ ns)
  else Err ENOTCAPABLE.
Proof.
  revert parts. induction pieces as [|p pieces IH]; intros parts; simpl.
  { by rewrite Nat.sub_0_r, firstn_all, app_nil_r. }
  destruct (walk_back pieces) as [up ns]. case_decide; [apply IH|]. case_decide.
  - destruct parts as [|q qs _] using rev_ind; [done|].
    rewrite length_app, removelast_last, IH. simpl.
    destruct (qs ++ [q]) eqn:Eq; [by apply app_nil in Eq as []|]. rewrite <- Eq.
    case_decide; case_decide; try lia; [|done]. f_equal. f_equal.
    rewrite take_app_le by lia. f_equal. lia.
  - rewrite IH, length_app. simpl. destruct up as [|up].
    + rewrite !decide_True by lia. f_equal. rewrite Nat.sub_0_r, take_ge by (rewrite length_app; simpl; lia).
      rewrite Nat.sub_0_r, take_ge by lia. by rewrite <- app_assoc.
    + case_decide; case_decide; try lia; [|done]. do 2 f_equal. rewrite take_app_le by lia. f_equal. lia.
Qed.

Lemma normalize_walk_back pieces ns :
  normalize_parts pieces [] = Ok ns <-> walk_back pieces = (O, ns).
Proof.
  rewrite normalize_parts_walk_back. destruct (walk_back pieces) as [[|up] ms]; simpl; split; congruence.
Qed.

Lemma normalize_parts_depth pieces parts :
  match normalize_parts pieces parts with
  | Ok _ => forall k, 0 <= Z.of_nat (length parts) + depth (take k pieces)
  | Err e => e = ENOTCAPABLE /\ exists k, Z.of_nat (length parts) + depth (take k pieces) < 0
  end.
Proof.
  revert parts. induction pieces as [|p pieces IH]; intros parts; simpl.
  { intros k. rewrite take_nil. simpl. lia. }
  assert (Hstep : forall parts' d,
    Z.of_nat (length parts') = Z.of_nat (length parts) + d ->
    (forall k, depth (take (S k) (p :: pieces)) = d + depth (take k pieces)) ->
    match normalize_parts pieces parts' with
    | Ok _ => forall k, 0 <= Z.of_nat (length parts) + depth (take k (p :: pieces))
    | Err e => e = ENOTCAPABLE /\
        exists k, Z.of_nat (length parts) + depth (take k (p :: pieces)) < 0
    end).
  { intros parts' d Hl Hd. specialize (IH parts'). destruct (normalize_parts pieces parts').
    - intros [|k]; [simpl; lia|]. rewrite Hd. specialize (IH k). lia.
    - destruct IH as [-> [k Hk]]. split; [done|]. exists (S k). rewrite Hd. lia. }
  case_decide as H1; [|case_decide as H2].
  - apply (Hstep parts 0); [lia|]. intros k. simpl. by rewrite decide_True.
  - subst p. destruct parts as [|q qs] eqn:Eq.
    + split; [done|]. exists 1%nat. simpl. lia.
    + rewrite <- Eq in *. apply (Hstep (removelast parts) (-1)); [|done].
      rewrite removelast_firstn_len, length_take, Eq. simpl. lia.
  - apply (Hstep (parts ++ [p]) 1); [rewrite length_app; simpl; lia|].
    intros k. simpl. rewrite decide_False by done. by rewrite decide_False.
Qed.

Lemma normalize_parts_length pieces parts out :
  normalize_parts pieces parts = Ok out ->
  Z.of_nat (length out) = Z.of_nat (length parts) + depth pieces.
Proof.
  revert parts. induction pieces as [|p pieces IH]; intros parts; simpl.
  { intros [= ->]. lia. }
  case_decide; [intros Hout%IH; lia|]. case_decide.
  - destruct parts as [|q qs] eqn:Eq; [done|]. rewrite <- Eq. intros Hout%IH.
    rewrite removelast_firstn_len, length_take, Eq in Hout. rewrite Eq. simpl in *. lia.
  - intros Hout%IH. rewrite length_app in Hout. simpl in Hout. lia.
Qed.

Lemma normalize_parts_normal_names ns parts :
  Forall normal_name ns -> normalize_parts ns parts = Ok (parts ++ ns).
Proof.
  intros Hn. revert parts. induction Hn as [|n ns (_ & H1 & H2 & H3) _ IH]; intros parts; simpl.
  { by rewrite app_nil_r. }
  rewrite decide_False by (by intros []). rewrite decide_False by done.
  by rewrite IH, <- app_assoc.
Qed.

Lemma normal_names_no_slash ns : Forall normal_name ns -> Forall no_slash ns.
Proof. intros H. eapply Forall_impl; [exact H|]. by intros ? []. Qed.

Lemma join_normal_nonempty ns : Forall normal_name ns -> ns <> [] -> join_slash ns <> ""%string.
Proof.
  intros Hn Hne Hj. destruct Hn as [|n ns (_ & H1 & _) _]; [done|].
  unfold join_slash in Hj. simpl in Hj. destruct ns; destruct n; done.
Qed.

Lemma split_join_normal ns :
  Forall normal_name ns ->
  split_slash (join_slash ns) = if decide (ns = []) then [""%string] else ns.
Proof.
  intros Hn. case_decide; [by subst|]. apply split_join; auto using normal_names_no_slash.
Qed.

(** The normal form is the canonical spelling of the names walked to. *)
Lemma normalize_guest_path_Ok path out :
  normalize_guest_path path = Ok out <->
  path <> ""%string /\ exists ns, normalize_parts (split_slash path) [] = Ok ns /\
    out = render (GPath (starts_with "/" path) ns).
Proof.
  unfold normalize_guest_path. case_decide as Hp.
  { split; [done|]. by intros []. }
  destruct (normalize_parts (split_slash path) []) as [ns|e] eqn:E; simpl.
  2:{ split; [done|]. by intros (_ & ? & ? & _). }
  assert (Hn : Forall normal_name ns).
  { eapply normalize_parts_normal; [apply split_slash_pieces| |exact E]. done. }
  transitivity (Ok (render (GPath (starts_with "/" path) ns)) = Ok out).
  2:{ split; [intros [= <-]; eauto|]. by intros (_ & ? & [= ->] & ->). }
  unfold render; simpl. destruct ns as [|n ns].
  - unfold join_slash. simpl. by destruct (starts_with "/" path).
  - rewrite !decide_False by (by apply join_normal_nonempty).
    by destruct (starts_with "/" path).
Qed.

Lemma starts_with_slash_app s : starts_with "/" ("/" +:+ s) = true.
Proof. by destruct s. Qed.

Lemma starts_with_split s : starts_with "/" s = true <-> exists r, s = ("/" +:+ r)%string.
Proof.
  split; [|intros [r ->]; apply starts_with_slash_app].
  destruct s as [|a s]; [done|].
  change "/"%string with (String slash "") at 1. rewrite starts_with_cons. destruct (Ascii.ascii_dec slash a) as [<-|]; [|done]. by exists s.
Qed.

Lemma join_relative ns :
  Forall normal_name ns -> starts_with "/" (join_slash ns) = false.
Proof.
  intros Hn. destruct (starts_with "/" (join_slash ns)) eqn:E; [|done].
  apply starts_with_split in E as [r Hr]. apply (f_equal split_slash) in Hr.
  rewrite split_slash_root, split_join_normal in Hr by done. case_decide.
  - injection Hr as Hr. by destruct (split_slash_nonempty r).
  - subst ns. apply Forall_cons in Hn as [(_ & ? & _) _]. done.
Qed.

Lemma render_absolute g :
  Forall normal_name (names g) -> starts_with "/" (render g) = absolute g.
Proof.
  intros Hn. destruct g as [[] ns]; unfold render; simpl in *.
  - apply starts_with_slash_app.
  - destruct ns as [|n ns]; [done|]. by apply join_relative.
Qed.

Lemma normalize_render g :
  Forall normal_name (names g) -> normalize_guest_path (render g) = Ok (render g).
Proof.
  intros Hn. apply normalize_guest_path_Ok. rewrite render_absolute by done.
  destruct g as [a ns]; simpl in *. split.
  - destruct a; [done|]. destruct ns as [|n ns]; [done|]. by apply join_normal_nonempty.
  - exists ns. split; [|done]. unfold render; simpl. destruct a.
    + rewrite split_slash_root. cbn [normalize_parts]. rewrite decide_True by auto.
      rewrite split_join_normal by done. case_decide; [by subst|].
      by rewrite normalize_parts_normal_names.
    + destruct ns as [|n ns]; [done|]. rewrite split_join_normal by done.
      rewrite decide_False by done. by rewrite normalize_parts_normal_names.
Qed.

Lemma join_suffix_names root ns :
  Forall normal_name ns -> join_suffix root (join_slash ns) = push_names root ns.
Proof.
  intros Hn. unfold join_suffix. rewrite split_join_normal by done.
  case_decide as H; [by subst|]. clear H. revert root.
  induction Hn as [|n ns (_ & H1 & H2 & _) _ IH]; intros root; simpl; [done|].
  rewrite decide_True by done. apply IH.
Qed.

Lemma join_suffix_dot root : join_suffix root "." = root.
Proof. done. Qed.

Lemma components_push_names root ns :
  root <> ""%string -> Forall normal_name ns ->
  push_names root ns <> ""%string /\
  components (push_names root ns) = components root ++ (Normal <$> ns).
Proof.
  intros Hr Hn. revert root Hr. induction Hn as [|n ns Hn _ IH]; intros root Hr; simpl.
  { by rewrite app_nil_r. }
  destruct (IH (path_push root n)) as [H1 H2]; [by apply path_push_nonempty|].
  split; [done|]. fold (push_names (path_push root n) ns).
  rewrite H2, components_push by done. by rewrite <- app_assoc.
Qed.

Lemma prefix_app g s : starts_with g s = true <-> exists t, s = (g +:+ t)%string.
Proof.
  revert s. induction g as [|c g IH]; intros s.
  { rewrite starts_with_empty. split; [by exists s|done]. }
  destruct s as [|c' s].
  { split; [done|]. by intros []. }
  rewrite starts_with_cons. destruct (Ascii.ascii_dec c c') as [<-|Hc].
  - rewrite IH. split; intros [t Ht]; exists t; [by rewrite Ht|]. by injection Ht.
  - split; [done|]. intros [t [= ->]]. done.
Qed.

Lemma get_length_app g t : String.get (String.length g) (g +:+ t) = String.get 0 t.
Proof. induction g; simpl; done. Qed.

Lemma str_drop_app g t : str_drop (String.length g) (g +:+ t) = t.
Proof. induction g as [|x g IH]; [by destruct t|exact IH]. Qed.

Lemma str_drop_app_slash g t : str_drop (String.length g + 1) (g +:+ "/" +:+ t) = t.
Proof. induction g as [|x g IH]; [by destruct t|exact IH]. Qed.

Lemma get_0_slash t : String.get 0 t = Some slash -> exists r, t = ("/" +:+ r)%string.
Proof. destruct t as [|c t]; simpl; [done|]. intros [= ->]. by exists t. Qed.

Lemma starts_with_slash_prefix g t :
  g <> ""%string -> starts_with "/" (g +:+ t) = starts_with "/" g.
Proof.
  intros Hg. destruct g as [|c g]; [done|].
  change (String c g +:+ t)%string with (String c (g +:+ t)).
  change "/"%string with (String slash ""). rewrite !starts_with_cons.
  destruct (Ascii.ascii_dec slash c); [|done]. by rewrite !starts_with_empty.
Qed.

Lemma join_slash_app a b :
  a <> [] -> b <> [] -> join_slash (a ++ b) = (join_slash a +:+ "/" +:+ join_slash b)%string.
Proof.
  intros Ha Hb. induction a as [|x a IH]; [done|]. destruct a as [|y a].
  - destruct b; [done|]. reflexivity.
  - change (join_slash ((x :: y :: a) ++ b)) with (x +:+ "/" +:+ join_slash ((y :: a) ++ b))%string.
    rewrite IH by done. change (join_slash (x :: y :: a)) with (x +:+ "/" +:+ join_slash (y :: a))%string.
    by rewrite <- !string_app_assoc.
Qed.

Lemma strip_names_Some g p r : strip_names g p = Some r <-> p = g ++ r.
Proof.
  revert p. induction g as [|n g IH]; intros p; simpl.
  { split; [by intros [= ->]|by intros ->]. }
  destruct p as [|m p]; [by split|]. case_decide as Hnm.
  - rewrite IH. subst. split; [by intros ->|by intros [= ->]].
  - split; [done|]. by intros [= ->].
Qed.

Lemma render_split g :
  Forall normal_name (names g) ->
  split_slash (render g) =
    if absolute g then ""%string :: (if decide (names g = []) then [""%string] else names g)
    else if decide (names g = []) then ["."%string] else names g.
Proof.
  intros Hn. destruct g as [[] ns]; unfold render; cbn [absolute names] in *.
  - by rewrite split_slash_root, split_join_normal.
  - destruct ns as [|n ns]; [done|]. by rewrite split_join_normal.
Qed.

(** An empty list of names spelled as one special piece. *)
Lemma pieces_or_inj d ns ms :
  ~ normal_name d -> Forall normal_name ns -> Forall normal_name ms ->
  (if decide (ns = []) then [d] else ns) = (if decide (ms = []) then [d] else ms) -> ns = ms.
Proof.
  intros Hd Hns Hms. repeat case_decide; intros Heq; subst; try done;
    exfalso; apply Hd; by apply Forall_singleton.
Qed.

Lemma render_inj g p :
  Forall normal_name (names g) -> Forall normal_name (names p) -> render g = render p -> g = p.
Proof.
  intros Hg Hp Heq. pose proof (render_absolute g Hg) as Ha.
  rewrite Heq, render_absolute in Ha by done.
  pose proof (f_equal split_slash Heq) as Hs. rewrite !render_split, Ha in Hs by done.
  destruct g as [a gn], p as [b pn]; cbn [absolute names] in *. subst b. f_equal.
  destruct a; [injection Hs as Hs|];
    (eapply pieces_or_inj; [|exact Hg|exact Hp|exact Hs]); by intros (_ & ? & ? & _).
Qed.

Lemma render_app a gn r :
  gn <> [] -> r <> [] -> render (GPath a (gn ++ r)) = (render (GPath a gn) +:+ "/" +:+ join_slash r)%string.
Proof.
  intros Hg Hr. unfold render; cbn [absolute names]. destruct a.
  - by rewrite join_slash_app, string_app_assoc.
  - destruct gn as [|n gn]; [done|]. by rewrite <- join_slash_app.
Qed.

(** A canonical path extending another one by a separator extends its names. *)
Lemma render_prefix g p t :
  Forall normal_name (names g) -> Forall normal_name (names p) -> names g <> [] ->
  render p = (render g +:+ "/" +:+ t)%string ->
  absolute p = absolute g /\ exists r, names p = names g ++ r.
Proof.
  intros Hg Hp Hne Heq.
  assert (Ha : absolute p = absolute g).
  { rewrite <- !render_absolute by done. rewrite Heq. apply starts_with_slash_prefix.
    intros Hr. apply (f_equal split_slash) in Hr. rewrite render_split in Hr by done.
    destruct g as [[] gn]; simpl in *; rewrite decide_False in Hr by done;
      [by injection Hr as ->|]. subst gn. apply Forall_singleton in Hg as (_ & ? & _). done. }
  split; [done|]. apply (f_equal split_slash) in Heq.
  rewrite split_slash_app, !render_split, Ha in Heq by done.
  do 2 rewrite (decide_False (P := names g = [])) in Heq by done.
  pose proof (split_slash_nonempty t) as Ht.
  destruct (absolute g); [injection Heq as Heq|]; case_decide;
    try by eauto.
  all: exfalso; apply (f_equal length) in Heq; rewrite length_app in Heq; simpl in Heq.
  all: destruct (names g); [done|]; destruct (split_slash t); [done|]; simpl in Heq; lia.
Qed.

(** The preopens [.] and [/]. *)
Lemma match_preopen_root g p root :
  names g = [] -> Forall normal_name (names p) ->
  join_suffix root <$> match_preopen (render g) (render p) = push_names root <$> gmatch g p.
Proof.
  intros Eg Hp.
  assert (Hrel : absolute p = false -> join_suffix root (render p) = push_names root (names p)).
  { intros Ha. destruct p as [a [|n pn]]; simpl in *; subst a; [done|].
    by apply (join_suffix_names root (n :: pn)). }
  unfold match_preopen, gmatch. rewrite render_absolute, Eg by done.
  destruct g as [[] ?]; cbn [absolute names] in *; subst.
  - change (render (GPath true [])) with "/"%string.
    rewrite decide_False by (by intros []). rewrite decide_True by done.
    cbn [fmap option_fmap option_map]. f_equal.
    unfold strip_prefix. rewrite render_absolute by done.
    destruct p as [[] pn]; cbn [absolute names] in *; [|by apply Hrel].
    unfold render; cbn [absolute names default]. rewrite str_drop_app.
    by apply join_suffix_names.
  - change (render (GPath false [])) with "."%string.
    destruct (absolute p) eqn:Ea.
    2:{ rewrite decide_True by done. cbn [fmap option_fmap option_map]. by rewrite Hrel. }
    rewrite decide_False by (by intros []). rewrite decide_False by done.
    destruct p as [a pn]; cbn [absolute names] in *; subst a.
    unfold render; cbn [absolute names].
    rewrite decide_False by done. by rewrite decide_False by (by intros []).
Qed.

Section MatchNames.
Context (g p : gpath) (Hg : Forall normal_name (names g)) (Hp : Forall normal_name (names p)).
Context (Hne : names g <> []).

(** Any other preopen is compared by whole names. *)
Lemma match_preopen_names_eq :
  match_preopen (render g) (render p) =
  if decide (render p = render g) then Some ""%string
  else if decide (starts_with (render g) (render p) = true /\
                  String.get (String.length (render g)) (render p) = Some slash)
  then Some (str_drop (String.length (render g) + 1) (render p)) else None.
Proof.
  assert (Hdots : forall b, render g <> render (GPath b [])).
  { intros b Hb. apply render_inj in Hb; [|done..]. by rewrite Hb in Hne. }
  unfold match_preopen. rewrite decide_False by (intros [? _]; by apply (Hdots false)).
  by rewrite decide_False by (apply (Hdots true)).
Qed.

Lemma match_preopen_below r :
  absolute g = absolute p -> names p = names g ++ r ->
  match_preopen (render g) (render p) = Some (join_slash r).
Proof.
  intros Ha Er. rewrite match_preopen_names_eq.
  destruct g as [a gn], p as [a' pn]; cbn [absolute names] in *; subst.
  destruct (decide (r = [])) as [->|Hr].
  { rewrite app_nil_r. by rewrite decide_True. }
  rewrite decide_False.
  2:{ intros Heq%render_inj; [|done..]. injection Heq as Heq.
      apply (f_equal length) in Heq. rewrite length_app in Heq.
      destruct r; [done|]. simpl in Heq. lia. }
  rewrite render_app by done. rewrite decide_True; [by rewrite str_drop_app_slash|].
  split; [apply prefix_app; eauto|]. by rewrite get_length_app.
Qed.

Lemma match_preopen_beside :
  (absolute g = absolute p -> strip_names (names g) (names p) = None) ->
  match_preopen (render g) (render p) = None.
Proof.
  intros Hnone. rewrite match_preopen_names_eq. rewrite decide_False.
  2:{ intros Heq%render_inj; [|done..]. subst p.
      pose proof (proj2 (strip_names_Some (names g) (names g) []) ltac:(by rewrite app_nil_r)).
      specialize (Hnone eq_refl). congruence. }
  rewrite decide_False; [done|]. intros [[t Ht]%prefix_app Hs].
  rewrite Ht, get_length_app in Hs. apply get_0_slash in Hs as [r ->].
  apply render_prefix in Ht as (Ha & r' & Hr); [|done..].
  apply strip_names_Some in Hr. rewrite Hnone in Hr; done.
Qed.
End MatchNames.

(** The string matching of [resolve] is matching of names. *)
Lemma match_preopen_gmatch g p root :
  Forall normal_name (names g) -> Forall normal_name (names p) ->
  join_suffix root <$> match_preopen (render g) (render p) = push_names root <$> gmatch g p.
Proof.
  intros Hg Hp. destruct (decide (names g = [])) as [Hn|Hn]; [by apply match_preopen_root|].
  unfold gmatch. destruct (names g) as [|n gn] eqn:Eg; [done|]. rewrite <- Eg in *. case_bool_decide as Ha.
  - destruct (strip_names (names g) (names p)) as [r|] eqn:Er.
    + apply strip_names_Some in Er. rewrite (match_preopen_below g p Hg Hp Hn r) by done.
      cbn [fmap option_fmap option_map]. f_equal. apply join_suffix_names.
      rewrite Er in Hp. by apply Forall_app in Hp as [_ ?].
    + by rewrite match_preopen_beside.
  - by rewrite match_preopen_beside.
Qed.

Lemma gmatch_normal g p ns :
  Forall normal_name (names p) -> gmatch g p = Some ns -> Forall normal_name ns.
Proof.
  intros Hp. unfold gmatch. destruct (names g) as [|n gn] eqn:E.
  - destruct (absolute g), (absolute p); naive_solver.
  - rewrite <- E. case_bool_decide; [|done]. intros Hs%strip_names_Some.
    rewrite Hs in Hp. by apply Forall_app in Hp as [_ ?].
Qed.

(** ** The preopen table *)

Lemma insert_preopen_perm x l : insert_preopen x l ≡ₚ x :: l.
Proof.
  induction l as [|y l IH]; simpl; [done|]. case_decide; [done|].
  rewrite IH. apply Permutation_swap.
Qed.

Lemma sort_preopens_perm l : sort_preopens l ≡ₚ l.
Proof.
  induction l as [|x l IH]; simpl; [done|]. by rewrite insert_preopen_perm, IH.
Qed.

Definition longer_first (l : list PreopenMapping) : Prop :=
  forall i j x y, l !! i = Some x -> l !! j = Some y -> (i <= j)%nat ->
    (String.length (guest y) <= String.length (guest x))%nat.

Lemma longer_first_cons x l :
  longer_first (x :: l) <->
  Forall (fun y => String.length (guest y) <= String.length (guest x))%nat l /\ longer_first l.
Proof.
  split.
  - intros H. split.
    + apply Forall_lookup. intros i y Hy. apply (H 0%nat (S i)); auto with lia.
    + intros i j y z Hy Hz Hij. apply (H (S i) (S j)); auto with lia.
  - intros [Hx H] [|i] [|j] y z; simpl; intros Hy Hz Hij; simplify_eq; try lia.
    + rewrite Forall_lookup in Hx. eauto.
    + apply (H i j); auto with lia.
Qed.

Lemma sort_preopens_sorted l : longer_first (sort_preopens l).
Proof.
  induction l as [|x l IH]; simpl; [by intros ????|].
  induction (sort_preopens l) as [|y l' IH']; simpl.
  { apply longer_first_cons. split; [done|]. by intros ????. }
  case_decide as Hxy.
  - apply longer_first_cons. split; [|done]. apply longer_first_cons in IH as [Hy _].
    constructor; [done|]. eapply Forall_impl; [exact Hy|]. simpl. lia.
  - apply longer_first_cons in IH as [Hy Hl']. apply longer_first_cons. split; [|by apply IH'].
    rewrite insert_preopen_perm. constructor; [lia|done].
Qed.

Lemma resolve_in_spec preopens p :
  Forall preopen_ok preopens -> Forall normal_name (names p) ->
  match resolve_in preopens (render p) with
  | Ok hp => exists i pre g ns,
      preopens !! i = Some pre /\ guest pre = render g /\ Forall normal_name (names g) /\
      gmatch g p = Some ns /\ hp = push_names (host pre) ns /\
      forall j pre' g', preopens !! j = Some pre' -> guest pre' = render g' ->
        Forall normal_name (names g') -> gmatch g' p <> None -> (i <= j)%nat
  | Err e => e = ENOTCAPABLE /\
      forall pre g, pre ∈ preopens -> guest pre = render g -> Forall normal_name (names g) ->
        gmatch g p = None
  end.
Proof.
  intros Hok Hp. induction Hok as [|pre preopens [Hh (g & Hg & Hgn)] _ IH]; simpl.
  { split; [done|]. by intros ?? []%elem_of_nil. }
  pose proof (match_preopen_gmatch g p (host pre) Hgn Hp) as Hm. rewrite <- Hg in Hm.
  assert (Huniq : forall g', guest pre = render g' -> Forall normal_name (names g') -> g' = g).
  { intros g' Hg' Hn'. apply render_inj; [done..|]. congruence. }
  destruct (match_preopen (guest pre) (render p)) as [suffix|] eqn:E; simpl in Hm.
  - destruct (gmatch g p) as [ns|] eqn:Ens; [|done]. injection Hm as ->.
    exists 0%nat, pre, g, ns. split_and!; auto with lia.
  - destruct (gmatch g p) as [ns|] eqn:Ens; [done|].
    destruct (resolve_in preopens (render p)) as [hp|e].
    + destruct IH as (i & pre' & g' & ns & H1 & H2 & H3 & H4 & H5 & Hmin).
      exists (S i), pre', g', ns. split_and!; try done.
      intros [|j] pre'' g'' Hj Hg'' Hn'' Hm''.
      * simplify_eq/=. by rewrite (Huniq g'' Hg'' Hn'') in Hm''.
      * apply le_n_S. by eapply Hmin.
    + destruct IH as [-> IH]. split; [done|]. intros pre' g' [->|Hin]%elem_of_cons Hg' Hn'.
      * by rewrite (Huniq g' Hg' Hn').
      * by eapply IH.
Qed.

(** What [resolve] returns, in terms of the names the guest path walks to. *)
Lemma resolve_Ok preopens path hp :
  Forall preopen_ok preopens -> resolve preopens path = Ok hp ->
  exists p i pre g ns,
    normalize_guest_path path = Ok (render p) /\ Forall normal_name (names p) /\
    preopens !! i = Some pre /\ guest pre = render g /\ Forall normal_name (names g) /\
    gmatch g p = Some ns /\ Forall normal_name ns /\ hp = push_names (host pre) ns /\
    forall j pre' g', preopens !! j = Some pre' -> guest pre' = render g' ->
      Forall normal_name (names g') -> gmatch g' p <> None -> (i <= j)%nat.
Proof.
  intros Hok. unfold resolve. destruct (normalize_guest_path path) as [n|e] eqn:En; simpl; [|done].
  apply normalize_guest_path_Ok in En as (_ & ns & Hns & ->). intros Hr.
  assert (Hn : Forall normal_name ns).
  { eapply normalize_parts_normal; [apply split_slash_pieces| |exact Hns]. done. }
  pose proof (resolve_in_spec preopens (GPath (starts_with "/" path) ns) Hok Hn) as Hspec.
  rewrite Hr in Hspec. destruct Hspec as (i & pre & g & r & H1 & H2 & H3 & H4 & H5 & H6).
  exists (GPath (starts_with "/" path) ns), i, pre, g, r. split_and!; try done.
  by eapply gmatch_normal in H4.
Qed.

Lemma push_names_app root a b : push_names root (a ++ b) = push_names (push_names root a) b.
Proof. apply fold_left_app. Qed.

(** * Examples *)

Example normalize_1 : normalize_guest_path "/data//./a/../b/" = Ok "/data/b"%string.
Proof. reflexivity. Qed.
Example normalize_2 : normalize_guest_path "a/../.." = Err ENOTCAPABLE.
Proof. reflexivity. Qed.
Example resolve_1 :
  resolve [{| guest := "/tmp"; host := "/srv/run" |}] "/tmp/data/ibdata1"
  = Ok "/srv/run/data/ibdata1"%string.
Proof. reflexivity. Qed.
