(* ===== verification/FdTable.v ===== *)
(** Guest descriptor tables.

    [HostFilesInner] and [HostSocketsInner] both hand out descriptors from a
    counter that only grows ([saturating_add]) and keep the open ones in a
    [HashMap].  [FdTable] is what the two promise to the imports that use them;
    the laws say what the table's operations do to the counter and the map, and
    the lemmas below follow from the laws alone. *)

From S2P Require Import Prelude.

Class FdTable (T A V : Type) := {
  ft_next : T -> Z;
  ft_entries : T -> gmap Z V;
  ft_value : A -> V;
  ft_insert : A -> T -> Z * T;
  ft_remove : Z -> T -> option V * T
}.

Class FdTableLaws (T A V : Type) `{FdTable T A V} : Prop := {
  ft_insert_fd : forall a t, (ft_insert a t).1 = ft_next t;
  ft_insert_next : forall a t,
    ft_next (ft_insert a t).2 = i32_saturating_add (ft_next t) 1;
  ft_insert_entries : forall a t,
    ft_entries (ft_insert a t).2 = <[ft_next t := ft_value a]> (ft_entries t);
  ft_remove_entry : forall fd t, (ft_remove fd t).1 = ft_entries t !! fd;
  ft_remove_next : forall fd t, ft_next (ft_remove fd t).2 = ft_next t;
  ft_remove_entries : forall fd t,
    ft_entries (ft_remove fd t).2 = delete fd (ft_entries t)
}.

Section FdTable.
Context {T A V : Type} `{FdTableLaws T A V}.
Variable base : Z.

(** The counter is an [i32] at or above the base, and every open descriptor
  was handed out before: it is below the counter, or the counter has
  reached [i32::MAX]. *)
Record fd_wf (t : T) : Prop := {
  wf_base : 0 <= base;
  wf_next : base <= ft_next t <= i32_max;
  wf_entry : forall fd, is_Some (ft_entries t !! fd) ->
    base <= fd <= i32_max /\ (fd < ft_next t \/ ft_next t = i32_max)
  }.

(** Opening in sequence: the descriptors handed out, and the table after. *)
Fixpoint insert_all (l : list A) (t : T) : list Z * T :=
  match l with
  | [] => ([], t)
  | a :: l => let '(fd, t) := ft_insert a t in
              let '(fds, t) := insert_all l t in (fd :: fds, t)
  end.

Lemma fd_wf_insert a t : fd_wf t -> fd_wf (ft_insert a t).2.
Proof.
  intros [Hb Hn He]. constructor; [done| |].
  - rewrite ft_insert_next, i32_saturating_succ; bounds.
  - intros fd. rewrite ft_insert_entries, ft_insert_next, i32_saturating_succ by bounds.
    destruct (decide (fd = ft_next t)) as [->|Hne].
    + intros _. bounds.
    + rewrite lookup_insert_ne by done. intros Hfd. destruct (He fd Hfd). bounds.
Qed.

Lemma fd_wf_remove fd t : fd_wf t -> fd_wf (ft_remove fd t).2.
Proof.
  intros [Hb Hn He]. constructor; [done| |].
  - by rewrite ft_remove_next.
  - intros fd' Hfd'. rewrite ft_remove_next. apply He.
    rewrite ft_remove_entries in Hfd'. apply lookup_delete_is_Some in Hfd'. tauto.
Qed.

(** A new descriptor is not open yet, unless the counter has saturated. *)
Lemma ft_insert_fresh a t :
  fd_wf t -> ft_next t < i32_max -> ft_entries t !! (ft_insert a t).1 = None.
Proof.
  intros Hwf Hlt. rewrite ft_insert_fd. apply eq_None_not_Some. intros Hs.
  destruct (wf_entry t Hwf _ Hs). lia.
Qed.

(** Below saturation, opening and closing one descriptor leave the others. *)
Lemma ft_insert_other a t fd :
  fd_wf t -> ft_next t < i32_max -> is_Some (ft_entries t !! fd) ->
  ft_entries (ft_insert a t).2 !! fd = ft_entries t !! fd.
Proof.
  intros Hwf Hlt Hs. rewrite ft_insert_entries. apply lookup_insert_ne.
  destruct (wf_entry t Hwf _ Hs). lia.
Qed.

Lemma ft_insert_lookup a t :
  ft_entries (ft_insert a t).2 !! (ft_insert a t).1 = Some (ft_value a).
Proof. by rewrite ft_insert_entries, ft_insert_fd, lookup_insert_eq. Qed.

Lemma insert_all_fds l t :
  fd_wf t ->
  (insert_all l t).1 =
    (fun i => Z.min i32_max (ft_next t + Z.of_nat i)) <$> seq 0 (length l).
Proof.
  revert t. induction l as [|a l IH]; intros t Hwf; [done|].
  pose proof (fd_wf_insert a t Hwf) as Hwf'. pose proof (wf_next t Hwf) as Hn.
  pose proof (ft_insert_next a t) as Hnext.
  pose proof (ft_insert_fd a t) as Hfd. simpl.
  destruct (ft_insert a t) as [fd t1]. simpl in *. specialize (IH t1 Hwf').
  destruct (insert_all l t1) as [fds t2]. simpl in *. subst fd. f_equal; [lia|].
  rewrite IH, <- fmap_S_seq, <- list_fmap_compose. apply list_fmap_ext. intros i x _.
  simpl. rewrite Hnext. rewrite i32_saturating_succ by (pose proof (wf_base t Hwf); bounds). lia.
Qed.
End FdTable.

Arguments fd_wf {T A V _} base t.
