(* ===== verification/HostFiles.v ===== *)
(** The host file table and the imports [waasmtime_mysql_files]
    (src/host_files.rs).

    The file compiles to different code per platform; [Platform] plays the part
    of its [cfg(unix)] and [cfg(windows)] attributes.  The operating system and
    [std::fs] are a parameter, [HostFs]: a host state and one function per call
    the code makes. *)

From S2P Require Import Prelude.
From S2P Require Import Prog.
From S2P Require Import GuestErrno.
From S2P Require Import GuestMemory.
From S2P Require Import HostPath.
From S2P Require Import Cli.
From S2P Require Import GuestPath.
From S2P Require Import FdTable.
Local Open Scope rust_scope.
Local Open Scope prog_scope.

Inductive Platform := Unix | Windows.
#[export] Instance Platform_eq_dec : EqDecision Platform.
Proof. solve_decision. Defined.

(** * The host *)

(** [std::io::Result]: an error carries the OS error code, or none. *)
Inductive io_result (A : Type) : Type :=
| IoOk (a : A)
| IoErr (raw_os_error : option Z).
Arguments IoOk {A} a.
Arguments IoErr {A} raw_os_error.

(** [std::fs::OpenOptions]. *)
Record OpenOptions := {
  opt_read : bool; opt_write : bool; opt_append : bool;
  opt_create : bool; opt_create_new : bool; opt_truncate : bool
}.

Inductive SeekFrom := SeekStart (n : Z) | SeekCurrent (n : Z) | SeekEnd (n : Z).

(** What the file imports ask of the host. [fs_read_at] also returns the buffer
    after the call; [fs_setlk] is [fcntl(F_SETLK)] for a write lock on the whole
    file, with the [errno] after it; a Windows call comes with [GetLastError];
    [win_create_file] opens an existing directory for writing. *)
Class HostFs (H File : Type) := {
  fs_open : OpenOptions -> string -> H -> io_result File * H;
  fs_close : File -> H -> H;
  fs_read_at : File -> list Z -> Z -> H -> (io_result Z * list Z) * H;
  fs_write_at : File -> list Z -> Z -> H -> io_result Z * H;
  fs_seek : File -> SeekFrom -> H -> io_result Z * H;
  fs_set_len : File -> Z -> H -> io_result unit * H;
  fs_sync_data : File -> H -> io_result unit * H;
  fs_sync_all : File -> H -> io_result unit * H;
  fs_setlk : File -> H -> (Z * Z) * H;
  fs_canonicalize : string -> H -> io_result string * H;
  win_create_file_mapping : list Z -> H -> (Z * Z) * H;
  win_create_file : string -> H -> (Z * Z) * H;
  win_flush_file_buffers : Z -> H -> (Z * Z) * H;
  win_close_handle : Z -> H -> H;
  (** [to_string_lossy().to_uppercase().encode_utf16()] of a path. *)
  upper_utf16 : string -> list Z
}.

Definition ERROR_ALREADY_EXISTS : Z := 183.
Definition INVALID_HANDLE_VALUE : Z := -1.
Definition SEEK_SET : Z := 0.
Definition SEEK_CUR : Z := 1.
Definition SEEK_END : Z := 2.

(** * Data *)

Definition GUEST_FD_BASE : Z := 20000.
Definition WASI_O_APPEND : Z := 1.
Definition WASI_O_CREAT : Z := Z.shiftl 1 12.
Definition WASI_O_DIRECTORY : Z := Z.shiftl 2 12.
Definition WASI_O_EXCL : Z := Z.shiftl 4 12.
Definition WASI_O_TRUNC : Z := Z.shiftl 8 12.
Definition WASI_O_RDONLY : Z := 67108864.
Definition WASI_O_WRONLY : Z := 268435456.

(** [WindowsFileLock]: the handle of a named kernel object. *)
Record WindowsFileLock := { handle : Z }.

(** [HostFilesInner]. [lock_paths] and [locks] exist on Windows only; the Unix
    code never touches them. *)
Record HostFilesInner (File : Type) := {
  next_fd : Z;
  files : gmap Z File;
  lock_paths : gmap Z string;
  locks : gmap string WindowsFileLock;
  preopens : list PreopenMapping
}.
Arguments next_fd {File} _.
Arguments files {File} _.
Arguments lock_paths {File} _.
Arguments locks {File} _.
Arguments preopens {File} _.
Arguments Build_HostFilesInner {File} _ _ _ _ _.

Definition with_locks {File} (f : gmap string WindowsFileLock -> gmap string WindowsFileLock)
    (t : HostFilesInner File) : HostFilesInner File :=
  Build_HostFilesInner (next_fd t) (files t) (lock_paths t) (f (locks t)) (preopens t).

(** The critical section of [open]: the new descriptor and its entries. *)
Definition insert_file {File} (plat : Platform) (entry : File * string)
    (t : HostFilesInner File) : Z * HostFilesInner File :=
  let fd := next_fd t in
  (fd,
   Build_HostFilesInner (i32_saturating_add (next_fd t) 1) (<[fd := entry.1]> (files t))
     (match plat with Windows => <[fd := entry.2]> (lock_paths t) | Unix => lock_paths t end)
     (locks t) (preopens t)).

(** The critical section of [close]. *)
Definition remove_file {File} (plat : Platform) (fd : Z)
    (t : HostFilesInner File) : option File * HostFilesInner File :=
  match files t !! fd with
  | Some file =>
      (Some file,
       Build_HostFilesInner (next_fd t) (delete fd (files t))
         (match plat with Windows => delete fd (lock_paths t) | Unix => lock_paths t end)
         (locks t) (preopens t))
  | None => (None, t)
  end.

(** What the threads share: the memory, the table and the host. *)
Record FileSt (H File : Type) := { mem : GuestMem; inner : HostFilesInner File; os : H }.
Arguments mem {H File} _.
Arguments inner {H File} _.
Arguments os {H File} _.
Arguments Build_FileSt {H File} _ _ _.

Definition mem_lens {H File} : lens (FileSt H File) GuestMem :=
  Lens mem (fun m s => Build_FileSt m (inner s) (os s)).
Definition with_inner {H File} (t : HostFilesInner File) (s : FileSt H File) : FileSt H File :=
  Build_FileSt (mem s) t (os s).
Definition with_os {H File} (h : H) (s : FileSt H File) : FileSt H File :=
  Build_FileSt (mem s) (inner s) h.

(** * [HostFiles::new] *)

(** [io_error_from_errno]. *)
Definition io_error_from_errno (errno : Z) : option Z := Some errno.

Fixpoint cli_mappings (l : list Preopen) : io_result (list PreopenMapping) :=
  match l with
  | [] => IoOk []
  | p :: l =>
      match normalize_guest_path (preopen_guest_path p) with
      | Err e => IoErr (io_error_from_errno e)
      | Ok g =>
          match cli_mappings l with
          | IoErr e => IoErr e
          | IoOk ms => IoOk ({| guest := g; host := preopen_host_path p |} :: ms)
          end
      end
  end.

Definition default_mapping (cwd : string) : PreopenMapping :=
  {| guest := match normalize_guest_path "." with Ok g => g | Err _ => "."%string end;
     host := cwd |}.

(** [HostFiles::new]; [cwd] is the result of [std::env::current_dir()]. *)
Definition new {File} (cwd : io_result string) (cli : Cli) : io_result (HostFilesInner File) :=
  let table ps := Build_HostFilesInner GUEST_FD_BASE ∅ ∅ ∅ (sort_preopens ps) in
  if no_default_preopen cli then
    match cli_mappings (cli_preopens cli) with
    | IoErr e => IoErr e
    | IoOk ms => IoOk (table ms)
    end
  else
    match cwd with
    | IoErr e => IoErr e
    | IoOk dir =>
        match cli_mappings (cli_preopens cli) with
        | IoErr e => IoErr e
        | IoOk ms => IoOk (table (default_mapping dir :: ms))
        end
    end.

(** * Operations *)

Section Operations.
Context {H File : Type} `{!HostFs H File} `{libc : LibcErrno} (plat : Platform).
#[local] Abbreviation St := (FileSt H File).
#[local] Abbreviation call := (prog St).

(** [io_errno]. *)
Definition io_errno (raw_os_error : option Z) : Z :=
  match raw_os_error with
  | None => EIO
  | Some code =>
      match plat with
      | Unix => from_host_errno code
      | Windows => from_windows_error code
      end
  end.

(** A call of the host outside the table's lock. *)
Definition host_call {A} (f : H -> A * H) : call A :=
  atomically (fun s => let '(a, h) := f (os s) in (a, with_os h s)).

(** A critical section that uses the open file [fd], or answers [EBADF]. *)
Definition with_file {A} (fd : Z) (bad : A) (f : File -> H -> A * H) : call A :=
  atomically (fun s =>
    match files (inner s) !! fd with
    | None => (bad, s)
    | Some file => let '(a, h) := f file (os s) in (a, with_os h s)
    end).

(** The flags of an [open] as [OpenOptions]. *)
Definition open_options (flags : Z) : OpenOptions :=
  let set bit := negb (Z.land flags bit =? 0) in
  let write := set WASI_O_WRONLY in
  let read := set WASI_O_RDONLY || negb write in
  let create := set WASI_O_CREAT in
  let excl := set WASI_O_EXCL in
  {| opt_read := read;
     opt_write := write;
     opt_append := set WASI_O_APPEND;
     opt_create := create && negb excl;
     opt_create_new := create && excl;
     opt_truncate := set WASI_O_TRUNC |}.

(** [HostFiles::open]. An entry the insertion replaces is dropped, which
  closes its file. *)
Definition open (guest_path : string) (flags mode : Z) : call Z :=
  host_path <- read (fun s => resolve (preopens (inner s)) guest_path);;
  or_return neg_errno host_path (fun host_path =>
    if negb (Z.land flags WASI_O_DIRECTORY =? 0) then Ret (neg_errno EISDIR)
    else
      file <- host_call (fs_open (open_options flags) host_path);;
      match file with
      | IoErr err => Ret (neg_errno (io_errno err))
      | IoOk file =>
          lock_path <-
            match plat with
            | Unix => Ret host_path
            | Windows =>
                path <- host_call (fs_canonicalize host_path);;
                Ret (match path with IoOk p => p | IoErr _ => host_path end)
            end;;
          atomically (fun s =>
            let replaced := files (inner s) !! next_fd (inner s) in
            let '(fd, t) := insert_file plat (file, lock_path) (inner s) in
            let h := match replaced with Some old => fs_close old (os s) | None => os s end in
            (fd, Build_FileSt (mem s) t h))
      end).

(** [HostFiles::close]. *)
Definition close (fd : Z) : call Z :=
  atomically (fun s =>
    match remove_file plat fd (inner s) with
    | (Some file, t) => (0, Build_FileSt (mem s) t (fs_close file (os s)))
    | (None, _) => (neg_errno EBADF, s)
    end).

(** The [i32] for a byte count. *)
Definition count_result (r : io_result Z) : Z :=
  match r with
  | IoOk n => default (neg_errno EOVERFLOW) (i32_try_from n)
  | IoErr err => neg_errno (io_errno err)
  end.

(** [HostFiles::pread]: the result and the buffer after the call. *)
Definition pread (fd : Z) (buf : list Z) (offset : Z) : call (Z * list Z) :=
  with_file fd (neg_errno EBADF, buf) (fun file h =>
    let '((r, buf), h) := fs_read_at file buf offset h in ((count_result r, buf), h)).

(** [HostFiles::pwrite]. *)
Definition pwrite (fd : Z) (buf : list Z) (offset : Z) : call Z :=
  with_file fd (neg_errno EBADF) (fun file h =>
    let '(r, h) := fs_write_at file buf offset h in (count_result r, h)).

(** The [match whence] of [seek]. *)
Definition seek_from (offset whence : Z) : option SeekFrom :=
  if whence =? SEEK_SET then SeekStart <$> unsigned_try_from offset
  else if whence =? SEEK_CUR then Some (SeekCurrent offset)
  else if whence =? SEEK_END then Some (SeekEnd offset)
  else None.

(** [HostFiles::seek]. *)
Definition seek (fd offset whence : Z) : call Z :=
  with_file fd (neg_errno EBADF) (fun file h =>
    match seek_from offset whence with
    | None => (neg_errno EINVAL, h)
    | Some from =>
        let '(r, h) := fs_seek file from h in
        (match r with
         | IoOk pos => default (neg_errno EOVERFLOW) (i64_try_from pos)
         | IoErr err => neg_errno (io_errno err)
         end, h)
    end).

(** The [i32] for a call without a value. *)
Definition unit_result (r : io_result unit) : Z :=
  match r with IoOk _ => 0 | IoErr err => neg_errno (io_errno err) end.

(** [HostFiles::truncate]. *)
Definition truncate (fd size : Z) : call Z :=
  with_file fd (neg_errno EBADF) (fun file h =>
    let '(r, h) := fs_set_len file size h in (unit_result r, h)).

(** [HostFiles::sync]. *)
Definition sync (fd : Z) (data_only : bool) : call Z :=
  with_file fd (neg_errno EBADF) (fun file h =>
    let '(r, h) := if data_only then fs_sync_data file h else fs_sync_all file h in
    (unit_result r, h)).

(** [sync_directory] (windows). *)
Definition sync_directory (path : string) : call (io_result unit) :=
  opened <- host_call (win_create_file path);;
  let '(handle, last_error) := (opened : Z * Z) in
  if handle =? INVALID_HANDLE_VALUE then Ret (IoErr (Some last_error))
  else
    flushed <- host_call (win_flush_file_buffers handle);;
    let '(ok, last_error) := (flushed : Z * Z) in
    let result := if negb (ok =? 0) then IoOk tt else IoErr (Some last_error) in
    host_call (fun h => (tt, win_close_handle handle h));;
    Ret result.

(** [File::open(parent).and_then(|directory| directory.sync_all())]. *)
Definition sync_opened (path : string) : call (io_result unit) :=
  directory <- host_call (fs_open {| opt_read := true; opt_write := false;
    opt_append := false; opt_create := false; opt_create_new := false;
    opt_truncate := false |} path);;
  match directory with
  | IoErr err => Ret (IoErr err)
  | IoOk directory =>
      result <- host_call (fs_sync_all directory);;
      host_call (fun h => (tt, fs_close directory h));;
      Ret result
  end.

(** [HostFiles::sync_parent]. *)
Definition sync_parent (guest_path : string) : call Z :=
  parent <- read (fun s => resolve_parent (preopens (inner s)) guest_path);;
  or_return neg_errno parent (fun parent =>
    result <- match plat with
              | Unix => sync_opened parent
              | Windows => sync_directory parent
              end;;
    Ret (unit_result result)).

(** [windows_lock_name]: an FNV-1a hash of the path's code units, in hex. *)
Definition fnv_step (hash code_unit : Z) : Z :=
  (Z.lxor hash code_unit * 1099511628211) mod 2 ^ 64.
Definition hex_digit (n : Z) : Z := if n <? 10 then 48 + n else 87 + n.
Fixpoint hex_digits (n : nat) (x : Z) : list Z :=
  match n with
  | O => []
  | S n => hex_digits n (x / 16) ++ [hex_digit (x mod 16)]
  end.
Definition string_bytes (s : string) : list Z :=
  (fun c => Z.of_N (Ascii.N_of_ascii c)) <$> String.list_ascii_of_string s.
Definition lock_hash (path : string) : Z :=
  fold_left fnv_step (upper_utf16 path) 14695981039346656037.
Definition windows_lock_name (path : string) : list Z :=
  string_bytes "Local\wasmtime-mysql-file-" ++ hex_digits 16 (lock_hash path) ++ [0].

(** [HostFiles::lock_exclusive], one critical section on either platform. *)
Definition lock_exclusive (fd : Z) : call Z :=
  match plat with
  | Unix =>
      with_file fd (neg_errno EBADF) (fun file h =>
        let '((rc, errno), h) := fs_setlk file h in
        (if rc =? 0 then 0 else neg_errno (io_errno (Some errno)), h))
  | Windows =>
      atomically (fun s =>
        match lock_paths (inner s) !! fd with
        | None => (neg_errno EBADF, s)
        | Some lock_path =>
            match locks (inner s) !! lock_path with
            | Some _ => (0, s)
            | None =>
                match files (inner s) !! fd with
                | None => (neg_errno EBADF, s)
                | Some _ =>
                    let '((handle, last_error), h) :=
                      win_create_file_mapping (windows_lock_name lock_path) (os s) in
                    if handle =? 0 then
                      (neg_errno (io_errno (Some last_error)), with_os h s)
                    else if last_error =? ERROR_ALREADY_EXISTS then
                      (neg_errno EAGAIN, with_os (win_close_handle handle h) s)
                    else
                      (0, Build_FileSt (mem s)
                            (with_locks <[lock_path := {| handle := handle |}]> (inner s)) h)
                end
            end
        end)
  end.

(** * The imports ([add_to_linker]) *)

Definition import_open (path_ptr flags mode : Z) : call Z :=
  path <- zoom mem_lens (read_cstr path_ptr);;
  or_return neg_errno path (fun path => open path flags mode).

Definition import_pread (fd buf_ptr len offset : Z) : call Z :=
  or_return neg_errno (checked_len len) (fun len =>
    r <- pread fd (replicate (Z.to_nat len) 0) (as_u64 offset);;
    let '(rc, buf) := (r : Z * list Z) in
    if rc <=? 0 then Ret rc
    else if Z.of_nat (length buf) <? rc then Panic
    else
      w <- zoom mem_lens (write_guest buf_ptr (take (Z.to_nat rc) buf));;
      or_return neg_errno w (fun _ => Ret rc)).

Definition import_pwrite (fd buf_ptr len offset : Z) : call Z :=
  buf <- zoom mem_lens (read_guest buf_ptr len);;
  or_return neg_errno buf (fun buf => pwrite fd buf (as_u64 offset)).

Definition import_truncate (fd size : Z) : call Z :=
  match unsigned_try_from size with
  | Some size => truncate fd size
  | None => Ret (neg_errno EINVAL)
  end.

Definition import_sync (fd data_only : Z) : call Z := sync fd (negb (data_only =? 0)).

Definition import_sync_parent (path_ptr : Z) : call Z :=
  path <- zoom mem_lens (read_cstr path_ptr);;
  or_return neg_errno path sync_parent.

(** The nine functions the guest can call, with their [i32] and [i64]
  arguments. *)
Inductive FileCall :=
| FOpen (path_ptr flags mode : Z)
| FClose (fd : Z)
| FPread (fd buf_ptr len offset : Z)
| FPwrite (fd buf_ptr len offset : Z)
| FSeek (fd offset whence : Z)
| FTruncate (fd size : Z)
| FSync (fd data_only : Z)
| FSyncParent (path_ptr : Z)
| FLockExclusive (fd : Z).

Definition file_import (c : FileCall) : call Z :=
  match c with
  | FOpen path_ptr flags mode => import_open path_ptr flags mode
  | FClose fd => close fd
  | FPread fd buf_ptr len offset => import_pread fd buf_ptr len offset
  | FPwrite fd buf_ptr len offset => import_pwrite fd buf_ptr len offset
  | FSeek fd offset whence => seek fd offset whence
  | FTruncate fd size => import_truncate fd size
  | FSync fd data_only => import_sync fd data_only
  | FSyncParent path_ptr => import_sync_parent path_ptr
  | FLockExclusive fd => lock_exclusive fd
  end.
End Operations.
