(* ===== verification/MemHost.v ===== *)
(** A small in-memory host: files, directories, record locks and named kernel
    objects of one machine.  It gives the host parameter of the development a
    concrete value, on which the theorems' hypotheses can be checked and the
    imports run. *)

From S2P Require Import Prelude.
From S2P Require Import HostPath.
From S2P Require Import HostFiles.

(** An open file: its path, whether it may be read and written, its cursor. *)
Record mem_handle := {
  mh_path : string; mh_read : bool; mh_write : bool; mh_append : bool; mh_pos : Z
}.

Record MemFs := {
  disk : gmap string (list Z);
  handles : gmap Z mem_handle;
  next_handle : Z;
  (** Paths locked by another process. *)
  foreign_locks : gset string;
  (** Named kernel objects: the name and whether this process holds it. *)
  objects : gset (list Z);
  synced : list string
}.

Definition set_disk (d : gmap string (list Z)) (h : MemFs) : MemFs :=
  Build_MemFs d (handles h) (next_handle h) (foreign_locks h) (objects h) (synced h).
Definition set_handles (t : gmap Z mem_handle) (h : MemFs) : MemFs :=
  Build_MemFs (disk h) t (next_handle h) (foreign_locks h) (objects h) (synced h).
Definition set_objects (o : gset (list Z)) (h : MemFs) : MemFs :=
  Build_MemFs (disk h) (handles h) (next_handle h) (foreign_locks h) o (synced h).
Definition add_synced (p : string) (h : MemFs) : MemFs :=
  Build_MemFs (disk h) (handles h) (next_handle h) (foreign_locks h) (objects h) (p :: synced h).
Definition add_handle (mh : mem_handle) (h : MemFs) : MemFs :=
  Build_MemFs (disk h) (<[next_handle h := mh]> (handles h)) (next_handle h + 1)
    (foreign_locks h) (objects h) (synced h).

Definition E_BADF : Z := 9.
Definition E_EXIST : Z := 17.
Definition E_NOENT : Z := 2.
Definition E_INVAL : Z := 22.
Definition E_AGAIN : Z := 11.

(** A directory is a disk entry too, one that is only opened for reading. *)
Definition mem_open (o : OpenOptions) (path : string) (h : MemFs) : io_result Z * MemFs :=
  let writes := opt_write o || opt_append o in
  if negb (opt_read o || writes) then (IoErr (Some E_INVAL), h)
  else if negb writes && (opt_truncate o || opt_create o || opt_create_new o)
  then (IoErr (Some E_INVAL), h)
  else
    let mh := {| mh_path := path; mh_read := opt_read o; mh_write := writes;
                 mh_append := opt_append o; mh_pos := 0 |} in
    match disk h !! path with
    | Some data =>
        if opt_create_new o then (IoErr (Some E_EXIST), h)
        else
          let h' := if opt_truncate o then set_disk (<[path := []]> (disk h)) h else h in
          (IoOk (next_handle h), add_handle mh h')
    | None =>
        if opt_create o || opt_create_new o
        then (IoOk (next_handle h), add_handle mh (set_disk (<[path := []]> (disk h)) h))
        else (IoErr (Some E_NOENT), h)
    end.

Definition mem_data (f : Z) (h : MemFs) : option (mem_handle * list Z) :=
  match handles h !! f with
  | Some mh => match disk h !! mh_path mh with Some d => Some (mh, d) | None => None end
  | None => None
  end.

Definition mem_read_at (f : Z) (buf : list Z) (offset : Z) (h : MemFs)
  : (io_result Z * list Z) * MemFs :=
  match mem_data f h with
  | Some (mh, d) =>
      if negb (mh_read mh) then ((IoErr (Some E_BADF), buf), h)
      else if 2 ^ 63 <=? offset then ((IoErr (Some E_INVAL), buf), h)
      else
        let got := take (length buf) (drop (Z.to_nat offset) d) in
        ((IoOk (Z.of_nat (length got)), got ++ drop (length got) buf), h)
  | None => ((IoErr (Some E_BADF), buf), h)
  end.

Definition mem_write_at (f : Z) (bytes : list Z) (offset : Z) (h : MemFs) : io_result Z * MemFs :=
  match mem_data f h with
  | Some (mh, d) =>
      if negb (mh_write mh) then (IoErr (Some E_BADF), h)
      else if 2 ^ 63 <=? offset then (IoErr (Some E_INVAL), h)
      else
        let offset := if mh_append mh then length d else Z.to_nat offset in
        (IoOk (Z.of_nat (length bytes)),
         set_disk (<[mh_path mh := write_bytes offset bytes d]> (disk h)) h)
  | None => (IoErr (Some E_BADF), h)
  end.

Definition mem_seek (f : Z) (from : SeekFrom) (h : MemFs) : io_result Z * MemFs :=
  match mem_data f h with
  | Some (mh, d) =>
      let pos := match from with
                 | SeekStart n => n
                 | SeekCurrent n => mh_pos mh + n
                 | SeekEnd n => Z.of_nat (length d) + n
                 end in
      if pos <? 0 then (IoErr (Some E_INVAL), h)
      else
        (IoOk pos,
         set_handles (<[f := {| mh_path := mh_path mh; mh_read := mh_read mh;
           mh_write := mh_write mh; mh_append := mh_append mh; mh_pos := pos |}]> (handles h)) h)
  | None => (IoErr (Some E_BADF), h)
  end.

Definition mem_set_len (f size : Z) (h : MemFs) : io_result unit * MemFs :=
  match mem_data f h with
  | Some (mh, d) =>
      if negb (mh_write mh) then (IoErr (Some E_INVAL), h)
      else
        (IoOk tt,
         set_disk (<[mh_path mh := take (Z.to_nat size) (d ++
           replicate (Z.to_nat size - length d) 0)]> (disk h)) h)
  | None => (IoErr (Some E_BADF), h)
  end.

Definition mem_sync (f : Z) (h : MemFs) : io_result unit * MemFs :=
  match handles h !! f with
  | Some mh => (IoOk tt, add_synced (mh_path mh) h)
  | None => (IoErr (Some E_BADF), h)
  end.

Definition mem_setlk (f : Z) (h : MemFs) : (Z * Z) * MemFs :=
  match handles h !! f with
  | Some mh => if decide (mh_path mh ∈ foreign_locks h) then ((-1, E_AGAIN), h) else ((0, 0), h)
  | None => ((-1, E_BADF), h)
  end.

(** ASCII only. *)
Definition ascii_upper (b : Z) : Z := if (97 <=? b) && (b <=? 122) then b - 32 else b.

#[export] Instance mem_fs : HostFs MemFs Z := {|
  fs_open := mem_open;
  fs_close f h := set_handles (delete f (handles h)) h;
  fs_read_at := mem_read_at;
  fs_write_at := mem_write_at;
  fs_seek := mem_seek;
  fs_set_len := mem_set_len;
  fs_sync_data := mem_sync;
  fs_sync_all := mem_sync;
  fs_setlk := mem_setlk;
  fs_canonicalize p h := (IoOk p, h);
  win_create_file_mapping name h :=
    if decide (name ∈ objects h) then ((1, ERROR_ALREADY_EXISTS), h)
    else ((2, 0), set_objects ({[name]} ∪ objects h) h);
  win_create_file p h := ((3, 0), h);
  win_flush_file_buffers handle h := ((1, 0), h);
  win_close_handle handle h := h;
  upper_utf16 p := ascii_upper <$> string_bytes p
|}.

Definition mem_fs_init (d : gmap string (list Z)) : MemFs :=
  Build_MemFs d ∅ 100 ∅ ∅ [].
