(* ===== verification/Sandbox.v ===== *)
(** The sandbox of the file imports: which host paths a guest path can reach,
    for the preopen table [HostFiles::new] builds from a command line. *)

From S2P Require Import Prelude.
From S2P Require Import GuestErrno.
From S2P Require Import HostPath.
From S2P Require Import Cli.
From S2P Require Import GuestPath.
From S2P Require Import HostFiles.
Local Open Scope rust_scope.

(** * Specification *)

(** Command lines whose preopens went through their parser, run in a directory
    with a name. *)
Definition cli_parsed (cli : Cli) : Prop :=
  Forall (fun p => exists v, preopen_from_str v = Parsed p) (cli_preopens cli).
Definition cwd_named (cwd : io_result string) : Prop :=
  forall dir, cwd = IoOk dir -> dir <> ""%string.

(** A path that extends the host directory of a preopen by ordinary names. *)
Definition below_preopen (ps : list PreopenMapping) (path : string) : Prop :=
  exists p ns, p ∈ ps /\ Forall normal_name ns /\
    components path = components (host p) ++ (Normal <$> ns).

(** The only other path a call can reach: the directory that holds a preopened
    one, when another preopen covers it. *)
Definition above_preopen (ps : list PreopenMapping) (path : string) : Prop :=
  (exists p, p ∈ ps /\ path_parent (host p) = Some path) /\
  exists p, p ∈ ps /\ path_starts_with path (host p).

Definition contained (ps : list PreopenMapping) (path : string) : Prop :=
  below_preopen ps path \/ above_preopen ps path.

(** * Lemmas *)

Lemma cli_mappings_ok l ms :
  Forall (fun p => exists v, preopen_from_str v = Parsed p) l ->
  cli_mappings l = IoOk ms -> Forall preopen_ok ms.
Proof.
  intros Hl. revert ms. induction Hl as [|p l [v Hv] _ IH]; intros ms; simpl; [by intros [= <-]|].
  destruct (normalize_guest_path _) as [g|e] eqn:Eg; [|done].
  destruct (cli_mappings l) as [ms'|e']; [|done]. intros [= <-]. constructor; [|by apply IH].
  unfold preopen_from_str in Hv. destruct (split_once_eq v) as [[a b]|]; [|done].
  case_decide; [done|]. case_decide; [done|]. injection Hv as <-. simpl in *.
  apply normalize_guest_path_Ok in Eg as (_ & ns & Hns & ->). constructor; simpl; [done|].
  eexists; split; [done|]. simpl.
  eapply normalize_parts_normal; [apply split_slash_pieces| |exact Hns]. done.
Qed.

Lemma default_mapping_ok dir : dir <> ""%string -> preopen_ok (default_mapping dir).
Proof. intros Hd. constructor; [done|]. by exists (GPath false []). Qed.

(** The table [new] starts from. *)
Lemma new_table {File} cwd cli (t : HostFilesInner File) :
  cli_parsed cli -> cwd_named cwd -> new cwd cli = IoOk t ->
  t = Build_HostFilesInner GUEST_FD_BASE ∅ ∅ ∅ (preopens t) /\
  Forall preopen_ok (preopens t) /\ longer_first (preopens t).
Proof.
  intros Hcli Hcwd Hnew.
  assert (exists ms, t = Build_HostFilesInner GUEST_FD_BASE ∅ ∅ ∅ (sort_preopens ms) /\
    Forall preopen_ok ms) as (ms & -> & Hms).
  { unfold new in Hnew. destruct (no_default_preopen cli).
    - destruct (cli_mappings _) as [ms|] eqn:E; [|done]. injection Hnew as <-.
      eexists; split; [done|]. by eapply cli_mappings_ok.
    - destruct cwd as [dir|]; [|done]. destruct (cli_mappings _) as [ms|] eqn:E; [|done].
      injection Hnew as <-. exists (default_mapping dir :: ms). split; [done|].
      constructor; [|by eapply cli_mappings_ok].
      by apply default_mapping_ok, Hcwd. }
  simpl. split_and!; [done| |apply sort_preopens_sorted]. by rewrite sort_preopens_perm.
Qed.

Section Table.
Context (ps : list PreopenMapping) (Hok : Forall preopen_ok ps).

Lemma resolve_names path hp :
  resolve ps path = Ok hp ->
  exists p ns, p ∈ ps /\ Forall normal_name ns /\ host p <> ""%string /\
    hp = push_names (host p) ns.
Proof using Hok.
  intros Hr. apply resolve_Ok in Hr as (g & i & p & g' & ns & _ & _ & Hi & _ & _ & _ & Hns & -> & _);
    [|done]. apply list_elem_of_lookup_2 in Hi. exists p, ns. split_and!; try done.
  rewrite Forall_forall in Hok. by apply Hok.
Qed.

Lemma resolve_below path hp : resolve ps path = Ok hp -> below_preopen ps hp.
Proof using Hok.
  intros (p & ns & Hp & Hns & Hh & ->)%resolve_names. exists p, ns.
  split_and!; try done. by apply components_push_names.
Qed.

(** The parent of a path strictly below a preopen, and of a preopen itself. *)
Lemma resolve_parent_Ok path hp :
  resolve_parent ps path = Ok hp -> contained ps hp.
Proof using Hok.
  unfold resolve_parent. destruct (resolve ps path) as [q|e] eqn:Hr; simpl; [|done].
  destruct (path_parent q) as [r|] eqn:Hq; simpl; [|done].
  case_decide as Hex; [|done]. intros [= <-].
  apply resolve_names in Hr as (p & ns & Hp & Hns & Hh & ->).
  destruct ns as [|c ns _] using rev_ind.
  - right. split; [by eauto|]. by apply Exists_exists in Hex.
  - left. rewrite push_names_app in Hq. apply Forall_app in Hns as [Hns [Hc _]%Forall_cons].
    destruct (components_push_names (host p) ns Hh Hns) as [Hne Hcp].
    destruct (path_parent_push _ c Hne Hc) as (q & Hq' & Hcq). simpl in Hq.
    assert (q = r) as -> by congruence. exists p, ns. split_and!; try done. by rewrite Hcq.
Qed.
End Table.

(** What [normalize_guest_path] answers, on the names of the path. *)
Lemma normalize_guest_path_names path :
  match normalize_guest_path path with
  | Err e =>
      (e = ENOENT /\ path = ""%string) \/
      (e = ENOTCAPABLE /\ path <> ""%string /\ escapes (split_slash path))
  | Ok n =>
      path <> ""%string /\ ~ escapes (split_slash path) /\
      exists ns, n = render (GPath (starts_with "/" path) ns) /\ Forall normal_name ns /\
        normalize_parts (split_slash path) [] = Ok ns
  end.
Proof.
  pose proof (normalize_parts_depth (split_slash path) []) as Hd.
  destruct (normalize_guest_path path) as [n|e] eqn:E.
  - apply normalize_guest_path_Ok in E as (Hp & ns & Hns & ->). rewrite Hns in Hd.
    assert (Forall normal_name ns).
    { eapply normalize_parts_normal; [apply split_slash_pieces| |exact Hns]. done. }
    split; [done|]. split; [intros [k Hk]; specialize (Hd k); simpl in Hd; lia|]. by exists ns.
  - unfold normalize_guest_path in E. case_decide; [left; by simplify_eq|right].
    destruct (normalize_parts _ _) as [ns|e'] eqn:Hns; simpl in E; [by repeat case_match|].
    destruct Hd as [-> [k Hk]]. simplify_eq. split_and!; [done..|by exists k].
Qed.

(** * Properties *)

(** C15. Normalising a guest path: an empty path is [ENOENT] and a path that
    leaves the directory it starts at is [ENOTCAPABLE], even when it comes back;
    every other path is rewritten to the canonical spelling of the names it
    walks to, of the same kind (absolute or relative).  Which names these are is
    said by [walk_back], which reads the path from its end instead of keeping a
    stack: each [..] takes back the nearest name before it that no other [..]
    takes back, and no [..] is left over.  They are ordinary names, as many as
    the pieces go down, and normalising again changes nothing. *)
Theorem normalize_guest_path_correct path :
  match normalize_guest_path path with
  | Err e =>
      (e = ENOENT /\ path = ""%string) \/
      (e = ENOTCAPABLE /\ path <> ""%string /\ escapes (split_slash path))
  | Ok n =>
      path <> ""%string /\ ~ escapes (split_slash path) /\
      exists g, n = render g /\ absolute g = starts_with "/" path /\
        walk_back (split_slash path) = (O, names g) /\
        Forall normal_name (names g) /\
        Z.of_nat (length (names g)) = depth (split_slash path) /\
        normalize_guest_path n = Ok n
  end.
Proof.
  pose proof (normalize_guest_path_names path) as H.
  destruct (normalize_guest_path path) as [n|e]; [|done].
  destruct H as (Hp & He & ns & -> & Hn & Hns). split_and!; try done.
  exists (GPath (starts_with "/" path) ns). split_and!; try done.
  - by apply normalize_walk_back.
  - by apply normalize_parts_length in Hns.
  - by apply normalize_render.
Qed.

(** C14. Resolving a guest path against the preopens of a command line. A path is
    mapped below a preopen that covers it, by its names under that preopen and
    nothing else, and no preopen with a longer guest path covers it; it is
    refused with [ENOTCAPABLE] exactly when it leaves its starting directory or
    no preopen covers it (an empty path is [ENOENT]). *)
Theorem resolve_correct {File} cwd cli (t : HostFilesInner File) path :
  cli_parsed cli -> cwd_named cwd -> new cwd cli = IoOk t ->
  match resolve (preopens t) path with
  | Ok hp =>
      exists p pre g ns,
        normalize_guest_path path = Ok (render p) /\ pre ∈ preopens t /\
        guest pre = render g /\ gmatch g p = Some ns /\ hp = push_names (host pre) ns /\
        components hp = components (host pre) ++ (Normal <$> ns) /\
        forall pre' g', pre' ∈ preopens t -> guest pre' = render g' ->
          Forall normal_name (names g') -> gmatch g' p <> None ->
          (String.length (guest pre') <= String.length (guest pre))%nat
  | Err e =>
      (e = ENOENT /\ path = ""%string) \/
      (e = ENOTCAPABLE /\ escapes (split_slash path)) \/
      (e = ENOTCAPABLE /\ exists p, normalize_guest_path path = Ok (render p) /\
        forall pre g, pre ∈ preopens t -> guest pre = render g ->
          Forall normal_name (names g) -> gmatch g p = None)
  end.
Proof.
  intros Hcli Hcwd Hnew. destruct (new_table _ _ _ Hcli Hcwd Hnew) as (_ & Hok & Hlong).
  destruct (resolve (preopens t) path) as [hp|e] eqn:Hr.
  - apply resolve_Ok in Hr as (p & i & pre & g & ns & Hp & Hpn & Hi & Hg & _ & Hm & Hns & -> & Hmin);
      [|done].
    pose proof (list_elem_of_lookup_2 _ _ _ Hi) as Hin.
    pose proof Hok as Hok'. rewrite Forall_forall in Hok'. specialize (Hok' pre Hin).
    exists p, pre, g, ns. split_and!; try done.
    { apply components_push_names; [apply Hok'|done]. }
    intros pre' g' [j Hj]%list_elem_of_lookup Hg' Hn' Hm'.
    apply (Hlong i j); try done. by eapply Hmin.
  - unfold resolve in Hr. pose proof (normalize_guest_path_names path) as Hn.
    destruct (normalize_guest_path path) as [n|e'] eqn:En; simpl in Hr; [|simplify_eq].
    + destruct Hn as (_ & _ & ns & -> & Hpn & _). set (p := GPath _ ns) in *.
      pose proof (resolve_in_spec _ p Hok Hpn) as Hspec. rewrite Hr in Hspec.
      destruct Hspec as [-> Hnone]. right. right. split; [done|]. eauto.
    + tauto.
Qed.

(** C16. The parent [sync_parent] works on: it lies below a preopened directory,
    or is the directory holding one and itself covered by another preopen; and
    it is found for every path strictly below a preopen, where it is the path
    without its last name. *)
Theorem resolve_parent_correct {File} cwd cli (t : HostFilesInner File) path :
  cli_parsed cli -> cwd_named cwd -> new cwd cli = IoOk t ->
  match resolve_parent (preopens t) path with
  | Ok hp => contained (preopens t) hp
  | Err e => forall pre ns c, pre ∈ preopens t -> Forall normal_name (ns ++ [c]) ->
      resolve (preopens t) path <> Ok (push_names (host pre) (ns ++ [c]))
  end /\
  forall pre ns c, pre ∈ preopens t -> Forall normal_name (ns ++ [c]) ->
    resolve (preopens t) path = Ok (push_names (host pre) (ns ++ [c])) ->
    exists q, resolve_parent (preopens t) path = Ok q /\
      components q = components (host pre) ++ (Normal <$> ns).
Proof.
  intros Hcli Hcwd Hnew. destruct (new_table _ _ _ Hcli Hcwd Hnew) as (_ & Hok & _).
  assert (Hfound : forall pre ns c, pre ∈ preopens t -> Forall normal_name (ns ++ [c]) ->
    resolve (preopens t) path = Ok (push_names (host pre) (ns ++ [c])) ->
    exists q, resolve_parent (preopens t) path = Ok q /\
      components q = components (host pre) ++ (Normal <$> ns)).
  { intros pre ns c Hpre [Hns [Hc _]%Forall_cons]%Forall_app Hr. rewrite push_names_app in Hr.
    rewrite Forall_forall in Hok. specialize (Hok pre Hpre).
    destruct (components_push_names (host pre) ns) as [Hne Hcp]; [apply Hok|done|].
    destruct (path_parent_push _ c Hne Hc) as (q & Hq & Hcq). exists q.
    unfold resolve_parent. rewrite Hr. simpl. rewrite Hq. simpl.
    rewrite decide_True; [split; [done|congruence]|]. apply Exists_exists. exists pre.
    split; [done|]. unfold path_starts_with. rewrite Hcq, Hcp. by exists (Normal <$> ns). }
  split; [|done]. destruct (resolve_parent _ _) as [hp|e] eqn:E.
  - by eapply resolve_parent_Ok.
  - intros pre ns c Hpre Hns Hr. by destruct (Hfound pre ns c Hpre Hns Hr) as (q & ? & _).
Qed.

(** * A concrete table *)

Definition demo_cli : Cli := {|
  show_embedded_source := false; no_default_preopen := false; no_inherit_env := false;
  no_network := false;
  cli_preopens := [{| preopen_host_path := "/srv/db"; preopen_guest_path := "/data/" |};
                   {| preopen_host_path := "/srv/db/tmp"; preopen_guest_path := "/data/tmp" |}];
  cli_env := []; guest_args := []
|}.
Definition demo_table {File} : HostFilesInner File :=
  Build_HostFilesInner GUEST_FD_BASE ∅ ∅ ∅
    [{| guest := "/data/tmp"; host := "/srv/db/tmp" |}; {| guest := "/data"; host := "/srv/db" |};
     {| guest := "."; host := "/run/mysqld" |}]%string.

Lemma demo_cli_parsed : cli_parsed demo_cli.
Proof.
  repeat constructor; [by exists "/srv/db=/data/"%string|by exists "/srv/db/tmp=/data/tmp"%string].
Defined.

Lemma demo_cwd_named : cwd_named (IoOk "/run/mysqld"%string).
Proof. by intros dir [= <-]. Defined.

Lemma demo_new {File} : new (IoOk "/run/mysqld"%string) demo_cli = IoOk (demo_table (File := File)).
Proof. reflexivity. Defined.

Lemma resolve_correct_witness :
  resolve (preopens (demo_table (File := Z))) "/data/tmp/../ibdata1" = Ok "/srv/db/ibdata1"%string /\
  exists pre ns, pre ∈ preopens (demo_table (File := Z)) /\
    components "/srv/db/ibdata1" = components (host pre) ++ (Normal <$> ns).
Proof.
  split; [reflexivity|].
  destruct (resolve_correct (File := Z) _ demo_cli demo_table "/data/tmp/../ibdata1"
    demo_cli_parsed demo_cwd_named demo_new) as (p & pre & g & ns & _ & Hpre & _ & _ & _ & Hc & _).
  by exists pre, ns.
Defined.

Lemma resolve_parent_correct_witness :
  exists hp, resolve_parent (preopens (demo_table (File := Z))) "/data/tmp/x" = Ok hp /\
    contained (preopens (demo_table (File := Z))) hp.
Proof.
  exists "/srv/db/tmp"%string. split; [reflexivity|].
  exact (proj1 (resolve_parent_correct (File := Z) _ demo_cli demo_table "/data/tmp/x"
    demo_cli_parsed demo_cwd_named demo_new)).
Defined.
