(* ===== verification/HostFilesProofs.v ===== *)
(** The invariant method for the file imports: the table as an instance of
    [FdTable], and [FileInvariant], what makes a property of the shared state
    hold however threads interleave. *)

From S2P Require Import Prelude.
From S2P Require Import Prog.
From S2P Require Import GuestErrno.
From S2P Require Import GuestMemory.
From S2P Require Import HostPath.
From S2P Require Import GuestPath.
From S2P Require Import FdTable.
From S2P Require Import HostFiles.

(** * Specification *)

(** The bytes the host's calls promise: [read] and [write] report at most the
    buffer's length and keep its size, a cursor is never negative. *)
Class HostFsLaws (H File : Type) `{!HostFs H File} : Prop := {
  read_at_count : forall f buf off h n buf' h',
    fs_read_at f buf off h = ((IoOk n, buf'), h') ->
    0 <= n <= Z.of_nat (length buf) /\ length buf' = length buf;
  write_at_count : forall f buf off h n h',
    fs_write_at f buf off h = (IoOk n, h') -> 0 <= n <= Z.of_nat (length buf);
  seek_nonneg : forall f from h n h', fs_seek f from h = (IoOk n, h') -> 0 <= n
}.

(** The table's invariant on a platform. *)
Definition platform_wf {File} (plat : Platform) (t : HostFilesInner File) : Prop :=
  match plat with
  | Unix => lock_paths t = ∅ /\ locks t = ∅
  | Windows => dom (lock_paths t) = dom (files t)
  end.

#[export] Instance files_fd_table {File} (plat : Platform) :
  FdTable (HostFilesInner File) (File * string) File := {|
  ft_next := next_fd;
  ft_entries := files;
  ft_value := fst;
  ft_insert := insert_file plat;
  ft_remove := remove_file plat
|}.

Definition files_wf {File} (plat : Platform) (t : HostFilesInner File) : Prop :=
  @fd_wf _ _ _ (files_fd_table plat) GUEST_FD_BASE t /\ platform_wf plat t.

(** The descriptor a call works on. *)
Definition call_fd (c : FileCall) : option Z :=
  match c with
  | FClose fd | FPread fd _ _ _ | FPwrite fd _ _ _ | FSeek fd _ _
  | FTruncate fd _ | FSync fd _ | FLockExclusive fd => Some fd
  | FOpen _ _ _ | FSyncParent _ => None
  end.

(** The checks of a call's other arguments, made before the table is looked at. *)
Definition args_ok {H File} (c : FileCall) (s : FileSt H File) : Prop :=
  match c with
  | FPread _ _ len _ => exists n, checked_len len = Ok n
  | FPwrite _ ptr len _ => exists b, read_spec (mem s) ptr len = Ok b
  | FTruncate _ size => 0 <= size
  | _ => True
  end.

(** A host that records the paths it is asked to open or look up. *)
#[export] Instance logged_fs {H File} `{!HostFs H File} : HostFs (H * list string) File := {|
  fs_open o p h := let '(r, h') := fs_open o p h.1 in (r, (h', p :: h.2));
  fs_close f h := (fs_close f h.1, h.2);
  fs_read_at f b o h := let '(r, h') := fs_read_at f b o h.1 in (r, (h', h.2));
  fs_write_at f b o h := let '(r, h') := fs_write_at f b o h.1 in (r, (h', h.2));
  fs_seek f w h := let '(r, h') := fs_seek f w h.1 in (r, (h', h.2));
  fs_set_len f n h := let '(r, h') := fs_set_len f n h.1 in (r, (h', h.2));
  fs_sync_data f h := let '(r, h') := fs_sync_data f h.1 in (r, (h', h.2));
  fs_sync_all f h := let '(r, h') := fs_sync_all f h.1 in (r, (h', h.2));
  fs_setlk f h := let '(r, h') := fs_setlk f h.1 in (r, (h', h.2));
  fs_canonicalize p h := let '(r, h') := fs_canonicalize p h.1 in (r, (h', p :: h.2));
  win_create_file_mapping n h := let '(r, h') := win_create_file_mapping n h.1 in (r, (h', h.2));
  win_create_file p h := let '(r, h') := win_create_file p h.1 in (r, (h', p :: h.2));
  win_flush_file_buffers n h := let '(r, h') := win_flush_file_buffers n h.1 in (r, (h', h.2));
  win_close_handle n h := (win_close_handle n h.1, h.2);
  upper_utf16 := upper_utf16 (H := H)
|}.

(** * Instances *)

#[export] Instance files_fd_table_laws {File} (plat : Platform) :
  @FdTableLaws _ _ _ (files_fd_table (File := File) plat).
Proof.
  split; simpl; unfold remove_file; intros; try done.
  - by destruct (files t !! fd).
  - by destruct (files t !! fd).
  - destruct (files t !! fd) eqn:E; simpl; [done|]. by rewrite delete_id.
Qed.

#[export] Instance mem_lens_laws {H File} : LensLaws (mem_lens (H := H) (File := File)).
Proof. split; [done| |done]. by intros []. Qed.

(** * Lemmas *)

(** What makes [I] an invariant of the file imports: [G] bounds what the host's
    calls do, given that the paths passed to it are [path_ok]. *)
Class FileInvariant {H File : Type} `{!HostFs H File} (plat : Platform)
    (I : FileSt H File -> Prop) (path_ok : string -> Prop) (G : H -> H -> Prop) : Prop := {
  g_refl : forall h, G h h;
  g_open : forall o p h, path_ok p -> G h (fs_open o p h).2;
  g_close : forall f h, G h (fs_close f h);
  g_read_at : forall f b o h, G h (fs_read_at f b o h).2;
  g_write_at : forall f b o h, G h (fs_write_at f b o h).2;
  g_seek : forall f w h, G h (fs_seek f w h).2;
  g_set_len : forall f n h, G h (fs_set_len f n h).2;
  g_sync_data : forall f h, G h (fs_sync_data f h).2;
  g_sync_all : forall f h, G h (fs_sync_all f h).2;
  g_setlk : forall f h, G h (fs_setlk f h).2;
  g_canonicalize : forall p h, path_ok p -> G h (fs_canonicalize p h).2;
  g_mapping : forall n h, G h (win_create_file_mapping n h).2;
  g_create_file : forall p h, path_ok p -> G h (win_create_file p h).2;
  g_flush : forall n h, G h (win_flush_file_buffers n h).2;
  g_close_handle : forall n h, G h (win_close_handle n h);
  inv_mem : forall m s, I s -> I (put mem_lens m s);
  inv_host : forall s h, I s -> G (os s) h -> I (with_os h s);
  inv_insert : forall s e, I s -> I (with_inner (insert_file plat e (inner s)).2 s);
  inv_remove : forall s fd, I s -> I (with_inner (remove_file plat fd (inner s)).2 s);
  inv_lock : forall s lp l, plat = Windows -> locks (inner s) !! lp = None -> I s ->
    I (with_inner (with_locks <[lp := l]> (inner s)) s);
  inv_resolve : forall s path hp, I s -> resolve (preopens (inner s)) path = Ok hp -> path_ok hp;
  inv_resolve_parent : forall s path hp, I s ->
    resolve_parent (preopens (inner s)) path = Ok hp -> path_ok hp
}.

Section Invariant.
Context {H File : Type} `{!HostFs H File} `{libc : LibcErrno} (plat : Platform).
Context (I : FileSt H File -> Prop) (path_ok : string -> Prop) (G : H -> H -> Prop).
Context `{!FileInvariant plat I path_ok G}.
Local Open Scope prog_scope.

Lemma preserves_host_call {A} (f : H -> A * H) :
  (forall h, G h (f h).2) -> preserves I (host_call f).
Proof.
  intros Hf. apply preserves_atomically. intros s Hs. specialize (Hf (os s)).
  destruct (f (os s)) as [a h]. by apply inv_host.
Qed.

Lemma preserves_with_file {A} fd (bad : A) (f : File -> H -> A * H) :
  (forall file h, G h (f file h).2) -> preserves I (with_file fd bad f).
Proof.
  intros Hf. apply preserves_atomically. intros s Hs.
  destruct (files (inner s) !! fd) as [file|]; [|done].
  specialize (Hf file (os s)). destruct (f file (os s)) as [a h]. by apply inv_host.
Qed.

Lemma preserves_mem {A} (p : prog GuestMem A) : preserves I (zoom mem_lens p).
Proof. apply preserves_zoom_frame. apply inv_mem. Qed.

(** A step that reads the result of a resolution goes on with a path the host
  may be asked for. *)
Lemma preserves_resolved (f : FileSt H File -> result string) (k : string -> prog _ Z) :
  (forall s hp, I s -> f s = Ok hp -> path_ok hp) ->
  (forall hp, path_ok hp -> preserves I (k hp)) ->
  preserves I (r <- read f;; or_return neg_errno r k).
Proof.
  intros Hf Hk s Hs. split; [done|]. simpl. destruct (f s) as [hp|e] eqn:E; [|done].
  simpl. by apply Hk, (Hf s).
Qed.

Lemma preserves_open path flags mode : preserves I (open plat path flags mode).
Proof.
  apply preserves_resolved; [by intros; eapply inv_resolve|]. intros hp Hp.
  destruct (negb _); [done|].
  apply preserves_bind; [by apply preserves_host_call; intros; eapply g_open|].
  intros [file|err]; [|done]. apply preserves_bind.
  { case plat; [done|]. apply preserves_bind; [|by intros []].
    apply preserves_host_call. intros h. by eapply g_canonicalize. }
  intros lp. apply preserves_atomically. intros s Hs. simpl.
  apply (inv_insert _ (file, lp)) in Hs.
  destruct (files (inner s) !! next_fd (inner s)) as [old|].
  - apply (inv_host _ (fs_close old (os s)) Hs). apply g_close.
  - by destruct s.
Qed.

Lemma preserves_close fd : preserves I (close plat fd).
Proof.
  apply preserves_atomically. intros s Hs. pose proof (inv_remove s fd Hs) as Hr.
  destruct (remove_file plat fd (inner s)) as [[file|] t]; [|done].
  apply (inv_host _ (fs_close file (os s)) Hr). apply g_close.
Qed.

Lemma preserves_lock_exclusive fd : preserves I (lock_exclusive plat fd).
Proof.
  unfold lock_exclusive. case_eq plat; intros Hplat.
  { apply preserves_with_file. intros file h. pose proof (g_setlk file h) as Hg.
    by destruct (fs_setlk file h) as [[] ]. }
  apply preserves_atomically. intros s Hs.
  destruct (lock_paths (inner s) !! fd) as [lp|]; [|done].
  destruct (locks (inner s) !! lp) eqn:Hlp; [done|]. destruct (files (inner s) !! fd); [|done].
  pose proof (g_mapping (windows_lock_name lp) (os s)) as Hg.
  destruct (win_create_file_mapping _ _) as [[hd le] h]. simpl in Hg.
  apply (inv_host _ _ Hs) in Hg as Hs1.
  destruct (hd =? 0); [done|]. destruct (le =? ERROR_ALREADY_EXISTS).
  - apply (inv_host _ (win_close_handle hd h) Hs1). apply g_close_handle.
  - by apply (inv_lock _ lp {| handle := hd |} Hplat) in Hs1.
Qed.

Lemma preserves_sync_parent path : preserves I (sync_parent plat path).
Proof.
  apply preserves_resolved; [by intros; eapply inv_resolve_parent|]. intros hp Hp.
  apply preserves_bind; [|done]. unfold sync_opened, sync_directory.
  case plat.
  - apply preserves_bind; [by apply preserves_host_call; intros; eapply g_open|].
    intros [d|e]; [|done].
    apply preserves_bind; [apply preserves_host_call; intros; eapply g_sync_all|]. intros r.
    apply preserves_bind; [apply preserves_host_call; intros; eapply g_close|done].
  - apply preserves_bind; [by apply preserves_host_call; intros; eapply g_create_file|].
    intros [h e]. destruct (h =? INVALID_HANDLE_VALUE); [done|].
    apply preserves_bind; [apply preserves_host_call; intros; eapply g_flush|]. intros [ok e'].
    apply preserves_bind; [apply preserves_host_call; intros; eapply g_close_handle|done].
Qed.

(** Every atomic action of every import keeps [I]. *)
Lemma preserves_file_import c : preserves I (file_import plat c).
Proof.
  destruct c; cbn [file_import].
  - apply preserves_bind; [apply preserves_mem|]. intros p.
    apply preserves_or_return. intros. apply preserves_open.
  - apply preserves_close.
  - apply preserves_or_return. intros n. apply preserves_bind.
    + apply preserves_with_file. intros file h.
      pose proof (g_read_at file (replicate (Z.to_nat n) 0) (as_u64 offset) h) as Hg.
      by destruct (fs_read_at _ _ _ _) as [[] ].
    + intros [rc buf]. destruct (rc <=? 0); [done|]. destruct (_ <? rc); [done|].
      apply preserves_bind; [apply preserves_mem|]. intros w. by apply preserves_or_return.
  - apply preserves_bind; [apply preserves_mem|]. intros b.
    apply preserves_or_return. intros bytes. apply preserves_with_file. intros file h.
    pose proof (g_write_at file bytes (as_u64 offset) h) as Hg. by destruct (fs_write_at _ _ _ _).
  - apply preserves_with_file. intros file h. destruct (seek_from offset whence) as [w|].
    + pose proof (g_seek file w h) as Hg. by destruct (fs_seek file w h).
    + apply g_refl.
  - unfold import_truncate. destruct (unsigned_try_from _) as [n|]; [|done].
    apply preserves_with_file. intros file h.
    pose proof (g_set_len file n h) as Hg. by destruct (fs_set_len file n h).
  - apply preserves_with_file. intros file h.
    pose proof (g_sync_data file h) as Hg. pose proof (g_sync_all file h) as Hg'.
    destruct (negb _); [by destruct (fs_sync_data file h)|by destruct (fs_sync_all file h)].
  - apply preserves_bind; [apply preserves_mem|]. intros p.
    apply preserves_or_return. intros. apply preserves_sync_parent.
  - apply preserves_lock_exclusive.
Qed.
End Invariant.
