(* ===== verification/FileSafety.v ===== *)
(** Safety of the file imports under every interleaving of the guest threads:
    the descriptor table, closed descriptors, the sandbox and the Windows file
    locks. *)

From S2P Require Import Prelude.
From S2P Require Import Prog.
From S2P Require Import GuestErrno.
From S2P Require Import GuestMemory.
From S2P Require Import HostPath.
From S2P Require Import Cli.
From S2P Require Import GuestPath.
From S2P Require Import FdTable.
From S2P Require Import HostFiles.
From S2P Require Import Sandbox.
From S2P Require Import MemHost.
From S2P Require Import HostFilesProofs.
Local Open Scope prog_scope.

(** The memory as a thread of the pool reaches it. *)
Definition shared_mem {H File} : lens (unit * FileSt H File) GuestMem :=
  Lens (fun ls => mem ls.2) (fun m ls => (ls.1, put mem_lens m ls.2)).

(** Guest threads that share the memory, the file table and the host. *)
Definition file_pool {H File} `{!HostFs H File} `{libc : LibcErrno} (plat : Platform)
    (gs : list (GuestMemory.guest FileCall)) : list (thread unit (FileSt H File) unit) :=
  guest_pool tt shared_mem (fun c => zoom shared_lens (file_import plat c)) gs.

(** * Lemmas *)

Lemma file_pool_invariant {H File} `{!HostFs H File} `{libc : LibcErrno} plat I path_ok G
    `{!FileInvariant plat I path_ok G} gs s ts' s' :
  I s -> rtc pool_step (file_pool plat gs, s) (ts', s') -> I s'.
Proof.
  apply (guest_pool_invariant I).
  - intros m ls HI. by apply inv_mem.
  - intros c. apply (preserves_zoom shared_lens I). by eapply preserves_file_import.
Qed.

Section Instances.
Context {H File : Type} `{!HostFs H File} (plat : Platform).
Implicit Types s : FileSt H File.

Lemma files_wf_insert e (t : HostFilesInner File) :
  files_wf plat t -> files_wf plat (insert_file plat e t).2.
Proof.
  intros [Hwf Hp]. split; [by apply (@fd_wf_insert _ _ _ (files_fd_table plat) _)|].
  destruct plat; simpl in *; [done|]. by rewrite !dom_insert_L, Hp.
Qed.

Lemma files_wf_remove fd (t : HostFilesInner File) :
  files_wf plat t -> files_wf plat (remove_file plat fd t).2.
Proof.
  intros [Hwf Hp]. split; [by apply (@fd_wf_remove _ _ _ (files_fd_table plat) _)|].
  unfold remove_file. destruct (files t !! fd); simpl; [|done].
  destruct plat; simpl in *; [done|]. by rewrite !dom_delete_L, Hp.
Qed.

Lemma files_wf_locks f (t : HostFilesInner File) :
  plat = Windows -> files_wf plat t -> files_wf plat (with_locks f t).
Proof. intros Hplat [[Hb Hn He] Hp]. split; [by split|]. by rewrite Hplat in *. Qed.

#[local] Abbreviation any := (fun _ => True).
#[local] Abbreviation anyG := (fun _ _ => True).

#[export] Instance wf_invariant :
  FileInvariant plat (fun s => files_wf plat (inner s)) any anyG.
Proof.
  constructor; intros; try done.
  - by apply files_wf_insert.
  - by apply files_wf_remove.
  - by apply files_wf_locks.
Qed.

(** A descriptor below the counter that is not open. *)
Definition retired (fd : Z) s : Prop :=
  files_wf plat (inner s) /\ fd < next_fd (inner s) /\ files (inner s) !! fd = None.

#[export] Instance retired_invariant fd : FileInvariant plat (retired fd) any anyG.
Proof.
  constructor; try done.
  - intros s e (Hwf & Hlt & Hnone). split_and!; [by apply files_wf_insert| |]; simpl.
    + destruct Hwf as [Hwf _]. destruct (wf_next _ _ Hwf) as [Hb Hm]. simpl in *.
      rewrite i32_saturating_succ by (unfold GUEST_FD_BASE in *; bounds). bounds.
    + rewrite lookup_insert_ne by lia. done.
  - intros s fd' (Hwf & Hlt & Hnone). split; [by apply files_wf_remove|].
    unfold remove_file, with_inner; simpl. destruct (files (inner s) !! fd'); simpl; [|done].
    split; [done|]. by apply lookup_delete_None; right.
  - intros s lp l Hplat _ (Hwf & ? & ?). split; [by apply files_wf_locks|done].
Qed.

(** A lock the process holds. *)
#[export] Instance held_invariant lp l :
  FileInvariant plat (fun s => locks (inner s) !! lp = Some l) any anyG.
Proof.
  constructor; try done.
  - intros s fd Hs. unfold remove_file; simpl. by destruct (files (inner s) !! fd).
  - intros s lp' l' _ Hnone Hs. simpl. rewrite lookup_insert_ne; [done|congruence].
Qed.

(** The paths the host was asked for. *)
#[export] Instance sandbox_invariant ps :
  Forall preopen_ok ps ->
  FileInvariant (H := H * list string) (File := File) plat
    (fun s : FileSt (H * list string) File => preopens (inner s) = ps /\ Forall (contained ps) (os s).2)
    (contained ps)
    (fun h h' => Forall (contained ps) h.2 -> Forall (contained ps) h'.2).
Proof.
  intros Hok. constructor; try done.
  all: try (intros; simpl in *; case_match; simpl; by try apply Forall_cons_2).
  - intros s h [Hs Hl] Hh. split; [done|]. by apply Hh.
  - intros s fd Hs. unfold remove_file; simpl. by destruct (files (inner s) !! fd).
  - intros s path hp [Hs _] Hr. left. eapply resolve_below; [done|]. by rewrite Hs in Hr.
  - intros s path hp [Hs _] Hr. eapply resolve_parent_Ok; [done|]. by rewrite Hs in Hr.
Qed.
End Instances.

Section Closed.
Context {H File : Type} `{!HostFs H File} `{libc : LibcErrno} (plat : Platform).
Implicit Types s : FileSt H File.

Lemma run_with_file_none {A} fd (bad : A) f s :
  files (inner s) !! fd = None -> run (with_file fd bad f) s = (Done bad, s).
Proof. intros Hfd. unfold with_file. rewrite run_atomically. by rewrite Hfd. Qed.

(** Every call on a descriptor that is not open is [EBADF] and changes
  nothing, once its other arguments pass their checks. *)
Lemma closed_ebadf s fd c :
  files_wf plat (inner s) -> files (inner s) !! fd = None ->
  call_fd c = Some fd -> args_ok c s ->
  run (file_import plat c) s = (Done (neg_errno EBADF), s).
Proof.
  intros Hwf Hfd Hc Hargs.
  destruct c; simpl in Hc; simplify_eq; cbn [file_import]; try by apply run_with_file_none.
  - unfold close. rewrite run_atomically. unfold remove_file. by rewrite Hfd.
  - destruct Hargs as [n Hn]. unfold import_pread, pread. rewrite Hn.
    autorewrite with rust. by rewrite run_with_file_none.
  - destruct Hargs as [b Hb]. unfold import_pwrite.
    rewrite run_bind, run_zoom by apply _. rewrite run_read_guest. cbn [view mem_lens fst snd].
    rewrite Hb. cbn [or_return put mem_lens]. destruct s. by apply run_with_file_none.
  - simpl in Hargs. unfold import_truncate. unfold unsigned_try_from.
    rewrite decide_True by done. by apply run_with_file_none.
  - unfold lock_exclusive. destruct plat; [by apply run_with_file_none|].
    rewrite run_atomically. destruct (lock_paths (inner s) !! fd) eqn:El; [|done].
    apply not_elem_of_dom in Hfd. apply elem_of_dom_2 in El.
    destruct Hwf as [_ Hd]. simpl in Hd. rewrite Hd in El. done.
Qed.
End Closed.

Lemma new_empty {File} cwd cli (t : HostFilesInner File) :
  new cwd cli = IoOk t -> t = Build_HostFilesInner GUEST_FD_BASE ∅ ∅ ∅ (preopens t).
Proof. unfold new. intros. cases. Qed.

Lemma new_wf {File} plat cwd cli (t : HostFilesInner File) :
  new cwd cli = IoOk t -> files_wf plat t.
Proof.
  intros ->%new_empty. split; [|by destruct plat; simpl; rewrite ?dom_empty_L].
  constructor; simpl; [by compute|by compute|]. intros fd [? Hl]. by rewrite lookup_empty in Hl.
Qed.

(** * Properties *)

Section Properties.
Context {H File : Type} `{!HostFs H File} `{libc : LibcErrno} (plat : Platform).
Implicit Types s : FileSt H File.

(** Starting from the table of [HostFiles::new], whatever the threads of
  the guest do and however their calls interleave, the descriptor table
  stays well formed: the counter is an [i32] at or above 20000, every open
  descriptor was handed out by it, and on Windows exactly the open
  descriptors have a lock path (on Unix none has). *)
Lemma files_wf_reachable cwd cli t m h gs ts' s' :
  new cwd cli = IoOk t ->
  rtc pool_step (file_pool plat gs, Build_FileSt m t h) (ts', s') ->
  files_wf plat (inner s').
Proof.
  intros Hnew Hsteps.
  refine (file_pool_invariant plat (fun s => files_wf plat (inner s)) _ _ gs _ ts' s' _ Hsteps).
  by eapply new_wf.
Qed.

(** C3. No use after close: starting from the table of [HostFiles::new], whatever
  the threads of the guest do and however their calls interleave, the table
  stays well formed (the counter is an [i32] at or above 20000, every open
  descriptor was handed out by it, and on Windows exactly the open descriptors
  have a lock path); and once a descriptor below the counter is not open, no
  interleaving of calls opens it again, and every later call on it that passes
  the checks of its other arguments is [EBADF] and changes neither the table,
  the memory nor the host. *)
Theorem closed_descriptor_stays_closed cwd cli t m h gs ts s gs' ts' s' fd :
  new cwd cli = IoOk t ->
  rtc pool_step (file_pool plat gs, Build_FileSt m t h) (ts, s) ->
  fd < next_fd (inner s) -> files (inner s) !! fd = None ->
  rtc pool_step (file_pool plat gs', s) (ts', s') ->
  files_wf plat (inner s') /\ files (inner s') !! fd = None /\
  forall c, call_fd c = Some fd -> args_ok c s' ->
    run (file_import plat c) s' = (Done (neg_errno EBADF), s').
Proof.
  intros Hnew Hreach Hlt Hnone Hsteps. eapply files_wf_reachable in Hreach as Hwf; [|exact Hnew].
  assert (retired plat fd s') as (Hwf' & _ & Hnone').
  { by refine (file_pool_invariant plat (retired plat fd) _ _ gs' s ts' s' _ Hsteps). }
  split_and!; [done..|]. intros c Hc Hargs. by eapply closed_ebadf.
Qed.

(** C35. A file lock taken on Windows is never released by the guest: it
  outlives the descriptor it was taken through, and no interleaving of calls
  (closes included) replaces or drops it. *)
Theorem windows_lock_held_forever s path l gs ts' s' :
  locks (inner s) !! path = Some l ->
  rtc pool_step (file_pool plat gs, s) (ts', s') ->
  locks (inner s') !! path = Some l.
Proof.
  exact (file_pool_invariant plat (fun s => locks (inner s) !! path = Some l) _ _ gs s ts' s').
Qed.
End Properties.

(** The sandbox: for the table of a parsed command line and any host, under
    every interleaving of the guest's threads, each path the host is asked to
    open or look up extends a preopened directory by ordinary names only, or is
    the parent [sync_parent] is allowed to sync. *)
Lemma host_paths_contained {H File} `{!HostFs H File} `{libc : LibcErrno} cwd cli
    (t : HostFilesInner File) m (h : H) gs ts' s' :
  cli_parsed cli -> cwd_named cwd -> new cwd cli = IoOk t ->
  rtc pool_step (file_pool Unix gs, Build_FileSt m t (h, [])) (ts', s') ->
  Forall (contained (preopens t)) (os s').2.
Proof.
  intros Hcli Hcwd Hnew Hsteps. destruct (new_table _ _ _ Hcli Hcwd Hnew) as (_ & Hok & _).
  pose proof (sandbox_invariant Unix (H := H) (File := File) _ Hok) as Hinv.
  by refine (proj2 (file_pool_invariant Unix _ _ _ gs _ ts' s' _ Hsteps)).
Qed.

(** * A concrete run *)

Definition demo_mem : GuestMem :=
  Some (ExtSharedMemory (string_bytes "/data/ibdata1" ++ replicate 19 0)).
Definition demo_open : FileCall :=
  FOpen 0 (Z.lor WASI_O_CREAT (Z.lor WASI_O_RDONLY WASI_O_WRONLY)) 0.

(** Opens the file, locks it, writes to it and closes it. *)
Definition demo_guest : GuestMemory.guest FileCall :=
  GuestCall demo_open (fun fd => GuestCall (FLockExclusive fd) (fun _ =>
    GuestCall (FPwrite fd 0 5 3) (fun _ => GuestCall (FClose fd) (fun _ => GuestDone)))).

(** Two such threads, taking turns. *)
Definition demo_schedule : list nat := concat (replicate 60 [0; 1]%nat).

Section Demo.
Context (H : Type) `{!HostFs H Z} (plat : Platform) (h : H).
Local Existing Instance linux_errno.

Definition demo_config : list (thread unit (FileSt H Z) unit) * FileSt H Z :=
  (file_pool plat [demo_guest; demo_guest], Build_FileSt demo_mem demo_table h).
Definition demo_end : FileSt H Z := (run_schedule demo_schedule demo_config).2.
End Demo.
Arguments demo_config {H _} plat h.
Arguments demo_end {H _} plat h.

(** A descriptor that was opened and closed by one pool of threads, while
    another goes on. *)
Lemma closed_descriptor_stays_closed_witness :
  let s := (run_schedule demo_schedule
    (file_pool (libc := linux_errno) Windows [demo_guest],
     Build_FileSt demo_mem demo_table (mem_fs_init ∅))).2 in
  let s' := (run_schedule demo_schedule
    (file_pool (libc := linux_errno) Windows [demo_guest; demo_guest], s)).2 in
  next_fd (inner s') = GUEST_FD_BASE + 3 /\
  files_wf Windows (inner s') /\
  run (file_import (libc := linux_errno) Windows (FClose GUEST_FD_BASE)) s' =
    (Done (neg_errno EBADF), s').
Proof.
  intros s s'.
  assert (next_fd (inner s) = GUEST_FD_BASE + 1) as Hnext by (vm_compute; reflexivity).
  assert (files (inner s) !! GUEST_FD_BASE = None) as Hclosed by (vm_compute; reflexivity).
  split; [vm_compute; reflexivity|].
  destruct (closed_descriptor_stays_closed (libc := linux_errno) Windows _ demo_cli demo_table
    demo_mem (mem_fs_init ∅) [demo_guest] _ s [demo_guest; demo_guest] _ s' GUEST_FD_BASE demo_new
    (run_schedule_steps demo_schedule _) ltac:(by rewrite Hnext) Hclosed
    (run_schedule_steps demo_schedule _)) as (H1 & _ & H3).
  split; [exact H1|]. exact (H3 (FClose GUEST_FD_BASE) eq_refl I).
Defined.

(** The lock on the file after the thread that took it has closed its
    descriptor, and after the second thread has run too. *)
Lemma windows_lock_held_forever_witness :
  let s := (run_schedule (replicate 60 0%nat)
    (demo_config Windows (mem_fs_init ∅))).2 in
  let cfg := (file_pool (libc := linux_errno) Windows [demo_guest], s) in
  files (inner s) !! GUEST_FD_BASE = None /\
  locks (inner s) !! "/srv/db/ibdata1"%string = Some {| handle := 2 |} /\
  locks (inner (run_schedule (replicate 60 0%nat) cfg).2) !! "/srv/db/ibdata1"%string =
    Some {| handle := 2 |}.
Proof.
  intros s cfg. split; [vm_compute; reflexivity|].
  assert (locks (inner s) !! "/srv/db/ibdata1"%string = Some {| handle := 2 |}) as Hs
    by (vm_compute; reflexivity).
  split; [exact Hs|].
  exact (windows_lock_held_forever (libc := linux_errno) Windows s _ _ [demo_guest] _ _ Hs
    (run_schedule_steps (replicate 60 0%nat) cfg)).
Defined.

Lemma host_paths_contained_witness :
  (os (demo_end Unix (mem_fs_init ∅, []))).2 = ["/srv/db/ibdata1"; "/srv/db/ibdata1"]%string /\
  Forall (contained (preopens (demo_table (File := Z))))
    (os (demo_end Unix (mem_fs_init ∅, []))).2.
Proof.
  split; [vm_compute; reflexivity|].
  exact (host_paths_contained (libc := linux_errno) _ demo_cli demo_table demo_mem
    (mem_fs_init ∅) _ _ _ demo_cli_parsed demo_cwd_named demo_new
    (run_schedule_steps demo_schedule _)).
Defined.
