(* ===== verification/FileCalls.v ===== *)
(** What the file imports do when they run: every one returns, with a result the
    guest understands, on a host that keeps the [std::fs] contract; and [open] as
    one function of the state. *)

From S2P Require Import Prelude.
From S2P Require Import Prog.
From S2P Require Import GuestErrno.
From S2P Require Import GuestMemory.
From S2P Require Import HostPath.
From S2P Require Import Cli.
From S2P Require Import GuestPath.
From S2P Require Import FdTable.
From S2P Require Import HostFiles.
From S2P Require Import Sandbox.
From S2P Require Import MemHost.
From S2P Require Import HostFilesProofs.
From S2P Require Import FileSafety.
Local Open Scope rust_scope.
Local Open Scope prog_scope.

(** * Results *)

(** The [i32] arguments of a call that are used as pointers to a path. *)
Definition call_ok (c : FileCall) : Prop :=
  match c with FOpen ptr _ _ | FSyncParent ptr => is_i32 ptr | _ => True end.

(** The largest result of a call: positions are [i64], everything else [i32]. *)
Definition call_limit (c : FileCall) : Z :=
  match c with FSeek _ _ _ => i64_max | _ => i32_max end.

Lemma io_errno_guest `{libc : LibcErrno} plat c : io_errno plat c ∈ guest_errnos.
Proof.
  unfold io_errno. destruct c, plat;
    auto using from_host_errno_guest, from_windows_error_guest; compute_decision.
Qed.

Lemma resolve_errs ps path : errs_in_guest (resolve ps path).
Proof.
  unfold resolve. pose proof (normalize_parts_depth (split_slash path) []) as Hd.
  assert (errs_in_guest (normalize_guest_path path)) as Hn.
  { unfold normalize_guest_path. case_decide; [simpl; compute_decision|].
    destruct (normalize_parts _ _); simpl; [by repeat case_decide; destruct starts_with|].
    destruct Hd as [-> _]. compute_decision. }
  destruct (normalize_guest_path path) as [n|]; simpl; [|done].
  induction ps as [|p ps IH]; simpl; [compute_decision|]. by destruct (match_preopen _ _).
Qed.

Lemma resolve_parent_errs ps path : errs_in_guest (resolve_parent ps path).
Proof.
  unfold resolve_parent, ok_or. pose proof (resolve_errs ps path) as Hr.
  destruct (resolve ps path) as [q|]; simpl; [|done].
  destruct (path_parent q); simpl; [|compute_decision].
  case_decide; simpl; [done|compute_decision].
Qed.

Section Totality.
Context {H File : Type} `{!HostFs H File} `{libc : LibcErrno} (plat : Platform).
Context `{!HostFsLaws H File}.
#[local] Abbreviation I := (fun s : FileSt H File => files_wf plat (inner s)).
#[local] Abbreviation ok := (guest_result i32_max).

Lemma total_host_call {A} (Q : A -> Prop) (f : H -> A * H) :
  (forall h, Q (f h).1) -> ensures I Q (host_call f).
Proof.
  intros HQ. apply ensures_atomically. intros s Hs. specialize (HQ (os s)).
  by destruct (f (os s)).
Qed.

Lemma total_with_file {A} (Q : A -> Prop) fd bad (f : File -> H -> A * H) :
  Q bad -> (forall file h, Q (f file h).1) -> ensures I Q (with_file fd bad f).
Proof.
  intros Hbad HQ. apply ensures_atomically. intros s Hs.
  destruct (files (inner s) !! fd) as [file|]; [|done]. specialize (HQ file (os s)).
  by destruct (f file (os s)).
Qed.

Lemma total_read_cstr ptr :
  is_i32 ptr -> ensures I errs_in_guest (zoom mem_lens (read_cstr ptr)).
Proof.
  intros Hp. apply ensures_zoom; [apply _|done|]. intros m. rewrite run_read_cstr by done.
  eauto using cstr_spec_errs.
Qed.

Lemma total_read_guest ptr len :
  ensures I errs_in_guest (zoom mem_lens (read_guest ptr len)).
Proof.
  apply ensures_zoom; [apply _|done|]. intros m. rewrite run_read_guest.
  eauto using read_spec_errs.
Qed.

Lemma total_write_guest ptr bs :
  ensures I errs_in_guest (zoom mem_lens (write_guest ptr bs)).
Proof.
  apply ensures_zoom; [apply _|done|]. intros m. rewrite run_write_guest.
  eexists _, _. split; [done|]. pose proof (write_spec_errs m ptr bs) as Hw.
  by destruct (write_spec m ptr bs).
Qed.

Lemma ok_ebadf limit : guest_result limit (neg_errno EBADF).
Proof. apply guest_error. compute_decision. Qed.

Lemma ok_io limit err : guest_result limit (neg_errno (io_errno plat err)).
Proof. apply guest_error, io_errno_guest. Qed.

Lemma ok_unit r : ok (unit_result plat r).
Proof. destruct r; [by apply guest_zero|apply ok_io]. Qed.

Lemma ok_count r : (forall n, r = IoOk n -> 0 <= n) -> ok (count_result plat r).
Proof.
  intros Hn. destruct r as [n|]; [|apply ok_io]. specialize (Hn n eq_refl). simpl.
  unfold i32_try_from. case_decide; simpl; [left; lia|]. apply guest_error. compute_decision.
Qed.

Hint Resolve ok_ebadf ok_io ok_unit : core.

Lemma total_open path flags mode : ensures I ok (open plat path flags mode).
Proof.
  unfold open. apply (ensures_bind I errs_in_guest).
  { apply ensures_read. intros s _. apply resolve_errs. }
  intros r Hr. apply ensures_or_return; [by intros; eapply errs_or_return|]. intros hp _.
  destruct (negb _); [apply ensures_ret, guest_error; compute_decision|].
  apply (ensures_bind I (fun _ => True)); [by apply total_host_call|].
  intros [file|err] _; [|by apply ensures_ret].
  apply (ensures_bind I (fun _ => True)).
  { assert (forall pl, ensures I (fun _ => True) (match pl with Unix => Ret hp | Windows =>
      path <- host_call (fs_canonicalize hp);;
      Ret (match path with IoOk p => p | IoErr _ => hp end) end)) as Hpl; [|apply Hpl].
    intros []; [by apply ensures_ret|]. apply (ensures_bind I (fun _ => True));
      [by apply total_host_call|]. intros. by apply ensures_ret. }
  intros lp _. apply ensures_atomically. intros s Hs. simpl. split.
  - by apply (files_wf_insert plat (file, lp)).
  - destruct Hs as [[Hb Hn _] _]. simpl in *. left. lia.
Qed.

Lemma total_lock_exclusive fd : ensures I ok (lock_exclusive plat fd).
Proof.
  unfold lock_exclusive. case_eq plat; intros Hplat.
  - rewrite <- Hplat. apply total_with_file; [done|]. intros file h.
    destruct (fs_setlk file h) as [[rc e] h']. cbn [fst].
    destruct (rc =? 0); [by apply guest_zero|done].
  - rewrite <- Hplat. apply ensures_atomically. intros s Hs.
    destruct (lock_paths (inner s) !! fd) as [lp|]; [|done].
    destruct (locks (inner s) !! lp); [by split; [|apply guest_zero]|].
    destruct (files (inner s) !! fd); [|done].
    destruct (win_create_file_mapping _ _) as [[hd le] h].
    destruct (hd =? 0); [by split; [|apply ok_io]|].
    destruct (le =? ERROR_ALREADY_EXISTS).
    + split; [done|]. apply guest_error. compute_decision.
    + split; [|by apply guest_zero]. by apply files_wf_locks.
Qed.

Lemma total_sync_parent path : ensures I ok (sync_parent plat path).
Proof.
  unfold sync_parent. apply (ensures_bind I errs_in_guest).
  { apply ensures_read. intros s _. apply resolve_parent_errs. }
  intros r Hr. apply ensures_or_return; [by intros; eapply errs_or_return|]. intros hp _.
  apply (ensures_bind I (fun _ => True)); [|by intros; apply ensures_ret].
  assert (forall pl, ensures I (fun _ => True)
    (match pl with Unix => sync_opened hp | Windows => sync_directory hp end)) as Hpl;
    [|apply Hpl].
  intros []; (apply (ensures_bind I (fun _ => True)); [by apply total_host_call|]).
  - intros [d|e] _; [|by apply ensures_ret].
    apply (ensures_bind I (fun _ => True)); [by apply total_host_call|]. intros r' _.
    apply (ensures_bind I (fun _ => True)); [by apply total_host_call|].
    intros. by apply ensures_ret.
  - intros [h e] _. destruct (h =? INVALID_HANDLE_VALUE); [by apply ensures_ret|].
    apply (ensures_bind I (fun _ => True)); [by apply total_host_call|]. intros [r' e'] _.
    apply (ensures_bind I (fun _ => True)); [by apply total_host_call|].
    intros. by apply ensures_ret.
Qed.

Lemma total_pread fd ptr len off : ensures I ok (import_pread plat fd ptr len off).
Proof.
  unfold import_pread. apply ensures_or_return.
  { intros e He. eapply errs_or_return; [|exact He]. apply checked_len_errs. }
  intros n Hn. apply (ensures_bind I (fun r => ok r.1 /\ r.1 <= Z.of_nat (length r.2))).
  - apply total_with_file.
    { split; [done|]. simpl. pose proof (neg_errno_neg EBADF ltac:(compute_decision)). lia. }
    intros file h. destruct (fs_read_at file _ _ h) as [[r buf] h'] eqn:E. simpl.
    assert (forall k, r = IoOk k -> 0 <= k <= Z.of_nat (length buf)) as Hk.
    { intros k ->. apply read_at_count in E as [? ->]. done. }
    split; [apply ok_count; intros k ?%Hk; lia|].
    destruct r as [k|err]; simpl.
    + specialize (Hk k eq_refl). unfold i32_try_from. case_decide; simpl; [lia|].
      pose proof (neg_errno_neg EOVERFLOW ltac:(compute_decision)). lia.
    + pose proof (neg_errno_neg _ (io_errno_guest plat err)). lia.
  - intros [rc buf] [Hrc Hle]. cbn [fst snd] in Hrc, Hle.
    destruct (rc <=? 0); [by apply ensures_ret|].
    destruct (Z.ltb_spec (Z.of_nat (length buf)) rc); [lia|].
    apply (ensures_bind I errs_in_guest); [apply total_write_guest|]. intros w Hw.
    apply ensures_or_return; [by intros; eapply errs_or_return|]. intros. by apply ensures_ret.
Qed.

Lemma total_with_count {A} fd (f : File -> H -> io_result A * H) (res : io_result A -> Z) limit :
  (forall file h r h', f file h = (r, h') -> guest_result limit (res r)) ->
  ensures I (guest_result limit)
    (with_file fd (neg_errno EBADF) (fun file h => let '(r, h) := f file h in (res r, h))).
Proof.
  intros Hf. apply total_with_file; [done|]. intros file h. specialize (Hf file h).
  destruct (f file h) as [r h']. simpl. by eapply Hf.
Qed.

Lemma total_seek fd off wh : ensures I (guest_result i64_max) (seek plat fd off wh).
Proof.
  apply total_with_file; [done|]. intros file h.
  destruct (seek_from off wh) as [w|]; [|apply guest_error; compute_decision].
  destruct (fs_seek file w h) as [[n|err] h'] eqn:E; cbn [fst]; [|done].
  apply seek_nonneg in E. unfold i64_try_from.
  case_decide; simpl; [left; lia|apply guest_error; compute_decision].
Qed.

Lemma total_file_import c :
  call_ok c -> ensures I (guest_result (call_limit c)) (file_import plat c).
Proof.
  intros Hc. destruct c; cbn [file_import call_limit].
  - apply (ensures_bind I errs_in_guest); [by apply total_read_cstr|]. intros r Hr.
    apply ensures_or_return; [by intros; eapply errs_or_return|]. intros. apply total_open.
  - apply ensures_atomically. intros s Hs. pose proof (files_wf_remove plat fd _ Hs) as Hr.
    destruct (remove_file plat fd (inner s)) as [[file|] t]; simpl; auto using guest_zero.
    split; [done|]. by apply guest_zero.
  - apply total_pread.
  - apply (ensures_bind I errs_in_guest); [apply total_read_guest|]. intros r Hr.
    apply ensures_or_return; [by intros; eapply errs_or_return|]. intros b _.
    apply total_with_count. intros file h r' h' E. apply ok_count. intros n ->.
    by apply write_at_count in E as [? _].
  - apply total_seek.
  - unfold import_truncate. destruct (unsigned_try_from size); [|apply ensures_ret, guest_error; compute_decision].
    by apply total_with_count.
  - by apply total_with_count.
  - apply (ensures_bind I errs_in_guest); [by apply total_read_cstr|]. intros r Hr.
    apply ensures_or_return; [by intros; eapply errs_or_return|]. intros. apply total_sync_parent.
  - apply total_lock_exclusive.
Qed.
End Totality.

(** * Properties *)

(** C7. Every file import ends, without a panic, on every state with a
    well-formed table and every host that honours the [std::fs] contract: the
    result is a count, a descriptor or a position that fits the import's result
    type, or the negation of one of the guest's errnos, and never a host errno. *)
Theorem file_import_returns {H File} `{!HostFs H File} `{libc : LibcErrno}
    `{!HostFsLaws H File} plat c (s : FileSt H File) :
  files_wf plat (inner s) -> call_ok c ->
  exists rc s', run (file_import plat c) s = (Done rc, s') /\ files_wf plat (inner s') /\
    guest_result (call_limit c) rc.
Proof. intros Hs Hc. by apply total_file_import. Qed.


(** The [std::fs] contract on the in-memory host. *)
#[export] Instance mem_fs_laws : HostFsLaws MemFs Z.
Proof.
  constructor.
  - intros f buf off h n buf' h'. simpl. unfold mem_read_at.
    destruct (mem_data f h) as [[mh d]|]; [|done].
    destruct (negb _); [done|]. destruct (_ <=? off); [done|]. intros [= <- <- _].
    pose proof (length_take (drop (Z.to_nat off) d) (length buf)).
    rewrite length_app, length_drop. lia.
  - intros f buf off h n h'. simpl. unfold mem_write_at.
    destruct (mem_data f h) as [[mh d]|]; [|done].
    destruct (negb _); [done|]. destruct (_ <=? off); [done|]. intros [= <- _]. lia.
  - intros f w h n h'. simpl. unfold mem_seek.
    destruct (mem_data f h) as [[mh d]|]; [|done].
    destruct (_ <? 0) eqn:E; [done|]. intros [= <- _]. by apply Z.ltb_ge in E.
Qed.

(** The state after [demo_open] on a disk with the file. *)
Definition demo_opened : FileSt MemFs Z :=
  Eval vm_compute in (run (file_import (libc := linux_errno) Unix demo_open)
    (Build_FileSt demo_mem demo_table
      (mem_fs_init {[ "/srv/db/ibdata1"%string := [1; 2; 3; 4] ]}))).2.

Lemma demo_opened_wf : files_wf Unix (inner demo_opened).
Proof.
  split; [|done]. constructor; [by compute|by compute|]. intros fd Hfd.
  assert (fd = GUEST_FD_BASE) as ->.
  { assert (files (inner demo_opened) = {[ GUEST_FD_BASE := 100 ]}) as E by (vm_compute; reflexivity).
    change (is_Some (files (inner demo_opened) !! fd)) in Hfd. rewrite E in Hfd.
    by apply lookup_singleton_is_Some in Hfd. }
  split; [by compute|left; by compute].
Defined.

Lemma file_import_returns_witness :
  exists rc s',
    run (file_import (libc := linux_errno) Unix (FPread GUEST_FD_BASE 16 8 1)) demo_opened =
      (Done rc, s') /\ files_wf Unix (inner s') /\ guest_result i32_max rc.
Proof.
  exact (file_import_returns (libc := linux_errno) Unix (FPread GUEST_FD_BASE 16 8 1)
    demo_opened demo_opened_wf I).
Defined.

(** The result of [open] as one function of the state: the checks in the order
    the code makes them, then the host's answer. *)
Definition open_spec {H File} `{!HostFs H File} `{libc : LibcErrno} (ptr flags : Z)
    (s : FileSt H File) : Z * FileSt H File :=
  match (path <-? cstr_spec (mem s) ptr;; resolve (preopens (inner s)) path) with
  | Err e => (neg_errno e, s)
  | Ok hp =>
      if decide (Z.land flags WASI_O_DIRECTORY <> 0) then (neg_errno EISDIR, s)
      else match fs_open (open_options flags) hp (os s) with
           | (IoErr err, h) => (neg_errno (io_errno Unix err), with_os h s)
           | (IoOk file, h) =>
               (next_fd (inner s),
                Build_FileSt (mem s)
                  (Build_HostFilesInner (next_fd (inner s) + 1)
                    (<[next_fd (inner s) := file]> (files (inner s)))
                    (lock_paths (inner s)) (locks (inner s)) (preopens (inner s))) h)
           end
  end.

(** C17. [open] implements its specification on Unix: with the counter below
    [i32::MAX], the call is one transition that fails with the first check that
    does (the path's bytes, normalisation, the preopens, [O_DIRECTORY], the
    host) and otherwise hands out a descriptor that was not open, maps it to the
    file the host opened, and leaves every other descriptor and the guest's
    memory as they were. *)
Theorem open_correct {H File} `{!HostFs H File} `{libc : LibcErrno} ptr flags mode
    (s : FileSt H File) :
  files_wf Unix (inner s) -> next_fd (inner s) < i32_max -> is_i32 ptr ->
  run (file_import Unix (FOpen ptr flags mode)) s =
    (Done (open_spec ptr flags s).1, (open_spec ptr flags s).2) /\
  files (inner s) !! next_fd (inner s) = None.
Proof.
  intros [Hwf _] Hlt Hp.
  assert (files (inner s) !! next_fd (inner s) = None) as Hnone.
  { apply eq_None_not_Some. intros Hs. destruct (wf_entry _ _ Hwf _ Hs) as [_ Hn].
    simpl in Hn. lia. }
  split; [|done]. cbn [file_import]. unfold import_open, open_spec.
  rewrite run_bind, run_zoom, run_read_cstr by (done || apply _).
  replace (put mem_lens _ s) with s by (by destruct s). cbn [view mem_lens].
  destruct (cstr_spec (mem s) ptr) as [path|e]; [|done]. cbn [result_bind or_return fst snd].
  unfold open. rewrite run_bind, run_read.
  destruct (resolve (preopens (inner s)) path) as [hp|e]; [|done]. cbn [or_return].
  destruct (Z.eqb_spec (Z.land flags WASI_O_DIRECTORY) 0) as [Hd|Hd]; cbn [negb].
  2:{ by rewrite decide_True. }
  rewrite decide_False by (by intros []). unfold host_call.
  rewrite run_bind, run_atomically. destruct (fs_open (open_options flags) hp (os s)) as [[file|err] h];
    [|done]. cbn [fst snd bind]. rewrite run_atomically. unfold insert_file. cbn [with_os inner].
  rewrite Hnone, i32_saturating_succ, Z.min_r; [done|lia|].
  destruct (wf_next _ _ Hwf). simpl in *. unfold GUEST_FD_BASE in *. bounds.
Qed.

Lemma open_correct_witness :
  next_fd (inner demo_opened) = GUEST_FD_BASE + 1 /\
  (run (file_import (libc := linux_errno) Unix demo_open) demo_opened).1 =
    Done (GUEST_FD_BASE + 1).
Proof.
  split; [vm_compute; reflexivity|]. unfold demo_open.
  rewrite (proj1 (open_correct (libc := linux_errno) 0 _ 0 demo_opened demo_opened_wf
    ltac:(by compute) ltac:(by compute))). vm_compute. reflexivity.
Defined.
