(* ===== verification/FileLeaks.v ===== *)
(** Host resources of the file imports: every file and kernel object the host
    hands out is in the table or given back when the call that got it returns. *)

From S2P Require Import Prelude.
From S2P Require Import Prog.
From S2P Require Import Ledger.
From S2P Require Import GuestErrno.
From S2P Require Import GuestMemory.
From S2P Require Import HostPath.
From S2P Require Import Cli.
From S2P Require Import GuestPath.
From S2P Require Import FdTable.
From S2P Require Import HostFiles.
From S2P Require Import Sandbox.
From S2P Require Import MemHost.
From S2P Require Import HostFilesProofs.
From S2P Require Import FileSafety.
Local Open Scope prog_scope.

(** A resource of the host: an open file, or the handle of a directory or of a
    named object. *)
Inductive Resource (File : Type) :=
| RFile (f : File)
| RHandle (h : Z).
Arguments RFile {File} f.
Arguments RHandle {File} h.

#[export] Instance Resource_eq_dec {File} `{!EqDecision File} : EqDecision (Resource File).
Proof. solve_decision. Defined.

#[local] Abbreviation book File := (Ledger (Resource File)).

(** A host that writes down which resources it hands out and which it gets back. *)
#[export] Instance ledger_fs {H File} `{!HostFs H File} : HostFs (H * book File) File := {|
  fs_open o p h := let '(r, h') := fs_open o p h.1 in
    (r, (h', match r with IoOk f => take_out (RFile f) h.2 | IoErr _ => h.2 end));
  fs_close f h := (fs_close f h.1, give_in (RFile f) h.2);
  fs_read_at f b o h := let '(r, h') := fs_read_at f b o h.1 in (r, (h', h.2));
  fs_write_at f b o h := let '(r, h') := fs_write_at f b o h.1 in (r, (h', h.2));
  fs_seek f w h := let '(r, h') := fs_seek f w h.1 in (r, (h', h.2));
  fs_set_len f n h := let '(r, h') := fs_set_len f n h.1 in (r, (h', h.2));
  fs_sync_data f h := let '(r, h') := fs_sync_data f h.1 in (r, (h', h.2));
  fs_sync_all f h := let '(r, h') := fs_sync_all f h.1 in (r, (h', h.2));
  fs_setlk f h := let '(r, h') := fs_setlk f h.1 in (r, (h', h.2));
  fs_canonicalize p h := let '(r, h') := fs_canonicalize p h.1 in (r, (h', h.2));
  win_create_file_mapping n h := let '(r, h') := win_create_file_mapping n h.1 in
    (r, (h', if r.1 =? 0 then h.2 else take_out (RHandle r.1) h.2));
  win_create_file p h := let '(r, h') := win_create_file p h.1 in
    (r, (h', if r.1 =? INVALID_HANDLE_VALUE then h.2 else take_out (RHandle r.1) h.2));
  win_flush_file_buffers n h := let '(r, h') := win_flush_file_buffers n h.1 in (r, (h', h.2));
  win_close_handle n h := (win_close_handle n h.1, give_in (RHandle n) h.2);
  upper_utf16 := upper_utf16 (H := H)
|}.

(** What the table holds: its open files and the handles of its Windows locks. *)
Definition held {File} (t : HostFilesInner File) : list (Resource File) :=
  (RFile <$> values (files t)) ++ ((fun l => RHandle (handle l)) <$> values (locks t)).

Section Account.
Context {H File : Type} (w : Resource File -> Z).
Implicit Types s : FileSt (H * book File) File.

(** The weight of what the host has handed out beyond what the table holds. *)
Definition loose s : Z := balance w (os s).2 - weigh w (held (inner s)).

Definition file_moves s (d : Z) s' : Prop := loose s' = loose s + d.

Lemma file_moves_refl s : file_moves s 0 s.
Proof. unfold file_moves. lia. Qed.

Lemma file_moves_trans s d s' d' s'' :
  file_moves s d s' -> file_moves s' d' s'' -> file_moves s (d + d') s''.
Proof. unfold file_moves. lia. Qed.
End Account.

(** * Lemmas *)

Section Leaks.
Context {H File : Type} `{!HostFs H File} `{libc : LibcErrno} (plat : Platform).
Context (w : Resource File -> Z).
#[local] Abbreviation call := (prog (FileSt (H * book File) File)).

(** The debt of a call, with no debt left when it panics. *)
#[local] Abbreviation debt := (settles (file_moves w) (fun x => x = 0)).
#[local] Abbreviation keep x := (fun _ y => y = x).

Lemma file_debt_host {A} x (d : A -> Z) (f : H * book File -> A * (H * book File)) :
  (forall h, balance w (f h).2.2 = balance w h.2 + d (f h).1) ->
  debt x (fun a y => y = x + d a) (host_call f : call A).
Proof.
  intros Hf. apply settles_atomically. intros s. specialize (Hf (os s)).
  destruct (f (os s)) as [a h]. simpl in *. exists (d a). split; [|done].
  unfold file_moves, loose. simpl. lia.
Qed.

(** A call of the host that neither gives nor takes a resource. *)
Lemma file_debt_quiet {A} x (f : H * book File -> A * (H * book File)) :
  (forall h, (f h).2.2 = h.2) -> debt x (keep x) (host_call f : call A).
Proof.
  intros Hf. eapply settles_weaken; [apply (file_debt_host x (fun _ => 0))|]; intros; simpl in *; [|lia].
  rewrite Hf. lia.
Qed.

Lemma file_debt_with_file {A} x fd (bad : A) (f : File -> H * book File -> A * (H * book File)) :
  (forall file h, (f file h).2.2 = h.2) -> debt x (keep x) (with_file fd bad f : call A).
Proof.
  intros Hf. apply settles_atomically. intros s. exists 0. split; [|lia].
  destruct (files (inner s) !! fd) as [file|]; [|apply file_moves_refl].
  specialize (Hf file (os s)). destruct (f file (os s)) as [a h]. simpl in *.
  unfold file_moves, loose. simpl. rewrite Hf. lia.
Qed.

Lemma file_moves_mem m (s : FileSt (H * book File) File) : file_moves w s 0 (put mem_lens m s).
Proof. unfold file_moves, loose. simpl. lia. Qed.

Lemma file_debt_mem {A} x (p : prog GuestMem A) : no_panic p -> debt x (keep x) (zoom mem_lens p : call A).
Proof. intros Hp. apply settles_zoom_frame; [done|]. intros m s. apply file_moves_mem. Qed.

Lemma file_debt_read {A} x (f : FileSt (H * book File) File -> A) : debt x (keep x) (read f).
Proof. intros s. exists 0. split; [apply file_moves_refl|]. simpl. lia. Qed.

Hint Resolve file_debt_read : rust.
Hint Extern 1 (settles _ _ _ _ (zoom mem_lens _)) => apply file_debt_mem; auto with rust : rust.
Hint Extern 2 (settles _ _ _ _ (host_call _)) =>
  apply file_debt_quiet; intros ?; simpl; repeat case_match; reflexivity : rust.
Hint Extern 2 (settles _ _ _ _ (with_file _ _ _)) =>
  apply file_debt_with_file; intros ? ?; simpl; repeat case_match; simplify_eq/=; reflexivity : rust.

Ltac settle := settle_with ltac:(idtac; fail).

(** The debt after an open: the file, or nothing. *)
Definition opened (r : io_result File) : Z :=
  match r with IoOk f => w (RFile f) | IoErr _ => 0 end.

Lemma file_debt_fs_open opts path :
  debt 0 (fun r y => y = opened r) (host_call (fs_open opts path) : call _).
Proof.
  apply (file_debt_host 0 opened).
  intros h. simpl. destruct (fs_open opts path h.1) as [ [] ]; simpl;
    rewrite ?balance_take_out; lia.
Qed.

(** Giving a resource back. *)
Lemma file_debt_give_back r (f : H * book File -> H * book File) :
  (forall h, (f h).2 = give_in r h.2) ->
  debt (w r) (keep 0) (host_call (fun h => (tt, f h)) : call _).
Proof.
  intros Hf. eapply settles_weaken; [apply (file_debt_host (w r) (fun _ => - w r))|].
  - intros h. simpl. rewrite Hf, balance_give_in. lia.
  - intros _ y ->. lia.
Qed.

(** A resource moves between the host's side and the table's. *)
Lemma weigh_held (t : HostFilesInner File) :
  weigh w (held t) = weigh (fun f => w (RFile f)) (values (files t))
    + weigh (fun l => w (RHandle (handle l))) (values (locks t)).
Proof.
  unfold held. rewrite weigh_app. f_equal.
  - by induction (values (files t)); simpl; f_equal.
  - by induction (values (locks t)); simpl; f_equal.
Qed.

Lemma file_debt_open path flags mode : debt 0 (keep 0) (open plat path flags mode : call Z).
Proof.
  unfold open. settle. eapply settles_bind; [apply file_debt_fs_open|].
  intros [file|err] y ->; [|done]. cbn [opened].
  apply (settles_bind _ _ (w (RFile file)) (keep (w (RFile file)))).
  { case plat; settle. }
  intros lp y ->. apply settles_atomically. intros s. exists (- w (RFile file)). split; [|simpl; lia].
  simpl. unfold file_moves, loose. rewrite !weigh_held. simpl.
  destruct (files (inner s) !! next_fd (inner s)) as [old|] eqn:E; simpl.
  - pose proof (weigh_proper (fun f => w (RFile f)) _ _ (values_replace _ _ file old E)) as Hw.
    simpl in Hw. rewrite balance_give_in. lia.
  - rewrite values_insert_fresh by done. simpl. lia.
Qed.

Lemma file_debt_close fd : debt 0 (keep 0) (close plat fd : call Z).
Proof.
  apply settles_atomically. intros s. exists 0. unfold remove_file.
  destruct (files (inner s) !! fd) as [file|] eqn:E; [|split; [apply file_moves_refl|done]].
  split; [|done]. unfold file_moves, loose. rewrite !weigh_held. simpl.
  rewrite balance_give_in, (values_delete _ _ _ E). simpl. lia.
Qed.

Lemma file_debt_lock_exclusive fd : debt 0 (keep 0) (lock_exclusive plat fd : call Z).
Proof.
  unfold lock_exclusive. case plat; [auto with rust|].
  apply settles_atomically. intros s. exists 0. split; [|lia].
  destruct (lock_paths (inner s) !! fd) as [lp|]; [|apply file_moves_refl].
  destruct (locks (inner s) !! lp) eqn:Hlp; [apply file_moves_refl|].
  destruct (files (inner s) !! fd); [|apply file_moves_refl]. simpl.
  destruct (win_create_file_mapping _ _) as [[hd le] h]. simpl. unfold file_moves, loose.
  rewrite !weigh_held. destruct (hd =? 0); [simpl; lia|].
  destruct (le =? ERROR_ALREADY_EXISTS); simpl; rewrite ?balance_give_in, ?balance_take_out; [lia|].
  rewrite values_insert_fresh by done. simpl. lia.
Qed.

Lemma file_debt_sync_parent path : debt 0 (keep 0) (sync_parent plat path : call Z).
Proof.
  unfold sync_parent. settle. apply (settles_bind _ _ 0 (keep 0)); [|by intros r y ->].
  case plat; unfold sync_opened, sync_directory.
  - eapply settles_bind; [apply file_debt_fs_open|]. intros [d|err] y ->; [|done]. cbn [opened].
    apply (settles_bind _ _ (w (RFile d)) (keep (w (RFile d)))); [auto with rust|]. intros r y ->.
    eapply settles_bind; [by apply file_debt_give_back|]. by intros _ y ->.
  - eapply settles_bind;
      [apply (file_debt_host 0 (fun r : Z * Z => if r.1 =? INVALID_HANDLE_VALUE then 0 else w (RHandle r.1)))|].
    { intros h. simpl. destruct (win_create_file _ h.1) as [[hd le] h']. simpl.
      case_match; rewrite ?balance_take_out; lia. }
    intros [hd le] y ->. cbn [fst]. destruct (hd =? INVALID_HANDLE_VALUE); [done|].
    apply (settles_bind _ _ (w (RHandle hd)) (keep (w (RHandle hd)))); [auto with rust|]. intros [rc e] y ->.
    eapply settles_bind; [by apply file_debt_give_back|]. by intros _ y ->.
Qed.

Hint Resolve file_debt_open file_debt_close file_debt_lock_exclusive file_debt_sync_parent : rust.

Lemma file_debt_import c : debt 0 (keep 0) (file_import plat c : call Z).
Proof.
  destruct c; cbn [file_import];
    unfold import_open, import_pread, import_pwrite, import_truncate, import_sync,
      import_sync_parent, pread, pwrite, seek, truncate, sync; try case_match; settle.
Qed.
End Leaks.

(** * Properties *)

(** C5. No leak, under every interleaving and on either platform: when the
    threads have all ended, by returning or by a panic, the files, directory
    handles and kernel objects the host has handed out are exactly those it got
    back and those the table holds (an open descriptor or a Windows lock), each
    as often as it was handed out.  So a call that opens something for its own
    use closes that very file or handle, once, on every path. *)
Theorem file_import_no_leak {H File} `{!EqDecision File} `{!HostFs H File} `{libc : LibcErrno}
    plat gs (s : FileSt (H * book File) File) ts' s' :
  balanced (os s).2 (held (inner s)) ->
  rtc pool_step (file_pool plat gs, s) (ts', s') -> Forall ended ts' ->
  balanced (os s').2 (held (inner s')).
Proof.
  rewrite !balanced_weigh. intros Hs Hsteps Hend w. specialize (Hs w). assert (file_moves w s 0 s') as Hm.
  { refine (pool_settled (file_moves w) (fun x => x = 0) (fun _ x => x = 0) (file_moves_refl w)
      (file_moves_trans w) _ ts' s s' Hsteps _ _).
    - apply Forall_fmap, Forall_true. intros g. apply settles_guest_prog.
      + intros m ls. apply file_moves_mem.
      + intros c. apply (settles_zoom _ _ shared_lens), file_debt_import.
    - eapply Forall_impl; [exact Hend|]. intros t. unfold ended. by destruct (code t). }
  unfold file_moves, loose in Hm. lia.
Qed.

(** Two threads that open, lock and write a file and close it, on Windows: the
    handle of the lock is what is left of what the host handed out. *)
Lemma file_import_no_leak_witness :
  let run := run_schedule demo_schedule
    (file_pool (libc := linux_errno) Windows [demo_guest; demo_guest],
     Build_FileSt demo_mem (demo_table (File := Z)) (mem_fs_init ∅, blank)) in
  length (taken (os run.2).2) = 3%nat /\ held (inner run.2) = [RHandle 2] /\
  taken (os run.2).2 ≡ₚ given_back (os run.2).2 ++ [RHandle 2].
Proof.
  intros run. assert (held (inner run.2) = [RHandle 2]) as Hh by (vm_compute; reflexivity).
  split_and!; [vm_compute; reflexivity|exact Hh|].
  assert (Forall ended run.1) as Hend by (vm_compute; repeat constructor).
  pose proof (file_import_no_leak (libc := linux_errno) Windows [demo_guest; demo_guest]
    (Build_FileSt demo_mem (demo_table (File := Z)) (mem_fs_init ∅, blank)) run.1 run.2
    (Permutation_refl _) (run_schedule_steps demo_schedule _) Hend) as H.
  unfold balanced in H. rewrite Hh in H. exact H.
Defined.
