(* ===== verification/FileIo.v ===== *)
(** Reading, writing and seeking through the file imports, the flags of [open],
    and the descriptor numbers. *)

From S2P Require Import Prelude.
From S2P Require Import Prog.
From S2P Require Import GuestErrno.
From S2P Require Import GuestMemory.
From S2P Require Import HostPath.
From S2P Require Import Cli.
From S2P Require Import GuestPath.
From S2P Require Import FdTable.
From S2P Require Import HostFiles.
From S2P Require Import Sandbox.
From S2P Require Import MemHost.
From S2P Require Import HostFilesProofs.
From S2P Require Import FileSafety.
From S2P Require Import FileCalls.
Local Open Scope rust_scope.
Local Open Scope prog_scope.

(** * Specification *)

(** What the host's files hold: the bytes of a file, and which files are ordinary
    ones, open for reading and writing but not for appending. *)
Class FileContents (H File : Type) := {
  contents : File -> H -> list Z;
  positioned : File -> H -> Prop
}.

(** [pwrite] and [pread] as documented: a write reports how many bytes from the
    front of the buffer it has put at the offset, maybe not all of them; a read
    reports how many of the file's bytes from the offset it has put at the front
    of the buffer, none only for an empty buffer or past the end, and does not
    change the file. *)
Class FileContentsLaws (H File : Type) `{!HostFs H File} `{!FileContents H File} : Prop := {
  contents_write : forall f bytes off h n h',
    positioned f h -> 0 <= off -> fs_write_at f bytes off h = (IoOk n, h') -> 0 < n ->
    n <= Z.of_nat (length bytes) /\ positioned f h' /\
    contents f h' = write_bytes (Z.to_nat off) (take (Z.to_nat n) bytes) (contents f h);
  contents_read : forall f buf off h n buf' h',
    positioned f h -> 0 <= off -> fs_read_at f buf off h = ((IoOk n, buf'), h') ->
    0 <= n <= Z.of_nat (length buf) /\ length buf' = length buf /\
    take (Z.to_nat n) buf' = take (Z.to_nat n) (drop (Z.to_nat off) (contents f h)) /\
    (n = 0 -> buf = [] \/ Z.of_nat (length (contents f h)) <= off) /\
    contents f h' = contents f h
}.

(** The [open] flags a guest can combine. *)
Record guest_flags := {
  fl_append : bool; fl_creat : bool; fl_directory : bool; fl_excl : bool;
  fl_trunc : bool; fl_rdonly : bool; fl_wronly : bool
}.

Definition flag_bits (f : guest_flags) : Z :=
  let bit (b : bool) (v : Z) := if b then v else 0 in
  Z.lor (bit (fl_append f) WASI_O_APPEND) (Z.lor (bit (fl_creat f) WASI_O_CREAT)
    (Z.lor (bit (fl_directory f) WASI_O_DIRECTORY) (Z.lor (bit (fl_excl f) WASI_O_EXCL)
      (Z.lor (bit (fl_trunc f) WASI_O_TRUNC) (Z.lor (bit (fl_rdonly f) WASI_O_RDONLY)
        (bit (fl_wronly f) WASI_O_WRONLY)))))).

(** * Lemmas *)

Section Io.
Context {H File : Type} `{!HostFs H File} `{libc : LibcErrno} (plat : Platform).
Implicit Types s : FileSt H File.

Lemma run_with_file {A} fd file (bad : A) f s :
  files (inner s) !! fd = Some file ->
  run (with_file fd bad f) s = (Done (f file (os s)).1, with_os (f file (os s)).2 s).
Proof.
  intros Hfd. unfold with_file. rewrite run_atomically, Hfd. by destruct (f file (os s)).
Qed.

Lemma read_spec_length (m : GuestMem) ptr len bytes :
  read_spec m ptr len = Ok bytes -> Z.of_nat (length bytes) = len.
Proof.
  unfold read_spec, ok_or. destruct (mem_bytes m) as [d|]; simpl; [|done].
  destruct (checked_range _ _ _) as [r|] eqn:E; simpl; [|done].
  apply checked_range_Ok in E as (-> & ? & ? & ? & ?). intros [= <-]. simpl.
  rewrite length_take, length_drop. lia.
Qed.

Lemma count_result_Ok n : 0 <= n <= i32_max -> count_result plat (IoOk n) = n.
Proof. intros Hn. unfold count_result, i32_try_from. rewrite decide_True; [done|bounds]. Qed.

Lemma count_result_inv r n : 0 <= n -> count_result plat r = n -> r = IoOk n.
Proof.
  intros Hn. destruct r as [k|err]; simpl.
  - unfold i32_try_from. case_decide; simpl; [by intros ->|].
    pose proof (neg_errno_neg EOVERFLOW ltac:(compute_decision)). lia.
  - pose proof (neg_errno_neg _ (io_errno_guest plat err)). lia.
Qed.

Lemma run_pwrite fd file ptr len off bytes s :
  files (inner s) !! fd = Some file -> read_spec (mem s) ptr len = Ok bytes ->
  run (file_import plat (FPwrite fd ptr len off)) s =
    (Done (count_result plat (fs_write_at file bytes (as_u64 off) (os s)).1),
     with_os (fs_write_at file bytes (as_u64 off) (os s)).2 s).
Proof.
  intros Hfd Hr. cbn [file_import]. unfold import_pwrite, pwrite.
  rewrite run_bind, run_zoom, run_read_guest by apply _. cbn [fst snd view mem_lens].
  rewrite Hr. cbn [or_return]. replace (put mem_lens (mem s) s) with s by (by destruct s).
  erewrite run_with_file by done. by destruct (fs_write_at _ _ _ _).
Qed.

(** A [pread] that reports [r] bytes, and what it has done. *)
Lemma run_pread_inv fd file ptr len off r s s' :
  files (inner s) !! fd = Some file -> 0 <= r ->
  run (file_import plat (FPread fd ptr len off)) s = (Done r, s') ->
  exists buf, 0 <= len /\
    fs_read_at file (replicate (Z.to_nat len) 0) (as_u64 off) (os s) = ((IoOk r, buf), os s') /\
    inner s' = inner s /\ (r = 0 -> mem s' = mem s) /\
    (0 < r -> write_spec (mem s) ptr (take (Z.to_nat r) buf) = Ok (mem s')).
Proof.
  intros Hfd H0 Hrun. cbn [file_import] in Hrun. unfold import_pread in Hrun.
  destruct (checked_len len) as [n|e] eqn:El; cbn [or_return] in Hrun.
  2:{ injection Hrun as Hr _. rewrite (checked_len_Err _ _ El) in Hr.
      pose proof (neg_errno_neg EINVAL ltac:(compute_decision)). lia. }
  apply checked_len_Ok in El as [-> Hl]. unfold pread in Hrun.
  rewrite run_bind in Hrun. erewrite run_with_file in Hrun by done.
  destruct (fs_read_at file _ _ (os s)) as [[res buf] h] eqn:E. cbn [fst snd] in Hrun.
  destruct (Z.leb_spec (count_result plat res) 0) as [Hle|Hgt].
  - injection Hrun as Hc <-. assert (r = 0) as Hr by lia. apply count_result_inv in Hc as ->; [|done].
    exists buf. split_and!; done || lia.
  - destruct (Z.ltb_spec (Z.of_nat (length buf)) (count_result plat res)); [done|].
    rewrite run_bind, run_zoom, run_write_guest in Hrun by apply _.
    cbn [fst snd view mem_lens with_os mem] in Hrun.
    destruct (write_spec (mem s) ptr _) as [m|e] eqn:Ew; cbn [after_write fst snd or_return put] in Hrun.
    + injection Hrun as Hc <-. apply count_result_inv in Hc as Hres; [|lia]. subst res.
      rewrite Hc in Ew. exists buf. split_and!; done || lia.
    + injection Hrun as Hr _. pose proof (write_spec_errs (mem s) ptr
        (take (Z.to_nat (count_result plat res)) buf)) as Hg. rewrite Ew in Hg.
      pose proof (neg_errno_neg _ Hg). lia.
Qed.
End Io.

(** * Properties *)

(** C18. Round trip through a file that is not opened for appending, on a host
    whose [pwrite] and [pread] may both stop early.  A [pwrite] that reports [n]
    bytes has put the first [n] bytes of the guest's buffer at the offset of the
    file, and nothing anywhere else.  A [pread] at that offset that then reports
    [r] bytes, of any length and into any part of the memory, has put [r] bytes of
    the file there and changed no other cell; as far as they go, and for all of
    them when [r] is at most [n], these are the bytes of the guest's buffer; and
    [r] is 0 only for a read of length 0. *)
Theorem pwrite_pread_roundtrip {H File} `{!HostFs H File} `{!FileContents H File}
    `{!FileContentsLaws H File} `{libc : LibcErrno} plat fd file
    ptr ptr' len len' off n r bytes (s s1 s2 : FileSt H File) :
  files (inner s) !! fd = Some file -> positioned file (os s) ->
  read_spec (mem s) ptr len = Ok bytes ->
  run (file_import plat (FPwrite fd ptr len off)) s = (Done n, s1) -> 0 < n ->
  run (file_import plat (FPread fd ptr' len' off)) s1 = (Done r, s2) -> 0 <= r ->
  n <= len /\ mem s1 = mem s /\
  contents file (os s1) =
    write_bytes (Z.to_nat (as_u64 off)) (take (Z.to_nat n) bytes) (contents file (os s)) /\
  r <= len' /\ (r = 0 -> len' = 0 /\ mem s2 = mem s1) /\
  (0 < r -> exists got, length got = Z.to_nat r /\ write_spec (mem s1) ptr' got = Ok (mem s2) /\
     take (Z.to_nat (Z.min r n)) got = take (Z.to_nat (Z.min r n)) bytes) /\
  contents file (os s2) = contents file (os s1).
Proof.
  intros Hfd Hpos Hr Hwr Hn Hrd H0.
  assert (0 <= as_u64 off) as Hoff by (apply Z.mod_pos_bound; done). apply read_spec_length in Hr as Hlen.
  erewrite run_pwrite in Hwr by done. injection Hwr as Hc <-.
  apply count_result_inv in Hc; [|lia].
  destruct (fs_write_at file bytes (as_u64 off) (os s)) as [res h1] eqn:E. cbn [fst snd with_os] in *.
  subst res. destruct (contents_write _ _ _ _ _ _ Hpos Hoff E Hn) as (Hle & Hpos1 & Hcon).
  apply (run_pread_inv plat fd file) in Hrd as (buf & Hl' & Hread & _ & Hz & Hm); [|done..].
  destruct (contents_read _ _ _ _ _ _ _ Hpos1 Hoff Hread) as (Hr0 & Hbuf & Htake & Hzero & Hcon2).
  rewrite length_replicate in Hr0, Hbuf. cbn [os mem with_os] in *.
  assert (Z.of_nat (Z.to_nat (as_u64 off) + Z.to_nat n) <= Z.of_nat (length (contents file h1))) as Hgrow.
  { rewrite Hcon. pose proof (length_write_bytes (Z.to_nat (as_u64 off)) (take (Z.to_nat n) bytes)
      (contents file (os s))) as Hg. rewrite length_take in Hg. lia. }
  split_and!; try done; try lia.
  - intros ->. split; [|by apply Hz]. destruct (Hzero eq_refl) as [Hnil|Hend]; [|lia].
    apply (f_equal length) in Hnil. rewrite length_replicate in Hnil. simpl in Hnil. lia.
  - intros Hpos'. exists (take (Z.to_nat r) buf). split; [rewrite length_take; lia|]. split; [by apply Hm|].
    rewrite Htake, take_take, Hcon, Nat.min_l by lia.
    rewrite write_bytes_read by (rewrite length_take; lia). rewrite take_take. f_equal. lia.
Qed.

(** C36. [seek]: an unknown descriptor is [EBADF] before the arguments are
    looked at; an unknown [whence], and a negative absolute offset, are [EINVAL]
    without a host call; otherwise the host's cursor is moved from the start,
    the current position or the end, and the position it reports is returned. *)
Theorem seek_correct {H File} `{!HostFs H File} `{libc : LibcErrno} plat fd off whence
    (s : FileSt H File) :
  run (file_import plat (FSeek fd off whence)) s =
  match files (inner s) !! fd with
  | None => (Done (neg_errno EBADF), s)
  | Some file =>
      let moved from :=
        match fs_seek file from (os s) with
        | (IoOk pos, h) =>
            (Done (if decide (- 2 ^ 63 <= pos < 2 ^ 63) then pos else neg_errno EOVERFLOW),
             with_os h s)
        | (IoErr err, h) => (Done (neg_errno (io_errno plat err)), with_os h s)
        end in
      if decide (whence = 1) then moved (SeekCurrent off)
      else if decide (whence = 2) then moved (SeekEnd off)
      else if decide (whence = 0 /\ 0 <= off) then moved (SeekStart off)
      else (Done (neg_errno EINVAL), s)
  end.
Proof.
  cbn [file_import]. destruct (files (inner s) !! fd) as [file|] eqn:E.
  2:{ unfold seek. by rewrite run_with_file_none. }
  unfold seek. erewrite run_with_file by done.
  assert (forall from, (Done (let '(r, h) := fs_seek file from (os s) in
      (match r with IoOk pos => default (neg_errno EOVERFLOW) (i64_try_from pos)
       | IoErr err => neg_errno (io_errno plat err) end, h)).1,
    with_os (let '(r, h) := fs_seek file from (os s) in
      (match r with IoOk pos => default (neg_errno EOVERFLOW) (i64_try_from pos)
       | IoErr err => neg_errno (io_errno plat err) end, h)).2 s) =
    match fs_seek file from (os s) with
    | (IoOk pos, h) =>
        (Done (if decide (- 2 ^ 63 <= pos < 2 ^ 63) then pos else neg_errno EOVERFLOW), with_os h s)
    | (IoErr err, h) => (Done (neg_errno (io_errno plat err)), with_os h s)
    end) as Hmove.
  { intros from. destruct (fs_seek file from (os s)) as [[pos|err] h]; [|done]. simpl.
    unfold i64_try_from. do 2 case_decide; simpl; try done; bounds. }
  unfold seek_from, SEEK_SET, SEEK_CUR, SEEK_END, unsigned_try_from.
  destruct (Z.eqb_spec whence 0) as [->|]; [|destruct (Z.eqb_spec whence 1) as [->|];
    [|destruct (Z.eqb_spec whence 2) as [->|]]].
  - rewrite (decide_False (P := 0 = 1)), (decide_False (P := 0 = 2)) by done. destruct (decide (0 <= off)).
    + rewrite (decide_True (P := 0 = 0 /\ _)) by done. by rewrite <- Hmove.
    + rewrite (decide_False (P := 0 = 0 /\ _)) by (by intros []). by destruct s.
  - rewrite (decide_True (P := 1 = 1)) by done. by rewrite <- Hmove.
  - rewrite (decide_False (P := 2 = 1)), (decide_True (P := 2 = 2)) by done. by rewrite <- Hmove.
  - rewrite (decide_False (P := whence = 1)), (decide_False (P := whence = 2)),
      (decide_False (P := whence = 0 /\ _)) by tauto. by destruct s.
Qed.

(** The flags of [open]: for every combination of the flags the guest's C
    library uses, each one reaches the host as the option it stands for. The
    file is opened for reading unless it is opened for writing only, [O_EXCL]
    counts only with [O_CREAT] and then requires a new file, and [O_DIRECTORY]
    is the bit that refuses the call. *)
Lemma open_options_correct f :
  open_options (flag_bits f) = {|
    opt_read := fl_rdonly f || negb (fl_wronly f);
    opt_write := fl_wronly f;
    opt_append := fl_append f;
    opt_create := fl_creat f && negb (fl_excl f);
    opt_create_new := fl_creat f && fl_excl f;
    opt_truncate := fl_trunc f
  |} /\
  (Z.land (flag_bits f) WASI_O_DIRECTORY = 0 <-> fl_directory f = false).
Proof. destruct f as [[] [] [] [] [] [] []]; by vm_compute. Qed.

(** C37. Descriptor numbers: opening [n] files one after the other on a fresh
    table gives 20000, 20001, ... in order, so that they differ as long as [n]
    is at most 2147463648; from then on every open gives [i32::MAX] again. *)
Theorem descriptor_numbers {File} plat cwd cli (t : HostFilesInner File)
    (l : list (File * string)) :
  new cwd cli = IoOk t ->
  let fds := (@insert_all _ _ _ (files_fd_table plat) l t).1 in
  fds = (fun i => Z.min i32_max (GUEST_FD_BASE + Z.of_nat i)) <$> seq 0 (length l) /\
  (NoDup fds <-> Z.of_nat (length l) <= 2147463648).
Proof.
  intros Hnew fds. assert (fds = (fun i => Z.min i32_max (GUEST_FD_BASE + Z.of_nat i)) <$>
    seq 0 (length l)) as Hfds.
  { pose proof (new_wf plat _ _ _ Hnew) as [Hwf _]. assert (next_fd t = GUEST_FD_BASE) as Ht by (by rewrite (new_empty _ _ _ Hnew)).
    pose proof (@insert_all_fds _ _ _ (files_fd_table plat) _ GUEST_FD_BASE l t Hwf) as H.
    cbn [ft_next files_fd_table] in H. rewrite Ht in H. exact H. }
  split; [done|]. rewrite Hfds. unfold GUEST_FD_BASE. split.
  - intros Hnd. destruct (Z.le_gt_cases (Z.of_nat (length l)) 2147463648) as [|Hgt]; [done|].
    exfalso.
    assert (forall z, 0 <= z -> exists a, Z.of_nat a = z) as Hnat
      by (intros z Hz; exists (Z.to_nat z); by rewrite Z2Nat.id).
    destruct (Hnat 2147463647) as [a Ha]; [done|]. destruct (Hnat 2147463648) as [b Hb]; [done|].
    assert (a = b) as ->; [|lia].
    apply (NoDup_lookup _ a b i32_max Hnd); rewrite list_lookup_fmap, lookup_seq_lt by lia;
      cbn [fmap option_fmap option_map]; f_equal; bounds.
  - intros Hle. apply NoDup_fmap_2_strong; [|apply NoDup_seq].
    intros x y [_ Hx]%elem_of_seq [_ Hy]%elem_of_seq. bounds.
Qed.

(** * Concrete runs *)

#[export] Instance mem_contents : FileContents MemFs Z := {|
  contents f h := match MemHost.mem_data f h with Some (_, d) => d | None => [] end;
  positioned f h := exists mh d, MemHost.mem_data f h = Some (mh, d) /\
    mh_read mh = true /\ mh_write mh = true /\ mh_append mh = false
|}.

#[export] Instance mem_contents_laws : FileContentsLaws MemFs Z.
Proof.
  split.
  - intros f bytes off h n h' (mh & d & Hf & Hr & Hw & Ha) _. cbn [fs_write_at mem_fs contents mem_contents].
    unfold mem_write_at. rewrite Hf, Hw, Ha. cbn [negb].
    destruct (2 ^ 63 <=? off) eqn:Eo; [done|]. intros [= <- <-] _. split; [lia|].
    assert (MemHost.mem_data f (set_disk (<[mh_path mh := write_bytes (Z.to_nat off) bytes d]> (disk h)) h)
      = Some (mh, write_bytes (Z.to_nat off) bytes d)) as Hf'.
    { unfold MemHost.mem_data in *. cbn [handles disk set_disk]. destruct (handles h !! f) as [mh'|]; [|done].
      destruct (disk h !! mh_path mh'); [|done]. simplify_eq. by rewrite lookup_insert_eq. }
    split; [by exists mh, (write_bytes (Z.to_nat off) bytes d)|].
    by rewrite Hf', Nat2Z.id, firstn_all.
  - intros f buf off h n buf' h' (mh & d & Hf & Hr & _) Hoff. cbn [fs_read_at mem_fs contents mem_contents].
    unfold mem_read_at. rewrite Hf, Hr. cbn [negb]. destruct (2 ^ 63 <=? off); [done|].
    intros [= <- <- <-]. rewrite Hf, Nat2Z.id.
    rewrite length_app, length_drop, !length_take, length_drop.
    split_and!; try lia.
    + rewrite take_app_le by (rewrite length_take, length_drop; lia).
      rewrite take_take. f_equal. lia.
    + intros Hz. destruct buf; [by left|]. right. cbn [length] in Hz. lia.
    + done.
Qed.

(** Four bytes written at offset 2 and read back, six at a time, into another
    part of the memory. *)
Lemma pwrite_pread_roundtrip_witness :
  let s1 := (run (file_import (libc := linux_errno) Unix (FPwrite GUEST_FD_BASE 1 4 2))
    demo_opened).2 in
  let s2 := (run (file_import (libc := linux_errno) Unix (FPread GUEST_FD_BASE 24 6 2)) s1).2 in
  exists got, length got = 4%nat /\ write_spec (mem s1) 24 got = Ok (mem s2) /\
    take 4 got = string_bytes "data".
Proof.
  intros s1 s2.
  destruct (pwrite_pread_roundtrip (libc := linux_errno) Unix GUEST_FD_BASE 100 1 24 4 6 2 4 4
    (string_bytes "data") demo_opened s1 s2) as (_ & _ & _ & _ & _ & Hgot & _).
  - vm_compute; reflexivity.
  - eexists _, _. split; [vm_compute; reflexivity|]. by vm_compute.
  - vm_compute; reflexivity.
  - vm_compute; reflexivity.
  - done.
  - vm_compute; reflexivity.
  - done.
  - destruct Hgot as (got & Hl & Hm & Hg); [done|]. exists got. by split_and!.
Defined.

Lemma descriptor_numbers_witness :
  let fds := (@insert_all _ _ _ (files_fd_table Unix)
    [(7, "a"); (8, "b"); (9, "c")]%string demo_table).1 in
  fds = [20000; 20001; 20002] /\ NoDup fds.
Proof.
  intros fds. split; [vm_compute; reflexivity|].
  apply (descriptor_numbers (File := Z) Unix _ _ _ _ demo_new). done.
Defined.
