(* ===== verification/HostSockets.v ===== *)
(** The host socket table and the imports [waasmtime_mysql_sockets] on Unix
    (src/host_sockets.rs).

    The kernel is a parameter, [UnixSockets]: a state and one function per system
    call of the code.  The constants of the [libc] crate that the code compares
    with and passes on are [LibcConsts]. *)

From S2P Require Import Prelude.
From S2P Require Import Prog.
From S2P Require Import GuestErrno.
From S2P Require Import GuestMemory.
From S2P Require Import FdTable.
Local Open Scope rust_scope.
Local Open Scope prog_scope.

(** * The host *)

(** [struct pollfd]. *)
Record pollfd := { pfd_fd : Z; pfd_events : Z; pfd_revents : Z }.

Inductive NameKind := Local | Peer.

(** System calls. A result is the return value and the [errno] the thread reads
    after it; a call that fills a buffer also gives the buffer after the call,
    and one that updates a length through a pointer the new length. *)
Class UnixSockets (U : Type) := {
  sys_socket : Z -> Z -> Z -> U -> (Z * Z) * U;
  sys_close : Z -> U -> (Z * Z) * U;
  sys_bind : Z -> list Z -> U -> (Z * Z) * U;
  sys_listen : Z -> Z -> U -> (Z * Z) * U;
  sys_accept : Z -> list Z -> U -> (Z * Z * (list Z * Z)) * U;
  sys_connect : Z -> list Z -> U -> (Z * Z) * U;
  sys_name : NameKind -> Z -> list Z -> U -> (Z * Z * (list Z * Z)) * U;
  sys_setsockopt : Z -> Z -> Z -> list Z -> U -> (Z * Z) * U;
  sys_getsockopt : Z -> Z -> Z -> list Z -> U -> (Z * Z * (list Z * Z)) * U;
  sys_send : Z -> list Z -> Z -> U -> (Z * Z) * U;
  sys_recv : Z -> list Z -> Z -> U -> (Z * Z * list Z) * U;
  sys_sendto : Z -> list Z -> Z -> list Z -> U -> (Z * Z) * U;
  sys_recvfrom : Z -> list Z -> Z -> list Z -> U -> (Z * Z * (list Z * (list Z * Z))) * U;
  sys_shutdown : Z -> Z -> U -> (Z * Z) * U;
  sys_fcntl : Z -> Z -> Z -> U -> (Z * Z) * U;
  sys_poll : list pollfd -> Z -> U -> (Z * Z * list pollfd) * U
}.

(** The [libc] constants, and whether the target is Linux or Android. *)
Class LibcConsts := {
  libc_SOCK_STREAM : Z; libc_SOCK_DGRAM : Z;
  libc_SOCK_CLOEXEC : Z; libc_SOCK_NONBLOCK : Z;
  libc_AF_INET : Z; libc_AF_INET6 : Z; libc_SOL_SOCKET : Z;
  libc_F_GETFD : Z; libc_F_SETFD : Z; libc_FD_CLOEXEC : Z;
  libc_F_GETFL : Z; libc_F_SETFL : Z; libc_O_NONBLOCK : Z;
  target_linux : bool
}.

Definition linux_consts : LibcConsts := {|
  libc_SOCK_STREAM := 1; libc_SOCK_DGRAM := 2;
  libc_SOCK_CLOEXEC := 524288; libc_SOCK_NONBLOCK := 2048;
  libc_AF_INET := 2; libc_AF_INET6 := 10; libc_SOL_SOCKET := 1;
  libc_F_GETFD := 1; libc_F_SETFD := 2; libc_FD_CLOEXEC := 1;
  libc_F_GETFL := 3; libc_F_SETFL := 4; libc_O_NONBLOCK := 2048;
  target_linux := true
|}.

(** macOS has no socket type flags. *)
Definition macos_consts : LibcConsts := {|
  libc_SOCK_STREAM := 1; libc_SOCK_DGRAM := 2;
  libc_SOCK_CLOEXEC := 0; libc_SOCK_NONBLOCK := 0;
  libc_AF_INET := 2; libc_AF_INET6 := 30; libc_SOL_SOCKET := 65535;
  libc_F_GETFD := 1; libc_F_SETFD := 2; libc_FD_CLOEXEC := 1;
  libc_F_GETFL := 3; libc_F_SETFL := 4; libc_O_NONBLOCK := 4;
  target_linux := false
|}.

(** * Data *)

Definition GUEST_FD_BASE : Z := 10000.
Definition MAX_POLL_FDS : Z := 16384.
Definition WASI_ALT_AF_INET : Z := 1.
Definition WASI_ALT_SOCK_DGRAM : Z := 5.
Definition WASI_ALT_SOCK_STREAM : Z := 6.
Definition WASI_ALT_SOCK_CLOEXEC : Z := 8192.
Definition WASI_ALT_SOCK_NONBLOCK : Z := 16384.
Definition WASI_SOL_SOCKET : Z := 2147483647.
Definition WASI_F_GETFL : Z := 3.
Definition WASI_F_SETFL : Z := 4.
Definition WASI_O_NONBLOCK : Z := 4.
Definition WASI_SO_ERROR : Z := 4.

Record HostSocket := { raw_fd : Z; guest_domain : Z; host_domain : Z }.

(** [HostSocketsInner]. *)
Record HostSocketsInner := { next_fd : Z; sockets : gmap Z HostSocket }.

Record NormalizedSocketType := { ty : Z; close_on_exec : bool; nonblocking : bool }.

(** [HostSockets::new]. *)
Definition new : HostSocketsInner := {| next_fd := GUEST_FD_BASE; sockets := ∅ |}.

(** [HostSockets::insert] and [HostSockets::remove], the critical sections that
    change the table. *)
Definition insert (socket : HostSocket) (t : HostSocketsInner) : Z * HostSocketsInner :=
  (next_fd t,
   {| next_fd := i32_saturating_add (next_fd t) 1;
      sockets := <[next_fd t := socket]> (sockets t) |}).

Definition remove (guest_fd : Z) (t : HostSocketsInner) : option HostSocket * HostSocketsInner :=
  (sockets t !! guest_fd, {| next_fd := next_fd t; sockets := delete guest_fd (sockets t) |}).

(** What the threads share: the memory, the table and the kernel. *)
Record SockSt (U : Type) := { mem : GuestMem; table : HostSocketsInner; os : U }.
Arguments mem {U} _.
Arguments table {U} _.
Arguments os {U} _.
Arguments Build_SockSt {U} _ _ _.

Definition mem_lens {U} : lens (SockSt U) GuestMem :=
  Lens mem (fun m s => Build_SockSt m (table s) (os s)).
Definition with_table {U} (t : HostSocketsInner) (s : SockSt U) : SockSt U :=
  Build_SockSt (mem s) t (os s).
Definition with_os {U} (u : U) (s : SockSt U) : SockSt U := Build_SockSt (mem s) (table s) u.

(** [&buf[..n]]: out of range is a panic. *)
Definition slice_to (buf : list Z) (n : Z) : option (list Z) :=
  if decide (n <= Z.of_nat (length buf)) then Some (take (Z.to_nat n) buf) else None.
Definition or_panic {S A B} (o : option A) (k : A -> prog S B) : prog S B :=
  match o with Some a => k a | None => Panic end.

(** [if let Err(errno) = r { cleanup; return neg_errno(errno) }]. *)
Definition or_cleanup {S A} (r : result A) (cleanup : prog S unit) (k : A -> prog S Z) : prog S Z :=
  match r with Ok a => k a | Err e => cleanup;; Ret (neg_errno e) end.

(** * Helpers *)

Section Helpers.
Context `{libc : LibcErrno} `{consts : LibcConsts}.

(** [checked_poll_count]. *)
Definition checked_poll_count (nfds : Z) : result Z :=
  nfds <-? ok_or (unsigned_try_from nfds) EINVAL;;
  if decide (nfds > MAX_POLL_FDS) then Err EINVAL else Ok nfds.

Definition host_socket_flag_mask : Z :=
  if target_linux then Z.lor libc_SOCK_CLOEXEC libc_SOCK_NONBLOCK else 0.
Definition has_host_sock_cloexec (flags : Z) : bool :=
  if target_linux then negb (Z.land flags libc_SOCK_CLOEXEC =? 0) else false.
Definition has_host_sock_nonblock (flags : Z) : bool :=
  if target_linux then negb (Z.land flags libc_SOCK_NONBLOCK =? 0) else false.

(** [normalize_socket_type]. *)
Definition normalize_socket_type (t : Z) : result NormalizedSocketType :=
  let flag_mask :=
    Z.lor (Z.lor host_socket_flag_mask WASI_ALT_SOCK_CLOEXEC) WASI_ALT_SOCK_NONBLOCK in
  let base := Z.land t (Z.lnot flag_mask) in
  let flags := Z.land t flag_mask in
  ty <-? (if (base =? libc_SOCK_STREAM) || (base =? WASI_ALT_SOCK_STREAM) then Ok libc_SOCK_STREAM
          else if (base =? libc_SOCK_DGRAM) || (base =? WASI_ALT_SOCK_DGRAM)
          then Ok libc_SOCK_DGRAM
          else Err EOPNOTSUPP);;
  Ok {| ty := ty;
        close_on_exec := has_host_sock_cloexec flags
                         || negb (Z.land flags WASI_ALT_SOCK_CLOEXEC =? 0);
        nonblocking := has_host_sock_nonblock flags
                       || negb (Z.land flags WASI_ALT_SOCK_NONBLOCK =? 0) |}.

(** [normalize_socket_domain]. *)
Definition normalize_socket_domain (domain : Z) : Z :=
  if domain =? WASI_ALT_AF_INET then libc_AF_INET
  else if domain =? libc_AF_INET then libc_AF_INET
  else if domain =? libc_AF_INET6 then libc_AF_INET6
  else domain.

Definition is_guest_socket_level (level : Z) : bool :=
  (level =? 1) || (level =? WASI_SOL_SOCKET).

(** [normalize_socket_level]. *)
Definition normalize_socket_level (level : Z) : Z :=
  if is_guest_socket_level level then libc_SOL_SOCKET else level.

(** [write_sockaddr_family], on a little-endian host. *)
Definition write_sockaddr_family (addr : list Z) (family : Z) : list Z :=
  if decide (length addr < 2)%nat then addr
  else match u16_try_from family with
       | None => addr
       | Some family => splice 0 (to_le_bytes 2 family) addr
       end.
Definition normalize_sockaddr_for_host (addr : list Z) (host_domain : Z) : list Z :=
  write_sockaddr_family addr host_domain.
Definition denormalize_sockaddr_for_guest (addr : list Z) (guest_domain : Z) : list Z :=
  write_sockaddr_family addr guest_domain.

Definition last_errno (errno : Z) : Z := from_host_errno errno.
Definition neg_last_errno (errno : Z) : Z := neg_errno (last_errno errno).

(** [cvt_i32] and [cvt_ssize]. *)
Definition cvt_i32 (r : Z * Z) : Z := if r.1 <? 0 then neg_last_errno r.2 else r.1.
Definition cvt_ssize (r : Z * Z) : Z :=
  if r.1 <? 0 then neg_last_errno r.2
  else default (neg_errno EOVERFLOW) (i32_try_from r.1).
End Helpers.

(** * The imports ([add_to_linker]) *)

Section Imports.
Context {U : Type} `{!UnixSockets U} `{libc : LibcErrno} `{consts : LibcConsts}.
(** [AppState::network_allowed]. *)
Context (network_allowed : bool).
#[local] Abbreviation call := (prog (SockSt U)).

(** One system call. *)
Definition sys {A} (f : U -> A * U) : call A :=
  atomically (fun s => let '(a, u) := f (os s) in (a, with_os u s)).

(** [HostSockets::get]. *)
Definition get (guest_fd : Z) : call (result HostSocket) :=
  read (fun s => ok_or (sockets (table s) !! guest_fd) EBADF).

Definition insert_socket (socket : HostSocket) : call Z :=
  atomically (fun s => let '(fd, t) := insert socket (table s) in (fd, with_table t s)).
Definition remove_socket (guest_fd : Z) : call (result HostSocket) :=
  atomically (fun s =>
    let '(socket, t) := remove guest_fd (table s) in (ok_or socket EBADF, with_table t s)).

(** [match caller.data().sockets.get(fd) { Ok(socket) => .., Err(errno) => return .. }]. *)
Definition with_socket (fd : Z) (k : HostSocket -> call Z) : call Z :=
  socket <- get fd;; or_return neg_errno socket k.

Definition mem_read (ptr len : Z) (k : list Z -> call Z) : call Z :=
  bytes <- zoom mem_lens (read_guest ptr len);; or_return neg_errno bytes k.
Definition mem_read_u32 (ptr : Z) (k : Z -> call Z) : call Z :=
  v <- zoom mem_lens (read_u32 ptr);; or_return neg_errno v k.
Definition mem_write (ptr : Z) (bytes : list Z) : call (result unit) :=
  zoom mem_lens (write_guest ptr bytes).
Definition mem_write_u32 (ptr value : Z) : call (result unit) :=
  zoom mem_lens (write_u32 ptr value).

Definition close_raw (fd : Z) : call unit := sys (sys_close fd);; Ret tt.

(** [configure_socket_type_flags]. *)
Definition configure_socket_type_flags (raw_fd : Z) (socket_type : NormalizedSocketType)
  : call (result unit) :=
  cloexec <-
    (if close_on_exec socket_type then
       got <- sys (sys_fcntl raw_fd libc_F_GETFD 0);;
       let '(flags, errno) := (got : Z * Z) in
       if flags <? 0 then Ret (Err (last_errno errno))
       else
         set <- sys (sys_fcntl raw_fd libc_F_SETFD (Z.lor flags libc_FD_CLOEXEC));;
         let '(rc, errno) := (set : Z * Z) in
         Ret (if rc <? 0 then Err (last_errno errno) else Ok tt)
     else Ret (Ok tt));;
  match (cloexec : result unit) with
  | Err e => Ret (Err e)
  | Ok _ =>
      if nonblocking socket_type then
        got <- sys (sys_fcntl raw_fd libc_F_GETFL 0);;
        let '(flags, errno) := (got : Z * Z) in
        if flags <? 0 then Ret (Err (last_errno errno))
        else
          set <- sys (sys_fcntl raw_fd libc_F_SETFL (Z.lor flags libc_O_NONBLOCK));;
          let '(rc, errno) := (set : Z * Z) in
          Ret (if rc <? 0 then Err (last_errno errno) else Ok tt)
      else Ret (Ok tt)
  end.

Definition import_socket (domain type protocol : Z) : call Z :=
  if negb network_allowed then Ret (neg_errno ENETDOWN)
  else
    or_return neg_errno (normalize_socket_type type) (fun socket_type =>
      let host_domain := normalize_socket_domain domain in
      made <- sys (sys_socket host_domain (ty socket_type) protocol);;
      let '(raw_fd, errno) := (made : Z * Z) in
      if raw_fd <? 0 then Ret (neg_last_errno errno)
      else
        configured <- configure_socket_type_flags raw_fd socket_type;;
        or_cleanup configured (close_raw raw_fd) (fun _ =>
          insert_socket {| raw_fd := raw_fd; guest_domain := domain;
                           host_domain := host_domain |})).

Definition import_bind (fd addr_ptr addr_len : Z) : call Z :=
  with_socket fd (fun socket =>
    mem_read addr_ptr addr_len (fun addr =>
      let addr := normalize_sockaddr_for_host addr (host_domain socket) in
      rc <- sys (sys_bind (raw_fd socket) addr);;
      Ret (cvt_i32 rc))).

Definition import_listen (fd backlog : Z) : call Z :=
  with_socket fd (fun socket =>
    rc <- sys (sys_listen (raw_fd socket) backlog);;
    Ret (cvt_i32 rc)).

Definition import_accept (fd addr_ptr addr_len_ptr : Z) : call Z :=
  with_socket fd (fun socket =>
    mem_read_u32 addr_len_ptr (fun addr_len =>
      r <- sys (sys_accept (raw_fd socket) (replicate (Z.to_nat addr_len) 0));;
      let '((accepted, errno), (addr, addr_len)) := (r : Z * Z * (list Z * Z)) in
      if accepted <? 0 then Ret (neg_last_errno errno)
      else
        let addr := denormalize_sockaddr_for_guest addr (guest_domain socket) in
        or_panic (slice_to addr addr_len) (fun addr =>
          w <- mem_write addr_ptr addr;;
          or_cleanup w (close_raw accepted) (fun _ =>
            w <- mem_write_u32 addr_len_ptr addr_len;;
            or_cleanup w (close_raw accepted) (fun _ =>
              insert_socket {| raw_fd := accepted; guest_domain := guest_domain socket;
                               host_domain := host_domain socket |}))))).

Definition import_connect (fd addr_ptr addr_len : Z) : call Z :=
  with_socket fd (fun socket =>
    mem_read addr_ptr addr_len (fun addr =>
      let addr := normalize_sockaddr_for_host addr (host_domain socket) in
      rc <- sys (sys_connect (raw_fd socket) addr);;
      Ret (cvt_i32 rc))).

(** [sock_name]. *)
Definition sock_name (fd addr_ptr addr_len_ptr : Z) (kind : NameKind) : call Z :=
  with_socket fd (fun socket =>
    mem_read_u32 addr_len_ptr (fun addr_len =>
      r <- sys (sys_name kind (raw_fd socket) (replicate (Z.to_nat addr_len) 0));;
      let '((rc, errno), (addr, addr_len)) := (r : Z * Z * (list Z * Z)) in
      if rc <? 0 then Ret (neg_last_errno errno)
      else
        let addr := denormalize_sockaddr_for_guest addr (guest_domain socket) in
        or_panic (slice_to addr addr_len) (fun addr =>
          w <- mem_write addr_ptr addr;;
          or_return neg_errno w (fun _ =>
            w <- mem_write_u32 addr_len_ptr addr_len;;
            or_return neg_errno w (fun _ => Ret 0))))).

Definition import_setsockopt (fd level optname optval_ptr optlen : Z) : call Z :=
  with_socket fd (fun socket =>
    mem_read optval_ptr optlen (fun optval =>
      rc <- sys (sys_setsockopt (raw_fd socket) (normalize_socket_level level) optname optval);;
      Ret (cvt_i32 rc))).

(** The translation of [SO_ERROR]: the first four bytes as an [i32]; a shorter
  buffer is a panic. *)
Definition translate_so_error (level optname optlen : Z) (optval : list Z) : option (list Z) :=
  if is_guest_socket_level level && (optname =? WASI_SO_ERROR) && (4 <=? optlen) then
    if decide (length optval < 4)%nat then None
    else
      let host_error := i32_from_le_bytes (take 4 optval) in
      Some (splice 0 (to_le_bytes 4 (from_host_errno host_error)) optval)
  else Some optval.

Definition import_getsockopt (fd level optname optval_ptr optlen_ptr : Z) : call Z :=
  with_socket fd (fun socket =>
    mem_read_u32 optlen_ptr (fun optlen =>
      r <- sys (sys_getsockopt (raw_fd socket) (normalize_socket_level level) optname
                  (replicate (Z.to_nat optlen) 0));;
      let '((rc, errno), (optval, optlen)) := (r : Z * Z * (list Z * Z)) in
      if rc <? 0 then Ret (neg_last_errno errno)
      else
        or_panic (translate_so_error level optname optlen optval) (fun optval =>
          or_panic (slice_to optval optlen) (fun optval =>
            w <- mem_write optval_ptr optval;;
            or_return neg_errno w (fun _ =>
              w <- mem_write_u32 optlen_ptr optlen;;
              or_return neg_errno w (fun _ => Ret 0)))))).

Definition import_send (fd buf_ptr len flags : Z) : call Z :=
  with_socket fd (fun socket =>
    mem_read buf_ptr len (fun buf =>
      rc <- sys (sys_send (raw_fd socket) buf flags);;
      Ret (cvt_ssize rc))).

Definition import_recv (fd buf_ptr len flags : Z) : call Z :=
  with_socket fd (fun socket =>
    or_return neg_errno (checked_len len) (fun len =>
      r <- sys (sys_recv (raw_fd socket) (replicate (Z.to_nat len) 0) flags);;
      let '((rc, errno), buf) := (r : Z * Z * list Z) in
      if rc <? 0 then Ret (neg_last_errno errno)
      else
        or_panic (slice_to buf rc) (fun buf =>
          w <- mem_write buf_ptr buf;;
          or_return neg_errno w (fun _ => Ret (as_i32 rc))))).

Definition import_sendto (fd buf_ptr len flags addr_ptr addr_len : Z) : call Z :=
  with_socket fd (fun socket =>
    mem_read buf_ptr len (fun buf =>
      mem_read addr_ptr addr_len (fun addr =>
        let addr := normalize_sockaddr_for_host addr (host_domain socket) in
        rc <- sys (sys_sendto (raw_fd socket) buf flags addr);;
        Ret (cvt_ssize rc)))).

Definition import_recvfrom (fd buf_ptr len flags addr_ptr addr_len_ptr : Z) : call Z :=
  with_socket fd (fun socket =>
    or_return neg_errno (checked_len len) (fun len =>
      mem_read_u32 addr_len_ptr (fun addr_len =>
        r <- sys (sys_recvfrom (raw_fd socket) (replicate (Z.to_nat len) 0) flags
                    (replicate (Z.to_nat addr_len) 0));;
        let '((rc, errno), (buf, (addr, addr_len))) := (r : Z * Z * (list Z * (list Z * Z))) in
        if rc <? 0 then Ret (neg_last_errno errno)
        else
          or_panic (slice_to buf rc) (fun buf =>
            w <- mem_write buf_ptr buf;;
            or_return neg_errno w (fun _ =>
              let addr := denormalize_sockaddr_for_guest addr (guest_domain socket) in
              or_panic (slice_to addr addr_len) (fun addr =>
                w <- mem_write addr_ptr addr;;
                or_return neg_errno w (fun _ =>
                  w <- mem_write_u32 addr_len_ptr addr_len;;
                  or_return neg_errno w (fun _ => Ret (as_i32 rc))))))))).

Definition import_shutdown (fd how : Z) : call Z :=
  with_socket fd (fun socket =>
    rc <- sys (sys_shutdown (raw_fd socket) how);;
    Ret (cvt_i32 rc)).

Definition import_close (fd : Z) : call Z :=
  socket <- remove_socket fd;;
  or_return neg_errno socket (fun socket =>
    rc <- sys (sys_close (raw_fd socket));;
    Ret (cvt_i32 rc)).

(** [socket_fcntl]. *)
Definition socket_fcntl (raw_fd cmd arg : Z) : call Z :=
  if cmd =? WASI_F_GETFL then
    got <- sys (sys_fcntl raw_fd libc_F_GETFL 0);;
    let '(flags, errno) := (got : Z * Z) in
    Ret (if flags <? 0 then neg_last_errno errno
         else if negb (Z.land flags libc_O_NONBLOCK =? 0) then WASI_O_NONBLOCK else 0)
  else if cmd =? WASI_F_SETFL then
    got <- sys (sys_fcntl raw_fd libc_F_GETFL 0);;
    let '(flags, errno) := (got : Z * Z) in
    if flags <? 0 then Ret (neg_last_errno errno)
    else
      let flags :=
        if negb (Z.land arg WASI_O_NONBLOCK =? 0) then Z.lor flags libc_O_NONBLOCK
        else Z.land flags (Z.lnot libc_O_NONBLOCK) in
      rc <- sys (sys_fcntl raw_fd libc_F_SETFL flags);;
      Ret (cvt_i32 rc)
  else Ret (neg_errno EINVAL).

Definition import_fcntl (fd cmd arg : Z) : call Z :=
  with_socket fd (fun socket => socket_fcntl (raw_fd socket) cmd arg).

(** The loop over [bytes.chunks_exact(8)]: each descriptor is looked up on its
  own, a negative one is passed on. *)
Fixpoint poll_fds (chunks : list (list Z)) : call (result (list pollfd)) :=
  match chunks with
  | [] => Ret (Ok [])
  | chunk :: chunks =>
      let guest_fd := i32_from_le_bytes (take 4 chunk) in
      let events := i16_from_le_bytes (take 2 (drop 4 chunk)) in
      raw <- (if guest_fd <? 0 then Ret (Ok guest_fd)
              else socket <- get guest_fd;; Ret (socket <-? socket;; Ok (raw_fd socket)));;
      match (raw : result Z) with
      | Err e => Ret (Err e)
      | Ok fd =>
          rest <- poll_fds chunks;;
          Ret (rest <-? rest;;
               Ok ({| pfd_fd := fd; pfd_events := events; pfd_revents := 0 |} :: rest))
      end
  end.

(** The loop that writes [revents] back. The address is an [i32] and wraps. *)
Fixpoint write_revents (fds_ptr index : Z) (fds : list pollfd) : call (result unit) :=
  match fds with
  | [] => Ret (Ok tt)
  | pfd :: fds =>
      w <- mem_write (as_i32 (fds_ptr + index * 8 + 6)) (to_le_bytes 2 (pfd_revents pfd));;
      match w with
      | Err e => Ret (Err e)
      | Ok _ => write_revents fds_ptr (index + 1) fds
      end
  end.

Definition import_poll (fds_ptr nfds timeout : Z) : call Z :=
  or_return neg_errno (checked_poll_count nfds) (fun nfds =>
    mem_read fds_ptr (as_i32 (nfds * 8)) (fun bytes =>
      host_fds <- poll_fds (chunks_exact 8 bytes);;
      or_return neg_errno host_fds (fun host_fds =>
        r <- sys (sys_poll host_fds timeout);;
        let '((rc, errno), host_fds) := (r : Z * Z * list pollfd) in
        if rc <? 0 then Ret (neg_last_errno errno)
        else
          w <- write_revents fds_ptr 0 host_fds;;
          or_return neg_errno w (fun _ => Ret rc)))).

Inductive SockCall :=
| KSocket (domain type protocol : Z)
| KBind (fd addr_ptr addr_len : Z)
| KListen (fd backlog : Z)
| KAccept (fd addr_ptr addr_len_ptr : Z)
| KConnect (fd addr_ptr addr_len : Z)
| KGetsockname (fd addr_ptr addr_len_ptr : Z)
| KGetpeername (fd addr_ptr addr_len_ptr : Z)
| KSetsockopt (fd level optname optval_ptr optlen : Z)
| KGetsockopt (fd level optname optval_ptr optlen_ptr : Z)
| KSend (fd buf_ptr len flags : Z)
| KRecv (fd buf_ptr len flags : Z)
| KSendto (fd buf_ptr len flags addr_ptr addr_len : Z)
| KRecvfrom (fd buf_ptr len flags addr_ptr addr_len_ptr : Z)
| KShutdown (fd how : Z)
| KClose (fd : Z)
| KFcntl (fd cmd arg : Z)
| KPoll (fds_ptr nfds timeout : Z).

Definition sock_import (c : SockCall) : call Z :=
  match c with
  | KSocket domain type protocol => import_socket domain type protocol
  | KBind fd addr_ptr addr_len => import_bind fd addr_ptr addr_len
  | KListen fd backlog => import_listen fd backlog
  | KAccept fd addr_ptr addr_len_ptr => import_accept fd addr_ptr addr_len_ptr
  | KConnect fd addr_ptr addr_len => import_connect fd addr_ptr addr_len
  | KGetsockname fd addr_ptr addr_len_ptr => sock_name fd addr_ptr addr_len_ptr Local
  | KGetpeername fd addr_ptr addr_len_ptr => sock_name fd addr_ptr addr_len_ptr Peer
  | KSetsockopt fd level optname optval_ptr optlen =>
      import_setsockopt fd level optname optval_ptr optlen
  | KGetsockopt fd level optname optval_ptr optlen_ptr =>
      import_getsockopt fd level optname optval_ptr optlen_ptr
  | KSend fd buf_ptr len flags => import_send fd buf_ptr len flags
  | KRecv fd buf_ptr len flags => import_recv fd buf_ptr len flags
  | KSendto fd buf_ptr len flags addr_ptr addr_len =>
      import_sendto fd buf_ptr len flags addr_ptr addr_len
  | KRecvfrom fd buf_ptr len flags addr_ptr addr_len_ptr =>
      import_recvfrom fd buf_ptr len flags addr_ptr addr_len_ptr
  | KShutdown fd how => import_shutdown fd how
  | KClose fd => import_close fd
  | KFcntl fd cmd arg => import_fcntl fd cmd arg
  | KPoll fds_ptr nfds timeout => import_poll fds_ptr nfds timeout
  end.

(** [HostSocketsInner::drop]: every socket still open is closed. *)
Definition drop_sockets (s : SockSt U) : SockSt U :=
  let raw_fds := (fun p => raw_fd p.2) <$> map_to_list (sockets (table s)) in
  Build_SockSt (mem s) {| next_fd := next_fd (table s); sockets := ∅ |}
    (fold_left (fun u fd => (sys_close fd u).2) raw_fds (os s)).
End Imports.
