(* ===== verification/MemNet.v ===== *)
(** A small in-memory kernel for the socket imports: descriptors, their status
    flags and what was sent on each.  It gives the kernel parameter of the
    development a concrete value, on which the theorems' hypotheses can be
    checked and the imports run. *)

From S2P Require Import Prelude.
From S2P Require Import HostSockets.

Record MemNet := {
  open_fds : gset Z;
  status : gmap Z Z;
  sent : list (Z * list Z);
  (** The address of every peer, as the kernel spells it. *)
  peer : list Z
}.

Definition E_BADF : Z := 9.

(** The lowest free descriptor from 3. *)
Definition lowest_fd (open : gset Z) : Z :=
  default 3 (head (filter (fun fd => fd ∉ open) (seqZ 3 (Z.of_nat (size open) + 1)))).

Definition net_open (n : MemNet) : (Z * Z) * MemNet :=
  let fd := lowest_fd (open_fds n) in
  ((fd, 0), Build_MemNet ({[fd]} ∪ open_fds n) (<[fd := 0]> (status n)) (sent n) (peer n)).

Definition net_if_open (fd : Z) (r : (Z * Z) * MemNet) (n : MemNet) : (Z * Z) * MemNet :=
  if decide (fd ∈ open_fds n) then r else ((-1, E_BADF), n).

(** A kernel copies as much of an address as fits, and reports its whole length,
    at most the 128 bytes of a [sockaddr_storage]. *)
Definition net_address (fd : Z) (buf : list Z) (n : MemNet) : Z * Z * (list Z * Z) :=
  let addr := take 128 (peer n) in
  if decide (fd ∈ open_fds n)
  then ((0, 0), (take (length buf) addr ++ drop (length addr) buf, Z.of_nat (length addr)))
  else ((-1, E_BADF), (buf, Z.of_nat (length buf))).

Definition net_send (fd : Z) (bytes : list Z) (n : MemNet) : (Z * Z) * MemNet :=
  net_if_open fd
    ((Z.of_nat (length bytes), 0),
     Build_MemNet (open_fds n) (status n) (sent n ++ [(fd, bytes)]) (peer n)) n.

Definition inbox : list Z := [104; 105].

#[export] Instance mem_net : UnixSockets MemNet := {|
  sys_socket _ _ _ n := net_open n;
  sys_close fd n :=
    net_if_open fd
      ((0, 0), Build_MemNet (open_fds n ∖ {[fd]}) (delete fd (status n)) (sent n) (peer n)) n;
  sys_bind fd _ n := net_if_open fd ((0, 0), n) n;
  sys_listen fd _ n := net_if_open fd ((0, 0), n) n;
  sys_accept fd buf n :=
    let '((rc, e), a) := net_address fd buf n in
    if rc <? 0 then (((rc, e), a), n) else let '(r, n) := net_open n in ((r, a), n);
  sys_connect fd _ n := net_if_open fd ((0, 0), n) n;
  sys_name _ fd buf n := (net_address fd buf n, n);
  sys_setsockopt fd _ _ _ n := net_if_open fd ((0, 0), n) n;
  sys_getsockopt fd _ _ buf n :=
    if decide (fd ∈ open_fds n)
    then (((0, 0), (replicate (min 4 (length buf)) 0 ++ drop 4 buf,
                    Z.min 4 (Z.of_nat (length buf)))), n)
    else (((-1, E_BADF), (buf, 0)), n);
  sys_send fd bytes _ n := net_send fd bytes n;
  sys_recv fd buf _ n :=
    if decide (fd ∈ open_fds n)
    then ((Z.of_nat (min (length buf) (length inbox)), 0,
           take (length buf) inbox ++ drop (length inbox) buf), n)
    else ((-1, E_BADF, buf), n);
  sys_sendto fd bytes _ _ n := net_send fd bytes n;
  sys_recvfrom fd buf _ addr n :=
    if decide (fd ∈ open_fds n)
    then ((Z.of_nat (min (length buf) (length inbox)), 0,
           (take (length buf) inbox ++ drop (length inbox) buf, (net_address fd addr n).2)), n)
    else ((-1, E_BADF, (buf, (addr, Z.of_nat (length addr)))), n);
  sys_shutdown fd _ n := net_if_open fd ((0, 0), n) n;
  sys_fcntl fd cmd arg n :=
    net_if_open fd
      (if cmd =? 3 then ((default 0 (status n !! fd), 0), n)
       else if cmd =? 4 then
         ((0, 0), Build_MemNet (open_fds n) (<[fd := arg]> (status n)) (sent n) (peer n))
       else ((0, 0), n)) n;
  sys_poll fds _ n :=
    ((Z.of_nat (length (filter (fun p => 0 <= pfd_fd p) fds)), 0,
      (fun p => {| pfd_fd := pfd_fd p; pfd_events := pfd_events p;
                   pfd_revents := if decide (0 <= pfd_fd p) then pfd_events p else 0 |}) <$> fds), n)
|}.

(** An address of 16 bytes: [AF_INET], port 3306, 127.0.0.1. *)
Definition inet_peer : list Z := [2; 0; 12; 234; 127; 0; 0; 1] ++ replicate 8 0.
Definition mem_net_init : MemNet := Build_MemNet ∅ ∅ [] inet_peer.
