(* ===== verification/HostSocketsProofs.v ===== *)
(** The invariant method for the socket imports: the table as an instance of
    [FdTable], the threads that share it, [SockInvariant], and the tactics that
    follow the structure of a socket call, shared with the Windows imports. *)

From S2P Require Import Prelude.
From S2P Require Import Prog.
From S2P Require Import GuestErrno.
From S2P Require Import GuestMemory.
From S2P Require Import FdTable.
From S2P Require Import HostSockets.
Local Open Scope prog_scope.

(** * Specification *)

#[export] Instance sockets_fd_table : FdTable HostSocketsInner HostSocket HostSocket := {|
  ft_next := next_fd;
  ft_entries := sockets;
  ft_value := id;
  ft_insert := insert;
  ft_remove := remove
|}.

#[export] Instance sockets_fd_table_laws : FdTableLaws HostSocketsInner HostSocket HostSocket.
Proof. by split. Qed.

Definition sockets_wf (t : HostSocketsInner) : Prop := fd_wf GUEST_FD_BASE t.

#[export] Instance mem_lens_laws {U} : LensLaws (mem_lens (U := U)).
Proof. split; [done| |done]. by intros []. Qed.

Definition shared_mem {U} : lens (unit * SockSt U) GuestMem :=
  Lens (fun ls => mem ls.2) (fun m ls => (ls.1, put mem_lens m ls.2)).

(** Guest threads that share the memory, the socket table and the kernel. *)
Definition sock_pool {U} `{!UnixSockets U} `{libc : LibcErrno} `{consts : LibcConsts}
    (network_allowed : bool) (gs : list (guest SockCall)) : list (thread unit (SockSt U) unit) :=
  guest_pool tt shared_mem (fun c => zoom shared_lens (sock_import network_allowed c)) gs.

(** The descriptor a call works on. *)
Definition call_fd (c : SockCall) : option Z :=
  match c with
  | KSocket _ _ _ | KPoll _ _ _ => None
  | KBind fd _ _ | KListen fd _ | KAccept fd _ _ | KConnect fd _ _ | KGetsockname fd _ _
  | KGetpeername fd _ _ | KSetsockopt fd _ _ _ _ | KGetsockopt fd _ _ _ _ | KSend fd _ _ _
  | KRecv fd _ _ _ | KSendto fd _ _ _ _ _ | KRecvfrom fd _ _ _ _ _ | KShutdown fd _
  | KClose fd | KFcntl fd _ _ => Some fd
  end.

(** * Lemmas *)

(** An invariant that the imports keep whatever the kernel does. *)
Class SockInvariant {U : Type} (I : SockSt U -> Prop) : Prop := {
  inv_mem : forall m s, I s -> I (put mem_lens m s);
  inv_os : forall u s, I s -> I (with_os u s);
  inv_insert : forall socket s, I s -> I (with_table (insert socket (table s)).2 s);
  inv_remove : forall fd s, I s -> I (with_table (remove fd (table s)).2 s)
}.

Lemma preserves_or_panic {S A B} (I : S -> Prop) (o : option A) (k : A -> prog S B) :
  (forall a, preserves I (k a)) -> preserves I (or_panic o k).
Proof. intros H. by destruct o; simpl. Qed.

Lemma preserves_or_cleanup {S A} (I : S -> Prop) (r : result A) c (k : A -> prog S Z) :
  preserves I c -> (forall a, preserves I (k a)) -> preserves I (or_cleanup r c k).
Proof. intros Hc Hk. destruct r; simpl; [done|]. by apply preserves_bind. Qed.

Lemma settles_or_panic {S A B} moves (E : Z -> Prop) x (Q : B -> Z -> Prop) (o : option A)
    (k : A -> prog S B) :
  (o = None -> E x) -> (forall a, o = Some a -> settles moves E x Q (k a)) ->
  settles moves E x Q (or_panic o k).
Proof. intros He Hk. destruct o; simpl; auto. Qed.

Lemma settles_or_cleanup {S A} moves (E : Z -> Prop) x (r : result A) c (k : A -> prog S Z) :
  settles moves E x (fun _ y => y = 0) c -> (forall a, settles moves E x (fun _ y => y = 0) (k a)) ->
  settles moves E x (fun _ y => y = 0) (or_cleanup r c k).
Proof.
  intros Hc Hk. destruct r; simpl; [done|]. eapply settles_bind; [done|]. by intros a y ->.
Qed.

(** Rewriting the family of an address keeps its length. *)
Lemma length_sockaddr_family addr family :
  length (write_sockaddr_family addr family) = length addr.
Proof.
  unfold write_sockaddr_family. case_decide; [done|]. destruct (u16_try_from family); [|done].
  rewrite length_splice; [done|]. rewrite length_to_le_bytes. lia.
Qed.

(** [settle_with] for socket imports; [reveal] unfolds the helpers of one
    platform. *)
Ltac settle_sockets reveal := settle_with ltac:(idtac;
  match goal with
  | |- settles _ _ _ _ (or_panic _ _) => apply settles_or_panic; [done|intros ? _]
  | |- settles _ _ _ _ (or_cleanup _ _ _) =>
      apply settles_or_cleanup; [solve [auto with rust]|intros ?]
  | _ => reveal
  end).

(** Follows the structure of a call, leaving its atomic actions; [reveal]
    unfolds the helpers of one platform. *)
Ltac walk_with reveal :=
  repeat match goal with
  | _ => progress reveal
  | |- preserves _ (bind _ _) => apply preserves_bind; [solve [auto with rust]|intros ?]
  | |- preserves _ (or_return _ _ _) => apply preserves_or_return; intros ?
  | |- preserves _ (or_panic _ _) => apply preserves_or_panic; intros ?
  | |- preserves _ (or_cleanup _ _ _) => apply preserves_or_cleanup; [|intros ?]
  | |- preserves _ (Ret _) => exact Logic.I
  | |- preserves _ (let '(_, _) := ?x in _) => destruct x
  | |- preserves _ (match ?x with Ok _ => _ | Err _ => _ end) => destruct x
  | |- preserves _ (if ?b then _ else _) => destruct b
  end; try solve [auto with rust].

Ltac reveal_unix :=
  match goal with
  | |- preserves _ (with_socket _ _) => unfold with_socket
  | |- preserves _ (mem_read _ _ _) => unfold mem_read
  | |- preserves _ (mem_read_u32 _ _) => unfold mem_read_u32
  | |- preserves _ (close_raw _) => unfold close_raw
  end.
Ltac walk := walk_with ltac:(idtac; reveal_unix).

Section Invariant.
Context {U : Type} `{!UnixSockets U} `{libc : LibcErrno} `{consts : LibcConsts}.
Context (I : SockSt U -> Prop) `{Inv : !SockInvariant I} (network_allowed : bool).

Lemma preserves_sys {A} (f : U -> A * U) : preserves I (sys f).
Proof.
  apply preserves_atomically. intros s Hs. destruct (f (os s)) as [a u]. by apply inv_os.
Qed.

Lemma preserves_sock_mem {A} (p : prog GuestMem A) : preserves I (zoom mem_lens p).
Proof. apply preserves_zoom_frame. apply inv_mem. Qed.

Lemma preserves_get fd : preserves I (get fd).
Proof. apply preserves_read. Qed.

Lemma preserves_insert_socket k : preserves I (insert_socket k).
Proof. apply preserves_atomically. intros s. apply inv_insert. Qed.

Lemma preserves_remove_socket fd : preserves I (remove_socket fd).
Proof. apply preserves_atomically. intros s. apply inv_remove. Qed.

Hint Resolve preserves_sys preserves_sock_mem preserves_get preserves_insert_socket
  preserves_remove_socket : rust.

Lemma preserves_configure fd t : preserves I (configure_socket_type_flags fd t).
Proof.
  unfold configure_socket_type_flags. apply preserves_bind.
  - destruct (close_on_exec t); walk.
  - intros [|]; [|done]. destruct (nonblocking t); walk.
Qed.

Lemma preserves_poll_fds chunks : preserves I (poll_fds chunks).
Proof.
  induction chunks as [|c cs IH]; cbn [poll_fds]; [done|]. apply preserves_bind; [walk|].
  intros [fd|e]; [|done]. by apply preserves_bind.
Qed.

Lemma preserves_write_revents ptr i fds : preserves I (write_revents ptr i fds).
Proof.
  revert i. induction fds as [|p fds IH]; intros i; cbn [write_revents]; [done|].
  apply preserves_bind; [apply preserves_sock_mem|]. by intros [].
Qed.

Hint Resolve preserves_configure preserves_poll_fds preserves_write_revents : rust.

Lemma preserves_sock_import c : preserves I (sock_import network_allowed c).
Proof.
  destruct c; cbn [sock_import];
    unfold import_socket, import_bind, import_listen, import_accept, import_connect, sock_name,
      import_setsockopt, import_getsockopt, import_send, import_recv, import_sendto,
      import_recvfrom, import_shutdown, import_close, import_fcntl, socket_fcntl, import_poll,
      mem_write, mem_write_u32; walk.
Qed.

Lemma sock_pool_invariant gs s ts' s' :
  I s -> rtc pool_step (sock_pool network_allowed gs, s) (ts', s') -> I s'.
Proof.
  apply (guest_pool_invariant I).
  - intros m ls HI. by apply inv_mem.
  - intros c. apply (preserves_zoom shared_lens I). by apply preserves_sock_import.
Qed.
End Invariant.
