(* ===== verification/SocketSafety.v ===== *)
(** Safety of the socket imports under every interleaving of the guest's
    threads: the table, closed descriptors and the disabled network; and a race
    between a call and a close. *)

From S2P Require Import Prelude.
From S2P Require Import Prog.
From S2P Require Import GuestErrno.
From S2P Require Import GuestMemory.
From S2P Require Import FdTable.
From S2P Require Import HostSockets.
From S2P Require Import MemNet.
From S2P Require Import HostSocketsProofs.
Local Open Scope prog_scope.

(** * Specification *)

(** A kernel that records its calls: the descriptors of a [poll], nothing more
    of any other call. *)
#[export] Instance logged_net {U} `{!UnixSockets U} : UnixSockets (U * list (option (list pollfd))) :=
  let log {A} (f : U -> A * U) (s : U * list (option (list pollfd))) :=
    let '(a, u) := f s.1 in (a, (u, None :: s.2)) in {|
  sys_socket d t p := log (sys_socket d t p);
  sys_close fd := log (sys_close fd);
  sys_bind fd a := log (sys_bind fd a);
  sys_listen fd b := log (sys_listen fd b);
  sys_accept fd a := log (sys_accept fd a);
  sys_connect fd a := log (sys_connect fd a);
  sys_name k fd a := log (sys_name k fd a);
  sys_setsockopt fd l o v := log (sys_setsockopt fd l o v);
  sys_getsockopt fd l o v := log (sys_getsockopt fd l o v);
  sys_send fd b f := log (sys_send fd b f);
  sys_recv fd b f := log (sys_recv fd b f);
  sys_sendto fd b f a := log (sys_sendto fd b f a);
  sys_recvfrom fd b f a := log (sys_recvfrom fd b f a);
  sys_shutdown fd h := log (sys_shutdown fd h);
  sys_fcntl fd c a := log (sys_fcntl fd c a);
  sys_poll fds t s := let '(a, u) := sys_poll fds t s.1 in (a, (u, Some fds :: s.2))
|}.

(** A call that touches no descriptor: a [poll] of ignored entries. *)
Definition touches_nothing (call : option (list pollfd)) : Prop :=
  match call with Some fds => Forall (fun p => pfd_fd p < 0) fds | None => False end.

(** A descriptor below the counter that is not open. *)
Definition retired {U} (fd : Z) (s : SockSt U) : Prop :=
  sockets_wf (table s) /\ fd < next_fd (table s) /\ sockets (table s) !! fd = None.

(** * Lemmas *)

Section Instances.
Context {U : Type}.
Implicit Types s : SockSt U.

#[export] Instance wf_invariant : SockInvariant (fun s => sockets_wf (table s)).
Proof.
  constructor; try done.
  - intros k s Hs. exact (fd_wf_insert GUEST_FD_BASE k (table s) Hs).
  - intros fd s Hs. exact (fd_wf_remove GUEST_FD_BASE fd (table s) Hs).
Qed.

#[export] Instance retired_invariant fd : SockInvariant (retired (U := U) fd).
Proof.
  constructor; try done.
  - intros k s (Hwf & Hlt & Hnone). split_and!; simpl.
    + exact (fd_wf_insert GUEST_FD_BASE k (table s) Hwf).
    + destruct (wf_next _ _ Hwf) as [Hb Hm]. simpl in *. unfold GUEST_FD_BASE in *.
      rewrite i32_saturating_succ by bounds. bounds.
    + rewrite lookup_insert_ne by lia. done.
  - intros fd' s (Hwf & Hlt & Hnone). split_and!; simpl; [|done|].
    + exact (fd_wf_remove GUEST_FD_BASE fd' (table s) Hwf).
    + apply lookup_delete_None. by right.
Qed.
End Instances.

Lemma new_sockets_wf : sockets_wf new.
Proof. constructor; simpl; [by compute|by compute|]. intros fd [? Hl]. by rewrite lookup_empty in Hl. Qed.

Section Closed.
Context {U : Type} `{!UnixSockets U} `{libc : LibcErrno} `{consts : LibcConsts}.
Context (network_allowed : bool).
Implicit Types s : SockSt U.

Lemma run_with_socket_none fd (k : HostSocket -> prog (SockSt U) Z) s :
  sockets (table s) !! fd = None -> run (with_socket fd k) s = (Done (neg_errno EBADF), s).
Proof.
  intros Hfd. unfold with_socket, get. rewrite run_bind, run_read, Hfd. done.
Qed.

(** Every call on a descriptor that is not open is [EBADF]: no system call is
  made and nothing changes, whatever the other arguments. *)
Lemma closed_sock_ebadf c fd s :
  sockets (table s) !! fd = None -> call_fd c = Some fd ->
  run (sock_import network_allowed c) s = (Done (neg_errno EBADF), s).
Proof.
  intros Hfd Hc. destruct c; simpl in Hc; simplify_eq; cbn [sock_import];
    try by apply run_with_socket_none.
  unfold import_close, remove_socket, remove. rewrite run_bind, run_atomically, Hfd. simpl.
  rewrite delete_id by done. by destruct s as [? [] ?].
Qed.
End Closed.

(** ** Without a network *)

Section Disabled.
Context {U : Type} `{!UnixSockets U} `{libc : LibcErrno} `{consts : LibcConsts}.

(** No socket is open, and no call has touched a descriptor. *)
Definition silent (s : SockSt (U * list (option (list pollfd)))) : Prop :=
  sockets (table s) = ∅ /\ Forall touches_nothing (os s).2.

Lemma silent_with_socket fd k : preserves silent (with_socket fd k).
Proof.
  intros s [Ht Hl]. split; [done|]. simpl. by rewrite Ht, lookup_empty.
Qed.

Lemma silent_poll_fds chunks :
  establishes silent (fun r => match r with
    | Ok fds => Forall (fun p => pfd_fd p < 0) fds | Err _ => True end) (poll_fds chunks).
Proof.
  induction chunks as [|c cs IH]; cbn [poll_fds]; [by constructor|].
  apply (establishes_bind _ (fun r => match r with Ok fd => fd < 0 | Err _ => True end)).
  - destruct (Z.ltb_spec (i32_from_le_bytes (take 4 c)) 0) as [Hneg|]; [done|].
    intros s [Ht Hl]. split; [done|]. cbn [fst snd bind]. by rewrite Ht, lookup_empty.
  - intros [fd|e] Hfd; [|done]. eapply establishes_bind; [exact IH|].
    intros [fds|e] Hfds; [|done]. by constructor.
Qed.

Lemma silent_mem {A} (p : prog GuestMem A) : preserves silent (zoom mem_lens p).
Proof. by apply preserves_zoom_frame. Qed.

Lemma silent_write_revents ptr i fds : preserves silent (write_revents ptr i fds).
Proof.
  revert i. induction fds as [|p fds IH]; intros i; cbn [write_revents]; [done|].
  apply preserves_bind; [apply silent_mem|]. by intros [].
Qed.

Lemma silent_import c : preserves silent (sock_import false c).
Proof.
  destruct c; cbn [sock_import]; try apply silent_with_socket; [done| |].
  - unfold import_close. intros s [Ht Hl]. split.
    + split; [|done]. simpl. by rewrite Ht, delete_empty.
    + simpl. by rewrite Ht, lookup_empty.
  - unfold import_poll, mem_read. apply preserves_or_return. intros n.
    apply preserves_bind; [apply silent_mem|]. intros b.
    apply preserves_or_return. intros bytes.
    eapply preserves_establishes; [apply silent_poll_fds|].
    intros [fds|e] Hfds; cbn [or_return]; [|done]. apply preserves_bind.
    + apply preserves_atomically. intros s [Ht Hl]. simpl.
      destruct (sys_poll fds timeout (os s).1) as [a u]. split; [done|]. by constructor.
    + intros [[rc e] fds']. destruct (rc <? 0); [done|].
      apply preserves_bind; [apply silent_write_revents|]. intros w. by apply preserves_or_return.
Qed.
End Disabled.

(** A [send] that is overtaken between its lookup and its system call. *)
Section Race.
Context {U : Type} `{!UnixSockets U} `{libc : LibcErrno} `{consts : LibcConsts} (net : bool).
Implicit Types s : SockSt U.

(** Another thread runs the whole of [g] after the lookup: the bytes go out on the
    raw descriptor that was looked up before. *)
Lemma send_overtaken fd k ptr len flags g s s1 bytes :
  sockets (table s) !! fd = Some k ->
  run (guest_prog shared_mem (fun c => zoom shared_lens (sock_import net c)) g) (tt, s)
    = (Done tt, (tt, s1)) ->
  run (read_guest ptr len) (mem s1) = (Done (Ok bytes), mem s1) ->
  exists sched ts',
    run_schedule sched (sock_pool net [GuestCall (KSend fd ptr len flags) (fun _ => GuestDone); g], s)
    = (ts', with_os (sys_send (raw_fd k) bytes flags (os s1)).2 s1) /\ Forall returned ts'.
Proof.
  intros Hk Hg Hread. set (send := GuestCall (KSend fd ptr len flags) (fun _ => GuestDone)).
  set (rest := bind (zoom shared_lens (mem_read ptr len (fun buf =>
    rc <- sys (sys_send (raw_fd k) buf flags);; Ret (cvt_ssize rc))))
    (fun rc => guest_prog shared_mem (fun c => zoom shared_lens (sock_import net c)) GuestDone)).
  pose (run_g := guest_prog (shared_mem (U := U)) (fun c => zoom shared_lens (sock_import net c)) g).
  assert (run_schedule [0%nat] (sock_pool net [send; g], s) = ([Thread tt rest; Thread tt run_g], s)) as H0.
  { unfold run_schedule. simpl. unfold thread_step. simpl. rewrite Hk. reflexivity. }
  destruct (run_schedule_alone [Thread tt rest; Thread tt run_g] 1 run_g tt s tt tt s1 eq_refl Hg) as [n1 H1].
  assert (run rest (tt, s1) = (Done tt, (tt, with_os (sys_send (raw_fd k) bytes flags (os s1)).2 s1))) as Hrest.
  { unfold rest. rewrite run_bind, run_zoom by apply _. unfold mem_read.
    cbn [view shared_lens snd]. rewrite run_bind, run_zoom by apply _. cbn [view mem_lens].
    rewrite Hread. cbn [fst snd or_return]. replace (put mem_lens (mem s1) s1) with s1 by (by destruct s1).
    unfold sys. rewrite run_bind, run_atomically. by destruct (sys_send _ _ _ _). }
  destruct (run_schedule_alone [Thread tt rest; Thread tt (Ret tt)] 0 rest tt s1 tt tt _ eq_refl Hrest)
    as [n2 H2].
  exists ([0%nat] ++ replicate n1 1%nat ++ replicate n2 0%nat). eexists. split.
  - rewrite !run_schedule_app, H0, H1. simpl. exact H2.
  - simpl. by repeat constructor.
Qed.

(** A [close] and a [socket] without type flags, each run alone. *)
Lemma run_close fd k rc u1 s :
  sockets (table s) !! fd = Some k -> sys_close (raw_fd k) (os s) = (rc, u1) ->
  run (import_close fd) s = (Done (cvt_i32 rc), with_os u1 (with_table (remove fd (table s)).2 s)).
Proof.
  intros Hk Hclose. unfold import_close, remove_socket, sys.
  rewrite run_bind, run_atomically. cbn [remove fst snd]. rewrite Hk. cbn [ok_or or_return].
  rewrite run_bind, run_atomically. cbn [os with_table]. by rewrite Hclose.
Qed.

Lemma run_plain_socket domain type protocol t raw e u s :
  normalize_socket_type type = Ok t -> close_on_exec t = false -> nonblocking t = false ->
  sys_socket (normalize_socket_domain domain) (ty t) protocol (os s) = ((raw, e), u) -> 0 <= raw ->
  let socket := {| raw_fd := raw; guest_domain := domain;
                   host_domain := normalize_socket_domain domain |} in
  run (import_socket true domain type protocol) s
  = (Done (next_fd (table s)), Build_SockSt (mem s) (insert socket (table s)).2 u).
Proof.
  intros Ht Hce Hnb Hsocket H0 socket. unfold import_socket, sys. rewrite Ht. cbn [negb or_return].
  rewrite run_bind, run_atomically, Hsocket. cbn [fst snd]. destruct (Z.ltb_spec raw 0); [lia|].
  unfold configure_socket_type_flags. rewrite Hce, Hnb. reflexivity.
Qed.

Lemma close_then_socket fd k domain type protocol t s rc u1 e u2 :
  sockets (table s) !! fd = Some k -> sys_close (raw_fd k) (os s) = (rc, u1) ->
  normalize_socket_type type = Ok t -> close_on_exec t = false -> nonblocking t = false ->
  sys_socket (normalize_socket_domain domain) (ty t) protocol u1 = ((raw_fd k, e), u2) ->
  0 <= raw_fd k ->
  let socket := {| raw_fd := raw_fd k; guest_domain := domain;
                   host_domain := normalize_socket_domain domain |} in
  run (guest_prog shared_mem (fun c => zoom shared_lens (sock_import true c))
    (GuestCall (KClose fd) (fun _ => GuestCall (KSocket domain type protocol) (fun _ => GuestDone)))) (tt, s)
  = (Done tt, (tt, Build_SockSt (mem s) (insert socket (remove fd (table s)).2).2 u2)).
Proof.
  intros Hk Hclose Ht Hce Hnb Hsocket H0 socket. cbn [guest_prog sock_import].
  rewrite run_bind, run_zoom by apply _. cbn [view shared_lens snd].
  rewrite (run_close _ _ _ _ _ Hk Hclose). cbn [fst snd put].
  rewrite run_bind, run_zoom by apply _. cbn [view shared_lens snd].
  by rewrite (run_plain_socket _ _ _ _ (raw_fd k) e u2 _ Ht Hce Hnb) by done.
Qed.
End Race.

(** * Properties *)

(** Whatever the guest's threads do and however their calls interleave, the
    socket table that starts empty stays well formed: the counter is an [i32] at
    or above 10000 and every open descriptor was handed out by it. *)
Lemma sockets_wf_reachable {U} `{!UnixSockets U} `{libc : LibcErrno} `{consts : LibcConsts}
    net m (u : U) gs ts' s' :
  rtc pool_step (sock_pool net gs, Build_SockSt m new u) (ts', s') -> sockets_wf (table s').
Proof.
  refine (sock_pool_invariant (fun s => sockets_wf (table s)) net gs _ ts' s' _). exact new_sockets_wf.
Qed.

(** C4. No use after close: starting from an empty table, whatever the guest's
    threads do the table stays well formed; and once a socket descriptor below
    the counter is not open, no interleaving of calls opens it again, and every
    later call on it, with any arguments, is [EBADF] without a system call or any
    other effect. *)
Theorem closed_socket_stays_closed {U} `{!UnixSockets U} `{libc : LibcErrno} `{consts : LibcConsts}
    net m (u0 : U) gs ts s gs' ts' s' fd :
  rtc pool_step (sock_pool net gs, Build_SockSt m new u0) (ts, s) ->
  fd < next_fd (table s) -> sockets (table s) !! fd = None ->
  rtc pool_step (sock_pool net gs', s) (ts', s') ->
  sockets_wf (table s') /\ sockets (table s') !! fd = None /\
  forall c, call_fd c = Some fd -> run (sock_import net c) s' = (Done (neg_errno EBADF), s').
Proof.
  intros Hreach Hlt Hnone Hsteps. apply sockets_wf_reachable in Hreach as Hwf.
  assert (retired fd s') as (Hwf' & _ & Hnone').
  { by refine (sock_pool_invariant (retired fd) net gs' s ts' s' _ Hsteps). }
  split_and!; [done..|]. intros c Hc. by eapply closed_sock_ebadf.
Qed.

(** [--no-network]: when the network is not allowed, no interleaving of any
    guest threads ever has a socket open, and the only system call any of the
    seventeen imports makes is a [poll] all of whose entries are negative, which
    the kernel ignores. *)
Lemma no_network_no_syscalls {U} `{!UnixSockets U} `{libc : LibcErrno} `{consts : LibcConsts}
    m (u : U) gs ts' s' :
  rtc pool_step (sock_pool false gs, Build_SockSt m new (u, [])) (ts', s') ->
  sockets (table s') = ∅ /\ Forall touches_nothing (os s').2.
Proof.
  apply (guest_pool_invariant silent); [done| |by split].
  intros c. apply (preserves_zoom shared_lens silent). apply silent_import.
Qed.

(** C39. A race of the Unix sockets, on any kernel that hands a raw descriptor out
    again: the table's lock is released between looking a socket up and the
    system call on it.  So for every open descriptor [fd] there is an interleaving
    of a [send] on it with a [close] of it and a [socket] on another thread, in
    which the bytes go out on the connection of the new descriptor, while [fd] is
    closed; all three calls return. *)
Theorem send_races_with_close {U} `{!UnixSockets U} `{libc : LibcErrno} `{consts : LibcConsts}
    (s : SockSt U) fd k ptr len flags bytes domain type protocol t rc u1 e u2 :
  sockets_wf (table s) -> next_fd (table s) < i32_max -> sockets (table s) !! fd = Some k ->
  run (read_guest ptr len) (mem s) = (Done (Ok bytes), mem s) ->
  normalize_socket_type type = Ok t -> close_on_exec t = false -> nonblocking t = false ->
  sys_close (raw_fd k) (os s) = (rc, u1) -> 0 <= raw_fd k ->
  sys_socket (normalize_socket_domain domain) (ty t) protocol u1 = ((raw_fd k, e), u2) ->
  exists sched ts' s',
    run_schedule sched
      (sock_pool true
        [GuestCall (KSend fd ptr len flags) (fun _ => GuestDone);
         GuestCall (KClose fd) (fun _ => GuestCall (KSocket domain type protocol) (fun _ => GuestDone))], s)
    = (ts', s') /\ Forall returned ts' /\
    sockets (table s') !! fd = None /\
    raw_fd <$> sockets (table s') !! next_fd (table s) = Some (raw_fd k) /\
    os s' = (sys_send (raw_fd k) bytes flags u2).2.
Proof.
  intros Hwf Hmax Hk Hread Ht Hce Hnb Hclose H0 Hsocket.
  pose proof (close_then_socket fd k domain type protocol t s rc u1 e u2 Hk Hclose Ht Hce Hnb Hsocket H0) as Hg.
  destruct (send_overtaken true fd k ptr len flags _ s _ bytes Hk Hg Hread) as (sched & ts' & Hrun & Hret).
  exists sched, ts'. eexists. split; [exact Hrun|]. split; [exact Hret|]. simpl.
  assert (fd <> next_fd (table s)) as Hne.
  { intros ->. pose proof (ft_insert_fresh GUEST_FD_BASE k (table s) Hwf Hmax) as Hfresh.
    simpl in Hfresh. congruence. }
  split_and!; [|by rewrite lookup_insert_eq|done].
  by rewrite lookup_insert_ne, lookup_delete_eq by done.
Qed.

(** * Concrete runs *)

Section Demo.
Local Existing Instance linux_errno.
Local Existing Instance linux_consts.

Definition demo_mem : GuestMem :=
  Some (ExtSharedMemory ([104; 101; 108; 108; 111; 0; 0; 0] ++ [16; 0; 0; 0] ++ replicate 52 0)).

(** Opens a socket, sends five bytes on it and closes it. *)
Definition demo_guest : guest SockCall :=
  GuestCall (KSocket 1 6 0) (fun fd => GuestCall (KSend fd 0 5 0) (fun _ =>
    GuestCall (KClose fd) (fun _ => GuestDone))).

Definition demo_schedule : list nat := concat (replicate 40 [0; 1]%nat).

Definition demo_start : SockSt MemNet := Build_SockSt demo_mem new mem_net_init.

(** One socket open, as descriptor 10000 on the raw descriptor 3. *)
Definition demo_open : SockSt MemNet :=
  Build_SockSt demo_mem
    {| next_fd := 10001;
       sockets := {[ 10000 := {| raw_fd := 3; guest_domain := 1; host_domain := 2 |} ]} |}
    (Build_MemNet {[ 3 ]} {[ 3 := 0 ]} [] inet_peer).

Lemma demo_open_run : run (sock_import true (KSocket 1 6 0)) demo_start = (Done 10000, demo_open).
Proof. vm_compute. reflexivity. Qed.

Lemma closed_socket_stays_closed_witness :
  let s := (run_schedule demo_schedule (sock_pool true [demo_guest], demo_start)).2 in
  let s' := (run_schedule demo_schedule (sock_pool true [demo_guest; demo_guest], s)).2 in
  next_fd (table s') = 10003 /\
  sent (os s') = (fun k => (k, [104; 101; 108; 108; 111])) <$> [3; 3; 4] /\
  run (sock_import true (KSend 10000 0 5 0)) s' = (Done (neg_errno EBADF), s').
Proof.
  intros s s'. split; [vm_compute; reflexivity|]. split; [vm_compute; reflexivity|].
  exact (proj2 (proj2 (closed_socket_stays_closed true demo_mem mem_net_init
    [demo_guest] _ _ [demo_guest; demo_guest] _ _ 10000
    (run_schedule_steps demo_schedule _) eq_refl eq_refl
    (run_schedule_steps demo_schedule _))) (KSend 10000 0 5 0) eq_refl).
Defined.

Lemma no_network_no_syscalls_witness :
  let s' := (run_schedule demo_schedule (sock_pool false
    [demo_guest; GuestCall (KPoll 32 1 0) (fun _ => GuestDone)],
    Build_SockSt demo_mem new (mem_net_init, []))).2 in
  sockets (table s') = ∅ /\ Forall touches_nothing (os s').2.
Proof.
  intros s'. exact (no_network_no_syscalls demo_mem mem_net_init _ _ _
    (run_schedule_steps demo_schedule _)).
Defined.

(** The kernel of the demonstration hands the raw descriptor 3 out again: the
  bytes of descriptor 10000 go out on descriptor 10001. *)
Lemma send_races_with_close_witness :
  exists sched ts' s',
    run_schedule sched (sock_pool true
      [GuestCall (KSend 10000 0 5 0) (fun _ => GuestDone);
       GuestCall (KClose 10000) (fun _ => GuestCall (KSocket 1 6 0) (fun _ => GuestDone))], demo_open)
    = (ts', s') /\ Forall returned ts' /\
    sockets (table s') !! 10000 = None /\ raw_fd <$> sockets (table s') !! 10001 = Some 3 /\
    sent (os s') = [(3, [104; 101; 108; 108; 111])].
Proof.
  assert (exists u1 u2, sys_close 3 (os demo_open) = ((0, 0), u1) /\
    sys_socket 2 1 0 u1 = ((3, 0), u2) /\
    sent (sys_send 3 [104; 101; 108; 108; 111] 0 u2).2 = [(3, [104; 101; 108; 108; 111])])
    as (u1 & u2 & Hc & Hs & Hsent) by (do 2 eexists; vm_compute; auto).
  assert (sockets_wf (table demo_open)) as Hwf.
  { pose proof (preserves_run _ _ demo_start (preserves_sock_import (fun s => sockets_wf (table s)) true (KSocket 1 6 0)) new_sockets_wf) as Hw.
    rewrite demo_open_run in Hw. exact Hw. }
  destruct (send_races_with_close demo_open 10000 {| raw_fd := 3; guest_domain := 1; host_domain := 2 |}
    0 5 0 [104; 101; 108; 108; 111] 1 6 0 {| ty := 1; close_on_exec := false; nonblocking := false |}
    (0, 0) u1 0 u2) as (sched & ts' & s' & Hrun & Hret & Hfd & Hraw & Hos); try done.
  exists sched, ts', s'. split_and!; try done. by rewrite Hos.
Defined.
End Demo.
