(* ===== verification/SocketLeaks.v ===== *)
(** Raw descriptors of the socket imports: who closes them, and when one is
    lost. *)

From S2P Require Import Prelude.
From S2P Require Import Prog.
From S2P Require Import Ledger.
From S2P Require Import GuestErrno.
From S2P Require Import GuestMemory.
From S2P Require Import FdTable.
From S2P Require Import HostSockets.
From S2P Require Import MemNet.
From S2P Require Import HostSocketsProofs.
From S2P Require Import SocketSafety.
Local Open Scope prog_scope.

(** * Specification *)

#[local] Abbreviation book := (Ledger Z).

(** A kernel that writes down which descriptors it hands out and which it gets
    back. *)
#[export] Instance ledger_net {U} `{!UnixSockets U} : UnixSockets (U * book) :=
  let same {A} (f : U -> A * U) (s : U * book) := let '(a, u) := f s.1 in (a, (u, s.2)) in {|
  sys_socket d t p s := let '(r, u) := sys_socket d t p s.1 in
    (r, (u, if r.1 <? 0 then s.2 else take_out r.1 s.2));
  sys_close fd s := let '(r, u) := sys_close fd s.1 in (r, (u, give_in fd s.2));
  sys_bind fd a := same (sys_bind fd a);
  sys_listen fd b := same (sys_listen fd b);
  sys_accept fd a s := let '(r, u) := sys_accept fd a s.1 in
    (r, (u, if r.1.1 <? 0 then s.2 else take_out r.1.1 s.2));
  sys_connect fd a := same (sys_connect fd a);
  sys_name k fd a := same (sys_name k fd a);
  sys_setsockopt fd l o v := same (sys_setsockopt fd l o v);
  sys_getsockopt fd l o v := same (sys_getsockopt fd l o v);
  sys_send fd b f := same (sys_send fd b f);
  sys_recv fd b f := same (sys_recv fd b f);
  sys_sendto fd b f a := same (sys_sendto fd b f a);
  sys_recvfrom fd b f a := same (sys_recvfrom fd b f a);
  sys_shutdown fd h := same (sys_shutdown fd h);
  sys_fcntl fd c a := same (sys_fcntl fd c a);
  sys_poll fds t := same (sys_poll fds t)
|}.

(** The raw descriptors of the table. *)
Definition held (t : HostSocketsInner) : list Z := raw_fd <$> values (sockets t).

Section Account.
Context {U : Type} (w : Z -> Z).
#[local] Abbreviation St := (SockSt (U * book)).
Implicit Types s : St.

(** The weight of what the kernel has handed out beyond what the table holds. *)
Definition loose s : Z := balance w (os s).2 - weigh w (held (table s)).

(** A step raises [loose] by [d], unless the counter has reached [i32::MAX]: from
  there an insertion replaces a socket without closing it. *)
Definition sock_moves s (d : Z) s' : Prop :=
  sockets_wf (table s) ->
  sockets_wf (table s') /\ next_fd (table s) <= next_fd (table s') /\
  (next_fd (table s') < i32_max -> loose s' = loose s + d).

Lemma sock_moves_refl s : sock_moves s 0 s.
Proof. intros Hs. split_and!; [done|lia|lia]. Qed.

Lemma sock_moves_trans s d s' d' s'' :
  sock_moves s d s' -> sock_moves s' d' s'' -> sock_moves s (d + d') s''.
Proof.
  intros H1 H2 Hs. destruct (H1 Hs) as (Hw & Hn & Hl). destruct (H2 Hw) as (Hw' & Hn' & Hl').
  split_and!; [done|lia|]. intros Hlt. rewrite Hl', Hl; lia.
Qed.
End Account.

(** * Lemmas *)

Section Leaks.
Context {U : Type} `{!UnixSockets U} `{libc : LibcErrno} `{consts : LibcConsts} (w : Z -> Z).
#[local] Abbreviation call := (prog (SockSt (U * book))).

(** The debt of a call; a panic may leave one. *)
#[local] Abbreviation debt := (settles (sock_moves w) (fun _ => True)).
#[local] Abbreviation keep x := (fun _ y => y = x).

Lemma sock_debt_sys {A} x (d : A -> Z) (f : U * book -> A * (U * book)) :
  (forall u, balance w (f u).2.2 = balance w u.2 + d (f u).1) ->
  debt x (fun a y => y = x + d a) (sys f).
Proof.
  intros Hf. apply settles_atomically. intros s. specialize (Hf (os s)).
  destruct (f (os s)) as [a u]. simpl in *. exists (d a). split; [|done].
  intros Hwf. split_and!; [done|simpl; lia|]. intros _. unfold loose. simpl. lia.
Qed.

(** A call that neither gives nor takes a descriptor. *)
Lemma sock_debt_quiet {A} x (f : U * book -> A * (U * book)) :
  (forall u, (f u).2.2 = u.2) -> debt x (keep x) (sys f).
Proof.
  intros Hf. eapply settles_weaken; [apply (sock_debt_sys x (fun _ => 0))|]; intros; simpl in *; [|lia].
  rewrite Hf. lia.
Qed.

Lemma sock_moves_mem m (s : SockSt (U * book)) : sock_moves w s 0 (put mem_lens m s).
Proof. intros Hs. split_and!; [done|simpl; lia|]. intros _. unfold loose. simpl. lia. Qed.

Lemma sock_debt_mem {A} x (p : prog GuestMem A) :
  no_panic p -> debt x (keep x) (zoom (mem_lens (U := U * book)) p).
Proof. intros Hp. apply settles_zoom_frame; [done|]. intros m s. apply sock_moves_mem. Qed.

Lemma sock_debt_get x fd : debt x (keep x) (get fd : call _).
Proof. intros s. exists 0. split; [apply sock_moves_refl|]. simpl. lia. Qed.

(** The table takes a descriptor over, and gives it back. *)
Lemma sock_debt_insert x k :
  x = w (raw_fd k) -> debt x (keep 0) (insert_socket k : call _).
Proof.
  intros ->. apply settles_atomically. intros s. exists (- w (raw_fd k)). split; [|simpl; lia]. simpl. intros Hwf.
  destruct (wf_next _ _ Hwf) as [Hb Hm]. simpl in Hb, Hm. unfold GUEST_FD_BASE in Hb.
  split_and!; [exact (fd_wf_insert GUEST_FD_BASE k (table s) Hwf)| |]; simpl in *.
  - rewrite i32_saturating_succ by bounds. lia.
  - rewrite i32_saturating_succ by bounds. intros Hlt. unfold loose, held. simpl.
    rewrite values_insert_fresh; [rewrite fmap_cons; simpl; lia|].
    refine (ft_insert_fresh GUEST_FD_BASE k (table s) Hwf _). simpl. lia.
Qed.

(** The debt after a removal: the socket, or nothing. *)
Definition owed (r : result HostSocket) : Z := match r with Ok k => w (raw_fd k) | Err _ => 0 end.

Lemma sock_debt_remove fd : debt 0 (fun r y => y = owed r) (remove_socket fd : call _).
Proof.
  apply settles_atomically. intros s. cbn [fst snd remove].
  exists (owed (ok_or (sockets (table s) !! fd) EBADF)). split; [|done]. intros Hwf.
  split_and!; [exact (fd_wf_remove GUEST_FD_BASE fd (table s) Hwf)|simpl; lia|]. intros _.
  unfold loose, held. simpl. destruct (sockets (table s) !! fd) as [k|] eqn:E; simpl.
  - rewrite (values_delete _ _ _ E), fmap_cons. simpl. lia.
  - rewrite delete_id by done. lia.
Qed.

(** A [close] pays the debt of the descriptor it closes, and no other. *)
Lemma sock_debt_sys_close k : debt (w k) (keep 0) (sys (sys_close k) : call _).
Proof.
  eapply settles_weaken; [apply (sock_debt_sys (w k) (fun _ => - w k))|].
  - intros u. simpl. destruct (sys_close k u.1). simpl. rewrite balance_give_in. lia.
  - intros a y ->. lia.
Qed.

Lemma sock_debt_close_raw k : debt (w k) (keep 0) (close_raw k : call _).
Proof. eapply settles_bind; [apply sock_debt_sys_close|]. by intros a y ->. Qed.

Hint Resolve sock_debt_get sock_debt_close_raw sock_debt_insert : rust.
Hint Extern 1 (settles _ _ _ _ (zoom mem_lens _)) => apply sock_debt_mem; auto with rust : rust.
Hint Extern 2 (settles _ _ _ _ (sys _)) =>
  apply sock_debt_quiet; intros ?; simpl; case_match; reflexivity : rust.

Ltac settle := settle_sockets ltac:(idtac;
  match goal with
  | |- settles _ _ _ _ (with_socket _ _) => unfold with_socket
  | |- settles _ _ _ _ (mem_read _ _ _) => unfold mem_read
  | |- settles _ _ _ _ (mem_read_u32 _ _) => unfold mem_read_u32
  end).

Lemma sock_debt_configure x fd t :
  debt x (keep x) (configure_socket_type_flags fd t : call _).
Proof.
  unfold configure_socket_type_flags. apply (settles_bind _ _ x (keep x)).
  - destruct (close_on_exec t); settle.
  - intros [|] y ->; [|done]. destruct (nonblocking t); settle.
Qed.

Lemma sock_debt_poll_fds chunks : debt 0 (keep 0) (poll_fds chunks : call _).
Proof.
  induction chunks as [|c cs IH]; cbn [poll_fds]; [done|].
  apply (settles_bind _ _ 0 (keep 0)); [settle|].
  intros [fd|e] y ->; [|done]. eapply settles_bind; [apply IH|]. by intros r y ->.
Qed.

Lemma sock_debt_write_revents ptr i fds : debt 0 (keep 0) (write_revents ptr i fds : call _).
Proof.
  revert i. induction fds as [|p fds IH]; intros i; cbn [write_revents]; [done|].
  eapply settles_bind; [apply sock_debt_mem; auto with rust|]. intros [] y ->; [apply IH|done].
Qed.

Hint Resolve sock_debt_configure sock_debt_poll_fds sock_debt_write_revents : rust.

Lemma sock_debt_socket net domain type protocol :
  debt 0 (keep 0) (import_socket net domain type protocol : call _).
Proof.
  unfold import_socket. destruct (negb net); [done|]. settle.
  eapply settles_bind; [apply (sock_debt_sys 0 (fun r : Z * Z => if r.1 <? 0 then 0 else w r.1))|].
  { intros u. simpl. destruct (sys_socket _ _ _ _) as [r u']. simpl.
    destruct (r.1 <? 0); rewrite ?balance_take_out; lia. }
  intros [raw e] y ->. cbn [fst snd]. destruct (raw <? 0); [done|].
  apply (settles_bind _ _ (w raw) (keep (w raw))); [auto with rust|]. intros r y ->. settle.
Qed.

Lemma sock_debt_accept fd addr_ptr addr_len_ptr :
  debt 0 (keep 0) (import_accept fd addr_ptr addr_len_ptr : call _).
Proof.
  unfold import_accept, mem_write, mem_write_u32. settle.
  eapply settles_bind;
    [apply (sock_debt_sys 0 (fun r : Z * Z * (list Z * Z) => if r.1.1 <? 0 then 0 else w r.1.1))|].
  { intros u. simpl. destruct (sys_accept _ _ _) as [r u']. simpl.
    destruct (r.1.1 <? 0); rewrite ?balance_take_out; lia. }
  intros [[acc e] [addr len]] y ->. cbn [fst snd]. destruct (acc <? 0); [done|].
  cbv zeta. rewrite Z.add_0_l. settle.
Qed.

Lemma sock_debt_close fd : debt 0 (keep 0) (import_close fd : call _).
Proof.
  unfold import_close. eapply settles_bind; [apply sock_debt_remove|].
  intros [k|e] y ->; cbn [or_return]; [|done].
  eapply settles_bind; [apply sock_debt_sys_close|]. by intros rc y ->.
Qed.

Lemma sock_debt_import net c : debt 0 (keep 0) (sock_import net c : call _).
Proof.
  destruct c; cbn [sock_import];
    [apply sock_debt_socket| | |apply sock_debt_accept| | | | | | | | | | |apply sock_debt_close| |];
    unfold import_bind, import_listen, import_connect, sock_name, import_setsockopt,
      import_getsockopt, import_send, import_recv, import_sendto, import_recvfrom,
      import_shutdown, import_fcntl, socket_fcntl, import_poll, mem_write, mem_write_u32; settle.
Qed.
End Leaks.

(** Dropping the table closes its descriptors, in the order of [values]. *)
Lemma fold_close_books {U} `{!UnixSockets U} (fds : list Z) (u : U * book) :
  taken (fold_left (fun u fd => (sys_close fd u).2) fds u).2 = taken u.2 /\
  given_back (fold_left (fun u fd => (sys_close fd u).2) fds u).2 = rev fds ++ given_back u.2.
Proof.
  revert u. induction fds as [|fd fds IH]; intros u; cbn [fold_left rev]; [done|].
  destruct (IH (sys_close fd u).2) as [-> ->]. cbn [sys_close ledger_net]. destruct (sys_close fd u.1). simpl.
  by rewrite <- app_assoc.
Qed.

Lemma drop_balances {U} `{!UnixSockets U} (s : SockSt (U * book)) :
  balanced (os s).2 (held (table s)) -> balanced (os (drop_sockets s)).2 [].
Proof.
  intros Hb. unfold balanced, drop_sockets in *. cbn [os].
  destruct (fold_close_books ((fun p => raw_fd p.2) <$> map_to_list (sockets (table s))) (os s)) as [-> ->].
  rewrite Hb, app_nil_r, <- Permutation_rev, Permutation_app_comm. f_equiv.
  unfold held, values. by rewrite <- list_fmap_compose.
Qed.

(** * Properties *)

(** C6. No leak, under every interleaving: when the threads that shared an empty
    table have all returned, the raw descriptors the kernel has handed out are
    exactly those that were closed and those in the table, each as often as it
    was handed out; after the table is dropped, the descriptors closed are
    exactly those handed out.  So the error paths of [socket] and [accept] close
    the very descriptor they had got, and nothing is closed twice.  (No thread may
    have panicked, see [accept_long_address_panics], and the counter must be below
    [i32::MAX]: past it an insertion replaces a socket without closing it.) *)
Theorem sock_import_no_leak {U} `{!UnixSockets U} `{libc : LibcErrno} `{consts : LibcConsts}
    net m (u : U) gs ts' s' :
  rtc pool_step (sock_pool net gs, Build_SockSt m new (u, blank)) (ts', s') ->
  Forall returned ts' -> next_fd (table s') < i32_max ->
  balanced (os s').2 (held (table s')) /\
  balanced (os (drop_sockets s')).2 [] /\ sockets (table (drop_sockets s')) = ∅.
Proof.
  intros Hsteps Hend Hlt.
  assert (balanced (os s').2 (held (table s'))) as Hb.
  { apply balanced_weigh. intros w.
    assert (sock_moves w (Build_SockSt m new (u, blank)) 0 s') as Hm.
    { refine (pool_settled (sock_moves w) (fun _ => True) (fun _ x => x = 0) (sock_moves_refl w)
        (sock_moves_trans w) _ ts' _ s' Hsteps _ _).
      - apply Forall_fmap, Forall_true. intros g. apply settles_guest_prog.
        + intros m' ls. apply sock_moves_mem.
        + intros c. apply (settles_zoom _ _ shared_lens), sock_debt_import.
      - eapply Forall_impl; [exact Hend|]. intros t. unfold returned. by destruct (code t). }
    destruct (Hm new_sockets_wf) as (_ & _ & Hl). specialize (Hl Hlt).
    unfold loose in Hl. change (balance w (os (Build_SockSt m new (u, blank))).2) with 0 in Hl.
    change (weigh w (held (table (Build_SockSt m new (u, blank))))) with 0 in Hl. lia. }
  split; [done|]. split; [|done]. by apply drop_balances.
Qed.

(** C40. The kernel may report an address longer than the buffer it was given;
    [accept] then slices its buffer out of range. The call panics instead of
    returning, after the connection was accepted: its raw descriptor is neither
    in the table nor closed. *)
Theorem accept_long_address_panics {U} `{!UnixSockets U} `{libc : LibcErrno}
    `{consts : LibcConsts} net fd addr_ptr addr_len_ptr k n accepted errno addr len u
    (s : SockSt U) :
  sockets (table s) !! fd = Some k ->
  run (read_u32 addr_len_ptr) (mem s) = (Done (Ok n), mem s) ->
  sys_accept (raw_fd k) (replicate (Z.to_nat n) 0) (os s) = ((accepted, errno, (addr, len)), u) ->
  0 <= accepted -> Z.of_nat (length addr) < len ->
  run (sock_import net (KAccept fd addr_ptr addr_len_ptr)) s = (Panicked, with_os u s).
Proof.
  intros Hfd Hn Hacc H0 Hlen. cbn [sock_import].
  unfold import_accept, with_socket, get, mem_read_u32, sys.
  rewrite run_bind, run_read, Hfd. cbn [ok_or or_return].
  rewrite run_bind, run_zoom by apply _. cbn [view mem_lens]. rewrite Hn. cbn [fst snd or_return].
  replace (put mem_lens (mem s) s) with s by (by destruct s).
  rewrite run_bind, run_atomically, Hacc. cbn [fst snd].
  destruct (Z.ltb_spec accepted 0); [lia|]. unfold slice_to.
  rewrite decide_False; [done|]. unfold denormalize_sockaddr_for_guest.
  rewrite length_sockaddr_family. lia.
Qed.

(** * Concrete runs *)

Section Demo.
Local Existing Instance linux_errno.
Local Existing Instance linux_consts.

(** A guest that opens a socket and accepts a connection, next to one that opens,
  sends and closes. *)
Definition accepting : guest SockCall :=
  GuestCall (KSocket 1 6 0) (fun fd => GuestCall (KAccept fd 16 8) (fun _ => GuestDone)).

Definition leaks_run :=
  run_schedule demo_schedule
    (sock_pool true [demo_guest; accepting], Build_SockSt demo_mem new (mem_net_init, blank)).

Lemma sock_import_no_leak_witness :
  let s' := leaks_run.2 in
  length (taken (os s').2) = 3%nat /\ balanced (os s').2 (held (table s')) /\
  length (held (table s')) = 2%nat /\ balanced (os (drop_sockets s')).2 [] /\
  size (open_fds (os (drop_sockets s')).1) = 0%nat.
Proof.
  intros s'. assert (Forall returned leaks_run.1) as Hend.
  { vm_compute. repeat constructor. }
  destruct (sock_import_no_leak true demo_mem mem_net_init [demo_guest; accepting] _ _
    (run_schedule_steps demo_schedule _) Hend eq_refl) as (Hc & Hd & _).
  split_and!; [vm_compute; reflexivity|exact Hc|vm_compute; reflexivity|exact Hd|vm_compute; reflexivity].
Defined.

(** A guest that leaves room for four bytes of a sixteen byte address. *)
Lemma accept_long_address_panics_witness :
  let s := Build_SockSt (Some (ExtSharedMemory ([4; 0; 0; 0] ++ replicate 12 0)))
    (table demo_open) (os demo_open, take_out 3 blank) in
  let r := run (sock_import true (KAccept 10000 8 0)) s in
  r.1 = Panicked /\ (os r.2).2 = take_out 4 (take_out 3 blank) /\ size (sockets (table r.2)) = 1%nat.
Proof.
  intros s r.
  assert (exists errno addr u, sys_accept 3 (replicate (Z.to_nat 4) 0) (os s)
    = ((4, errno, (addr, 16)), u) /\ length addr = 4%nat /\ u.2 = take_out 4 (take_out 3 blank)) as (e & addr & u & Ha & Hl & Hu)
    by (do 3 eexists; vm_compute; auto).
  assert (r = (Panicked, with_os u s)) as ->.
  { eapply (accept_long_address_panics true 10000 8 0 {| raw_fd := 3; guest_domain := 1;
      host_domain := 2 |} 4 4 e addr 16 u s).
    - vm_compute; reflexivity.
    - vm_compute; reflexivity.
    - exact Ha.
    - done.
    - rewrite Hl. done. }
  split_and!; [done|exact Hu|vm_compute; reflexivity].
Defined.
End Demo.
