(* ===== verification/SocketCalls.v ===== *)
(** What the socket imports do when they run: the translation of types, levels
    and addresses, [poll], [fcntl] and [SO_ERROR]. *)

From S2P Require Import Prelude.
From S2P Require Import Prog.
From S2P Require Import GuestErrno.
From S2P Require Import GuestMemory.
From S2P Require Import FdTable.
From S2P Require Import HostSockets.
From S2P Require Import MemNet.
From S2P Require Import HostSocketsProofs.
From S2P Require Import SocketSafety.
Local Open Scope rust_scope.
Local Open Scope prog_scope.

(** * Specification *)

(** The flags a guest may add to a socket type: the WASI spellings, and the
    host's own where it has any. *)
Definition type_flags `{consts : LibcConsts} (wasi_cloexec wasi_nonblock host_cloexec host_nonblock : bool)
  : Z :=
  let bit (b : bool) (v : Z) := if b then v else 0 in
  Z.lor (bit wasi_cloexec WASI_ALT_SOCK_CLOEXEC) (Z.lor (bit wasi_nonblock WASI_ALT_SOCK_NONBLOCK)
    (Z.lor (bit host_cloexec libc_SOCK_CLOEXEC) (bit host_nonblock libc_SOCK_NONBLOCK))).

Definition type_mask `{consts : LibcConsts} : Z := type_flags true true target_linux target_linux.

(** The family field of an address, little-endian. *)
Definition sockaddr_family (addr : list Z) : Z := from_le_bytes (take 2 addr).

(** The entries of a [poll], with the raw descriptors. *)
Fixpoint poll_entries (t : HostSocketsInner) (chunks : list (list Z)) : result (list pollfd) :=
  match chunks with
  | [] => Ok []
  | c :: chunks =>
      let guest_fd := i32_from_le_bytes (take 4 c) in
      fd <-? (if guest_fd <? 0 then Ok guest_fd
              else socket <-? ok_or (sockets t !! guest_fd) EBADF;; Ok (raw_fd socket));;
      rest <-? poll_entries t chunks;;
      Ok ({| pfd_fd := fd; pfd_events := i16_from_le_bytes (take 2 (drop 4 c)); pfd_revents := 0 |}
          :: rest)
  end.

(** The memory after the [revents] fields from entry [i] on are written. *)
Fixpoint put_revents (ptr : nat) (i : nat) (fds : list pollfd) (data : list Z) : list Z :=
  match fds with
  | [] => data
  | p :: fds => put_revents ptr (S i) fds (splice (ptr + 8 * i + 6) (to_le_bytes 2 (pfd_revents p)) data)
  end.

(** * Lemmas *)

Section Runs.
Context {U : Type} `{!UnixSockets U} `{libc : LibcErrno} `{consts : LibcConsts}.
Implicit Types s : SockSt U.

Lemma run_with_socket fd k (p : HostSocket -> prog (SockSt U) Z) s :
  sockets (table s) !! fd = Some k -> run (with_socket fd p) s = run (p k) s.
Proof. intros Hfd. unfold with_socket, get. by rewrite run_bind, run_read, Hfd. Qed.

Lemma run_mem_read ptr len bytes (p : list Z -> prog (SockSt U) Z) s :
  read_spec (mem s) ptr len = Ok bytes -> run (mem_read ptr len p) s = run (p bytes) s.
Proof.
  intros Hr. unfold mem_read. rewrite run_bind, run_zoom, run_read_guest by apply _.
  cbn [fst snd view mem_lens]. rewrite Hr. by destruct s.
Qed.

Lemma run_mem_read_u32 ptr bytes (p : Z -> prog (SockSt U) Z) s :
  read_spec (mem s) ptr 4 = Ok bytes ->
  run (mem_read_u32 ptr p) s = run (p (from_le_bytes bytes)) s.
Proof.
  intros Hr. unfold mem_read_u32. rewrite run_bind, run_zoom, run_read_u32 by apply _.
  cbn [fst snd view mem_lens]. rewrite Hr. by destruct s.
Qed.

Lemma run_mem_write ptr bytes m s :
  write_spec (mem s) ptr bytes = Ok m ->
  run (mem_write ptr bytes) s = (Done (Ok tt), put mem_lens m s).
Proof.
  intros Hw. unfold mem_write. rewrite run_zoom, run_write_guest by apply _.
  cbn [fst snd view mem_lens]. by rewrite Hw.
Qed.

Lemma run_mem_write_u32 ptr v m s :
  write_spec (mem s) ptr (to_le_bytes 4 v) = Ok m ->
  run (mem_write_u32 ptr v) s = (Done (Ok tt), put mem_lens m s).
Proof. apply run_mem_write. Qed.

Lemma run_sys {A} (f : U -> A * U) s :
  run (sys f) s = (Done (f (os s)).1, with_os (f (os s)).2 s).
Proof. unfold sys. rewrite run_atomically. by destruct (f (os s)). Qed.

Lemma run_poll_fds chunks s : run (poll_fds chunks) s = (Done (poll_entries (table s) chunks), s).
Proof.
  induction chunks as [|c cs IH]; cbn [poll_fds poll_entries]; [done|].
  rewrite run_bind. destruct (_ <? 0).
  - rewrite run_ret. cbn [result_bind]. rewrite run_bind, IH. by destruct (poll_entries _ cs).
  - unfold get. rewrite run_bind, run_read, run_ret.
    destruct (sockets (table s) !! _) as [k|]; simpl; [|done].
    rewrite run_bind, IH. by destruct (poll_entries _ cs).
Qed.
End Runs.

Lemma write_spec_in_range m ptr bytes data :
  mem_bytes m = Some data -> 0 <= ptr -> ptr + Z.of_nat (length bytes) <= Z.of_nat (length data) ->
  Z.of_nat (length bytes) <= MAX_IO_LEN -> ptr + Z.of_nat (length bytes) < 2 ^ 64 ->
  write_spec m ptr bytes = Ok (update_data (splice (Z.to_nat ptr) bytes) m).
Proof.
  intros Hm H0 H1 H2 H3. unfold write_spec. rewrite Hm. cbn [ok_or result_bind].
  unfold write_range. assert (i32_try_from (Z.of_nat (length bytes)) = Some (Z.of_nat (length bytes))) as ->.
  { apply i32_try_from_Some. split; [done|]. unfold MAX_IO_LEN in *. bounds. }
  cbn [ok_or result_bind].
  rewrite (proj2 (checked_range_Ok _ _ _ (ptr, ptr + Z.of_nat (length bytes)))); [done|].
  split_and!; auto; lia.
Qed.

Lemma run_write_revents {U} (ptr i : nat) fds (s : SockSt U) data :
  mem_bytes (mem s) = Some data ->
  (ptr + 8 * (i + length fds) <= length data)%nat ->
  Z.of_nat (ptr + 8 * (i + length fds)) <= i32_max ->
  run (write_revents (Z.of_nat ptr) (Z.of_nat i) fds) s =
    (Done (Ok tt), put mem_lens (update_data (put_revents ptr i fds) (mem s)) s).
Proof.
  revert i s data. induction fds as [|p fds IH]; intros i s data Hm Hlen Hmax; cbn [write_revents].
  { rewrite run_ret. do 2 f_equal. destruct s as [m t u]. unfold put, mem_lens. cbn. f_equal.
    by destruct m as [[]|]. }
  simpl length in *.
  rewrite as_i32_id by bounds.
  replace (Z.of_nat ptr + Z.of_nat i * 8 + 6) with (Z.of_nat (ptr + 8 * i + 6)) by lia.
  rewrite run_bind.
  erewrite run_mem_write.
  2:{ eapply write_spec_in_range; [exact Hm|lia|..]; rewrite length_to_le_bytes;
      unfold MAX_IO_LEN; bounds. }
  rewrite Nat2Z.id. replace (Z.of_nat i + 1) with (Z.of_nat (S i)) by lia.
  rewrite (IH (S i) _ (splice (ptr + 8 * i + 6) (to_le_bytes 2 (pfd_revents p)) data));
    [|cbn [mem put mem_lens]; by rewrite mem_bytes_update, Hm
     |rewrite length_splice; rewrite ?length_to_le_bytes; lia|lia].
  cbn [put mem_lens mem table os put_revents]. do 2 f_equal.
  rewrite update_data_compose. by apply update_data_ext.
Qed.

Lemma put_revents_length ptr i fds data :
  (ptr + 8 * (i + length fds) <= length data)%nat ->
  length (put_revents ptr i fds data) = length data.
Proof.
  revert i data. induction fds as [|p fds IH]; intros i data Hl; cbn [put_revents]; [done|].
  simpl in Hl. rewrite IH; rewrite ?length_splice; rewrite ?length_to_le_bytes; lia.
Qed.

(** Cells outside the fields of the entries from [i] on are not written. *)
Lemma put_revents_outside ptr i fds data a :
  (ptr + 8 * (i + length fds) <= length data)%nat ->
  (forall j, (i <= j < i + length fds)%nat ->
    ~ (ptr + 8 * j + 6 <= a < ptr + 8 * j + 8)%nat) ->
  put_revents ptr i fds data !! a = data !! a.
Proof.
  revert i data. induction fds as [|p fds IH]; intros i data Hl Ha; cbn [put_revents]; [done|].
  simpl in Hl, Ha. rewrite IH.
  - apply splice_lookup_out; rewrite length_to_le_bytes; [lia|]. specialize (Ha i). lia.
  - rewrite length_splice; rewrite ?length_to_le_bytes; lia.
  - intros j Hj. apply Ha. lia.
Qed.

Lemma put_revents_field ptr i fds data j p k :
  (ptr + 8 * (i + length fds) <= length data)%nat -> fds !! j = Some p -> (k < 2)%nat ->
  put_revents ptr i fds data !! (ptr + 8 * (i + j) + 6 + k)%nat =
    to_le_bytes 2 (pfd_revents p) !! k.
Proof.
  revert i j data. induction fds as [|q fds IH]; intros i j data Hl Hj Hk; [done|].
  cbn [put_revents]. simpl in Hl. destruct j as [|j]; simpl in Hj.
  - injection Hj as ->. rewrite put_revents_outside.
    + rewrite splice_lookup_in; rewrite ?length_to_le_bytes; [f_equal; lia|lia|lia].
    + rewrite length_splice; rewrite ?length_to_le_bytes; lia.
    + intros j' Hj'. lia.
  - replace (ptr + 8 * (i + S j) + 6 + k)%nat with (ptr + 8 * (S i + j) + 6 + k)%nat by lia.
    apply IH; [|done|done]. rewrite length_splice; rewrite ?length_to_le_bytes; lia.
Qed.

(** ** Bits *)

Lemma land_pow2 t k : 0 <= k -> Z.land t (2 ^ k) = if Z.testbit t k then 2 ^ k else 0.
Proof.
  intros Hk. apply Z.bits_inj'. intros n Hn. rewrite Z.land_spec, Z.pow2_bits_eqb by done.
  destruct (Z.eqb_spec k n) as [<-|Hne].
  - destruct (Z.testbit t k) eqn:E; simpl; [by rewrite Z.pow2_bits_true|by rewrite Z.bits_0].
  - rewrite andb_false_r. destruct (Z.testbit t k); [|by rewrite Z.bits_0].
    by rewrite Z.pow2_bits_false.
Qed.

Lemma land_lor_same a b : Z.land (Z.lor a b) b = b.
Proof.
  apply Z.bits_inj'. intros n _. rewrite Z.land_spec, Z.lor_spec.
  by destruct (Z.testbit a n), (Z.testbit b n).
Qed.

Lemma split_by_mask t m : t = Z.lor (Z.land t (Z.lnot m)) (Z.land t m).
Proof.
  rewrite <- Z.land_lor_distr_r, Z.lor_comm, Z.lor_lnot_diag. by rewrite Z.land_m1_r.
Qed.

Lemma land_mask_flags `{consts : LibcConsts} t a b c d :
  0 <= a -> 0 <= b -> 0 <= c -> 0 <= d ->
  WASI_ALT_SOCK_CLOEXEC = 2 ^ a -> WASI_ALT_SOCK_NONBLOCK = 2 ^ b ->
  (if target_linux then libc_SOCK_CLOEXEC = 2 ^ c /\ libc_SOCK_NONBLOCK = 2 ^ d else True) ->
  Z.land t type_mask = type_flags (Z.testbit t a) (Z.testbit t b)
    (target_linux && Z.testbit t c) (target_linux && Z.testbit t d).
Proof.
  intros Ha Hb Hc Hd Ea Eb Ecd. unfold type_mask, type_flags. rewrite !Z.land_lor_distr_r.
  rewrite Ea, Eb, !land_pow2 by done. destruct target_linux; simpl.
  - destruct Ecd as [-> ->]. by rewrite !land_pow2.
  - by rewrite !Z.land_0_r.
Qed.

(** * Properties *)

(** C31. Socket types, on Linux and on macOS: exactly the stream and datagram
    types are accepted, in the host's or the WASI numbering, with any of the
    close-on-exec and non-blocking flags in the WASI spelling or (on Linux) the
    host's; the kernel is given the host's type without flags, each flag is
    recognised in either spelling, and everything else is [EOPNOTSUPP]. *)
Theorem socket_type_correct consts t :
  consts ∈ [linux_consts; macos_consts] ->
  (forall r, normalize_socket_type t = Ok r <->
    exists base wc wn hc hn,
      base ∈ [1; 2; 5; 6] /\ (target_linux = false -> hc = false /\ hn = false) /\
      t = Z.lor base (type_flags wc wn hc hn) /\
      r = {| ty := if decide (base = 1 \/ base = 6) then 1 else 2;
             close_on_exec := wc || hc; nonblocking := wn || hn |}) /\
  (forall e, normalize_socket_type t = Err e -> e = EOPNOTSUPP).
Proof.
  intros Hc. split.
  2:{ unfold normalize_socket_type. intros e. by repeat case_match; intros; simplify_eq/=. }
  assert (Hgo : forall base wc wn hc hn, base ∈ [1; 2; 5; 6] ->
    (target_linux = false -> hc = false /\ hn = false) ->
    normalize_socket_type (Z.lor base (type_flags wc wn hc hn)) =
      Ok {| ty := if decide (base = 1 \/ base = 6) then 1 else 2;
            close_on_exec := wc || hc; nonblocking := wn || hn |}).
  { intros base wc wn hc hn Hb Hh. rewrite !elem_of_cons, elem_of_nil in Hc. rewrite !elem_of_cons, elem_of_nil in Hb.
    destruct Hc as [-> | [-> | []]].
    - destruct Hb as [-> | [-> | [-> | [-> | []]]]]; destruct wc, wn, hc, hn; by vm_compute.
    - destruct (Hh eq_refl) as [-> ->].
      destruct Hb as [-> | [-> | [-> | [-> | []]]]]; destruct wc, wn; by vm_compute. }
  intros r. split; [|intros (base & wc & wn & hc & hn & Hb & Hh & -> & ->); by apply Hgo].
  intros Hr.
  assert (exists c d, 0 <= c /\ 0 <= d /\
    (if target_linux then libc_SOCK_CLOEXEC = 2 ^ c /\ libc_SOCK_NONBLOCK = 2 ^ d else True))
    as (c & d & H0 & H1 & Hcd).
  { exists 19, 11. rewrite !elem_of_cons, elem_of_nil in Hc. by destruct Hc as [-> | [-> | []]]. }
  assert (Z.land t (Z.lnot type_mask) ∈ [1; 2; 5; 6]) as Hb.
  { assert (type_mask = Z.lor (Z.lor host_socket_flag_mask WASI_ALT_SOCK_CLOEXEC) WASI_ALT_SOCK_NONBLOCK)
      as Hm by (rewrite !elem_of_cons, elem_of_nil in Hc; by destruct Hc as [-> | [-> | []]]).
    rewrite Hm. unfold normalize_socket_type in Hr. rewrite !elem_of_cons, elem_of_nil.
    rewrite !elem_of_cons, elem_of_nil in Hc.
    assert (libc_SOCK_STREAM = 1 /\ libc_SOCK_DGRAM = 2) as [Hs Hd]
      by by destruct Hc as [-> | [-> | []]].
    rewrite Hs, Hd in Hr. unfold WASI_ALT_SOCK_STREAM, WASI_ALT_SOCK_DGRAM in Hr.
    set (b := Z.land t _) in *. destruct (Z.eqb_spec b 1), (Z.eqb_spec b 6), (Z.eqb_spec b 2),
      (Z.eqb_spec b 5); simpl in Hr; first [tauto|discriminate Hr]. }
  pose proof (land_mask_flags t 13 14 c d ltac:(done) ltac:(done) H0 H1 eq_refl eq_refl Hcd) as Hf.
  eexists _, (Z.testbit t 13), (Z.testbit t 14), (target_linux && Z.testbit t c),
    (target_linux && Z.testbit t d).
  assert (target_linux = false -> target_linux && Z.testbit t c = false /\
    target_linux && Z.testbit t d = false) as Hh by (by intros ->).
  assert (t = Z.lor (Z.land t (Z.lnot type_mask)) (type_flags (Z.testbit t 13) (Z.testbit t 14)
    (target_linux && Z.testbit t c) (target_linux && Z.testbit t d))) as Ht.
  { rewrite <- Hf. apply split_by_mask. }
  split_and!; [exact Hb|exact Hh|exact Ht|].
  specialize (Hgo _ (Z.testbit t 13) (Z.testbit t 14) _ _ Hb Hh). rewrite <- Ht, Hr in Hgo.
  by injection Hgo.
Qed.

(** C32. Addresses: the kernel sees the address the guest wrote with the host's
    family in the first two bytes and every other byte unchanged, and putting
    the guest's own family back gives the guest's bytes again. *)
Theorem sockaddr_translation addr host_family :
  (2 <= length addr)%nat -> Forall is_byte addr -> 0 <= host_family < 2 ^ 16 ->
  let host := normalize_sockaddr_for_host addr host_family in
  sockaddr_family host = host_family /\ drop 2 host = drop 2 addr /\
  length host = length addr /\
  denormalize_sockaddr_for_guest host (sockaddr_family addr) = addr.
Proof.
  intros Hl Hb Hf. destruct addr as [|a [|b rest]]; simpl in Hl; try lia.
  unfold normalize_sockaddr_for_host, denormalize_sockaddr_for_guest, write_sockaddr_family,
    sockaddr_family, u16_try_from. simpl length. rewrite decide_False by lia.
  rewrite decide_True by lia. unfold splice. cbn [take drop app length to_le_bytes Nat.add].
  change (take 0 rest) with (@nil Z).
  rewrite decide_False by (simpl; lia). rewrite decide_True.
  2:{ apply Forall_cons in Hb as [Ha [Hb' _]%Forall_cons]. unfold is_byte in *.
      cbn [from_le_bytes]. lia. }
  pose proof (to_from_le_bytes [a; b] (Forall_take is_byte 2 (a :: b :: rest) Hb)) as Hab. cbn [length to_le_bytes from_le_bytes] in *.
  injection Hab as Ha0 Hb0. rewrite Ha0, Hb0. split_and!; [|done..].
  change (from_le_bytes (to_le_bytes 2 host_family) = host_family).
  rewrite from_to_le_bytes. by apply Z.mod_small.
Qed.

(** C19. [poll] implements its specification. When the array is in range, every
    nonnegative descriptor in it is open and the kernel's call succeeds, the
    kernel has been given the raw descriptors and the requested events, its
    count is returned, and exactly the two [revents] bytes of each entry have
    been replaced by what the kernel reported; no other cell of the memory has
    changed. *)
Theorem poll_correct {U} `{!UnixSockets U} `{libc : LibcErrno} `{consts : LibcConsts}
    net (ptr : nat) nfds timeout bytes fds fds' rc errno u data (s : SockSt U) :
  0 <= nfds <= MAX_POLL_FDS -> Z.of_nat ptr + 8 * nfds <= i32_max ->
  mem_bytes (mem s) = Some data ->
  read_spec (mem s) (Z.of_nat ptr) (8 * nfds) = Ok bytes ->
  poll_entries (table s) (chunks_exact 8 bytes) = Ok fds ->
  sys_poll fds timeout (os s) = ((rc, errno, fds'), u) -> 0 <= rc ->
  Z.of_nat (length fds') = nfds ->
  exists data',
    run (sock_import net (KPoll (Z.of_nat ptr) nfds timeout)) s =
      (Done rc, Build_SockSt (update_data (fun _ => data') (mem s)) (table s) u) /\
    length data' = length data /\
    (forall j p k, fds' !! j = Some p -> (k < 2)%nat ->
      data' !! (ptr + 8 * j + 6 + k)%nat = to_le_bytes 2 (pfd_revents p) !! k) /\
    (forall a, (forall j, (j < length fds')%nat -> ~ (ptr + 8 * j + 6 <= a < ptr + 8 * j + 8)%nat) ->
      data' !! a = data !! a).
Proof.
  intros Hn Hmax Hm Hread Hents Hpoll Hrc Hlen.
  assert ((ptr + 8 * (0 + length fds') <= length data)%nat) as Hrange.
  { unfold read_spec in Hread. rewrite Hm in Hread. cbn [ok_or result_bind] in Hread.
    destruct (checked_range _ _ _) as [r|] eqn:E; [|done].
    apply checked_range_Ok in E as (_ & ? & ? & ? & ?). lia. }
  exists (put_revents ptr 0 fds' data). split_and!.
  - cbn [sock_import]. unfold import_poll, checked_poll_count, unsigned_try_from.
    rewrite decide_True by lia. cbn [ok_or result_bind]. rewrite decide_False by lia.
    cbn [or_return]. rewrite as_i32_id by (unfold MAX_POLL_FDS in Hn; bounds).
    rewrite Z.mul_comm. erewrite run_mem_read by exact Hread.
    rewrite run_bind, run_poll_fds, Hents. cbn [or_return].
    rewrite run_bind, run_sys, Hpoll. cbn [fst snd].
    destruct (Z.ltb_spec rc 0); [lia|].
    rewrite run_bind.
    pose proof (run_write_revents ptr 0 fds' (with_os u s) data Hm Hrange ltac:(lia)) as Hw.
    change (Z.of_nat 0) with 0 in Hw. rewrite Hw.
    cbn [or_return]. rewrite run_ret. unfold with_os, put, mem_lens. cbn [mem table os].
    do 2 f_equal. apply update_data_ext. intros d Hd. by simplify_eq.
  - by apply put_revents_length.
  - intros j p k Hj Hk. by apply (put_revents_field ptr 0).
  - intros a Ha. apply put_revents_outside; [done|]. intros j Hj. apply Ha. lia.
Qed.

(** A raw descriptor whose status flags the kernel keeps: what [F_SETFL] stores,
    [F_GETFL] reports, as far as [O_NONBLOCK] goes. *)
Definition keeps_status {U} `{!UnixSockets U} `{consts : LibcConsts} (fd : Z) : Prop :=
  forall flags u rc e u', 0 <= flags ->
    sys_fcntl fd libc_F_SETFL flags u = ((rc, e), u') -> 0 <= rc ->
    exists v e' u'', sys_fcntl fd libc_F_GETFL 0 u' = ((v, e'), u'') /\ 0 <= v /\
      Z.land v libc_O_NONBLOCK = Z.land flags libc_O_NONBLOCK.

(** C33. The non-blocking mode: after a [fcntl(F_SETFL)] that succeeds, the
    guest reads back exactly the [O_NONBLOCK] it set or cleared, in the WASI
    spelling; and the flags the kernel was given differ from the ones it had in
    that bit only. *)
Theorem fcntl_nonblock_roundtrip {U} `{!UnixSockets U} `{libc : LibcErrno} `{consts : LibcConsts}
    net fd k arg rc (s s' : SockSt U) :
  sockets (table s) !! fd = Some k -> keeps_status (U := U) (raw_fd k) ->
  0 < libc_O_NONBLOCK ->
  run (sock_import net (KFcntl fd WASI_F_SETFL arg)) s = (Done rc, s') -> 0 <= rc ->
  (run (sock_import net (KFcntl fd WASI_F_GETFL 0)) s').1 =
    Done (if decide (Z.land arg WASI_O_NONBLOCK = 0) then 0 else WASI_O_NONBLOCK) /\
  exists old new e e' u u', sys_fcntl (raw_fd k) libc_F_GETFL 0 (os s) = ((old, e), u) /\
    sys_fcntl (raw_fd k) libc_F_SETFL new u = ((rc, e'), u') /\
    Z.land new (Z.lnot libc_O_NONBLOCK) = Z.land old (Z.lnot libc_O_NONBLOCK).
Proof.
  intros Hfd Hkeeps Hnb Hset Hrc. cbn [sock_import] in *. unfold import_fcntl in *.
  rewrite (run_with_socket fd k) in Hset by done. unfold socket_fcntl in Hset.
  change (WASI_F_SETFL =? WASI_F_GETFL) with false in Hset. rewrite Z.eqb_refl in Hset.
  rewrite run_bind, run_sys in Hset.
  destruct (sys_fcntl (raw_fd k) libc_F_GETFL 0 (os s)) as [[old e] u] eqn:Eget. cbn [fst snd] in Hset.
  assert (forall x, neg_last_errno x < 0) as Hneg.
  { intros x. unfold neg_last_errno, last_errno.
    pose proof (neg_errno_neg _ (from_host_errno_guest x)). lia. }
  destruct (Z.ltb_spec old 0); [injection Hset as <- _; specialize (Hneg e); lia|].
  set (new := if negb (Z.land arg WASI_O_NONBLOCK =? 0) then _ else _) in Hset.
  rewrite run_bind, run_sys in Hset. cbn [os with_os] in Hset.
  destruct (sys_fcntl (raw_fd k) libc_F_SETFL new u) as [[rc0 e'] u'] eqn:Eset.
  cbn [fst snd] in Hset. rewrite run_ret in Hset. injection Hset as Hrc0 <-.
  unfold cvt_i32 in Hrc0. cbn [fst snd] in Hrc0.
  destruct (rc0 <? 0); [specialize (Hneg e'); lia|]. subst rc0.
  assert (0 <= new) as Hnew.
  { unfold new. destruct (negb _); [apply Z.lor_nonneg; lia|apply Z.land_nonneg; by left]. }
  split.
  - rewrite (run_with_socket fd k) by done. unfold socket_fcntl. rewrite Z.eqb_refl.
    rewrite run_bind, run_sys. cbn [os with_os].
    destruct (Hkeeps _ _ _ _ _ Hnew Eset Hrc) as (v & e2 & u2 & -> & Hv & Hland). cbn [fst snd].
    rewrite run_ret. cbn [fst]. do 2 f_equal. destruct (Z.ltb_spec v 0); [lia|]. rewrite Hland.
    unfold new. destruct (Z.eqb_spec (Z.land arg WASI_O_NONBLOCK) 0) as [Ha|Ha]; cbn [negb].
    + rewrite decide_True by done. rewrite <- Z.land_assoc, (Z.land_comm (Z.lnot _)), Z.land_lnot_diag.
      by rewrite Z.land_0_r.
    + rewrite decide_False, land_lor_same by done.
      destruct (Z.eqb_spec libc_O_NONBLOCK 0); [lia|done].
  - exists old, new, e, e', u, u'. split_and!; [done|done|]. unfold new.
    destruct (negb _).
    + rewrite Z.land_comm, Z.land_lor_distr_r, (Z.land_comm _ libc_O_NONBLOCK), Z.land_lnot_diag.
      by rewrite Z.lor_0_r, Z.land_comm.
    + by rewrite <- Z.land_assoc, Z.land_diag.
Qed.

(** * Concrete runs *)

Section Demo.
Local Existing Instance linux_errno.

(** A WASI stream socket with both WASI flags, and a host spelling, on macOS. *)
Lemma socket_type_correct_witness :
  @normalize_socket_type linux_consts (6 + 8192 + 16384) =
    Ok {| ty := 1; close_on_exec := true; nonblocking := true |} /\
  @normalize_socket_type macos_consts (1 + 2048) = Err EOPNOTSUPP.
Proof.
  split.
  - apply (socket_type_correct linux_consts (6 + 8192 + 16384)); [set_solver|].
    exists 6, true, true, false, false. split_and!; [compute_decision|done|done|done].
  - destruct (@normalize_socket_type macos_consts (1 + 2048)) as [r|e] eqn:E; [done|].
    f_equal. by apply (proj2 (socket_type_correct macos_consts (1 + 2048) ltac:(set_solver))).
Defined.

Lemma sockaddr_translation_witness :
  let addr := [1; 0; 12; 234; 127; 0; 0; 1] in
  normalize_sockaddr_for_host addr 2 = [2; 0; 12; 234; 127; 0; 0; 1] /\
  denormalize_sockaddr_for_guest (normalize_sockaddr_for_host addr 2) 1 = addr.
Proof.
  intros addr. split; [reflexivity|].
  exact (proj2 (proj2 (proj2 (sockaddr_translation addr 2 ltac:(simpl; lia)
    ltac:(repeat (apply Forall_cons_2; [by compute|]); by apply Forall_nil_2) ltac:(lia))))).
Defined.

Local Existing Instance linux_consts.

(** A poll of the open socket and an ignored entry. *)
Definition demo_poll : SockSt MemNet :=
  Build_SockSt (Some (ExtMemory ([16; 39; 0; 0; 1; 0; 0; 0] ++ [255; 255; 255; 255; 1; 0; 9; 9])))
    (table demo_open) (os demo_open).

Lemma poll_correct_witness :
  exists data', run (sock_import true (KPoll 0 2 100)) demo_poll =
    (Done 1, Build_SockSt (Some (ExtMemory data')) (table demo_open) (os demo_open)) /\
    data' !! 6%nat = Some 1 /\ data' !! 14%nat = Some 0.
Proof.
  destruct (poll_correct true 0 2 100
    ([16; 39; 0; 0; 1; 0; 0; 0] ++ [255; 255; 255; 255; 1; 0; 9; 9])
    [{| pfd_fd := 3; pfd_events := 1; pfd_revents := 0 |};
     {| pfd_fd := -1; pfd_events := 1; pfd_revents := 0 |}]
    [{| pfd_fd := 3; pfd_events := 1; pfd_revents := 1 |};
     {| pfd_fd := -1; pfd_events := 1; pfd_revents := 0 |}] 1 0 (os demo_open)
    ([16; 39; 0; 0; 1; 0; 0; 0] ++ [255; 255; 255; 255; 1; 0; 9; 9]) demo_poll)
    as (data' & Hr & _ & Hf & _); [by compute|by compute|vm_compute; reflexivity..|by compute|done|].
  exists data'. split; [exact Hr|]. split.
  - exact (Hf 0%nat _ 0%nat eq_refl ltac:(lia)).
  - exact (Hf 1%nat _ 0%nat eq_refl ltac:(lia)).
Defined.

Lemma mem_keeps_status fd : keeps_status (U := MemNet) fd.
Proof.
  intros flags u rc e u' Hf. cbn [sys_fcntl mem_net]. unfold net_if_open.
  case_decide as Hfd; [|intros [= <- <- <-]; lia].
  change (libc_F_SETFL =? 3) with false. change (libc_F_SETFL =? 4) with true.
  intros [= <- <- <-] _. change (libc_F_GETFL =? 3) with true. cbn [open_fds status].
  rewrite decide_True by done. do 3 eexists. split; [done|]. by rewrite lookup_insert_eq.
Qed.

Lemma fcntl_nonblock_roundtrip_witness :
  let s' := (run (sock_import true (KFcntl 10000 WASI_F_SETFL 4)) demo_poll).2 in
  (run (sock_import true (KFcntl 10000 WASI_F_GETFL 0)) s').1 = Done WASI_O_NONBLOCK.
Proof.
  intros s'.
  assert (run (sock_import true (KFcntl 10000 WASI_F_SETFL 4)) demo_poll = (Done 0, s')) as Hs
    by (vm_compute; reflexivity).
  refine (proj1 (fcntl_nonblock_roundtrip true 10000
    {| raw_fd := 3; guest_domain := 1; host_domain := 2 |} 4 0 demo_poll s' _ _ _ Hs _));
    [vm_compute; reflexivity|exact (mem_keeps_status 3)|by compute|done].
Defined.
End Demo.
