(* ===== verification/SocketTotal.v ===== *)
(** Totality of the socket imports: every call returns, with a value the guest
    understands, on a kernel that respects its interface; and what the guest is
    told when a socket has no pending error. *)

From S2P Require Import Prelude.
From S2P Require Import Prog.
From S2P Require Import GuestErrno.
From S2P Require Import GuestMemory.
From S2P Require Import FdTable.
From S2P Require Import HostSockets.
From S2P Require Import MemNet.
From S2P Require Import HostSocketsProofs.
From S2P Require Import SocketSafety.
From S2P Require Import SocketCalls.
Local Open Scope rust_scope.
Local Open Scope prog_scope.

(** * Specification *)

(** The size of [struct sockaddr_storage]: no address is longer. *)
Definition ADDRESS_MAX : Z := 128.

(** What the system calls document: they leave a buffer's size as it is, an
    address may be longer than the buffer but not than [sockaddr_storage], an
    option is cut to the buffer, and a received message is cut to it unless the
    caller asks for its real length with [MSG_TRUNC]. *)
Class UnixSocketsLaws (U : Type) `{!UnixSockets U} (msg_trunc : Z) : Prop := {
  accept_fits : forall fd buf u rc e addr len u',
    sys_accept fd buf u = ((rc, e, (addr, len)), u') -> 0 <= rc ->
    length addr = length buf /\ len <= ADDRESS_MAX;
  name_fits : forall kind fd buf u rc e addr len u',
    sys_name kind fd buf u = ((rc, e, (addr, len)), u') -> 0 <= rc ->
    length addr = length buf /\ len <= ADDRESS_MAX;
  getsockopt_fits : forall fd l o buf u rc e v len u',
    sys_getsockopt fd l o buf u = ((rc, e, (v, len)), u') -> 0 <= rc ->
    length v = length buf /\ len <= Z.of_nat (length buf);
  recv_fits : forall fd buf flags u rc e buf' u',
    sys_recv fd buf flags u = ((rc, e, buf'), u') -> 0 <= rc ->
    Z.land flags msg_trunc = 0 -> length buf' = length buf /\ rc <= Z.of_nat (length buf);
  recvfrom_fits : forall fd buf flags a u rc e buf' addr len u',
    sys_recvfrom fd buf flags a u = ((rc, e, (buf', (addr, len))), u') -> 0 <= rc ->
    Z.land flags msg_trunc = 0 ->
    length buf' = length buf /\ rc <= Z.of_nat (length buf) /\
    length addr = length a /\ len <= ADDRESS_MAX
}.

(** The guest leaves room for any address. *)
Definition room_for_address (m : GuestMem) (addr_len_ptr : Z) : Prop :=
  forall bytes, read_spec m addr_len_ptr 4 = Ok bytes -> ADDRESS_MAX <= from_le_bytes bytes.

Definition call_ok {U} (msg_trunc : Z) (c : SockCall) (s : SockSt U) : Prop :=
  match c with
  | KAccept _ _ lp | KGetsockname _ _ lp | KGetpeername _ _ lp => room_for_address (mem s) lp
  | KRecv _ _ _ flags => Z.land flags msg_trunc = 0
  | KRecvfrom _ _ _ flags _ lp => Z.land flags msg_trunc = 0 /\ room_for_address (mem s) lp
  | _ => True
  end.

(** A value of the call, or the negation of a guest errno. *)
Definition sock_result (rc : Z) : Prop :=
  0 <= rc \/ exists e, e ∈ guest_errnos /\ rc = neg_errno e.

(** * Lemmas *)

Lemma sock_error e : e ∈ guest_errnos -> sock_result (neg_errno e).
Proof. right. eauto. Qed.

Lemma sock_errs {A} (r : result A) e : errs_in_guest r -> r = Err e -> sock_result (neg_errno e).
Proof. intros Hr ->. by apply sock_error. Qed.

Lemma total_or_return {S A} (I : S -> Prop) (r : result A) (k : A -> prog S Z) :
  errs_in_guest r -> (forall a, ensures I sock_result (k a)) ->
  ensures I sock_result (or_return neg_errno r k).
Proof.
  intros Hr Hk. apply ensures_or_return; [intros e; by apply sock_errs|]. auto.
Qed.

(** A write of guest memory, in any component that has one. *)
Lemma total_mem_write {S} (I : S -> Prop) (l : lens S GuestMem) `{!LensLaws l} ptr bytes :
  (forall m s, I s -> I (put l m s)) -> ensures I errs_in_guest (zoom l (write_guest ptr bytes)).
Proof.
  intros HI. apply ensures_zoom; [done..|]. intros m. rewrite run_write_guest.
  eexists _, _. split; [done|]. pose proof (write_spec_errs m ptr bytes) as Hw.
  by destruct (write_spec m ptr bytes).
Qed.

Section Total.
Context {U : Type} `{!UnixSockets U} `{libc : LibcErrno} `{consts : LibcConsts}.
Context (msg_trunc : Z) `{!UnixSocketsLaws U msg_trunc}.
#[local] Abbreviation I := (fun s : SockSt U => sockets_wf (table s)).
#[local] Abbreviation ok := sock_result.
Implicit Types s : SockSt U.

Lemma ok_last_errno e : ok (neg_last_errno e).
Proof. apply sock_error, from_host_errno_guest. Qed.

Lemma ok_cvt r : ok (cvt_i32 r).
Proof.
  unfold cvt_i32. destruct (Z.ltb_spec r.1 0); [apply ok_last_errno|by left].
Qed.

Lemma ok_cvt_ssize r : ok (cvt_ssize r).
Proof.
  unfold cvt_ssize. destruct (Z.ltb_spec r.1 0); [apply ok_last_errno|].
  unfold i32_try_from. case_decide; [by left|]. apply sock_error. compute_decision.
Qed.

Lemma total_sys {A} (Q : A -> Prop) (f : U -> A * U) :
  (forall u, Q (f u).1) -> ensures I Q (sys f).
Proof.
  intros HQ. apply ensures_atomically. intros s Hs. specialize (HQ (os s)). by destruct (f (os s)).
Qed.

Lemma total_write ptr bytes : ensures I errs_in_guest (mem_write ptr bytes : prog (SockSt U) _).
Proof. by apply (total_mem_write _ mem_lens). Qed.

Lemma total_with_socket fd (k : HostSocket -> prog (SockSt U) Z) :
  (forall socket, ensures I ok (k socket)) -> ensures I ok (with_socket fd k).
Proof.
  intros Hk. apply (ensures_bind I errs_in_guest).
  - apply ensures_read. intros s _. destruct (_ !! fd); simpl; [done|compute_decision].
  - intros r Hr. by apply total_or_return.
Qed.

Lemma total_mem_read ptr len (k : list Z -> prog (SockSt U) Z) :
  (forall bytes, ensures I ok (k bytes)) -> ensures I ok (mem_read ptr len k).
Proof.
  intros Hk. apply (ensures_bind I errs_in_guest).
  - apply ensures_zoom; [apply _|done|]. intros m. rewrite run_read_guest.
    eauto using read_spec_errs.
  - intros r Hr. by apply total_or_return.
Qed.

(** A descriptor's lookup and the length word, when the rest depends on it. *)
Lemma total_at_socket fd (k : HostSocket -> prog (SockSt U) Z) s :
  I s -> (forall socket, exists a s', run (k socket) s = (Done a, s') /\ I s' /\ ok a) ->
  exists a s', run (with_socket fd k) s = (Done a, s') /\ I s' /\ ok a.
Proof.
  intros Hs Hk. destruct (sockets (table s) !! fd) as [socket|] eqn:E.
  - rewrite (run_with_socket fd socket) by done. apply Hk.
  - rewrite run_with_socket_none by done. do 2 eexists. split; [done|].
    split; [done|]. apply sock_error. compute_decision.
Qed.

Lemma total_at_length ptr (k : Z -> prog (SockSt U) Z) s :
  I s -> room_for_address (mem s) ptr ->
  (forall n, ADDRESS_MAX <= n -> ensures I ok (k n)) ->
  exists a s', run (mem_read_u32 ptr k) s = (Done a, s') /\ I s' /\ ok a.
Proof.
  intros Hs Hroom Hk. destruct (read_spec (mem s) ptr 4) as [bytes|e] eqn:E.
  - erewrite run_mem_read_u32 by done. apply Hk; auto.
  - pose proof (read_spec_errs (mem s) ptr 4) as He. rewrite E in He.
    unfold mem_read_u32. rewrite run_bind, run_zoom, run_read_u32 by apply _.
    cbn [fst snd view mem_lens]. rewrite E. cbn [result_bind or_return].
    do 2 eexists. split; [done|]. split; [by destruct s|by apply sock_error].
Qed.

(** The writes of an address and its length that end most calls. *)
Lemma total_write_address (addr : list Z) len d ptr len_ptr (k : prog (SockSt U) Z) :
  len <= Z.of_nat (length addr) -> ensures I ok k ->
  ensures I ok (or_panic (slice_to (denormalize_sockaddr_for_guest addr d) len) (fun addr =>
    w <- mem_write ptr addr;; or_return neg_errno w (fun _ =>
      w <- mem_write_u32 len_ptr len;; or_return neg_errno w (fun _ => k)))).
Proof.
  intros Hlen Hk. unfold slice_to. rewrite decide_True.
  2:{ unfold denormalize_sockaddr_for_guest. by rewrite length_sockaddr_family. }
  cbn [or_panic]. apply (ensures_bind I errs_in_guest); [apply total_write|]. intros w Hw.
  apply total_or_return; [done|]. intros _.
  apply (ensures_bind I errs_in_guest); [apply total_write|]. intros w' Hw'.
  by apply total_or_return.
Qed.

Lemma total_close_raw fd : ensures I (fun _ => True) (close_raw fd : prog (SockSt U) unit).
Proof.
  apply (ensures_bind I (fun _ => True)); [by apply total_sys|]. intros. by apply ensures_ret.
Qed.

Lemma total_or_cleanup {A} (r : result A) fd (k : A -> prog (SockSt U) Z) :
  errs_in_guest r -> (forall a, ensures I ok (k a)) ->
  ensures I ok (or_cleanup r (close_raw fd) k).
Proof.
  intros Hr Hk. destruct r as [a|e]; cbn [or_cleanup]; [apply Hk|].
  apply (ensures_bind I (fun _ => True)); [apply total_close_raw|].
  intros _ _. by apply ensures_ret, sock_error.
Qed.

Lemma total_insert_socket k : ensures I ok (insert_socket k : prog (SockSt U) Z).
Proof.
  apply ensures_atomically. intros s Hs.
  split; [exact (fd_wf_insert GUEST_FD_BASE k (table s) Hs)|].
  left. destruct (wf_next _ _ Hs) as [Hb _]. simpl in *. unfold GUEST_FD_BASE in Hb. lia.
Qed.

Lemma total_configure fd t :
  ensures I errs_in_guest (configure_socket_type_flags fd t : prog (SockSt U) _).
Proof.
  assert (forall cmd cmd' (f : Z -> Z), ensures I errs_in_guest
    (got <- sys (sys_fcntl fd cmd 0);;
     let '(flags, errno) := (got : Z * Z) in
     if flags <? 0 then Ret (Err (last_errno errno))
     else set <- sys (sys_fcntl fd cmd' (f flags));;
          let '(rc, errno) := (set : Z * Z) in
          Ret (if rc <? 0 then Err (last_errno errno) else Ok tt))) as Hstep.
  { intros cmd cmd' f. apply (ensures_bind I (fun _ => True)); [by apply total_sys|].
    intros [flags e] _. destruct (flags <? 0); [apply ensures_ret, from_host_errno_guest|].
    apply (ensures_bind I (fun _ => True)); [by apply total_sys|].
    intros [rc e'] _. apply ensures_ret. destruct (rc <? 0); [apply from_host_errno_guest|done]. }
  unfold configure_socket_type_flags. apply (ensures_bind I errs_in_guest).
  - destruct (close_on_exec t); [|by apply ensures_ret].
    apply (Hstep _ _ (fun flags => Z.lor flags libc_FD_CLOEXEC)).
  - intros [[]|e] Hr; [|by apply ensures_ret]. destruct (nonblocking t); [|by apply ensures_ret].
    apply (Hstep _ _ (fun flags => Z.lor flags libc_O_NONBLOCK)).
Qed.

Lemma denormalized_slice addr len d :
  len <= Z.of_nat (length addr) ->
  exists b, slice_to (denormalize_sockaddr_for_guest addr d) len = Some b.
Proof.
  intros Hlen. unfold slice_to. rewrite decide_True; [by eexists|].
  unfold denormalize_sockaddr_for_guest. by rewrite length_sockaddr_family.
Qed.

Lemma total_socket net d t p : ensures I ok (import_socket net d t p : prog (SockSt U) Z).
Proof.
  unfold import_socket. destruct (negb net).
  { apply ensures_ret, sock_error. compute_decision. }
  apply total_or_return.
  { unfold normalize_socket_type. repeat case_match; simpl; try done; simplify_eq/=;
      compute_decision. }
  intros st. apply (ensures_bind I (fun _ => True)); [by apply total_sys|].
  intros [raw e] _. destruct (raw <? 0); [apply ensures_ret, ok_last_errno|].
  apply (ensures_bind I errs_in_guest); [apply total_configure|]. intros r Hr.
  apply total_or_cleanup; [done|]. intros _. apply total_insert_socket.
Qed.

Lemma total_accept fd ptr lp s :
  I s -> room_for_address (mem s) lp ->
  exists a s', run (import_accept fd ptr lp) s = (Done a, s') /\ I s' /\ ok a.
Proof.
  intros Hs Hroom. apply total_at_socket; [done|]. intros socket.
  apply total_at_length; [done..|]. intros n Hn.
  eapply (ensures_bind I (fun r => 0 <= r.1.1 ->
    length r.2.1 = Z.to_nat n /\ r.2.2 <= ADDRESS_MAX)).
  { apply total_sys. intros u. destruct (sys_accept _ _ u) as [[[rc e] [addr len]] u'] eqn:E.
    intros Hrc. apply accept_fits in E as [Ha Hl]; [|done]. by rewrite length_replicate in Ha. }
  intros [[acc e] [addr len]] Hfit. cbn [fst snd] in Hfit.
  destruct (Z.ltb_spec acc 0); [apply ensures_ret, ok_last_errno|]. destruct Hfit as [Ha Hl]; [done|].
  cbv zeta. destruct (denormalized_slice addr len (guest_domain socket)) as [b ->]; [lia|].
  cbn [or_panic]. apply (ensures_bind I errs_in_guest); [apply total_write|]. intros w Hw.
  apply total_or_cleanup; [done|]. intros _.
  apply (ensures_bind I errs_in_guest); [apply total_write|]. intros w' Hw'.
  apply total_or_cleanup; [done|]. intros _. apply total_insert_socket.
Qed.

Lemma total_sock_name fd ptr lp kind s :
  I s -> room_for_address (mem s) lp ->
  exists a s', run (sock_name fd ptr lp kind) s = (Done a, s') /\ I s' /\ ok a.
Proof.
  intros Hs Hroom. apply total_at_socket; [done|]. intros socket.
  apply total_at_length; [done..|]. intros n Hn.
  eapply (ensures_bind I (fun r => 0 <= r.1.1 ->
    length r.2.1 = Z.to_nat n /\ r.2.2 <= ADDRESS_MAX)).
  { apply total_sys. intros u. destruct (sys_name _ _ _ u) as [[[rc e] [addr len]] u'] eqn:E.
    intros Hrc. apply name_fits in E as [Ha Hl]; [|done]. by rewrite length_replicate in Ha. }
  intros [[rc e] [addr len]] Hfit. cbn [fst snd] in Hfit.
  destruct (Z.ltb_spec rc 0); [apply ensures_ret, ok_last_errno|]. destruct Hfit as [Ha Hl]; [done|].
  apply total_write_address; [lia|]. by apply ensures_ret; left.
Qed.

Lemma total_getsockopt fd l o vp lp : ensures I ok (import_getsockopt fd l o vp lp : prog (SockSt U) Z).
Proof.
  apply total_with_socket. intros socket. unfold mem_read_u32.
  apply (ensures_bind I errs_in_guest).
  { apply ensures_zoom; [apply _|done|]. intros m. rewrite run_read_u32. eexists _, _.
    split; [done|]. pose proof (read_spec_errs m lp 4). by destruct (read_spec m lp 4). }
  intros r Hr. apply total_or_return; [done|]. intros n.
  eapply (ensures_bind I (fun r => 0 <= r.1.1 -> r.2.2 <= Z.of_nat (length r.2.1))).
  { apply total_sys. intros u. destruct (sys_getsockopt _ _ _ _ u) as [[[rc e] [v len]] u'] eqn:E.
    intros Hrc. apply getsockopt_fits in E as [Ha Hl]; [|done]. cbn [fst snd]. by rewrite Ha. }
  intros [[rc e] [v len]] Hfit. cbn [fst snd] in Hfit.
  destruct (Z.ltb_spec rc 0); [apply ensures_ret, ok_last_errno|]. specialize (Hfit ltac:(done)).
  assert (exists v', translate_so_error l o len v = Some v' /\ length v' = length v) as (v' & -> & Hv').
  { unfold translate_so_error. destruct (_ && _ && _) eqn:E; [|by eexists].
    apply andb_prop in E as [_ E%Z.leb_le]. rewrite decide_False by lia. eexists; split; [done|].
    rewrite length_splice; rewrite ?length_to_le_bytes; lia. }
  cbn [or_panic]. unfold slice_to. rewrite decide_True by lia. cbn [or_panic].
  apply (ensures_bind I errs_in_guest); [apply total_write|]. intros w Hw.
  apply total_or_return; [done|]. intros _.
  apply (ensures_bind I errs_in_guest); [apply total_write|]. intros w' Hw'.
  apply total_or_return; [done|]. intros _. by apply ensures_ret; left.
Qed.

Lemma ok_transferred rc n len : checked_len len = Ok n -> 0 <= rc <= n -> ok (as_i32 rc).
Proof.
  intros Hn Hrc. apply checked_len_Ok in Hn as [-> Hlen]. left. unfold MAX_IO_LEN in *.
  rewrite as_i32_id; [lia|bounds].
Qed.

Lemma total_recv fd ptr len flags :
  Z.land flags msg_trunc = 0 -> ensures I ok (import_recv fd ptr len flags : prog (SockSt U) Z).
Proof.
  intros Hf. apply total_with_socket. intros socket. pose proof (checked_len_errs len) as Hlen.
  destruct (checked_len len) as [n|e] eqn:En; [|by apply ensures_ret, sock_error].
  cbn [or_return]. pose proof En as [-> Hn]%checked_len_Ok.
  eapply (ensures_bind I (fun r => 0 <= r.1.1 -> r.1.1 <= len /\ r.1.1 <= Z.of_nat (length r.2))).
  { apply total_sys. intros u. destruct (sys_recv _ _ _ u) as [[[rc e] b] u'] eqn:E.
    intros Hrc. apply recv_fits in E as [Hb Hl]; [|done..].
    rewrite length_replicate in *. cbn [fst snd] in *. lia. }
  intros [[rc e] b] Hfit. cbn [fst snd] in Hfit.
  destruct (Z.ltb_spec rc 0); [apply ensures_ret, ok_last_errno|].
  destruct Hfit as [Hl Hb]; [done|]. unfold slice_to. rewrite decide_True by done. cbn [or_panic].
  apply (ensures_bind I errs_in_guest); [apply total_write|]. intros w Hw.
  apply total_or_return; [done|]. intros _. apply ensures_ret. by eapply ok_transferred.
Qed.

Lemma total_recvfrom fd ptr len flags ap lp s :
  I s -> Z.land flags msg_trunc = 0 -> room_for_address (mem s) lp ->
  exists a s', run (import_recvfrom fd ptr len flags ap lp) s = (Done a, s') /\ I s' /\ ok a.
Proof.
  intros Hs Hf Hroom. apply total_at_socket; [done|]. intros socket.
  pose proof (checked_len_errs len) as Hlen.
  destruct (checked_len len) as [n|e] eqn:En; cbn [or_return].
  2:{ do 2 eexists. split; [done|]. split; [done|by apply sock_error]. }
  pose proof En as [-> Hn]%checked_len_Ok.
  apply total_at_length; [done..|]. intros m Hm.
  eapply (ensures_bind I (fun r => 0 <= r.1.1 -> (r.1.1 <= len /\ r.1.1 <= Z.of_nat (length r.2.1)) /\
    r.2.2.2 <= Z.of_nat (length r.2.2.1))).
  { apply total_sys. intros u. destruct (sys_recvfrom _ _ _ _ u) as [[[rc e] [b [a l]]] u'] eqn:E.
    intros Hrc. apply recvfrom_fits in E as (Hb & Hl & Ha & Hal); [|done..].
    rewrite length_replicate in *. cbn [fst snd] in *. lia. }
  intros [[rc e] [b [a l]]] Hfit. cbn [fst snd] in Hfit.
  destruct (Z.ltb_spec rc 0); [apply ensures_ret, ok_last_errno|].
  destruct Hfit as [[Hl Hb] Ha]; [done|]. unfold slice_to at 1. rewrite decide_True by done.
  cbn [or_panic]. apply (ensures_bind I errs_in_guest); [apply total_write|]. intros w Hw.
  apply total_or_return; [done|]. intros _. apply total_write_address; [done|].
  apply ensures_ret. by eapply ok_transferred.
Qed.

Lemma total_fcntl fd cmd arg : ensures I ok (import_fcntl fd cmd arg : prog (SockSt U) Z).
Proof.
  apply total_with_socket. intros socket. unfold socket_fcntl.
  destruct (cmd =? WASI_F_GETFL).
  { apply (ensures_bind I (fun _ => True)); [by apply total_sys|]. intros [flags e] _.
    apply ensures_ret. destruct (flags <? 0); [apply ok_last_errno|].
    destruct (negb _); by left. }
  destruct (cmd =? WASI_F_SETFL); [|apply ensures_ret, sock_error; compute_decision].
  apply (ensures_bind I (fun _ => True)); [by apply total_sys|]. intros [flags e] _.
  destruct (flags <? 0); [apply ensures_ret, ok_last_errno|].
  apply (ensures_bind I (fun _ => True)); [by apply total_sys|]. intros r _.
  apply ensures_ret, ok_cvt.
Qed.

Lemma total_write_revents ptr i fds :
  ensures I errs_in_guest (write_revents ptr i fds : prog (SockSt U) _).
Proof.
  revert i. induction fds as [|p fds IH]; intros i; cbn [write_revents]; [by apply ensures_ret|].
  apply (ensures_bind I errs_in_guest); [apply total_write|].
  intros [[]|e] Hw; [apply IH|by apply ensures_ret].
Qed.

Lemma poll_entries_errs t chunks : errs_in_guest (poll_entries t chunks).
Proof.
  induction chunks as [|c cs IH]; cbn [poll_entries]; [done|].
  destruct (_ <? 0); [|destruct (sockets t !! _); simpl; [|compute_decision]]; simpl;
    by destruct (poll_entries t cs).
Qed.

Lemma total_poll ptr nfds timeout : ensures I ok (import_poll ptr nfds timeout : prog (SockSt U) Z).
Proof.
  apply total_or_return.
  { unfold checked_poll_count, unsigned_try_from.
    case_decide; simpl; [case_decide|]; simpl; try done; compute_decision. }
  intros n. apply total_mem_read. intros bytes.
  apply (ensures_bind I errs_in_guest).
  { intros s Hs. rewrite run_poll_fds. eauto using poll_entries_errs. }
  intros r Hr. apply total_or_return; [done|]. intros fds.
  apply (ensures_bind I (fun _ => True)); [by apply total_sys|]. intros [[rc e] fds'] _.
  destruct (Z.ltb_spec rc 0); [apply ensures_ret, ok_last_errno|].
  apply (ensures_bind I errs_in_guest); [apply total_write_revents|]. intros w Hw.
  apply total_or_return; [done|]. intros _. by apply ensures_ret; left.
Qed.

Lemma total_then_cvt (f : U -> (Z * Z) * U) (cvt : Z * Z -> Z) :
  (forall r, ok (cvt r)) -> ensures I ok (rc <- sys f;; Ret (cvt rc)).
Proof.
  intros Hc. apply (ensures_bind I (fun _ => True)); [by apply total_sys|].
  intros r _. apply ensures_ret, Hc.
Qed.

Lemma total_close fd : ensures I ok (import_close fd : prog (SockSt U) Z).
Proof.
  apply (ensures_bind I errs_in_guest).
  - apply ensures_atomically. intros s Hs.
    split; [exact (fd_wf_remove GUEST_FD_BASE fd (table s) Hs)|].
    simpl. destruct (_ !! fd); simpl; [done|compute_decision].
  - intros r Hr. apply total_or_return; [done|]. intros socket.
    apply total_then_cvt, ok_cvt.
Qed.

(** The imports whose arguments need no further condition. *)
Lemma total_plain net c :
  match c with
  | KAccept _ _ _ | KGetsockname _ _ _ | KGetpeername _ _ _ | KRecv _ _ _ _
  | KRecvfrom _ _ _ _ _ _ => True
  | _ => ensures I ok (sock_import net c : prog (SockSt U) Z)
  end.
Proof.
  destruct c; try exact Logic.I; cbn [sock_import].
  all: first [apply total_socket|apply total_getsockopt|apply total_close|apply total_fcntl
    |apply total_poll|apply total_with_socket; intros socket].
  all: repeat (apply total_mem_read; intros ?); apply total_then_cvt;
    auto using ok_cvt, ok_cvt_ssize.
Qed.
End Total.

(** * Properties *)

(** A guest that asks for the real length of a message, with the host's
    [MSG_TRUNC], makes [recv] slice its buffer out of range when the message is
    longer: the import panics after the message was taken. *)
Lemma recv_long_message_panics {U} `{!UnixSockets U} `{libc : LibcErrno} `{consts : LibcConsts}
    net fd ptr len flags k rc e buf u (s : SockSt U) :
  sockets (table s) !! fd = Some k -> 0 <= len <= MAX_IO_LEN ->
  sys_recv (raw_fd k) (replicate (Z.to_nat len) 0) flags (os s) = ((rc, e, buf), u) ->
  Z.of_nat (length buf) < rc ->
  run (sock_import net (KRecv fd ptr len flags)) s = (Panicked, with_os u s).
Proof.
  intros Hfd Hlen Hrecv Hrc. cbn [sock_import]. unfold import_recv, with_socket, get, sys.
  rewrite run_bind, run_read, Hfd. cbn [ok_or or_return].
  rewrite (proj2 (checked_len_Ok len len)) by done. cbn [or_return].
  rewrite run_bind, run_atomically, Hrecv. cbn [fst snd]. destruct (Z.ltb_spec rc 0); [lia|].
  unfold slice_to. rewrite decide_False by lia. done.
Qed.

(** C8. Every socket import ends, without a panic, on every state with a
    well-formed table and every kernel that respects its interface, provided the
    guest leaves room for any address where it asks for one ([accept], the names,
    [recvfrom]) and does not pass the host's [MSG_TRUNC] to [recv] or [recvfrom];
    the table stays well formed and the result is a value of the call or the
    negation of one of the guest's errnos.  Without the two conditions the imports
    can panic: see [accept_long_address_panics] and [recv_long_message_panics]. *)
Theorem sock_import_returns {U} `{!UnixSockets U} `{libc : LibcErrno} `{consts : LibcConsts}
    msg_trunc `{!UnixSocketsLaws U msg_trunc} net c (s : SockSt U) :
  sockets_wf (table s) -> call_ok msg_trunc c s ->
  exists rc s', run (sock_import net c) s = (Done rc, s') /\ sockets_wf (table s') /\
    sock_result rc.
Proof.
  intros Hs Hc. pose proof (total_plain msg_trunc net c) as Hp.
  destruct c; simpl in Hc; try exact (Hp s Hs).
  - by apply (total_accept msg_trunc).
  - by apply (total_sock_name msg_trunc).
  - by apply (total_sock_name msg_trunc).
  - by apply (total_recv msg_trunc).
  - destruct Hc. by apply (total_recvfrom msg_trunc).
Qed.

(** [SO_ERROR] of a socket with no error: when the kernel answers 0, the
    guest reads the errno [EIO] (29), because 0 is translated like a host errno
    no name of the table has. *)
Theorem so_error_zero_is_EIO {U} `{!UnixSockets U} `{libc : LibcErrno} `{!LibcErrnoLaws}
    `{consts : LibcConsts} net fd k level vp lp e u m m' (s : SockSt U) :
  sockets (table s) !! fd = Some k -> is_guest_socket_level level = true ->
  read_spec (mem s) lp 4 = Ok (to_le_bytes 4 4) ->
  sys_getsockopt (raw_fd k) libc_SOL_SOCKET WASI_SO_ERROR [0; 0; 0; 0] (os s) =
    ((0, e, ([0; 0; 0; 0], 4)), u) ->
  write_spec (mem s) vp (to_le_bytes 4 EIO) = Ok m ->
  write_spec m lp (to_le_bytes 4 4) = Ok m' ->
  run (sock_import net (KGetsockopt fd level WASI_SO_ERROR vp lp)) s =
    (Done 0, Build_SockSt m' (table s) u).
Proof.
  intros Hfd Hl Hlen Hsys Hm Hm'. cbn [sock_import]. unfold import_getsockopt.
  rewrite (run_with_socket fd k) by done. erewrite run_mem_read_u32 by done.
  change (from_le_bytes (to_le_bytes 4 4)) with 4. change (replicate (Z.to_nat 4) 0) with [0; 0; 0; 0].
  unfold normalize_socket_level. rewrite Hl, run_bind, run_sys, Hsys. cbn [fst snd].
  assert (from_host_errno 0 = EIO) as H0.
  { rewrite from_host_errno_table. destruct (table_lookup 0 errno_table) as [g|] eqn:E; [|done].
    apply table_lookup_Some in E. pose proof host_errno_pos as Hp. rewrite Forall_forall in Hp.
    specialize (Hp _ E). simpl in Hp. lia. }
  assert (translate_so_error level WASI_SO_ERROR 4 [0; 0; 0; 0] = Some (to_le_bytes 4 EIO)) as Ht.
  { unfold translate_so_error. rewrite Hl.
    change (i32_from_le_bytes (take 4 [0; 0; 0; 0])) with 0. by rewrite H0. }
  change (0 <? 0) with false. cbv iota. rewrite Ht. cbn [or_panic].
  change (slice_to (to_le_bytes 4 EIO) 4) with (Some (to_le_bytes 4 EIO)). cbn [or_panic].
  rewrite run_bind. erewrite run_mem_write by exact Hm. cbn [or_return].
  rewrite run_bind. erewrite run_mem_write_u32 by exact Hm'. done.
Qed.

(** * The in-memory kernel *)

#[export] Instance mem_net_laws msg_trunc : UnixSocketsLaws MemNet msg_trunc.
Proof.
  assert (forall fd buf n rc e addr len,
    net_address fd buf n = ((rc, e), (addr, len)) -> 0 <= rc ->
    length addr = length buf /\ len <= ADDRESS_MAX) as Haddr.
  { intros fd buf n rc e addr len. unfold net_address. set (a := take 128 (peer n)).
    assert (length a <= 128)%nat by (unfold a; rewrite length_take; lia).
    case_decide; intros [= <- <- <- <-] Hrc; [|lia].
    rewrite length_app, length_take, length_drop. unfold ADDRESS_MAX. lia. }
  constructor.
  - intros fd buf u rc e addr len u'. cbn [sys_accept mem_net].
    destruct (net_address fd buf u) as [[rc0 e0] [a l]] eqn:E.
    destruct (Z.ltb_spec rc0 0).
    + intros [= <- <- <- <- <-] Hrc. lia.
    + destruct (net_open u). intros [= _ <- <- _] _. by eapply Haddr.
  - intros kind fd buf u rc e addr len u'. cbn [sys_name mem_net]. intros [= Hn <-]. by apply (Haddr fd buf u rc e).
  - intros fd l o buf u rc e v len u'. cbn [sys_getsockopt mem_net].
    case_decide; intros [= <- <- <- <- <-] Hrc; [|lia].
    split; [|lia]. rewrite length_app, length_replicate, length_drop.
    do 4 (destruct buf as [|? buf]; [done|]). simpl. lia.
  - intros fd buf flags u rc e buf' u'. cbn [sys_recv mem_net].
    case_decide; intros [= <- <- <- <-] Hrc _; [|lia].
    rewrite length_app, length_take, length_drop. simpl. lia.
  - intros fd buf flags a u rc e buf' addr len u'. cbn [sys_recvfrom mem_net].
    case_decide as Hfd; [|intros [= <- <- <- <- <- <-]; lia].
    destruct (net_address fd a u) as [[rc0 e0] [a' l]] eqn:E. cbn [snd].
    intros [= <- <- <- <- <- <-] Hrc _.
    assert (0 <= rc0) by (unfold net_address in E; rewrite decide_True in E by done; simplify_eq; lia).
    destruct (Haddr _ _ _ _ _ _ _ E); [done|]. simpl length in *.
    rewrite length_app, length_take, length_drop. simpl. lia.
Qed.

Section Demo.
Local Existing Instance linux_errno.
Local Existing Instance linux_consts.

(** Room for 128 bytes of address at 16, the length word at 8. *)
Definition demo_room : SockSt MemNet :=
  Build_SockSt (Some (ExtSharedMemory (replicate 8 0 ++ [128; 0; 0; 0] ++ replicate 148 0)))
    (table demo_open) (os demo_open).

Lemma demo_room_wf : sockets_wf (table demo_room).
Proof.
  constructor; [by compute|by compute|]. intros fd Hfd.
  change (is_Some (({[ 10000 := {| raw_fd := 3; guest_domain := 1; host_domain := 2 |} ]}
    : gmap Z HostSocket) !! fd)) in Hfd.
  apply lookup_singleton_is_Some in Hfd as <-. split; [by compute|left; by compute].
Defined.

Lemma sock_import_returns_witness :
  (run (sock_import true (KAccept 10000 16 8)) demo_room).1 = Done 10001 /\
  exists rc s', run (sock_import true (KAccept 10000 16 8)) demo_room = (Done rc, s') /\
    sockets_wf (table s') /\ sock_result rc.
Proof.
  split; [vm_compute; reflexivity|].
  apply (sock_import_returns 32 true (KAccept 10000 16 8) demo_room demo_room_wf).
  intros bytes Hb. vm_compute in Hb. injection Hb as <-. by vm_compute.
Defined.

Lemma so_error_zero_is_EIO_witness :
  exists m, run (sock_import true (KGetsockopt 10000 WASI_SOL_SOCKET WASI_SO_ERROR 0 4))
    (Build_SockSt (Some (ExtMemory [0; 0; 0; 0; 4; 0; 0; 0])) (table demo_open) (os demo_open)) =
    (Done 0, Build_SockSt m (table demo_open) (os demo_open)) /\
    m = Some (ExtMemory [29; 0; 0; 0; 4; 0; 0; 0]).
Proof.
  eexists. split.
  - eapply (so_error_zero_is_EIO true 10000 {| raw_fd := 3; guest_domain := 1; host_domain := 2 |}
      WASI_SOL_SOCKET 0 4 0 (os demo_open) _ _ (Build_SockSt (Some (ExtMemory
        [0; 0; 0; 0; 4; 0; 0; 0])) (table demo_open) (os demo_open))); vm_compute; reflexivity.
  - reflexivity.
Defined.
End Demo.
