(* ===== verification/HostSocketsWindows.v ===== *)
(** The imports [waasmtime_mysql_sockets] on Windows
    (src/host_sockets_windows.rs) and the [cfg(windows)] half of the table they
    use (src/host_sockets.rs).

    WinSock is a parameter, [WinSock]: a state and one function per call of the
    code.  The constants of [windows_sys] are [WinSockConsts].  The error of a
    failed call is [WSAGetLastError], which belongs to the thread: it is the
    first component of the state an import works on. *)

From S2P Require Import Prelude.
From S2P Require Import Prog.
From S2P Require Import GuestErrno.
From S2P Require Import GuestMemory.
From S2P Require Import FdTable.
From S2P Require Import HostSockets.
Local Open Scope rust_scope.
Local Open Scope prog_scope.

(** * The host *)

(** A call gives its value and the error code it leaves for [WSAGetLastError],
    if it sets one.  [ws_startup] returns its error.  A buffer the call fills
    comes back with the value, a length it updates too. *)
Class WinSock (W : Type) := {
  ws_startup : W -> Z * W;
  ws_socket : Z -> Z -> Z -> W -> (Z * option Z) * W;
  ws_closesocket : Z -> W -> (Z * option Z) * W;
  ws_ioctlsocket : Z -> Z -> Z -> W -> (Z * option Z) * W;
  ws_bind : Z -> list Z -> W -> (Z * option Z) * W;
  ws_listen : Z -> Z -> W -> (Z * option Z) * W;
  ws_accept : Z -> list Z -> Z -> W -> (Z * (list Z * Z) * option Z) * W;
  ws_connect : Z -> list Z -> W -> (Z * option Z) * W;
  ws_name : NameKind -> Z -> list Z -> Z -> W -> (Z * (list Z * Z) * option Z) * W;
  ws_setsockopt : Z -> Z -> Z -> list Z -> W -> (Z * option Z) * W;
  ws_getsockopt : Z -> Z -> Z -> list Z -> Z -> W -> (Z * (list Z * Z) * option Z) * W;
  ws_send : Z -> list Z -> Z -> W -> (Z * option Z) * W;
  ws_recv : Z -> list Z -> Z -> W -> (Z * list Z * option Z) * W;
  ws_sendto : Z -> list Z -> Z -> list Z -> W -> (Z * option Z) * W;
  ws_recvfrom : Z -> list Z -> Z -> list Z -> Z -> W ->
    (Z * (list Z * (list Z * Z)) * option Z) * W;
  ws_shutdown : Z -> Z -> W -> (Z * option Z) * W;
  ws_poll : list pollfd -> Z -> W -> (Z * list pollfd * option Z) * W
}.

(** The constants of [windows_sys::Win32::Networking::WinSock]. *)
Class WinSockConsts := {
  ws_INVALID_SOCKET : Z; ws_SOCKET_ERROR : Z; ws_FIONBIO : Z;
  ws_SOCK_STREAM : Z; ws_SOCK_DGRAM : Z; ws_AF_INET : Z; ws_AF_INET6 : Z;
  ws_SOL_SOCKET : Z; ws_SO_REUSEADDR : Z; ws_SO_ERROR : Z; ws_SO_KEEPALIVE : Z;
  ws_SO_RCVTIMEO : Z; ws_SO_SNDTIMEO : Z; ws_IP_TOS : Z; ws_IPV6_V6ONLY : Z;
  ws_POLLIN : Z; ws_POLLPRI : Z; ws_POLLOUT : Z; ws_POLLERR : Z; ws_POLLHUP : Z;
  ws_POLLNVAL : Z;
  WSAEINTR : Z; WSAEBADF : Z; WSAEACCES : Z; WSAEFAULT : Z; WSAEINVAL : Z; WSAEMFILE : Z;
  WSAEWOULDBLOCK : Z; WSAEINPROGRESS : Z; WSAEALREADY : Z; WSAENOTSOCK : Z;
  WSAEDESTADDRREQ : Z; WSAEMSGSIZE : Z; WSAEPROTOTYPE : Z; WSAENOPROTOOPT : Z;
  WSAEPROTONOSUPPORT : Z; WSAESOCKTNOSUPPORT : Z; WSAEOPNOTSUPP : Z; WSAEPFNOSUPPORT : Z;
  WSAEAFNOSUPPORT : Z; WSAEADDRINUSE : Z; WSAEADDRNOTAVAIL : Z; WSAENETDOWN : Z;
  WSAENETUNREACH : Z; WSAENETRESET : Z; WSAECONNABORTED : Z; WSAECONNRESET : Z;
  WSAENOBUFS : Z; WSAEISCONN : Z; WSAENOTCONN : Z; WSAESHUTDOWN : Z; WSAETIMEDOUT : Z;
  WSAECONNREFUSED : Z; WSAEHOSTDOWN : Z; WSAEHOSTUNREACH : Z
}.

(** Their values in 64-bit Windows. *)
Definition windows_consts : WinSockConsts := {|
  ws_INVALID_SOCKET := u64_max; ws_SOCKET_ERROR := -1; ws_FIONBIO := -2147195266;
  ws_SOCK_STREAM := 1; ws_SOCK_DGRAM := 2; ws_AF_INET := 2; ws_AF_INET6 := 23;
  ws_SOL_SOCKET := 65535; ws_SO_REUSEADDR := 4; ws_SO_ERROR := 4103; ws_SO_KEEPALIVE := 8;
  ws_SO_RCVTIMEO := 4102; ws_SO_SNDTIMEO := 4101; ws_IP_TOS := 3; ws_IPV6_V6ONLY := 27;
  ws_POLLIN := 768; ws_POLLPRI := 1024; ws_POLLOUT := 16; ws_POLLERR := 1; ws_POLLHUP := 2;
  ws_POLLNVAL := 4;
  WSAEINTR := 10004; WSAEBADF := 10009; WSAEACCES := 10013; WSAEFAULT := 10014;
  WSAEINVAL := 10022; WSAEMFILE := 10024; WSAEWOULDBLOCK := 10035; WSAEINPROGRESS := 10036;
  WSAEALREADY := 10037; WSAENOTSOCK := 10038; WSAEDESTADDRREQ := 10039; WSAEMSGSIZE := 10040;
  WSAEPROTOTYPE := 10041; WSAENOPROTOOPT := 10042; WSAEPROTONOSUPPORT := 10043;
  WSAESOCKTNOSUPPORT := 10044; WSAEOPNOTSUPP := 10045; WSAEPFNOSUPPORT := 10046;
  WSAEAFNOSUPPORT := 10047; WSAEADDRINUSE := 10048; WSAEADDRNOTAVAIL := 10049;
  WSAENETDOWN := 10050; WSAENETUNREACH := 10051; WSAENETRESET := 10052;
  WSAECONNABORTED := 10053; WSAECONNRESET := 10054; WSAENOBUFS := 10055; WSAEISCONN := 10056;
  WSAENOTCONN := 10057; WSAESHUTDOWN := 10058; WSAETIMEDOUT := 10060; WSAECONNREFUSED := 10061;
  WSAEHOSTDOWN := 10064; WSAEHOSTUNREACH := 10065
|}.

(** * Data *)

Definition GUEST_AF_INET : Z := 2.
Definition GUEST_AF_INET6 : Z := 10.
Definition GUEST_F_GETFL : Z := 3.
Definition GUEST_F_SETFL : Z := 4.
Definition GUEST_O_NONBLOCK : Z := 4.
Definition GUEST_POLLIN : Z := 1.
Definition GUEST_POLLPRI : Z := 2.
Definition GUEST_POLLOUT : Z := 4.
Definition GUEST_POLLERR : Z := 8.
Definition GUEST_POLLHUP : Z := 16.
Definition GUEST_POLLNVAL : Z := 32.
Definition GUEST_SO_REUSEADDR : Z := 2.
Definition GUEST_SO_ERROR : Z := 4.
Definition GUEST_SO_KEEPALIVE : Z := 9.
Definition GUEST_SO_RCVTIMEO : Z := 20.
Definition GUEST_SO_SNDTIMEO : Z := 21.
Definition GUEST_IP_TOS : Z := 1.
Definition GUEST_IPV6_V6ONLY : Z := 26.

Record WinHostSocket := {
  raw_socket : Z; guest_domain : Z; host_domain : Z; status_flags : Z
}.
Record WinHostSocketsInner := { next_fd : Z; sockets : gmap Z WinHostSocket }.
Record WinSocketType := { ty : Z; nonblocking : bool }.

(** [HostSockets::new] and the critical sections that change the table
    ([cfg(windows)]). *)
Definition win_new : WinHostSocketsInner := {| next_fd := GUEST_FD_BASE; sockets := ∅ |}.

Definition win_insert (socket : WinHostSocket) (t : WinHostSocketsInner)
  : Z * WinHostSocketsInner :=
  (next_fd t,
   {| next_fd := i32_saturating_add (next_fd t) 1;
      sockets := <[next_fd t := socket]> (sockets t) |}).

Definition win_remove (guest_fd : Z) (t : WinHostSocketsInner)
  : option WinHostSocket * WinHostSocketsInner :=
  (sockets t !! guest_fd, {| next_fd := next_fd t; sockets := delete guest_fd (sockets t) |}).

Definition set_status_flags (guest_fd flags : Z) (t : WinHostSocketsInner)
  : result unit * WinHostSocketsInner :=
  match sockets t !! guest_fd with
  | None => (Err EBADF, t)
  | Some k =>
      (Ok tt,
       {| next_fd := next_fd t;
          sockets := <[guest_fd := {| raw_socket := raw_socket k;
                                      guest_domain := guest_domain k;
                                      host_domain := host_domain k;
                                      status_flags := flags |}]> (sockets t) |})
  end.

(** What the threads share: the memory, the table, the [OnceLock] with the
    result of [WSAStartup], and WinSock. *)
Record WinSt (W : Type) := {
  mem : GuestMem; table : WinHostSocketsInner; WINSOCK : option (result unit); os : W
}.
Arguments mem {W} _.
Arguments table {W} _.
Arguments WINSOCK {W} _.
Arguments os {W} _.
Arguments Build_WinSt {W} _ _ _ _.

Definition with_table {W} (t : WinHostSocketsInner) (s : WinSt W) : WinSt W :=
  Build_WinSt (mem s) t (WINSOCK s) (os s).
Definition with_os {W} (w : W) (s : WinSt W) : WinSt W :=
  Build_WinSt (mem s) (table s) (WINSOCK s) w.

(** The state of a call: the thread's last error and what is shared. *)
Definition mem_lens {W} : lens (Z * WinSt W) GuestMem :=
  Lens (fun ls => mem ls.2)
    (fun m ls => (ls.1, Build_WinSt m (table ls.2) (WINSOCK ls.2) (os ls.2))).

(** [x as usize] of an [i32]. *)
Definition as_usize (x : Z) : Z := as_u64 x.
(** [x as u32] of an [i32]. *)
Definition as_u32 (x : Z) : Z := wrap_unsigned 32 x.

(** * Helpers *)

Section Helpers.
Context `{consts : WinSockConsts}.

(** [normalize_socket_type]. *)
Definition win_normalize_socket_type (t : Z) : result WinSocketType :=
  let flag_mask :=
    Z.lor (Z.lor (Z.lor 2048 524288) WASI_ALT_SOCK_CLOEXEC) WASI_ALT_SOCK_NONBLOCK in
  let base := Z.land t (Z.lnot flag_mask) in
  let flags := Z.land t flag_mask in
  ty <-? (if (base =? ws_SOCK_STREAM) || (base =? WASI_ALT_SOCK_STREAM) then Ok ws_SOCK_STREAM
          else if (base =? ws_SOCK_DGRAM) || (base =? WASI_ALT_SOCK_DGRAM) then Ok ws_SOCK_DGRAM
          else Err ENOTSUP);;
  Ok {| ty := ty;
        nonblocking := negb (Z.land flags (Z.lor 2048 WASI_ALT_SOCK_NONBLOCK) =? 0) |}.

(** [normalize_socket_domain]. *)
Definition win_normalize_socket_domain (domain : Z) : Z :=
  if (domain =? WASI_ALT_AF_INET) || (domain =? GUEST_AF_INET) then ws_AF_INET
  else if (domain =? GUEST_AF_INET6) || (domain =? 23) then ws_AF_INET6
  else domain.

(** [normalize_socket_option]: the level and the name of an option. *)
Definition normalize_socket_option (level optname : Z) : Z * Z :=
  if is_guest_socket_level level then
    (ws_SOL_SOCKET,
     if optname =? GUEST_SO_REUSEADDR then ws_SO_REUSEADDR
     else if optname =? GUEST_SO_ERROR then ws_SO_ERROR
     else if optname =? GUEST_SO_KEEPALIVE then ws_SO_KEEPALIVE
     else if optname =? GUEST_SO_RCVTIMEO then ws_SO_RCVTIMEO
     else if optname =? GUEST_SO_SNDTIMEO then ws_SO_SNDTIMEO
     else optname)
  else if level =? 0 then (0, if optname =? GUEST_IP_TOS then ws_IP_TOS else optname)
  else if level =? 41 then (41, if optname =? GUEST_IPV6_V6ONLY then ws_IPV6_V6ONLY else optname)
  else (level, optname).

Definition is_guest_timeout (level optname : Z) : bool :=
  is_guest_socket_level level
  && ((optname =? GUEST_SO_RCVTIMEO) || (optname =? GUEST_SO_SNDTIMEO)).

(** The milliseconds of a guest's [timeval], saturating in [i64] and clamped to
  [u32]. *)
Definition timeout_millis (seconds micros : Z) : Z :=
  saturate 0 u32_max
    (i64_saturate (i64_saturate (seconds * 1000) + i64_saturate (micros + 999) / 1000)).

(** [guest_timeout_to_windows] and [windows_timeout_to_guest]. *)
Definition guest_timeout_to_windows (guest : list Z) : list Z :=
  if decide (length guest < 16)%nat then guest
  else
    let seconds := i64_from_le_bytes (take 8 guest) in
    let micros := i64_from_le_bytes (take 8 (drop 8 guest)) in
    to_le_bytes 4 (timeout_millis seconds micros).

Definition windows_timeout_to_guest (windows : list Z) (requested_len : Z) : list Z :=
  if decide (requested_len < 16 \/ (length windows < 4)%nat) then windows
  else
    let millis := from_le_bytes (take 4 windows) in
    to_le_bytes 8 (Z.quot millis 1000) ++ to_le_bytes 8 (Z.rem millis 1000 * 1000).

Definition normalize_message_flags (flags : Z) : Z := Z.land flags 2.

(** [if events & from != 0 { normalized |= to }]. *)
Definition poll_bit (events from to : Z) (normalized : Z) : Z :=
  if negb (Z.land events from =? 0) then Z.lor normalized to else normalized.

Definition guest_poll_events_to_windows (events : Z) : Z :=
  poll_bit events GUEST_POLLOUT ws_POLLOUT
    (poll_bit events GUEST_POLLPRI ws_POLLPRI
      (poll_bit events GUEST_POLLIN ws_POLLIN 0)).

Definition windows_poll_events_to_guest (events : Z) : Z :=
  poll_bit events ws_POLLNVAL GUEST_POLLNVAL
    (poll_bit events ws_POLLHUP GUEST_POLLHUP
      (poll_bit events ws_POLLERR GUEST_POLLERR
        (poll_bit events ws_POLLOUT GUEST_POLLOUT
          (poll_bit events ws_POLLPRI GUEST_POLLPRI
            (poll_bit events ws_POLLIN GUEST_POLLIN 0))))).

(** [checked_sockaddr_len]. *)
Definition checked_sockaddr_len (value : Z) : result Z :=
  value <-? ok_or (i32_try_from value) EINVAL;; checked_len value.

(** [socket_errno]. *)
Definition socket_errno (code : Z) : Z :=
  if code =? 0 then 0
  else if code =? WSAEINTR then EINTR
  else if code =? WSAEBADF then EBADF
  else if code =? WSAEACCES then EACCES
  else if code =? WSAEFAULT then EFAULT
  else if code =? WSAEINVAL then EINVAL
  else if code =? WSAEMFILE then EMFILE
  else if code =? WSAEWOULDBLOCK then EAGAIN
  else if code =? WSAEINPROGRESS then EINPROGRESS
  else if code =? WSAEALREADY then EALREADY
  else if code =? WSAENOTSOCK then ENOTSOCK
  else if code =? WSAEDESTADDRREQ then EDESTADDRREQ
  else if code =? WSAEMSGSIZE then EMSGSIZE
  else if code =? WSAEPROTOTYPE then EPROTOTYPE
  else if code =? WSAENOPROTOOPT then ENOPROTOOPT
  else if code =? WSAEPROTONOSUPPORT then EPROTONOSUPPORT
  else if code =? WSAESOCKTNOSUPPORT then ENOTSUP
  else if code =? WSAEOPNOTSUPP then ENOTSUP
  else if code =? WSAEPFNOSUPPORT then EAFNOSUPPORT
  else if code =? WSAEAFNOSUPPORT then EAFNOSUPPORT
  else if code =? WSAEADDRINUSE then EADDRINUSE
  else if code =? WSAEADDRNOTAVAIL then EADDRNOTAVAIL
  else if code =? WSAENETDOWN then ENETDOWN
  else if code =? WSAENETUNREACH then ENETUNREACH
  else if code =? WSAENETRESET then ENETRESET
  else if code =? WSAECONNABORTED then ECONNABORTED
  else if code =? WSAECONNRESET then ECONNRESET
  else if code =? WSAENOBUFS then ENOBUFS
  else if code =? WSAEISCONN then EISCONN
  else if code =? WSAENOTCONN then ENOTCONN
  else if code =? WSAESHUTDOWN then ENOTCONN
  else if code =? WSAETIMEDOUT then ETIMEDOUT
  else if code =? WSAECONNREFUSED then ECONNREFUSED
  else if code =? WSAEHOSTDOWN then EHOSTUNREACH
  else if code =? WSAEHOSTUNREACH then EHOSTUNREACH
  else EIO.

(** The translation of [SO_ERROR]: an answer of four bytes. *)
Definition win_translate_so_error (level optname : Z) (result : list Z) : list Z :=
  if is_guest_socket_level level && (optname =? GUEST_SO_ERROR)
     && bool_decide (length result = 4%nat)
  then to_le_bytes 4 (socket_errno (i32_from_le_bytes result))
  else result.
End Helpers.

(** * The imports ([add_to_linker]) *)

Section Imports.
Context {W : Type} `{!WinSock W} `{consts : WinSockConsts}.
(** [AppState::network_allowed]. *)
Context (network_allowed : bool).
#[local] Abbreviation call := (prog (Z * WinSt W)).

(** One WinSock call: it may set the thread's last error. *)
Definition ws {A} (f : W -> (A * option Z) * W) : call A :=
  atomically (fun ls =>
    let '((a, error), w) := f (os ls.2) in (a, (default ls.1 error, with_os w ls.2))).

(** [neg_last_socket_errno]. *)
Definition neg_last_socket_errno : call Z := read (fun ls => neg_errno (socket_errno ls.1)).

(** [cvt_socket_i32]. *)
Definition cvt_socket_i32 (rc : Z) : call Z :=
  if rc =? ws_SOCKET_ERROR then neg_last_socket_errno else Ret rc.

(** [ensure_winsock]: [OnceLock::get_or_init]. *)
Definition ensure_winsock : call (result unit) :=
  atomically (fun ls =>
    let s := ls.2 in
    match WINSOCK s with
    | Some r => (r, ls)
    | None =>
        let '(rc, w) := ws_startup (os s) in
        let r := if rc =? 0 then Ok tt else Err (socket_errno rc) in
        (r, (ls.1, Build_WinSt (mem s) (table s) (Some r) w))
    end).

(** The operations of [HostSockets], and the accesses to guest memory. *)
Definition win_get (guest_fd : Z) : call (result WinHostSocket) :=
  read (fun ls => ok_or (sockets (table ls.2) !! guest_fd) EBADF).
Definition win_insert_socket (socket : WinHostSocket) : call Z :=
  atomically (fun ls =>
    let '(fd, t) := win_insert socket (table ls.2) in (fd, (ls.1, with_table t ls.2))).
Definition win_remove_socket (guest_fd : Z) : call (result WinHostSocket) :=
  atomically (fun ls =>
    let '(socket, t) := win_remove guest_fd (table ls.2) in
    (ok_or socket EBADF, (ls.1, with_table t ls.2))).
Definition set_socket_flags (guest_fd flags : Z) : call (result unit) :=
  atomically (fun ls =>
    let '(r, t) := set_status_flags guest_fd flags (table ls.2) in
    (r, (ls.1, with_table t ls.2))).

Definition win_with_socket (fd : Z) (k : WinHostSocket -> call Z) : call Z :=
  socket <- win_get fd;; or_return neg_errno socket k.
Definition win_mem_read (ptr len : Z) (k : list Z -> call Z) : call Z :=
  bytes <- zoom mem_lens (read_guest ptr len);; or_return neg_errno bytes k.
(** [read_u32(ptr).and_then(checked_sockaddr_len)]. *)
Definition win_mem_read_len (ptr : Z) (k : Z -> call Z) : call Z :=
  v <- zoom mem_lens (read_u32 ptr);;
  or_return neg_errno (v <-? v;; checked_sockaddr_len v) k.
Definition win_mem_write (ptr : Z) (bytes : list Z) : call (result unit) :=
  zoom mem_lens (write_guest ptr bytes).
(** [write_guest_u32]. *)
Definition write_guest_u32 (ptr value : Z) : call (result unit) :=
  win_mem_write ptr (to_le_bytes 4 value).

Definition close_socket (raw_socket : Z) : call unit := ws (ws_closesocket raw_socket);; Ret tt.

(** [len < 0 || len as usize > buf.len()]. *)
Definition bad_length (len : Z) (buf : list Z) : bool :=
  (len <? 0) || (Z.of_nat (length buf) <? as_usize len).

Definition win_import_socket (domain type protocol : Z) : call Z :=
  if negb network_allowed then Ret (neg_errno ENETDOWN)
  else
    started <- ensure_winsock;;
    or_return neg_errno started (fun _ =>
      or_return neg_errno (win_normalize_socket_type type) (fun socket_type =>
        let host_domain := win_normalize_socket_domain domain in
        raw_socket <- ws (ws_socket host_domain (ty socket_type) protocol);;
        if raw_socket =? ws_INVALID_SOCKET then neg_last_socket_errno
        else
          let insert flags :=
            win_insert_socket {| raw_socket := raw_socket; guest_domain := domain;
                                 host_domain := host_domain; status_flags := flags |} in
          if nonblocking socket_type then
            rc <- ws (ws_ioctlsocket raw_socket ws_FIONBIO 1);;
            if rc =? ws_SOCKET_ERROR then close_socket raw_socket;; neg_last_socket_errno
            else insert GUEST_O_NONBLOCK
          else insert 0)).

Definition win_import_bind (fd addr_ptr addr_len : Z) : call Z :=
  win_with_socket fd (fun socket =>
    win_mem_read addr_ptr addr_len (fun addr =>
      let addr := normalize_sockaddr_for_host addr (host_domain socket) in
      rc <- ws (ws_bind (raw_socket socket) addr);;
      cvt_socket_i32 rc)).

Definition win_import_listen (fd backlog : Z) : call Z :=
  win_with_socket fd (fun socket =>
    rc <- ws (ws_listen (raw_socket socket) backlog);;
    cvt_socket_i32 rc).

Definition win_import_accept (fd addr_ptr addr_len_ptr : Z) : call Z :=
  win_with_socket fd (fun socket =>
    win_mem_read_len addr_len_ptr (fun requested_len =>
      r <- ws (ws_accept (raw_socket socket) (replicate (Z.to_nat requested_len) 0)
                 requested_len);;
      let '(accepted, (addr, addr_len)) := (r : Z * (list Z * Z)) in
      if accepted =? ws_INVALID_SOCKET then neg_last_socket_errno
      else if bad_length addr_len addr then close_socket accepted;; Ret (neg_errno EIO)
      else
        let addr := denormalize_sockaddr_for_guest addr (guest_domain socket) in
        or_panic (slice_to addr (as_usize addr_len)) (fun addr =>
          w <- win_mem_write addr_ptr addr;;
          or_cleanup w (close_socket accepted) (fun _ =>
            w <- write_guest_u32 addr_len_ptr (as_u32 addr_len);;
            or_cleanup w (close_socket accepted) (fun _ =>
              win_insert_socket {| raw_socket := accepted; guest_domain := guest_domain socket;
                                   host_domain := host_domain socket;
                                   status_flags := status_flags socket |}))))).

Definition win_import_connect (fd addr_ptr addr_len : Z) : call Z :=
  win_with_socket fd (fun socket =>
    win_mem_read addr_ptr addr_len (fun addr =>
      let addr := normalize_sockaddr_for_host addr (host_domain socket) in
      rc <- ws (ws_connect (raw_socket socket) addr);;
      cvt_socket_i32 rc)).

(** [socket_name]. *)
Definition socket_name (fd addr_ptr addr_len_ptr : Z) (kind : NameKind) : call Z :=
  win_with_socket fd (fun socket =>
    win_mem_read_len addr_len_ptr (fun requested_len =>
      r <- ws (ws_name kind (raw_socket socket) (replicate (Z.to_nat requested_len) 0)
                 requested_len);;
      let '(rc, (addr, addr_len)) := (r : Z * (list Z * Z)) in
      if rc =? ws_SOCKET_ERROR then neg_last_socket_errno
      else if bad_length addr_len addr then Ret (neg_errno EIO)
      else
        let addr := denormalize_sockaddr_for_guest addr (guest_domain socket) in
        or_panic (slice_to addr (as_usize addr_len)) (fun addr =>
          w <- win_mem_write addr_ptr addr;;
          or_return neg_errno w (fun _ =>
            w <- write_guest_u32 addr_len_ptr (as_u32 addr_len);;
            or_return neg_errno w (fun _ => Ret 0))))).

Definition win_import_setsockopt (fd level optname optval_ptr optlen : Z) : call Z :=
  win_with_socket fd (fun socket =>
    win_mem_read optval_ptr optlen (fun optval =>
      let '(host_level, host_optname) := normalize_socket_option level optname in
      let optval := if is_guest_timeout level optname then guest_timeout_to_windows optval
                    else optval in
      rc <- ws (ws_setsockopt (raw_socket socket) host_level host_optname optval);;
      cvt_socket_i32 rc)).

Definition win_import_getsockopt (fd level optname optval_ptr optlen_ptr : Z) : call Z :=
  win_with_socket fd (fun socket =>
    win_mem_read_len optlen_ptr (fun requested_len =>
      let '(host_level, host_optname) := normalize_socket_option level optname in
      let timeout := is_guest_timeout level optname in
      let len := if timeout then 4 else requested_len in
      r <- ws (ws_getsockopt (raw_socket socket) host_level host_optname
                 (replicate (Z.to_nat len) 0) len);;
      let '(rc, (optval, optlen)) := (r : Z * (list Z * Z)) in
      if rc =? ws_SOCKET_ERROR then neg_last_socket_errno
      else if bad_length optlen optval then Ret (neg_errno EIO)
      else
        or_panic (slice_to optval (as_usize optlen)) (fun result =>
          let result := if timeout then windows_timeout_to_guest result requested_len
                        else win_translate_so_error level optname result in
          let result := take (Z.to_nat requested_len) result in
          w <- win_mem_write optval_ptr result;;
          or_return neg_errno w (fun _ =>
            w <- write_guest_u32 optlen_ptr (Z.of_nat (length result));;
            or_return neg_errno w (fun _ => Ret 0))))).

Definition win_import_send (fd buf_ptr len flags : Z) : call Z :=
  win_with_socket fd (fun socket =>
    win_mem_read buf_ptr len (fun buf =>
      rc <- ws (ws_send (raw_socket socket) buf (normalize_message_flags flags));;
      cvt_socket_i32 rc)).

Definition win_import_recv (fd buf_ptr len flags : Z) : call Z :=
  win_with_socket fd (fun socket =>
    or_return neg_errno (checked_len len) (fun len =>
      r <- ws (ws_recv (raw_socket socket) (replicate (Z.to_nat len) 0)
                 (normalize_message_flags flags));;
      let '(rc, buf) := (r : Z * list Z) in
      if rc =? ws_SOCKET_ERROR then neg_last_socket_errno
      else
        or_panic (slice_to buf (as_usize rc)) (fun buf =>
          w <- win_mem_write buf_ptr buf;;
          or_return neg_errno w (fun _ => Ret rc)))).

Definition win_import_sendto (fd buf_ptr len flags addr_ptr addr_len : Z) : call Z :=
  win_with_socket fd (fun socket =>
    win_mem_read buf_ptr len (fun buf =>
      win_mem_read addr_ptr addr_len (fun addr =>
        let addr := normalize_sockaddr_for_host addr (host_domain socket) in
        rc <- ws (ws_sendto (raw_socket socket) buf (normalize_message_flags flags) addr);;
        cvt_socket_i32 rc))).

Definition win_import_recvfrom (fd buf_ptr len flags addr_ptr addr_len_ptr : Z) : call Z :=
  win_with_socket fd (fun socket =>
    or_return neg_errno (checked_len len) (fun len =>
      win_mem_read_len addr_len_ptr (fun requested_addr_len =>
        r <- ws (ws_recvfrom (raw_socket socket) (replicate (Z.to_nat len) 0)
                   (normalize_message_flags flags)
                   (replicate (Z.to_nat requested_addr_len) 0) requested_addr_len);;
        let '(rc, (buf, (addr, addr_len))) := (r : Z * (list Z * (list Z * Z))) in
        if rc =? ws_SOCKET_ERROR then neg_last_socket_errno
        else if bad_length addr_len addr then Ret (neg_errno EIO)
        else
          or_panic (slice_to buf (as_usize rc)) (fun buf =>
            w <- win_mem_write buf_ptr buf;;
            or_return neg_errno w (fun _ =>
              let addr := denormalize_sockaddr_for_guest addr (guest_domain socket) in
              or_panic (slice_to addr (as_usize addr_len)) (fun addr =>
                w <- win_mem_write addr_ptr addr;;
                or_return neg_errno w (fun _ =>
                  w <- write_guest_u32 addr_len_ptr (as_u32 addr_len);;
                  or_return neg_errno w (fun _ => Ret rc)))))))).

Definition win_import_shutdown (fd how : Z) : call Z :=
  win_with_socket fd (fun socket =>
    rc <- ws (ws_shutdown (raw_socket socket) how);;
    cvt_socket_i32 rc).

Definition win_import_close (fd : Z) : call Z :=
  socket <- win_remove_socket fd;;
  or_return neg_errno socket (fun socket =>
    rc <- ws (ws_closesocket (raw_socket socket));;
    cvt_socket_i32 rc).

Definition win_import_fcntl (fd cmd arg : Z) : call Z :=
  win_with_socket fd (fun socket =>
    if cmd =? GUEST_F_GETFL then Ret (status_flags socket)
    else if cmd =? GUEST_F_SETFL then
      let flags := Z.land arg GUEST_O_NONBLOCK in
      rc <- ws (ws_ioctlsocket (raw_socket socket) ws_FIONBIO (if flags =? 0 then 0 else 1));;
      if rc =? ws_SOCKET_ERROR then neg_last_socket_errno
      else
        r <- set_socket_flags fd flags;;
        or_return neg_errno r (fun _ => Ret 0)
    else Ret (neg_errno EINVAL)).

(** The loop over [bytes.chunks_exact(8)]: the entry for [WSAPoll] and whether
  its events are ignored. *)
Fixpoint win_poll_fds (chunks : list (list Z)) : call (result (list (pollfd * bool))) :=
  match chunks with
  | [] => Ret (Ok [])
  | chunk :: chunks =>
      let guest_fd := i32_from_le_bytes (take 4 chunk) in
      let events := i16_from_le_bytes (take 2 (drop 4 chunk)) in
      entry <-
        (if guest_fd <? 0 then
           Ret (Ok ({| pfd_fd := ws_INVALID_SOCKET; pfd_events := 0; pfd_revents := 0 |}, true))
         else
           socket <- win_get guest_fd;;
           Ret (socket <-? socket;;
                Ok ({| pfd_fd := raw_socket socket;
                       pfd_events := guest_poll_events_to_windows events;
                       pfd_revents := 0 |}, false)));;
      match (entry : result (pollfd * bool)) with
      | Err e => Ret (Err e)
      | Ok entry => rest <- win_poll_fds chunks;; Ret (rest <-? rest;; Ok (entry :: rest))
      end
  end.

(** The loop that writes [revents] back; [ignored[index]] out of range is a
  panic. *)
Fixpoint win_write_revents (fds_ptr index : Z) (fds : list pollfd) (ignored : list bool)
  : call (result unit) :=
  match fds with
  | [] => Ret (Ok tt)
  | pfd :: fds =>
      match ignored with
      | [] => Panic
      | ignore :: ignored =>
          let revents := if ignore : bool then 0
                         else windows_poll_events_to_guest (pfd_revents pfd) in
          w <- win_mem_write (as_i32 (fds_ptr + index * 8 + 6)) (to_le_bytes 2 revents);;
          match w with
          | Err e => Ret (Err e)
          | Ok _ => win_write_revents fds_ptr (index + 1) fds ignored
          end
      end
  end.

Definition win_import_poll (fds_ptr nfds timeout : Z) : call Z :=
  or_return neg_errno (checked_poll_count nfds) (fun nfds =>
    win_mem_read fds_ptr (as_i32 (nfds * 8)) (fun bytes =>
      entries <- win_poll_fds (chunks_exact 8 bytes);;
      or_return neg_errno entries (fun entries =>
        r <- ws (ws_poll entries.*1 timeout);;
        let '(rc, host_fds) := (r : Z * list pollfd) in
        if rc =? ws_SOCKET_ERROR then neg_last_socket_errno
        else
          w <- win_write_revents fds_ptr 0 host_fds entries.*2;;
          or_return neg_errno w (fun _ => Ret rc)))).

(** The seventeen functions the guest can call, the same as on Unix. *)
Definition win_sock_import (c : SockCall) : call Z :=
  match c with
  | KSocket domain type protocol => win_import_socket domain type protocol
  | KBind fd addr_ptr addr_len => win_import_bind fd addr_ptr addr_len
  | KListen fd backlog => win_import_listen fd backlog
  | KAccept fd addr_ptr addr_len_ptr => win_import_accept fd addr_ptr addr_len_ptr
  | KConnect fd addr_ptr addr_len => win_import_connect fd addr_ptr addr_len
  | KGetsockname fd addr_ptr addr_len_ptr => socket_name fd addr_ptr addr_len_ptr Local
  | KGetpeername fd addr_ptr addr_len_ptr => socket_name fd addr_ptr addr_len_ptr Peer
  | KSetsockopt fd level optname optval_ptr optlen =>
      win_import_setsockopt fd level optname optval_ptr optlen
  | KGetsockopt fd level optname optval_ptr optlen_ptr =>
      win_import_getsockopt fd level optname optval_ptr optlen_ptr
  | KSend fd buf_ptr len flags => win_import_send fd buf_ptr len flags
  | KRecv fd buf_ptr len flags => win_import_recv fd buf_ptr len flags
  | KSendto fd buf_ptr len flags addr_ptr addr_len =>
      win_import_sendto fd buf_ptr len flags addr_ptr addr_len
  | KRecvfrom fd buf_ptr len flags addr_ptr addr_len_ptr =>
      win_import_recvfrom fd buf_ptr len flags addr_ptr addr_len_ptr
  | KShutdown fd how => win_import_shutdown fd how
  | KClose fd => win_import_close fd
  | KFcntl fd cmd arg => win_import_fcntl fd cmd arg
  | KPoll fds_ptr nfds timeout => win_import_poll fds_ptr nfds timeout
  end.

(** [HostSocketsInner::drop] (windows). *)
Definition win_drop_sockets (s : WinSt W) : WinSt W :=
  let raw_sockets := (fun p => raw_socket p.2) <$> map_to_list (sockets (table s)) in
  Build_WinSt (mem s) {| next_fd := next_fd (table s); sockets := ∅ |} (WINSOCK s)
    (fold_left (fun w k => (ws_closesocket k w).2) raw_sockets (os s)).
End Imports.
