(* ===== verification/MemWinSock.v ===== *)
(** A small in-memory WinSock: the sockets open, what was sent, and whether the
    library was started.  It gives the WinSock parameter of the development a
    concrete value, on which the theorems' hypotheses can be checked and the
    Windows imports run. *)

From S2P Require Import Prelude.
From S2P Require Import HostSockets.
From S2P Require Import HostSocketsWindows.

Record MemWinSock := {
  started : bool;
  (** The next socket handle: WinSock handles are multiples of 4. *)
  next_socket : Z;
  open_sockets : gset Z;
  (** Sockets set to non-blocking mode. *)
  nonblocking_sockets : gset Z;
  sent : list (Z * list Z);
  peer : list Z
}.

Definition E_NOTSOCK : Z := 10038.
Definition E_NOTINITIALISED : Z := 10093.

Definition failed (error : Z) (w : MemWinSock) : (Z * option Z) * MemWinSock :=
  ((-1, Some error), w).

Definition win_open (w : MemWinSock) : Z * MemWinSock :=
  let k := next_socket w in
  (k, Build_MemWinSock (started w) (k + 4) ({[k]} ∪ open_sockets w) (nonblocking_sockets w)
        (sent w) (peer w)).

Definition if_socket (k : Z) (r : (Z * option Z) * MemWinSock) (w : MemWinSock)
  : (Z * option Z) * MemWinSock :=
  if decide (k ∈ open_sockets w) then r else failed E_NOTSOCK w.

(** WinSock copies an address that fits the buffer, and fails otherwise. *)
Definition win_address (k : Z) (buf : list Z) (len : Z) (w : MemWinSock)
  : Z * (list Z * Z) * option Z :=
  if decide (k ∈ open_sockets w /\ (length (peer w) <= length buf)%nat)
  then (0, (peer w ++ drop (length (peer w)) buf, Z.of_nat (length (peer w))), None)
  else (-1, (buf, len), Some 10014).

Definition win_send (k : Z) (bytes : list Z) (w : MemWinSock) : (Z * option Z) * MemWinSock :=
  if_socket k
    ((Z.of_nat (length bytes), None),
     Build_MemWinSock (started w) (next_socket w) (open_sockets w) (nonblocking_sockets w)
       (sent w ++ [(k, bytes)]) (peer w)) w.

Definition win_inbox : list Z := [104; 105].
Definition fill (data buf : list Z) : list Z := take (length buf) data ++ drop (length data) buf.

#[export] Instance mem_winsock : WinSock MemWinSock := {|
  ws_startup w :=
    (0, Build_MemWinSock true (next_socket w) (open_sockets w) (nonblocking_sockets w) (sent w)
          (peer w));
  ws_socket _ _ _ w :=
    if started w then let '(k, w) := win_open w in ((k, None), w)
    else ((u64_max, Some E_NOTINITIALISED), w);
  ws_closesocket k w :=
    if_socket k
      ((0, None), Build_MemWinSock (started w) (next_socket w) (open_sockets w ∖ {[k]})
         (nonblocking_sockets w ∖ {[k]}) (sent w) (peer w)) w;
  ws_ioctlsocket k _ enabled w :=
    if_socket k
      ((0, None), Build_MemWinSock (started w) (next_socket w) (open_sockets w)
         (if enabled =? 0 then nonblocking_sockets w ∖ {[k]}
          else {[k]} ∪ nonblocking_sockets w) (sent w) (peer w)) w;
  ws_bind k _ w := if_socket k ((0, None), w) w;
  ws_listen k _ w := if_socket k ((0, None), w) w;
  ws_accept k buf len w :=
    let '(rc, a, e) := win_address k buf len w in
    if rc <? 0 then ((u64_max, a, e), w)
    else let '(accepted, w) := win_open w in ((accepted, a, None), w);
  ws_connect k _ w := if_socket k ((0, None), w) w;
  ws_name _ k buf len w := (win_address k buf len w, w);
  ws_setsockopt k _ _ _ w := if_socket k ((0, None), w) w;
  ws_getsockopt k _ _ buf len w :=
    if decide (k ∈ open_sockets w /\ (4 <= length buf)%nat)
    then ((0, (fill [0; 0; 0; 0] buf, 4), None), w)
    else ((-1, (buf, len), Some E_NOTSOCK), w);
  ws_send k bytes _ w := win_send k bytes w;
  ws_recv k buf _ w :=
    if decide (k ∈ open_sockets w)
    then ((Z.of_nat (min (length buf) (length win_inbox)), fill win_inbox buf, None), w)
    else ((-1, buf, Some E_NOTSOCK), w);
  ws_sendto k bytes _ _ w := win_send k bytes w;
  ws_recvfrom k buf _ addr len w :=
    let '(rc, a, e) := win_address k addr len w in
    if rc <? 0 then ((-1, (buf, a), e), w)
    else ((Z.of_nat (min (length buf) (length win_inbox)), (fill win_inbox buf, a), None), w);
  ws_shutdown k _ w := if_socket k ((0, None), w) w;
  ws_poll fds _ w :=
    ((Z.of_nat (length (filter (fun p => pfd_fd p ∈ open_sockets w) fds)),
      (fun p => {| pfd_fd := pfd_fd p; pfd_events := pfd_events p;
                   pfd_revents := if decide (pfd_fd p ∈ open_sockets w)
                                  then pfd_events p else 0 |}) <$> fds, None), w)
|}.

Definition mem_winsock_init : MemWinSock :=
  Build_MemWinSock false 256 ∅ ∅ [] ([2; 0; 12; 234; 127; 0; 0; 1] ++ replicate 8 0).
