(* ===== verification/WinSocketSafety.v ===== *)
(** Safety of the Windows socket imports under every interleaving of the guest's
    threads: the table, closed descriptors and the disabled network. *)

From S2P Require Import Prelude.
From S2P Require Import Prog.
From S2P Require Import GuestErrno.
From S2P Require Import GuestMemory.
From S2P Require Import FdTable.
From S2P Require Import HostSockets.
From S2P Require Import HostSocketsProofs.
From S2P Require Import HostSocketsWindows.
From S2P Require Import MemWinSock.
Local Open Scope prog_scope.

(** * Specification *)

#[export] Instance win_fd_table : FdTable WinHostSocketsInner WinHostSocket WinHostSocket := {|
  ft_next := next_fd;
  ft_entries := sockets;
  ft_value := id;
  ft_insert := win_insert;
  ft_remove := win_remove
|}.

#[export] Instance win_fd_table_laws :
  FdTableLaws WinHostSocketsInner WinHostSocket WinHostSocket.
Proof. by split. Qed.

Definition win_wf (t : WinHostSocketsInner) : Prop := fd_wf GUEST_FD_BASE t.

#[export] Instance win_mem_lens_laws {W} : LensLaws (mem_lens (W := W)).
Proof. split; [done| |done]. by intros [? []]. Qed.

(** Guest threads, each with a last error of its own, that share the memory, the
    table and WinSock. *)
Definition win_pool {W} `{!WinSock W} `{consts : WinSockConsts} (network_allowed : bool)
    (gs : list (guest SockCall)) : list (thread Z (WinSt W) unit) :=
  guest_pool 0 mem_lens (win_sock_import network_allowed) gs.

(** A call the logged WinSock below records. *)
Inductive WinCall :=
| CallStartup
| CallPoll (fds : list pollfd)
| CallOther.

Definition logs {A W} (c : WinCall) (f : W -> A * W) (s : W * list WinCall)
  : A * (W * list WinCall) :=
  let '(a, w) := f s.1 in (a, (w, c :: s.2)).

(** A WinSock that records its calls. *)
#[export] Instance logged_winsock {W} `{!WinSock W} : WinSock (W * list WinCall) := {|
  ws_startup := logs CallStartup ws_startup;
  ws_socket d t p := logs CallOther (ws_socket d t p);
  ws_closesocket k := logs CallOther (ws_closesocket k);
  ws_ioctlsocket k c v := logs CallOther (ws_ioctlsocket k c v);
  ws_bind k a := logs CallOther (ws_bind k a);
  ws_listen k b := logs CallOther (ws_listen k b);
  ws_accept k a n := logs CallOther (ws_accept k a n);
  ws_connect k a := logs CallOther (ws_connect k a);
  ws_name kind k a n := logs CallOther (ws_name kind k a n);
  ws_setsockopt k l o v := logs CallOther (ws_setsockopt k l o v);
  ws_getsockopt k l o v n := logs CallOther (ws_getsockopt k l o v n);
  ws_send k b f := logs CallOther (ws_send k b f);
  ws_recv k b f := logs CallOther (ws_recv k b f);
  ws_sendto k b f a := logs CallOther (ws_sendto k b f a);
  ws_recvfrom k b f a n := logs CallOther (ws_recvfrom k b f a n);
  ws_shutdown k h := logs CallOther (ws_shutdown k h);
  ws_poll fds t := logs (CallPoll fds) (ws_poll fds t)
|}.

(** An entry of a negative descriptor. *)
Definition ignored_entry `{consts : WinSockConsts} : pollfd :=
  {| pfd_fd := ws_INVALID_SOCKET; pfd_events := 0; pfd_revents := 0 |}.

(** A [WSAPoll] of ignored entries. *)
Definition win_touches_nothing `{consts : WinSockConsts} (c : WinCall) : Prop :=
  match c with
  | CallPoll fds => Forall (fun p => p = ignored_entry) fds
  | _ => False
  end.

(** A descriptor below the counter that is not open. *)
Definition win_retired {W} (fd : Z) (s : WinSt W) : Prop :=
  win_wf (table s) /\ fd < next_fd (table s) /\ sockets (table s) !! fd = None.

(** * Lemmas *)

(** An invariant that the imports keep whatever WinSock does. *)
Class WinInvariant {W : Type} (I : WinSt W -> Prop) : Prop := {
  winv_mem : forall m s, I s -> I (Build_WinSt m (table s) (WINSOCK s) (os s));
  winv_os : forall w s, I s -> I (with_os w s);
  winv_started : forall r w s, I s -> I (Build_WinSt (mem s) (table s) (Some r) w);
  winv_insert : forall socket s, I s -> I (with_table (win_insert socket (table s)).2 s);
  winv_remove : forall fd s, I s -> I (with_table (win_remove fd (table s)).2 s);
  winv_flags : forall fd f s, I s -> I (with_table (set_status_flags fd f (table s)).2 s)
}.

Ltac win_walk := walk_with ltac:(idtac;
  match goal with
  | |- preserves _ (win_with_socket _ _) => unfold win_with_socket
  | |- preserves _ (win_mem_read _ _ _) => unfold win_mem_read
  | |- preserves _ (win_mem_read_len _ _) => unfold win_mem_read_len
  | |- preserves _ (bind (bind _ _) _) => apply preserves_bind; [|intros ?]
  | |- preserves _ (cvt_socket_i32 _) => unfold cvt_socket_i32
  | |- preserves _ neg_last_socket_errno => unfold neg_last_socket_errno
  end).

(** The imports, unfolded down to their calls. *)
Ltac reveal_win_import :=
  cbn [win_sock_import];
  unfold win_import_socket, win_import_bind, win_import_listen, win_import_accept,
    win_import_connect, socket_name, win_import_setsockopt, win_import_getsockopt,
    win_import_send, win_import_recv, win_import_sendto, win_import_recvfrom,
    win_import_shutdown, win_import_close, win_import_fcntl, win_import_poll,
    write_guest_u32, win_mem_write, close_socket.

(** A length that was checked is in range, also after the family of the address
    is rewritten. *)
Lemma good_length_slice len buf :
  bad_length len buf = false -> is_Some (slice_to buf (as_usize len)).
Proof.
  unfold bad_length, slice_to. intros [_ H%Z.ltb_ge]%orb_false_elim.
  rewrite decide_True by done. by eexists.
Qed.

Lemma good_address_slice len addr domain :
  bad_length len addr = false ->
  is_Some (slice_to (denormalize_sockaddr_for_guest addr domain) (as_usize len)).
Proof.
  intros H. apply good_length_slice. unfold bad_length, denormalize_sockaddr_for_guest in *.
  by rewrite length_sockaddr_family.
Qed.

(** A call keeps [I] when its parts do. *)
Section Walk.
Context {W : Type} `{!WinSock W} `{consts : WinSockConsts}.
Context (I : Z * WinSt W -> Prop).
Context (Hmem : forall m s, I s -> I (put mem_lens m s)).

Lemma walk_mem {A} (p : prog GuestMem A) : preserves I (zoom mem_lens p).
Proof. by apply preserves_zoom_frame. Qed.

Lemma walk_get fd : preserves I (win_get fd).
Proof. apply preserves_read. Qed.

Lemma walk_poll_fds chunks : preserves I (win_poll_fds chunks).
Proof.
  induction chunks as [|c cs IH]; cbn [win_poll_fds]; [done|]. apply preserves_bind.
  - destruct (_ <? 0); [done|]. apply preserves_bind; [apply walk_get|done].
  - intros [fd|e]; [|done]. by apply preserves_bind.
Qed.

Lemma walk_write_revents ptr i fds ignored : preserves I (win_write_revents ptr i fds ignored).
Proof.
  revert i ignored. induction fds as [|p fds IH]; intros i [|ig ignored];
    cbn [win_write_revents]; [done..|].
  apply preserves_bind; [apply walk_mem|]. by intros [].
Qed.
End Walk.

#[export] Hint Resolve walk_get : rust.

Section Invariant.
Context {W : Type} `{!WinSock W} `{consts : WinSockConsts}.
Context (I : WinSt W -> Prop) `{Inv : !WinInvariant I} (network_allowed : bool).
#[local] Abbreviation J := (fun ls : Z * WinSt W => I ls.2).

Lemma win_preserves_ws {A} (f : W -> (A * option Z) * W) : preserves J (ws f).
Proof.
  apply preserves_atomically. intros [l s] Hs. simpl. destruct (f (os s)) as [[a e] w].
  by apply (winv_os (I := I)).
Qed.

Lemma win_preserves_mem m ls : J ls -> J (put mem_lens m ls).
Proof. apply (winv_mem (I := I)). Qed.

Lemma win_preserves_started : preserves J ensure_winsock.
Proof.
  apply preserves_atomically. intros [l s] Hs. simpl. destruct (WINSOCK s); [done|].
  destruct (ws_startup (os s)). by apply (winv_started (I := I)).
Qed.

Lemma win_preserves_insert k : preserves J (win_insert_socket k).
Proof. apply preserves_atomically. intros [l s]. apply (winv_insert (I := I)). Qed.

Lemma win_preserves_remove fd : preserves J (win_remove_socket fd).
Proof. apply preserves_atomically. intros [l s]. apply (winv_remove (I := I)). Qed.

Lemma win_preserves_flags fd f : preserves J (set_socket_flags fd f).
Proof.
  apply preserves_atomically. intros [l s] Hs. pose proof (winv_flags fd f s Hs) as H. simpl in *.
  by destruct (set_status_flags fd f (table s)).
Qed.

Hint Resolve win_preserves_ws win_preserves_started win_preserves_insert win_preserves_remove
  win_preserves_flags : rust.
Hint Extern 1 (preserves _ (zoom mem_lens _)) => apply walk_mem, win_preserves_mem : rust.
Hint Extern 1 (preserves _ (win_write_revents _ _ _ _)) =>
  apply walk_write_revents, win_preserves_mem : rust.
Hint Resolve walk_poll_fds : rust.

Lemma win_preserves_import c : preserves J (win_sock_import network_allowed c).
Proof. destruct c; reveal_win_import; win_walk. Qed.

Lemma win_pool_invariant gs s ts' s' :
  I s -> rtc pool_step (win_pool network_allowed gs, s) (ts', s') -> I s'.
Proof.
  apply (guest_pool_invariant I).
  - intros m ls. apply win_preserves_mem.
  - apply win_preserves_import.
Qed.
End Invariant.

Section Instances.
Context {W : Type}.
Implicit Types s : WinSt W.

Lemma set_status_flags_next fd f t : next_fd (set_status_flags fd f t).2 = next_fd t.
Proof. unfold set_status_flags. by destruct (sockets t !! fd). Qed.

Lemma set_status_flags_dom fd f t fd' :
  is_Some (sockets (set_status_flags fd f t).2 !! fd') <-> is_Some (sockets t !! fd').
Proof.
  unfold set_status_flags. destruct (sockets t !! fd) as [k|] eqn:E; [|done]. cbn [snd sockets].
  destruct (decide (fd' = fd)) as [->|Hne].
  - rewrite lookup_insert_eq, E. split; by eexists.
  - by rewrite lookup_insert_ne.
Qed.

Lemma win_wf_flags fd f t : win_wf t -> win_wf (set_status_flags fd f t).2.
Proof.
  intros [Hb Hn He]. constructor; [done| |]; simpl in *.
  - by rewrite set_status_flags_next.
  - intros fd'. rewrite set_status_flags_dom, set_status_flags_next. apply He.
Qed.

#[export] Instance win_wf_invariant : WinInvariant (fun s => win_wf (table s)).
Proof.
  constructor; try done.
  - intros k s Hs. exact (fd_wf_insert GUEST_FD_BASE k (table s) Hs).
  - intros fd s Hs. exact (fd_wf_remove GUEST_FD_BASE fd (table s) Hs).
  - intros fd f s. apply win_wf_flags.
Qed.

#[export] Instance win_retired_invariant fd : WinInvariant (win_retired (W := W) fd).
Proof.
  constructor; try done.
  - intros k s (Hwf & Hlt & Hnone). split_and!; simpl.
    + exact (fd_wf_insert GUEST_FD_BASE k (table s) Hwf).
    + destruct (wf_next _ _ Hwf) as [Hb Hm]. simpl in *. unfold GUEST_FD_BASE in *.
      rewrite i32_saturating_succ by bounds. bounds.
    + rewrite lookup_insert_ne by lia. done.
  - intros fd' s (Hwf & Hlt & Hnone). split_and!; simpl; [|done|].
    + exact (fd_wf_remove GUEST_FD_BASE fd' (table s) Hwf).
    + apply lookup_delete_None. by right.
  - intros fd' f s (Hwf & Hlt & Hnone). split_and!; simpl; [by apply win_wf_flags| |].
    + by rewrite set_status_flags_next.
    + apply eq_None_not_Some. rewrite set_status_flags_dom. by rewrite <- eq_None_not_Some.
Qed.
End Instances.

Lemma win_new_wf : win_wf win_new.
Proof. constructor; simpl; [by compute|by compute|]. intros fd [? Hl]. by rewrite lookup_empty in Hl. Qed.

Section Closed.
Context {W : Type} `{!WinSock W} `{consts : WinSockConsts}.
Context (network_allowed : bool).

Lemma run_win_with_socket_none fd (k : WinHostSocket -> prog (Z * WinSt W) Z) l s :
  sockets (table s) !! fd = None ->
  run (win_with_socket fd k) (l, s) = (Done (neg_errno EBADF), (l, s)).
Proof.
  intros Hfd. unfold win_with_socket, win_get. rewrite run_bind, run_read. cbn [snd].
  by rewrite Hfd.
Qed.

Lemma win_closed_ebadf c fd l s :
  sockets (table s) !! fd = None -> call_fd c = Some fd ->
  run (win_sock_import network_allowed c) (l, s) = (Done (neg_errno EBADF), (l, s)).
Proof.
  intros Hfd Hc. destruct c; simpl in Hc; simplify_eq; cbn [win_sock_import];
    try by apply run_win_with_socket_none.
  unfold win_import_close, win_remove_socket, win_remove. rewrite run_bind, run_atomically.
  cbn [fst snd]. rewrite Hfd. simpl. rewrite delete_id by done. by destruct s as [? [] ? ?].
Qed.
End Closed.

(** ** Without a network *)

Section Disabled.
Context {W : Type} `{!WinSock W} `{consts : WinSockConsts}.
#[local] Abbreviation St := (WinSt (W * list WinCall)).

(** No socket is open, WinSock was not started, and no call has touched a
  descriptor. *)
Definition win_silent (s : St) : Prop :=
  sockets (table s) = ∅ /\ WINSOCK s = None /\ Forall win_touches_nothing (os s).2.
#[local] Abbreviation J := (fun ls : Z * St => win_silent ls.2).

Lemma win_silent_with_socket fd k : preserves J (win_with_socket fd k).
Proof.
  intros s (Ht & Hw & Hl). split; [done|]. simpl. by rewrite Ht, lookup_empty.
Qed.

Lemma win_silent_poll_fds chunks :
  establishes J (fun r => match r with
    | Ok entries => Forall (fun p => p = ignored_entry) entries.*1 | Err _ => True end)
    (win_poll_fds chunks).
Proof.
  induction chunks as [|c cs IH]; cbn [win_poll_fds]; [by constructor|].
  apply (establishes_bind _ (fun r => match r with Ok e => e.1 = ignored_entry | Err _ => True end)).
  - destruct (Z.ltb_spec (i32_from_le_bytes (take 4 c)) 0) as [Hneg|]; [done|].
    intros s (Ht & Hw & Hl). split; [done|]. cbn [fst snd bind]. by rewrite Ht, lookup_empty.
  - intros [fd|e] Hfd; [|done]. eapply establishes_bind; [exact IH|].
    intros [fds|e] Hfds; [|done]. by constructor.
Qed.

Lemma win_silent_import c : preserves J (win_sock_import false c).
Proof.
  destruct c; cbn [win_sock_import]; try apply win_silent_with_socket; [done| |].
  - unfold win_import_close. intros s (Ht & Hw & Hl). split.
    + split_and!; [|done..]. simpl. by rewrite Ht, delete_empty.
    + simpl. by rewrite Ht, lookup_empty.
  - unfold win_import_poll, win_mem_read. apply preserves_or_return. intros n.
    apply preserves_bind; [by apply walk_mem|]. intros b.
    apply preserves_or_return. intros bytes.
    eapply preserves_establishes; [apply win_silent_poll_fds|].
    intros [entries|e] Hfds; cbn [or_return]; [|done]. apply preserves_bind.
    + apply preserves_atomically. intros [l s] (Ht & Hw & Hl). simpl. unfold logs.
      destruct (ws_poll entries.*1 timeout (os s).1) as [[a e] w].
      split_and!; [done..|]. by constructor.
    + intros [rc fds]. destruct (rc =? ws_SOCKET_ERROR); [apply preserves_read|].
      apply preserves_bind; [by apply walk_write_revents|]. intros w. by apply preserves_or_return.
Qed.
End Disabled.

(** * Properties *)

(** C9. No use after close on Windows: starting from an empty table, whatever
    the guest's threads do the table stays well formed; and once a descriptor
    below the counter is not open, no interleaving opens it again, a racing
    [fcntl] that records status flags included, and every later call on it is
    [EBADF] without a WinSock call or any other effect. *)
Theorem win_closed_socket_stays_closed {W} `{!WinSock W} `{consts : WinSockConsts}
    net m (w0 : W) gs ts s gs' ts' s' fd l :
  rtc pool_step (win_pool net gs, Build_WinSt m win_new None w0) (ts, s) ->
  fd < next_fd (table s) -> sockets (table s) !! fd = None ->
  rtc pool_step (win_pool net gs', s) (ts', s') ->
  win_wf (table s') /\ sockets (table s') !! fd = None /\
  forall c, call_fd c = Some fd ->
    run (win_sock_import net c) (l, s') = (Done (neg_errno EBADF), (l, s')).
Proof.
  intros Hreach Hlt Hnone Hsteps.
  assert (win_wf (table s)) as Hwf.
  { refine (win_pool_invariant (fun s => win_wf (table s)) net gs _ ts s _ Hreach).
    exact win_new_wf. }
  assert (win_retired fd s') as (Hwf' & _ & Hnone').
  { by refine (win_pool_invariant (win_retired fd) net gs' s ts' s' _ Hsteps). }
  split_and!; [done..|]. intros c Hc. by eapply win_closed_ebadf.
Qed.

(** [--no-network] on Windows: when the network is not allowed, no
    interleaving of any guest threads ever has a socket open or starts WinSock,
    and the only call any of the seventeen imports makes is a [WSAPoll] all of
    whose entries are [INVALID_SOCKET] without events. *)
Lemma win_no_network_no_calls {W} `{!WinSock W} `{consts : WinSockConsts}
    m (w : W) gs ts' s' :
  rtc pool_step (win_pool false gs, Build_WinSt m win_new None (w, [])) (ts', s') ->
  sockets (table s') = ∅ /\ WINSOCK s' = None /\ Forall win_touches_nothing (os s').2.
Proof.
  apply (guest_pool_invariant win_silent); [done| |by split_and!].
  apply win_silent_import.
Qed.

(** * Concrete runs *)

Section Demo.
Local Existing Instance windows_consts.

Definition win_demo_mem : GuestMem :=
  Some (ExtSharedMemory ([104; 101; 108; 108; 111; 0; 0; 0] ++ [16; 0; 0; 0] ++ replicate 52 0)).

(** Opens a non-blocking socket, sends five bytes on it and closes it. *)
Definition win_demo_guest : guest SockCall :=
  GuestCall (KSocket 1 (6 + 16384) 0) (fun fd => GuestCall (KSend fd 0 5 0) (fun _ =>
    GuestCall (KClose fd) (fun _ => GuestDone))).

Definition win_demo_schedule : list nat := concat (replicate 40 [0; 1]%nat).

Definition win_demo_start : WinSt MemWinSock :=
  Build_WinSt win_demo_mem win_new None mem_winsock_init.

Definition win_demo_run (guests : list (guest SockCall)) (s : WinSt MemWinSock) :=
  run_schedule win_demo_schedule (win_pool true guests, s).

Lemma win_closed_socket_stays_closed_witness :
  let s := (win_demo_run [win_demo_guest] win_demo_start).2 in
  let s' := (win_demo_run [win_demo_guest; win_demo_guest] s).2 in
  next_fd (table s') = 10003 /\
  sent (os s') = (fun k => (k, [104; 101; 108; 108; 111])) <$> [256; 260; 264] /\
  run (win_sock_import true (KFcntl 10000 4 4)) (7, s') = (Done (neg_errno EBADF), (7, s')).
Proof.
  intros s s'. split; [vm_compute; reflexivity|]. split; [vm_compute; reflexivity|].
  exact (proj2 (proj2 (win_closed_socket_stays_closed true win_demo_mem mem_winsock_init
    [win_demo_guest] _ _ [win_demo_guest; win_demo_guest] _ _ 10000 7
    (run_schedule_steps win_demo_schedule _) eq_refl eq_refl
    (run_schedule_steps win_demo_schedule _))) (KFcntl 10000 4 4) eq_refl).
Defined.

Lemma win_no_network_no_calls_witness :
  let s' := (run_schedule win_demo_schedule (win_pool false
    [win_demo_guest; GuestCall (KPoll 32 1 0) (fun _ => GuestDone)],
    Build_WinSt win_demo_mem win_new None (mem_winsock_init, []))).2 in
  sockets (table s') = ∅ /\ WINSOCK s' = None /\ Forall win_touches_nothing (os s').2.
Proof.
  intros s'. exact (win_no_network_no_calls win_demo_mem mem_winsock_init _ _ _
    (run_schedule_steps win_demo_schedule _)).
Defined.
End Demo.
