(* ===== verification/WinSocketLeaks.v ===== *)
(** Sockets of the Windows imports: who closes them.  The account of
    [Prog.settles] is the weight, for any price list, of the sockets WinSock has
    handed out beyond those in the table. *)

From S2P Require Import Prelude.
From S2P Require Import Prog.
From S2P Require Import Ledger.
From S2P Require Import GuestErrno.
From S2P Require Import GuestMemory.
From S2P Require Import FdTable.
From S2P Require Import HostSockets.
From S2P Require Import HostSocketsProofs.
From S2P Require Import HostSocketsWindows.
From S2P Require Import MemWinSock.
From S2P Require Import WinSocketSafety.
Local Open Scope prog_scope.

(** * Specification *)

#[local] Abbreviation book := (Ledger Z).

Definition same_book {A W} (f : W -> A * W) (s : W * book) : A * (W * book) :=
  let '(a, w) := f s.1 in (a, (w, s.2)).

(** A WinSock that writes down which sockets it hands out and which it gets
    back. *)
#[export] Instance ledger_winsock {W} `{!WinSock W} `{consts : WinSockConsts} : WinSock (W * book) := {|
  ws_startup := same_book ws_startup;
  ws_socket d t p s := let '(r, w) := ws_socket d t p s.1 in
    (r, (w, if r.1 =? ws_INVALID_SOCKET then s.2 else take_out r.1 s.2));
  ws_closesocket k s := let '(r, w) := ws_closesocket k s.1 in (r, (w, give_in k s.2));
  ws_ioctlsocket k c v := same_book (ws_ioctlsocket k c v);
  ws_bind k a := same_book (ws_bind k a);
  ws_listen k b := same_book (ws_listen k b);
  ws_accept k a n s := let '(r, w) := ws_accept k a n s.1 in
    (r, (w, if r.1.1 =? ws_INVALID_SOCKET then s.2 else take_out r.1.1 s.2));
  ws_connect k a := same_book (ws_connect k a);
  ws_name kind k a n := same_book (ws_name kind k a n);
  ws_setsockopt k l o v := same_book (ws_setsockopt k l o v);
  ws_getsockopt k l o v n := same_book (ws_getsockopt k l o v n);
  ws_send k b f := same_book (ws_send k b f);
  ws_recv k b f := same_book (ws_recv k b f);
  ws_sendto k b f a := same_book (ws_sendto k b f a);
  ws_recvfrom k b f a n := same_book (ws_recvfrom k b f a n);
  ws_shutdown k h := same_book (ws_shutdown k h);
  ws_poll fds t := same_book (ws_poll fds t)
|}.

(** The raw sockets of the table. *)
Definition held (t : WinHostSocketsInner) : list Z := raw_socket <$> values (sockets t).

Section Account.
Context {W : Type} (p : Z -> Z).
#[local] Abbreviation St := (WinSt (W * book)).
Implicit Types s : St.

(** The weight of what WinSock has handed out beyond what the table holds. *)
Definition loose s : Z := balance p (os s).2 - weigh p (held (table s)).

(** A step raises [loose] by [d], unless the counter has reached [i32::MAX]: from
  there an insertion replaces a socket without closing it. *)
Definition win_moves s (d : Z) s' : Prop :=
  win_wf (table s) ->
  win_wf (table s') /\ next_fd (table s) <= next_fd (table s') /\
  (next_fd (table s') < i32_max -> loose s' = loose s + d).

Lemma win_moves_refl s : win_moves s 0 s.
Proof. intros Hs. split_and!; [done|lia|lia]. Qed.

Lemma win_moves_trans s d s' d' s'' :
  win_moves s d s' -> win_moves s' d' s'' -> win_moves s (d + d') s''.
Proof.
  intros H1 H2 Hs. destruct (H1 Hs) as (Hw & Hn & Hl). destruct (H2 Hw) as (Hw' & Hn' & Hl').
  split_and!; [done|lia|]. intros Hlt. rewrite Hl', Hl; lia.
Qed.
End Account.

(** * Lemmas *)

Section Leaks.
Context {W : Type} `{!WinSock W} `{consts : WinSockConsts} (p : Z -> Z).
#[local] Abbreviation call := (prog (Z * WinSt (W * book))).

(** The debt of a call, with no debt left when it panics. *)
#[local] Abbreviation debt := (settles (fun ls d ls' => win_moves p ls.2 d ls'.2) (fun x => x = 0)).
#[local] Abbreviation keep x := (fun _ y => y = x).

Lemma win_debt_ws {A} x (d : A -> Z) (f : W * book -> (A * option Z) * (W * book)) :
  (forall w, balance p (f w).2.2 = balance p w.2 + d (f w).1.1) ->
  debt x (fun a y => y = x + d a) (ws f).
Proof.
  intros Hf. apply settles_atomically. intros [l s]. simpl. specialize (Hf (os s)).
  destruct (f (os s)) as [[a e] w]. simpl in *. exists (d a). split; [|done].
  intros Hwf. split_and!; [done|simpl; lia|]. intros _. unfold loose. simpl. lia.
Qed.

(** A call that neither gives nor takes a socket. *)
Lemma win_debt_quiet {A} x (f : W * book -> (A * option Z) * (W * book)) :
  (forall w, (f w).2.2 = w.2) -> debt x (keep x) (ws f).
Proof.
  intros Hf. eapply settles_weaken; [apply (win_debt_ws x (fun _ => 0))|]; intros; simpl in *; [|lia].
  rewrite Hf. lia.
Qed.

Lemma win_debt_same {A} x (f : W -> (A * option Z) * W) : debt x (keep x) (ws (same_book f)).
Proof. apply win_debt_quiet. intros w. unfold same_book. by destruct (f w.1). Qed.

Lemma win_debt_read {A} x (f : Z * WinSt (W * book) -> A) : debt x (keep x) (read f).
Proof. intros ls. exists 0. split; [apply win_moves_refl|]. simpl. lia. Qed.

Lemma win_moves_mem m (ls : Z * WinSt (W * book)) : win_moves p ls.2 0 (put mem_lens m ls).2.
Proof. intros Hs. split_and!; [done|simpl; lia|]. intros _. unfold loose. simpl. lia. Qed.

Lemma win_debt_mem {A} x (c : prog GuestMem A) :
  no_panic c -> debt x (keep x) (zoom (mem_lens (W := W * book)) c).
Proof. intros Hp. apply settles_zoom_frame; [done|]. intros m ls. apply win_moves_mem. Qed.

Lemma win_debt_started x : debt x (keep x) (ensure_winsock : call _).
Proof.
  apply settles_atomically. intros [l s]. exists 0. split; [|destruct (WINSOCK s); lia].
  simpl. unfold same_book. destruct (WINSOCK s); [apply win_moves_refl|].
  destruct (ws_startup (os s).1). intros Hs. split_and!; [done|simpl; lia|].
  intros _. unfold loose. simpl. lia.
Qed.

(** The table takes a socket over, and gives it back. *)
Lemma win_debt_insert x k :
  x = p (raw_socket k) -> debt x (keep 0) (win_insert_socket k : call _).
Proof.
  intros ->. apply settles_atomically. intros [l s]. exists (- p (raw_socket k)).
  split; [|simpl; lia]. simpl. intros Hwf. destruct (wf_next _ _ Hwf) as [Hb Hm].
  pose proof (ft_insert_next k (table s)) as Hn. simpl in Hn, Hb, Hm. unfold GUEST_FD_BASE in Hb.
  split_and!; [exact (fd_wf_insert GUEST_FD_BASE k (table s) Hwf)| |]; simpl in *.
  - rewrite i32_saturating_succ by bounds. lia.
  - rewrite i32_saturating_succ by bounds. intros Hlt. unfold loose, held. simpl.
    rewrite values_insert_fresh; [rewrite fmap_cons; simpl; lia|].
    refine (ft_insert_fresh GUEST_FD_BASE k (table s) Hwf _). simpl. lia.
Qed.

(** The debt after a removal: the socket, or nothing. *)
Definition owed (r : result WinHostSocket) : Z := match r with Ok k => p (raw_socket k) | Err _ => 0 end.

Lemma win_debt_remove fd : debt 0 (fun r y => y = owed r) (win_remove_socket fd : call _).
Proof.
  apply settles_atomically. intros [l s]. cbn [fst snd win_remove].
  exists (owed (ok_or (sockets (table s) !! fd) EBADF)). split; [|done]. intros Hwf.
  split_and!; [exact (fd_wf_remove GUEST_FD_BASE fd (table s) Hwf)|simpl; lia|]. intros _.
  unfold loose, held. simpl. destruct (sockets (table s) !! fd) as [k|] eqn:E; simpl.
  - rewrite (values_delete _ _ _ E), fmap_cons. simpl. lia.
  - rewrite delete_id by done. lia.
Qed.

(** Setting the flags of a socket keeps its raw socket in the table. *)
Lemma held_set_status_flags fd f (t : WinHostSocketsInner) :
  held (set_status_flags fd f t).2 ≡ₚ held t.
Proof.
  unfold set_status_flags, held. destruct (sockets t !! fd) as [k|] eqn:E; [|done]. simpl.
  rewrite (values_delete _ _ _ E), fmap_cons, <- insert_delete_eq.
  by rewrite values_insert_fresh, fmap_cons by apply lookup_delete_eq.
Qed.

Lemma win_debt_flags x fd f : debt x (keep x) (set_socket_flags fd f : call _).
Proof.
  apply settles_atomically. intros [l s]. exists 0. simpl.
  pose proof (win_wf_flags fd f (table s)) as Hw.
  pose proof (set_status_flags_next fd f (table s)) as Hn.
  pose proof (weigh_proper p _ _ (held_set_status_flags fd f (table s))) as Hz.
  destruct (set_status_flags fd f (table s)) as [r t]. simpl in *. split; [|lia].
  intros Hs. split_and!; [by apply Hw|simpl; lia|]. intros _. unfold loose. simpl. lia.
Qed.

(** A [closesocket] pays the debt of the socket it closes, and no other. *)
Lemma win_debt_closesocket k : debt (p k) (keep 0) (ws (ws_closesocket k) : call _).
Proof.
  eapply settles_weaken; [apply (win_debt_ws (p k) (fun _ => - p k))|].
  - intros w. simpl. destruct (ws_closesocket k w.1). simpl. rewrite balance_give_in. lia.
  - intros a y ->. lia.
Qed.

Lemma win_debt_close k : debt (p k) (keep 0) (close_socket k : call _).
Proof. eapply settles_bind; [apply win_debt_closesocket|]. by intros a y ->. Qed.

Lemma win_debt_last_error x : debt x (keep x) (neg_last_socket_errno : call _).
Proof. apply win_debt_read. Qed.

Lemma win_debt_cvt x rc : debt x (keep x) (cvt_socket_i32 rc : call _).
Proof. unfold cvt_socket_i32. destruct (rc =? _); [apply win_debt_last_error|done]. Qed.

Lemma win_debt_get x fd : debt x (keep x) (win_get fd : call _).
Proof. apply win_debt_read. Qed.

Hint Resolve win_debt_started win_debt_flags win_debt_last_error win_debt_cvt win_debt_get win_debt_close win_debt_insert : rust.
Hint Extern 1 (settles _ _ _ _ (zoom mem_lens _)) => apply win_debt_mem; auto with rust : rust.
Hint Extern 2 (settles _ _ _ _ (ws _)) =>
  apply win_debt_quiet; intros ?; simpl; unfold same_book; case_match; reflexivity : rust.

Lemma win_debt_poll_fds chunks : debt 0 (keep 0) (win_poll_fds chunks : call _).
Proof.
  induction chunks as [|c cs IH]; cbn [win_poll_fds]; [done|].
  apply (settles_bind _ _ 0 (keep 0)).
  - destruct (_ <? 0); [done|]. eapply settles_bind; [apply win_debt_get|]. by intros r y ->.
  - intros [fd|e] y ->; [|done]. eapply settles_bind; [apply IH|]. by intros r y ->.
Qed.

Lemma win_debt_write_revents ptr i fds ignored :
  debt 0 (keep 0) (win_write_revents ptr i fds ignored : call _).
Proof.
  revert i ignored. induction fds as [|pfd fds IH]; intros i [|ig ignored];
    cbn [win_write_revents]; [done..|].
  eapply settles_bind; [apply win_debt_mem; auto with rust|]. intros [] y ->; [apply IH|done].
Qed.

Hint Resolve win_debt_poll_fds win_debt_write_revents : rust.

Ltac settle := settle_sockets ltac:(idtac;
  match goal with
  | |- settles _ _ _ _ (win_with_socket _ _) => unfold win_with_socket
  | |- settles _ _ _ _ (win_mem_read _ _ _) => unfold win_mem_read
  | |- settles _ _ _ _ (win_mem_read_len _ _) => unfold win_mem_read_len
  end).

Lemma win_debt_socket net domain type protocol :
  debt 0 (keep 0) (win_import_socket net domain type protocol : call _).
Proof.
  unfold win_import_socket. destruct (negb net); [done|]. settle.
  eapply settles_bind; [apply (win_debt_ws 0 (fun k => if k =? ws_INVALID_SOCKET then 0 else p k))|].
  { intros w. simpl. destruct (ws_socket _ _ _ _) as [r w']. simpl.
    destruct (r.1 =? _); rewrite ?balance_take_out; lia. }
  intros k y ->. destruct (k =? ws_INVALID_SOCKET); [apply win_debt_last_error|].
  destruct (nonblocking _); [|by apply win_debt_insert].
  apply (settles_bind _ _ (p k) (keep (p k))); [auto with rust|]. intros rc y ->.
  destruct (rc =? ws_SOCKET_ERROR); [|by apply win_debt_insert].
  eapply settles_bind; [apply win_debt_close|]. intros _ y ->. apply win_debt_last_error.
Qed.

Lemma win_debt_accept fd addr_ptr addr_len_ptr :
  debt 0 (keep 0) (win_import_accept fd addr_ptr addr_len_ptr : call _).
Proof.
  unfold win_import_accept. settle.
  eapply settles_bind;
    [apply (win_debt_ws 0 (fun r : Z * (list Z * Z) => if r.1 =? ws_INVALID_SOCKET then 0 else p r.1))|].
  { intros w. simpl. destruct (ws_accept _ _ _ _) as [r w']. simpl.
    destruct (r.1.1 =? _); rewrite ?balance_take_out; lia. }
  intros [accepted [addr len]] y ->. cbn [fst]. destruct (accepted =? ws_INVALID_SOCKET).
  { apply win_debt_last_error. }
  rewrite Z.add_0_l.
  destruct (bad_length len addr) eqn:Hb.
  { eapply settles_bind; [apply win_debt_close|]. by intros _ y ->. }
  cbv zeta. apply settles_or_panic.
  { intros Hnone. apply (good_address_slice _ _ (guest_domain a0)) in Hb as [b Hb]. congruence. }
  intros bytes _. unfold write_guest_u32, win_mem_write. settle.
Qed.

Lemma win_debt_close_import fd : debt 0 (keep 0) (win_import_close fd : call _).
Proof.
  unfold win_import_close. eapply settles_bind; [apply win_debt_remove|].
  intros [k|e] y ->; cbn [or_return]; [|done].
  eapply settles_bind; [apply win_debt_closesocket|]. intros rc y ->. apply win_debt_cvt.
Qed.

Lemma win_debt_import net c : debt 0 (keep 0) (win_sock_import net c : call _).
Proof.
  destruct c; cbn [win_sock_import];
    [apply win_debt_socket| | |apply win_debt_accept| | | | | | | | | | |apply win_debt_close_import| |];
    unfold win_import_bind, win_import_listen, win_import_connect, socket_name,
      win_import_setsockopt, win_import_getsockopt, win_import_send, win_import_recv,
      win_import_sendto, win_import_recvfrom, win_import_shutdown, win_import_fcntl,
      win_import_poll, write_guest_u32, win_mem_write; settle.
Qed.
End Leaks.

(** Dropping the table closes its sockets, in order. *)
Lemma win_fold_close_books {W} `{!WinSock W} `{consts : WinSockConsts} (ks : list Z) (w : W * book) :
  taken (fold_left (fun w k => (ws_closesocket k w).2) ks w).2 = taken w.2 /\
  given_back (fold_left (fun w k => (ws_closesocket k w).2) ks w).2 = rev ks ++ given_back w.2.
Proof.
  revert w. induction ks as [|k ks IH]; intros w; cbn [fold_left rev]; [done|].
  destruct (IH (ws_closesocket k w).2) as [-> ->]. cbn [ws_closesocket ledger_winsock].
  destruct (ws_closesocket k w.1). simpl. by rewrite <- app_assoc.
Qed.

Lemma win_drop_balances {W} `{!WinSock W} `{consts : WinSockConsts} (s : WinSt (W * book)) :
  balanced (os s).2 (held (table s)) -> balanced (os (win_drop_sockets s)).2 [].
Proof.
  intros Hb. unfold balanced, win_drop_sockets in *. cbn [os].
  destruct (win_fold_close_books ((fun k => raw_socket k.2) <$> map_to_list (sockets (table s))) (os s))
    as [-> ->].
  rewrite Hb, app_nil_r, <- Permutation_rev, Permutation_app_comm. f_equiv.
  unfold held, values. by rewrite <- list_fmap_compose.
Qed.

(** * Properties *)

(** C10. No leak on Windows, under every interleaving: when the threads that
    shared an empty table have all ended, by returning or by a panic, the sockets
    WinSock has handed out are exactly those that were closed and those in the
    table, each as often as it was handed out; after the table is dropped, the
    sockets closed are exactly those handed out.  So every error path closes the
    very socket it had got, and nothing is closed twice.  (The counter must be
    below [i32::MAX]: past it an insertion replaces a socket without closing
    it.) *)
Theorem win_sockets_no_leak {W} `{!WinSock W} `{consts : WinSockConsts} net m (w : W) gs ts' s' :
  rtc pool_step (win_pool net gs, Build_WinSt m win_new None (w, blank)) (ts', s') ->
  Forall ended ts' -> next_fd (table s') < i32_max ->
  balanced (os s').2 (held (table s')) /\
  balanced (os (win_drop_sockets s')).2 [] /\ sockets (table (win_drop_sockets s')) = ∅.
Proof.
  intros Hsteps Hend Hlt.
  assert (balanced (os s').2 (held (table s'))) as Hb.
  { apply balanced_weigh. intros p. set (s := Build_WinSt m win_new None (w, blank)) in *.
    assert (win_moves p s 0 s') as Hm.
    { refine (pool_settled (win_moves p) (fun x => x = 0) (fun _ x => x = 0) (win_moves_refl p)
        (win_moves_trans p) _ ts' s s' Hsteps _ _).
      - apply Forall_fmap, Forall_true. intros g. apply settles_guest_prog; [|apply win_debt_import].
        intros m' ls. apply win_moves_mem.
      - eapply Forall_impl; [exact Hend|]. intros t. unfold ended. by destruct (code t). }
    destruct (Hm win_new_wf) as (_ & _ & Hl). specialize (Hl Hlt). unfold loose in Hl.
    change (balance p (os s).2) with 0 in Hl. change (weigh p (held (table s))) with 0 in Hl. lia. }
  split; [done|]. split; [|done]. by apply win_drop_balances.
Qed.

Section Demo.
Local Existing Instance windows_consts.

(** Two threads open, one of them also accepts a connection, and one closes. *)
Definition accepting_guest : guest SockCall :=
  GuestCall (KSocket 1 6 0) (fun fd => GuestCall (KAccept fd 16 8) (fun _ => GuestDone)).

Definition win_leaks_run :=
  run_schedule win_demo_schedule
    (win_pool true [win_demo_guest; accepting_guest],
     Build_WinSt win_demo_mem win_new None (mem_winsock_init, blank)).

Lemma win_sockets_no_leak_witness :
  let s' := win_leaks_run.2 in
  length (taken (os s').2) = 3%nat /\ balanced (os s').2 (held (table s')) /\
  length (held (table s')) = 2%nat /\ balanced (os (win_drop_sockets s')).2 [] /\
  size (open_sockets (os (win_drop_sockets s')).1) = 0%nat.
Proof.
  intros s'. assert (Forall ended win_leaks_run.1) as Hend.
  { vm_compute. repeat constructor. }
  destruct (win_sockets_no_leak true win_demo_mem mem_winsock_init
    [win_demo_guest; accepting_guest] _ _ (run_schedule_steps win_demo_schedule _) Hend
    eq_refl) as (Hc & Hd & _).
  split_and!; [vm_compute; reflexivity|exact Hc|vm_compute; reflexivity|exact Hd|vm_compute; reflexivity].
Defined.
End Demo.
