(* ===== verification/WinSocketCalls.v ===== *)
(** What the Windows socket imports do when they run: [poll] and its events,
    socket timeouts, and the non-blocking flag. *)

From S2P Require Import Prelude.
From S2P Require Import Prog.
From S2P Require Import GuestErrno.
From S2P Require Import GuestMemory.
From S2P Require Import FdTable.
From S2P Require Import HostSockets.
From S2P Require Import HostSocketsProofs.
From S2P Require Import SocketCalls.
From S2P Require Import HostSocketsWindows.
From S2P Require Import MemWinSock.
From S2P Require Import WinSocketSafety.
Local Open Scope rust_scope.
Local Open Scope prog_scope.

(** * Specification *)

(** The event flags of the guest and of WinSock, side by side. *)
Definition event_table `{consts : WinSockConsts} : list (Z * Z) :=
  [(GUEST_POLLIN, ws_POLLIN); (GUEST_POLLPRI, ws_POLLPRI); (GUEST_POLLOUT, ws_POLLOUT);
   (GUEST_POLLERR, ws_POLLERR); (GUEST_POLLHUP, ws_POLLHUP); (GUEST_POLLNVAL, ws_POLLNVAL)].

(** The entries of a [poll]: a negative descriptor is ignored, another one is
    looked up and its events are translated. *)
Fixpoint win_poll_entries `{consts : WinSockConsts} (t : WinHostSocketsInner)
    (chunks : list (list Z)) : result (list (pollfd * bool)) :=
  match chunks with
  | [] => Ok []
  | c :: chunks =>
      let guest_fd := i32_from_le_bytes (take 4 c) in
      let events := i16_from_le_bytes (take 2 (drop 4 c)) in
      entry <-? (if guest_fd <? 0 then Ok (ignored_entry, true)
                 else
                   socket <-? ok_or (sockets t !! guest_fd) EBADF;;
                   Ok ({| pfd_fd := raw_socket socket;
                          pfd_events := guest_poll_events_to_windows events;
                          pfd_revents := 0 |}, false));;
      rest <-? win_poll_entries t chunks;;
      Ok (entry :: rest)
  end.

(** What the guest is told of an entry. *)
Definition guest_revents `{consts : WinSockConsts} (p : pollfd) (ignore : bool) : pollfd :=
  {| pfd_fd := pfd_fd p; pfd_events := pfd_events p;
     pfd_revents := if ignore then 0 else windows_poll_events_to_guest (pfd_revents p) |}.

(** The [timeval] of a guest. *)
Definition timeval (seconds micros : Z) : list Z := to_le_bytes 8 seconds ++ to_le_bytes 8 micros.

(** * Lemmas *)

Section Runs.
Context {W : Type} `{!WinSock W} `{consts : WinSockConsts}.
Implicit Types s : WinSt W.
#[local] Abbreviation call := (prog (Z * WinSt W)).

Lemma run_win_with_socket fd k (p : WinHostSocket -> call Z) l s :
  sockets (table s) !! fd = Some k -> run (win_with_socket fd p) (l, s) = run (p k) (l, s).
Proof.
  intros Hfd. unfold win_with_socket, win_get. rewrite run_bind, run_read. cbn [snd].
  by rewrite Hfd.
Qed.

Lemma run_win_mem_read ptr len bytes (p : list Z -> call Z) l s :
  read_spec (mem s) ptr len = Ok bytes ->
  run (win_mem_read ptr len p) (l, s) = run (p bytes) (l, s).
Proof.
  intros Hr. unfold win_mem_read. rewrite run_bind, run_zoom, run_read_guest by apply _.
  cbn [fst snd view mem_lens]. rewrite Hr. by destruct s.
Qed.

Lemma run_win_mem_write ptr bytes m l s :
  write_spec (mem s) ptr bytes = Ok m ->
  run (win_mem_write ptr bytes) (l, s) = (Done (Ok tt), put mem_lens m (l, s)).
Proof.
  intros Hw. unfold win_mem_write. rewrite run_zoom, run_write_guest by apply _.
  cbn [fst snd view mem_lens]. by rewrite Hw.
Qed.

Lemma run_ws {A} (f : W -> (A * option Z) * W) l s :
  run (ws f) (l, s) =
    (Done (f (os s)).1.1, (default l (f (os s)).1.2, with_os (f (os s)).2 s)).
Proof. unfold ws. rewrite run_atomically. cbn [fst snd]. by destruct (f (os s)) as [[] ]. Qed.

Lemma run_win_poll_fds chunks l s :
  run (win_poll_fds chunks) (l, s) = (Done (win_poll_entries (table s) chunks), (l, s)).
Proof.
  induction chunks as [|c cs IH]; cbn [win_poll_fds win_poll_entries]; [done|].
  rewrite run_bind. destruct (_ <? 0).
  - rewrite run_ret. cbn [result_bind]. rewrite run_bind, IH. by destruct (win_poll_entries _ cs).
  - unfold win_get. rewrite run_bind, run_read, run_ret. cbn [snd].
    destruct (sockets (table s) !! _) as [k|]; simpl; [|done].
    rewrite run_bind, IH. by destruct (win_poll_entries _ cs).
Qed.

Lemma run_win_write_revents (ptr i : nat) fds ignored l s data :
  length fds = length ignored ->
  mem_bytes (mem s) = Some data ->
  (ptr + 8 * (i + length fds) <= length data)%nat ->
  Z.of_nat (ptr + 8 * (i + length fds)) <= i32_max ->
  run (win_write_revents (Z.of_nat ptr) (Z.of_nat i) fds ignored) (l, s) =
    (Done (Ok tt), put mem_lens
      (update_data (put_revents ptr i (zip_with guest_revents fds ignored)) (mem s)) (l, s)).
Proof.
  revert i ignored s data. induction fds as [|p fds IH]; intros i [|ig ignored] s data Hl Hm Hlen Hmax;
    try done; cbn [win_write_revents].
  { rewrite run_ret. do 2 f_equal. destruct s as [m t o u]. unfold put, mem_lens. cbn. do 2 f_equal.
    by destruct m as [[]|]. }
  injection Hl as Hl. simpl length in *.
  rewrite as_i32_id by bounds.
  replace (Z.of_nat ptr + Z.of_nat i * 8 + 6) with (Z.of_nat (ptr + 8 * i + 6)) by lia.
  set (v := if ig then 0 else windows_poll_events_to_guest (pfd_revents p)).
  rewrite run_bind.
  erewrite run_win_mem_write.
  2:{ eapply write_spec_in_range; [exact Hm|lia|..]; rewrite length_to_le_bytes;
      unfold MAX_IO_LEN; bounds. }
  rewrite Nat2Z.id. replace (Z.of_nat i + 1) with (Z.of_nat (S i)) by lia.
  change (put mem_lens ?m (l, s)) with (l, Build_WinSt m (table s) (WINSOCK s) (os s)).
  rewrite (IH (S i) _ _ (splice (ptr + 8 * i + 6) (to_le_bytes 2 v) data));
    [|done|cbn [mem]; by rewrite mem_bytes_update, Hm
     |rewrite length_splice; rewrite ?length_to_le_bytes; lia|lia].
  unfold put, mem_lens. cbn [mem table os WINSOCK fst snd put_revents zip_with guest_revents].
  do 3 f_equal. rewrite update_data_compose. by apply update_data_ext.
Qed.
End Runs.

(** ** Events *)

Lemma poll_bit_or events from to n : poll_bit events from to n = Z.lor n (poll_bit events from to 0).
Proof.
  unfold poll_bit. destruct (negb _); [by rewrite Z.lor_0_l|by rewrite Z.lor_0_r].
Qed.

Lemma poll_bit_cases events from to :
  poll_bit events from to 0 = if Z.land events from =? 0 then 0 else to.
Proof. unfold poll_bit. by destruct (_ =? 0). Qed.

(** ** Timeouts *)

Lemma timeout_millis_eq seconds micros :
  is_i64 seconds -> 0 <= micros < 1000000 ->
  timeout_millis seconds micros = saturate 0 u32_max (1000 * seconds + (micros + 999) / 1000).
Proof.
  unfold is_i64, i64_max. intros Hs Hm. unfold timeout_millis, i64_saturate, saturate, u32_max, i64_max.
  change (2 ^ 63) with 9223372036854775808 in *. change (2 ^ 32) with 4294967296.
  assert (0 <= (micros + 999) / 1000 <= 1000) as Hd.
  { pose proof (Z.div_lt_upper_bound (micros + 999) 1000 1001). split; [apply Z.div_pos|]; lia. }
  rewrite (Z.max_r _ (micros + 999)), (Z.min_r _ (micros + 999)) by lia.
  set (q := (micros + 999) / 1000) in *. lia.
Qed.

Lemma guest_timeout_timeval seconds micros :
  is_i64 seconds -> is_i64 micros ->
  guest_timeout_to_windows (timeval seconds micros) = to_le_bytes 4 (timeout_millis seconds micros).
Proof.
  intros Hs Hm. unfold guest_timeout_to_windows, timeval.
  rewrite decide_False by (rewrite length_app, !length_to_le_bytes; lia).
  rewrite take_app_length' by (by rewrite length_to_le_bytes).
  rewrite drop_app_length' by (by rewrite length_to_le_bytes).
  rewrite firstn_all2 by (by rewrite length_to_le_bytes).
  unfold i64_from_le_bytes. change 64 with (8 * Z.of_nat 8).
  rewrite !signed_from_to_le_bytes; [done|unfold is_i64, i64_max in *; simpl; lia..].
Qed.

(** * Properties *)

(** C30. Socket timeouts: a [timeval] the guest sets reaches WinSock as a
    [DWORD] of milliseconds, rounded up and clamped to 32 bits; reading it back
    gives a [timeval] of exactly those milliseconds.  Below the clamp the guest
    reads back its own timeout, at most a millisecond longer and never shorter,
    and a positive timeout never becomes 0, which would mean to wait forever. *)
Theorem win_timeout_roundtrip seconds micros :
  is_i64 seconds -> 0 <= micros < 1000000 ->
  let total := 1000000 * seconds + micros in
  let windows := guest_timeout_to_windows (timeval seconds micros) in
  let millis := from_le_bytes windows in
  length windows = 4%nat /\ 0 <= millis <= u32_max /\
  (u32_max * 1000 < total -> millis = u32_max) /\ (total <= 0 -> millis = 0) /\
  (0 <= total <= u32_max * 1000 -> total <= 1000 * millis < total + 1000) /\
  exists seconds' micros', windows_timeout_to_guest windows 16 = timeval seconds' micros' /\
    0 <= micros' < 1000000 /\ 1000000 * seconds' + micros' = 1000 * millis.
Proof.
  intros Hs Hm total windows millis.
  assert (is_i64 micros) as Hm64 by (unfold is_i64, i64_max; lia).
  assert (windows = to_le_bytes 4 (timeout_millis seconds micros)) as Hw
    by (by apply guest_timeout_timeval).
  pose proof (timeout_millis_eq seconds micros Hs Hm) as Ht.
  set (q := (micros + 999) / 1000) in *.
  assert (1000 * q <= micros + 999 < 1000 * q + 1000) as Hq.
  { unfold q. pose proof (Z.div_mod (micros + 999) 1000). pose proof (Z.mod_pos_bound (micros + 999) 1000).
    lia. }
  assert (is_u32 (timeout_millis seconds micros)) as Hu.
  { rewrite Ht. unfold is_u32, saturate, u32_max. lia. }
  assert (millis = timeout_millis seconds micros) as Hmi.
  { unfold millis. rewrite Hw. by apply from_to_le_bytes_u32. }
  split; [by rewrite Hw, length_to_le_bytes|]. rewrite Hmi. unfold is_u32 in Hu.
  split; [done|]. rewrite Ht in *. unfold total, saturate, u32_max in *.
  split; [lia|]. split; [lia|]. split; [lia|].
  unfold windows_timeout_to_guest. rewrite decide_False by (rewrite Hw, length_to_le_bytes; lia).
  rewrite firstn_all2 by (by rewrite Hw, length_to_le_bytes). fold millis. rewrite Hmi.
  set (ms := Z.min _ _) in *. eexists _, _. split; [done|].
  rewrite Z.quot_div_nonneg, Z.rem_mod_nonneg by lia.
  pose proof (Z.div_mod ms 1000). pose proof (Z.mod_pos_bound ms 1000). lia.
Qed.

(** [poll] events: the events the guest asks for reach WinSock as the flags
    of the same name, so that reading them back gives exactly the three that can
    be asked for; and of what WinSock reports, each of the six flags reaches the
    guest exactly when it was set, and no other bit does. *)
Lemma win_poll_events_correct (consts := windows_consts) :
  (forall e, windows_poll_events_to_guest (guest_poll_events_to_windows e) =
    Z.land e (Z.lor GUEST_POLLIN (Z.lor GUEST_POLLPRI GUEST_POLLOUT))) /\
  (forall r, Forall (fun gw => Z.land (windows_poll_events_to_guest r) gw.1 =
      if Z.land r gw.2 =? 0 then 0 else gw.1) event_table /\
    0 <= windows_poll_events_to_guest r < 64).
Proof.
  split.
  - intros e. rewrite !Z.land_lor_distr_r.
    change GUEST_POLLIN with (2 ^ 0). change GUEST_POLLPRI with (2 ^ 1).
    change GUEST_POLLOUT with (2 ^ 2). rewrite !land_pow2 by done.
    unfold guest_poll_events_to_windows, poll_bit.
    change GUEST_POLLIN with (2 ^ 0). change GUEST_POLLPRI with (2 ^ 1).
    change GUEST_POLLOUT with (2 ^ 2). rewrite !land_pow2 by done.
    by destruct (Z.testbit e 0), (Z.testbit e 1), (Z.testbit e 2).
  - intros r. unfold windows_poll_events_to_guest, poll_bit, event_table.
    rewrite !Forall_cons, Forall_nil. cbn [fst snd].
    destruct (Z.land r ws_POLLIN =? 0), (Z.land r ws_POLLPRI =? 0), (Z.land r ws_POLLOUT =? 0),
      (Z.land r ws_POLLERR =? 0), (Z.land r ws_POLLHUP =? 0), (Z.land r ws_POLLNVAL =? 0);
      by vm_compute.
Qed.

(** C28. [poll] on Windows implements its specification. When the array is in
    range, every nonnegative descriptor in it is open and [WSAPoll] succeeds, it
    has been given an ignored entry for each negative descriptor and the socket
    with the translated events for each other one, its count is returned, and
    exactly the two [revents] bytes of each entry have been replaced: by 0 for
    an ignored entry, by the translated answer otherwise; no other cell of the
    memory has changed. *)
Theorem win_poll_correct {W} `{!WinSock W} `{consts : WinSockConsts}
    net (ptr : nat) nfds timeout bytes entries fds' rc error w data l (s : WinSt W) :
  0 <= nfds <= MAX_POLL_FDS -> Z.of_nat ptr + 8 * nfds <= i32_max ->
  mem_bytes (mem s) = Some data ->
  read_spec (mem s) (Z.of_nat ptr) (8 * nfds) = Ok bytes ->
  win_poll_entries (table s) (chunks_exact 8 bytes) = Ok entries ->
  ws_poll entries.*1 timeout (os s) = ((rc, fds', error), w) -> rc <> ws_SOCKET_ERROR ->
  length fds' = length entries -> Z.of_nat (length entries) = nfds ->
  exists data',
    run (win_sock_import net (KPoll (Z.of_nat ptr) nfds timeout)) (l, s) =
      (Done rc, (default l error,
        Build_WinSt (update_data (fun _ => data') (mem s)) (table s) (WINSOCK s) w)) /\
    length data' = length data /\
    (forall j p ignore k, fds' !! j = Some p -> entries.*2 !! j = Some ignore -> (k < 2)%nat ->
      data' !! (ptr + 8 * j + 6 + k)%nat =
        to_le_bytes 2 (if ignore : bool then 0
                       else windows_poll_events_to_guest (pfd_revents p)) !! k) /\
    (forall a, (forall j, (j < length fds')%nat -> ~ (ptr + 8 * j + 6 <= a < ptr + 8 * j + 8)%nat) ->
      data' !! a = data !! a).
Proof.
  intros Hn Hmax Hm Hread Hents Hpoll Hrc Hlen Hcount.
  set (out := zip_with guest_revents fds' entries.*2).
  assert (length out = length fds') as Hout.
  { unfold out. rewrite length_zip_with, length_fmap. lia. }
  assert ((ptr + 8 * (0 + length fds') <= length data)%nat) as Hrange.
  { unfold read_spec in Hread. rewrite Hm in Hread. cbn [ok_or result_bind] in Hread.
    destruct (checked_range _ _ _) as [r|] eqn:E; [|done].
    apply checked_range_Ok in E as (_ & ? & ? & ? & ?). lia. }
  exists (put_revents ptr 0 out data). split_and!.
  - cbn [win_sock_import]. unfold win_import_poll, checked_poll_count, unsigned_try_from.
    rewrite decide_True by lia. cbn [ok_or result_bind]. rewrite decide_False by lia.
    cbn [or_return]. rewrite as_i32_id by (unfold MAX_POLL_FDS in Hn; bounds).
    rewrite Z.mul_comm. erewrite run_win_mem_read by exact Hread.
    rewrite run_bind, run_win_poll_fds, Hents. cbn [or_return].
    rewrite run_bind, run_ws, Hpoll. cbn [fst snd].
    destruct (Z.eqb_spec rc ws_SOCKET_ERROR); [done|].
    rewrite run_bind.
    pose proof (run_win_write_revents ptr 0 fds' entries.*2 (default l error) (with_os w s) data
      ltac:(by rewrite length_fmap) Hm Hrange ltac:(lia)) as Hw.
    change (Z.of_nat 0) with 0 in Hw. rewrite Hw.
    cbn [or_return]. rewrite run_ret. unfold with_os, put, mem_lens. cbn [mem table os WINSOCK fst snd].
    do 3 f_equal. apply update_data_ext. intros d Hd. by simplify_eq.
  - apply put_revents_length. lia.
  - intros j p ignore k Hj Hi Hk.
    rewrite <- (Nat.add_0_l j) at 1. erewrite (put_revents_field ptr 0 out data j); [|lia| |done].
    2:{ unfold out. rewrite lookup_zip_with, Hj, Hi. reflexivity. }
    done.
  - intros a Ha. apply put_revents_outside; [lia|]. intros j Hj. apply Ha. lia.
Qed.

(** * Concrete runs *)

(** 2.0015 seconds become 2002 milliseconds. *)
Lemma win_timeout_roundtrip_witness :
  from_le_bytes (guest_timeout_to_windows (timeval 2 1500)) = 2002 /\
  2001500 <= 1000 * 2002 < 2001500 + 1000.
Proof.
  split; [vm_compute; reflexivity|].
  pose proof (win_timeout_roundtrip 2 1500) as H.
  destruct H as (_ & _ & _ & _ & H & _); [by compute|by compute|].
  change (from_le_bytes (guest_timeout_to_windows (timeval 2 1500))) with 2002 in H.
  apply H. by compute.
Defined.

Section Demo.
Local Existing Instance windows_consts.

(** One socket open, and a poll of it next to an ignored entry whose [revents]
  hold garbage. *)
Definition win_demo_poll : WinSt MemWinSock :=
  Build_WinSt
    (Some (ExtMemory ([16; 39; 0; 0; 5; 0; 9; 9] ++ [255; 255; 255; 255; 1; 0; 9; 9])))
    {| next_fd := 10001;
       sockets := {[ 10000 := {| raw_socket := 256; guest_domain := 1; host_domain := 2;
                                 status_flags := 0 |} ]} |}
    (Some (Ok tt)) (Build_MemWinSock true 260 {[ 256 ]} ∅ [] []).

Lemma win_poll_correct_witness :
  exists data', run (win_sock_import true (KPoll 0 2 100)) (0, win_demo_poll) =
    (Done 1, (0, Build_WinSt (Some (ExtMemory data')) (table win_demo_poll) (Some (Ok tt))
      (os win_demo_poll))) /\
    data' = [16; 39; 0; 0; 5; 0; 5; 0] ++ [255; 255; 255; 255; 1; 0; 0; 0].
Proof.
  destruct (win_poll_correct true 0 2 100
    ([16; 39; 0; 0; 5; 0; 9; 9] ++ [255; 255; 255; 255; 1; 0; 9; 9])
    [({| pfd_fd := 256; pfd_events := 784; pfd_revents := 0 |}, false); (ignored_entry, true)]
    [{| pfd_fd := 256; pfd_events := 784; pfd_revents := 784 |}; ignored_entry]
    1 None (os win_demo_poll)
    ([16; 39; 0; 0; 5; 0; 9; 9] ++ [255; 255; 255; 255; 1; 0; 9; 9]) 0 win_demo_poll)
    as (data' & Hr & _); try (vm_compute; reflexivity).
  - by compute.
  - by compute.
  - by compute.
  - exists data'. split; [exact Hr|].
    assert ((run (win_sock_import true (KPoll 0 2 100)) (0, win_demo_poll)).2.2.(mem) =
      Some (ExtMemory ([16; 39; 0; 0; 5; 0; 5; 0] ++ [255; 255; 255; 255; 1; 0; 0; 0]))) as Hm
      by (vm_compute; reflexivity).
    change (Z.of_nat 0) with 0 in Hr. rewrite Hr in Hm. cbn in Hm. by injection Hm.
Defined.
End Demo.
