(* ===== verification/WinSocketTotal.v ===== *)
(** Totality of the Windows socket imports: every call returns, whatever the
    guest passes, with a value the guest understands. *)

From S2P Require Import Prelude.
From S2P Require Import Prog.
From S2P Require Import GuestErrno.
From S2P Require Import GuestMemory.
From S2P Require Import FdTable.
From S2P Require Import HostSockets.
From S2P Require Import HostSocketsProofs.
From S2P Require Import SocketCalls.
From S2P Require Import SocketTotal.
From S2P Require Import HostSocketsWindows.
From S2P Require Import MemWinSock.
From S2P Require Import WinSocketSafety.
Local Open Scope rust_scope.
Local Open Scope prog_scope.

(** * Specification *)

(** A result that is a failure or not negative. *)
Definition ws_status `{consts : WinSockConsts} (rc : Z) : Prop := rc = ws_SOCKET_ERROR \/ 0 <= rc.

(** A failure, or a count within the buffer, whose size stays. *)
Definition ws_fits `{consts : WinSockConsts} (buf : list Z) (rc : Z) (buf' : list Z) : Prop :=
  rc = ws_SOCKET_ERROR \/ (0 <= rc <= Z.of_nat (length buf) /\ length buf' = length buf).

(** What WinSock documents: a call fails with [SOCKET_ERROR] or gives a count of
    what it did, at most the buffer's size, and leaves a buffer's size as it is. *)
Class WinSockLaws (W : Type) `{!WinSock W} `{consts : WinSockConsts} : Prop := {
  ws_bind_status : forall k a w, ws_status (ws_bind k a w).1.1;
  ws_listen_status : forall k b w, ws_status (ws_listen k b w).1.1;
  ws_connect_status : forall k a w, ws_status (ws_connect k a w).1.1;
  ws_setsockopt_status : forall k l o v w, ws_status (ws_setsockopt k l o v w).1.1;
  ws_send_status : forall k b f w, ws_status (ws_send k b f w).1.1;
  ws_sendto_status : forall k b f a w, ws_status (ws_sendto k b f a w).1.1;
  ws_shutdown_status : forall k h w, ws_status (ws_shutdown k h w).1.1;
  ws_closesocket_status : forall k w, ws_status (ws_closesocket k w).1.1;
  ws_recv_fits : forall k buf f w,
    let r := (ws_recv k buf f w).1.1 in ws_fits buf r.1 r.2;
  ws_recvfrom_fits : forall k buf f a n w,
    let r := (ws_recvfrom k buf f a n w).1.1 in ws_fits buf r.1 r.2.1;
  ws_poll_fits : forall fds t w,
    let r := (ws_poll fds t w).1.1 in
    r.1 = ws_SOCKET_ERROR \/ (0 <= r.1 /\ length r.2 = length fds)
}.

(** The table is well formed and its status flags are those of the guest ABI;
    a failed [WSAStartup] left a guest errno. *)
Record win_ok {W} (s : WinSt W) : Prop := {
  ok_wf : win_wf (table s);
  ok_flags : map_Forall (fun _ k => status_flags k = 0 \/ status_flags k = GUEST_O_NONBLOCK)
               (sockets (table s));
  ok_started : forall e, WINSOCK s = Some (Err e) -> e ∈ guest_errnos
}.

(** * Lemmas *)

Section Total.
Context {W : Type} `{!WinSock W} `{consts : WinSockConsts} `{!WinSockLaws W}.
#[local] Abbreviation I := (fun ls : Z * WinSt W => win_ok ls.2).
#[local] Abbreviation ok := sock_result.
#[local] Abbreviation call := (prog (Z * WinSt W)).

Lemma win_ok_mem m (ls : Z * WinSt W) : I ls -> I (put mem_lens m ls).
Proof. by intros []. Qed.

Lemma win_ok_os w (s : WinSt W) : win_ok s -> win_ok (with_os w s).
Proof. by intros []. Qed.

Lemma socket_errno_guest code : code <> 0 -> socket_errno code ∈ guest_errnos.
Proof.
  intros Hc. unfold socket_errno. destruct (Z.eqb_spec code 0); [done|].
  repeat match goal with |- (if ?b then _ else _) ∈ _ => destruct b; [compute_decision|] end.
  compute_decision.
Qed.

Lemma ok_errno code : ok (neg_errno (socket_errno code)).
Proof.
  destruct (decide (code = 0)) as [->|Hc]; [by left|]. by apply sock_error, socket_errno_guest.
Qed.

Lemma total_ws {A} (Q : A -> Prop) (f : W -> (A * option Z) * W) :
  (forall w, Q (f w).1.1) -> ensures I Q (ws f).
Proof.
  intros HQ. apply ensures_atomically. intros [l s] Hs. specialize (HQ (os s)). simpl in *.
  destruct (f (os s)) as [[a e] w]. by destruct Hs.
Qed.

Lemma total_any {A} (f : W -> (A * option Z) * W) : ensures I (fun _ => True) (ws f).
Proof. by apply total_ws. Qed.

Lemma total_last_errno : ensures I ok (neg_last_socket_errno : call Z).
Proof. apply ensures_read. intros ls _. apply ok_errno. Qed.

Lemma total_cvt rc : ws_status rc -> ensures I ok (cvt_socket_i32 rc : call Z).
Proof.
  intros [->|Hrc]; unfold cvt_socket_i32.
  - rewrite Z.eqb_refl. apply total_last_errno.
  - destruct (rc =? _); [apply total_last_errno|]. by apply ensures_ret; left.
Qed.

(** A WinSock call whose result goes through [cvt_socket_i32]. *)
Lemma total_ws_cvt (f : W -> (Z * option Z) * W) :
  (forall w, ws_status (f w).1.1) -> ensures I ok (rc <- ws f;; cvt_socket_i32 rc).
Proof.
  intros Hf. apply (ensures_bind I ws_status); [by apply total_ws|]. intros rc. apply total_cvt.
Qed.

Lemma total_win_write ptr bytes : ensures I errs_in_guest (win_mem_write ptr bytes : call _).
Proof. apply (total_mem_write I mem_lens). intros m ls. apply win_ok_mem. Qed.

Lemma total_win_with_socket fd (k : WinHostSocket -> call Z) :
  (forall socket, status_flags socket = 0 \/ status_flags socket = GUEST_O_NONBLOCK ->
    ensures I ok (k socket)) ->
  ensures I ok (win_with_socket fd k).
Proof.
  intros Hk. apply (ensures_bind I (fun r => match r with
    | Ok socket => status_flags socket = 0 \/ status_flags socket = GUEST_O_NONBLOCK
    | Err e => e ∈ guest_errnos end)).
  - apply ensures_read. intros ls Hs. destruct (sockets (table ls.2) !! fd) as [k'|] eqn:E; simpl.
    + exact (ok_flags _ Hs fd k' E).
    + compute_decision.
  - intros [socket|e] Hr; [by apply Hk|]. by apply ensures_ret, sock_error.
Qed.

Lemma total_win_read ptr len (k : list Z -> call Z) :
  (forall bytes, ensures I ok (k bytes)) -> ensures I ok (win_mem_read ptr len k).
Proof.
  intros Hk. apply (ensures_bind I errs_in_guest).
  - apply ensures_zoom; [apply _|intros m ls; apply win_ok_mem|]. intros m. rewrite run_read_guest.
    eauto using read_spec_errs.
  - intros r Hr. by apply total_or_return.
Qed.

Lemma total_win_read_len ptr (k : Z -> call Z) :
  (forall n, ensures I ok (k n)) -> ensures I ok (win_mem_read_len ptr k).
Proof.
  intros Hk. apply (ensures_bind I errs_in_guest).
  - apply ensures_zoom; [apply _|intros m ls; apply win_ok_mem|]. intros m. rewrite run_read_u32.
    eexists _, _. split; [done|]. pose proof (read_spec_errs m ptr 4). by destruct (read_spec m ptr 4).
  - intros r Hr. apply total_or_return; [|done]. destruct r as [v|e]; simpl; [|done].
    unfold checked_sockaddr_len. destruct (i32_try_from v); simpl; [|compute_decision].
    apply checked_len_errs.
Qed.

Lemma total_win_close k : ensures I (fun _ => True) (close_socket k : call unit).
Proof. apply (ensures_bind I (fun _ => True)); [apply total_any|]. intros. by apply ensures_ret. Qed.

Lemma total_win_cleanup {A} (r : result A) k (c : A -> call Z) :
  errs_in_guest r -> (forall a, ensures I ok (c a)) -> ensures I ok (or_cleanup r (close_socket k) c).
Proof.
  intros Hr Hc. destruct r as [a|e]; cbn [or_cleanup]; [apply Hc|].
  apply (ensures_bind I (fun _ => True)); [apply total_win_close|].
  intros _ _. by apply ensures_ret, sock_error.
Qed.

Lemma total_win_insert k :
  status_flags k = 0 \/ status_flags k = GUEST_O_NONBLOCK ->
  ensures I ok (win_insert_socket k : call Z).
Proof.
  intros Hk. apply ensures_atomically. intros [l s] [Hwf Hf Hst]. simpl in *. split.
  - constructor; [exact (fd_wf_insert GUEST_FD_BASE k (table s) Hwf)| |done].
    by apply map_Forall_insert_2.
  - left. destruct (wf_next _ _ Hwf) as [Hb _]. simpl in *. unfold GUEST_FD_BASE in Hb. lia.
Qed.

Lemma land_nonblock arg :
  Z.land arg GUEST_O_NONBLOCK = 0 \/ Z.land arg GUEST_O_NONBLOCK = GUEST_O_NONBLOCK.
Proof.
  change GUEST_O_NONBLOCK with (2 ^ 2). rewrite land_pow2 by done.
  destruct (Z.testbit arg 2); [by right|by left].
Qed.

(** The writes of a buffer and of an address and its length that end calls. *)
Lemma total_win_bytes ptr bytes (k : call Z) :
  ensures I ok k -> ensures I ok (w <- win_mem_write ptr bytes;; or_return neg_errno w (fun _ => k)).
Proof.
  intros Hk. apply (ensures_bind I errs_in_guest); [apply total_win_write|]. intros w Hw.
  by apply total_or_return.
Qed.

Lemma total_win_address addr len d ptr len_ptr (k : call Z) :
  bad_length len addr = false -> ensures I ok k ->
  ensures I ok (or_panic (slice_to (denormalize_sockaddr_for_guest addr d) (as_usize len))
    (fun addr => w <- win_mem_write ptr addr;; or_return neg_errno w (fun _ =>
      w <- write_guest_u32 len_ptr (as_u32 len);; or_return neg_errno w (fun _ => k)))).
Proof.
  intros Hb Hk. apply (good_address_slice _ _ d) in Hb as [b ->]. cbn [or_panic].
  apply total_win_bytes, total_win_bytes, Hk.
Qed.

(** A received count within the buffer. *)
Lemma received_slice rc buf :
  0 <= rc <= Z.of_nat (length buf) -> Z.of_nat (length buf) <= MAX_IO_LEN ->
  slice_to buf (as_usize rc) = Some (take (Z.to_nat rc) buf).
Proof.
  intros Hrc Hlen. unfold slice_to, as_usize, as_u64, wrap_unsigned, MAX_IO_LEN in *.
  rewrite Z.mod_small by lia. by rewrite decide_True by lia.
Qed.

Lemma total_win_socket net d t p : ensures I ok (win_import_socket net d t p : call Z).
Proof.
  unfold win_import_socket. destruct (negb net).
  { apply ensures_ret, sock_error. compute_decision. }
  apply (ensures_bind I errs_in_guest).
  { apply ensures_atomically. intros [l s] Hs. cbn [snd] in *. destruct (WINSOCK s) as [[[]|e]|] eqn:E.
    - done.
    - split; [done|]. by apply (ok_started _ Hs).
    - destruct (ws_startup (os s)) as [rc w]. destruct Hs as [Hwf Hf _]. cbn [fst snd].
      destruct (Z.eqb_spec rc 0); (split; [constructor; [done..|]|]); cbn [WINSOCK]; try done.
      + intros e [= <-]. by apply socket_errno_guest.
      + by apply socket_errno_guest. }
  intros r Hr. apply total_or_return; [done|]. intros _. apply total_or_return.
  { unfold win_normalize_socket_type. repeat case_match; simpl; try done; simplify_eq/=;
      compute_decision. }
  intros st. cbv zeta. apply (ensures_bind I (fun _ => True)); [apply total_any|]. intros k _.
  destruct (k =? ws_INVALID_SOCKET); [apply total_last_errno|].
  destruct (nonblocking st); [|by apply total_win_insert; left].
  apply (ensures_bind I (fun _ => True)); [apply total_any|]. intros rc _.
  destruct (rc =? ws_SOCKET_ERROR); [|by apply total_win_insert; right].
  apply (ensures_bind I (fun _ => True)); [apply total_win_close|]. intros _ _.
  apply total_last_errno.
Qed.

Lemma total_win_accept fd ptr lp : ensures I ok (win_import_accept fd ptr lp : call Z).
Proof.
  apply total_win_with_socket. intros socket Hf. apply total_win_read_len. intros n.
  apply (ensures_bind I (fun _ => True)); [apply total_any|]. intros [acc [addr len]] _.
  destruct (acc =? ws_INVALID_SOCKET); [apply total_last_errno|].
  destruct (bad_length len addr) eqn:Hb.
  { apply (ensures_bind I (fun _ => True)); [apply total_win_close|]. intros _ _.
    apply ensures_ret, sock_error. compute_decision. }
  cbv zeta. apply (good_address_slice _ _ (guest_domain socket)) in Hb as [b ->]. cbn [or_panic].
  apply (ensures_bind I errs_in_guest); [apply total_win_write|]. intros w Hw.
  apply total_win_cleanup; [done|]. intros _.
  apply (ensures_bind I errs_in_guest); [apply total_win_write|]. intros w' Hw'.
  apply total_win_cleanup; [done|]. intros _. by apply total_win_insert.
Qed.

Lemma total_socket_name fd ptr lp kind : ensures I ok (socket_name fd ptr lp kind : call Z).
Proof.
  apply total_win_with_socket. intros socket Hf. apply total_win_read_len. intros n.
  apply (ensures_bind I (fun _ => True)); [apply total_any|]. intros [rc [addr len]] _.
  destruct (rc =? ws_SOCKET_ERROR); [apply total_last_errno|].
  destruct (bad_length len addr) eqn:Hb; [apply ensures_ret, sock_error; compute_decision|].
  apply total_win_address; [done|]. by apply ensures_ret; left.
Qed.

Lemma total_win_getsockopt fd l o vp lp : ensures I ok (win_import_getsockopt fd l o vp lp : call Z).
Proof.
  apply total_win_with_socket. intros socket Hf. apply total_win_read_len. intros n.
  destruct (normalize_socket_option l o) as [hl ho]. cbv zeta.
  apply (ensures_bind I (fun _ => True)); [apply total_any|]. intros [rc [v len]] _.
  destruct (rc =? ws_SOCKET_ERROR); [apply total_last_errno|].
  destruct (bad_length len v) eqn:Hb; [apply ensures_ret, sock_error; compute_decision|].
  apply good_length_slice in Hb as [b ->]. cbn [or_panic].
  apply total_win_bytes, total_win_bytes. by apply ensures_ret; left.
Qed.

(** A buffer of a checked length. *)
Lemma received_bounds rc len n buf :
  checked_len len = Ok n ->
  0 <= rc <= Z.of_nat (length (replicate (Z.to_nat n) 0)) ->
  length buf = length (replicate (Z.to_nat n) 0) ->
  slice_to buf (as_usize rc) = Some (take (Z.to_nat rc) buf).
Proof.
  intros [-> Hn]%checked_len_Ok Hrc Hb. apply received_slice; rewrite Hb; [done|].
  rewrite length_replicate. lia.
Qed.

Lemma total_win_recv fd ptr len flags : ensures I ok (win_import_recv fd ptr len flags : call Z).
Proof.
  apply total_win_with_socket. intros socket Hf. pose proof (checked_len_errs len) as Hlen.
  destruct (checked_len len) as [n|e] eqn:En; [|by apply ensures_ret, sock_error]. cbn [or_return].
  apply (ensures_bind I (fun r => ws_fits (replicate (Z.to_nat n) 0) r.1 r.2)).
  { apply total_ws. intros w. apply ws_recv_fits. }
  intros [rc buf] Hfit. cbn [fst snd] in Hfit.
  destruct (Z.eqb_spec rc ws_SOCKET_ERROR) as [|Hne]; [apply total_last_errno|].
  destruct Hfit as [|[Hrc Hb]]; [done|]. erewrite received_bounds by done. cbn [or_panic].
  apply total_win_bytes. apply ensures_ret. left. lia.
Qed.

Lemma total_win_recvfrom fd ptr len flags ap lp :
  ensures I ok (win_import_recvfrom fd ptr len flags ap lp : call Z).
Proof.
  apply total_win_with_socket. intros socket Hf. pose proof (checked_len_errs len) as Hlen.
  destruct (checked_len len) as [n|e] eqn:En; [|by apply ensures_ret, sock_error]. cbn [or_return].
  apply total_win_read_len. intros m.
  apply (ensures_bind I (fun r => ws_fits (replicate (Z.to_nat n) 0) r.1 r.2.1)).
  { apply total_ws. intros w. apply ws_recvfrom_fits. }
  intros [rc [buf [addr alen]]] Hfit. cbn [fst snd] in Hfit.
  destruct (Z.eqb_spec rc ws_SOCKET_ERROR) as [|Hne]; [apply total_last_errno|].
  destruct Hfit as [|[Hrc Hb]]; [done|].
  destruct (bad_length alen addr) eqn:Ha; [apply ensures_ret, sock_error; compute_decision|].
  erewrite received_bounds by done. cbn [or_panic]. cbv zeta.
  apply total_win_bytes, total_win_address; [done|]. apply ensures_ret. left. lia.
Qed.

Lemma win_ok_set_flags fd f (s : WinSt W) :
  win_ok s -> f = 0 \/ f = GUEST_O_NONBLOCK ->
  win_ok (with_table (set_status_flags fd f (table s)).2 s).
Proof.
  intros [Hwf Hf Hst] Hok. constructor; [by apply win_wf_flags| |done]. cbn [table with_table].
  unfold set_status_flags. destruct (sockets (table s) !! fd) as [k|] eqn:E; [|done].
  by apply map_Forall_insert_2.
Qed.

Lemma total_win_fcntl fd cmd arg : ensures I ok (win_import_fcntl fd cmd arg : call Z).
Proof.
  apply total_win_with_socket. intros socket Hf. destruct (cmd =? GUEST_F_GETFL).
  { apply ensures_ret. left. by destruct Hf as [-> | ->]. }
  destruct (cmd =? GUEST_F_SETFL); [|apply ensures_ret, sock_error; compute_decision].
  cbv zeta. apply (ensures_bind I (fun _ => True)); [apply total_any|]. intros rc _.
  destruct (rc =? ws_SOCKET_ERROR); [apply total_last_errno|].
  apply (ensures_bind I errs_in_guest).
  - apply ensures_atomically. intros [l s] Hs. cbn [snd] in *.
    pose proof (win_ok_set_flags fd (Z.land arg GUEST_O_NONBLOCK) s Hs (land_nonblock arg)) as Hs'.
    assert (errs_in_guest (set_status_flags fd (Z.land arg GUEST_O_NONBLOCK) (table s)).1).
    { unfold set_status_flags. destruct (sockets (table s) !! fd); simpl; [done|compute_decision]. }
    by destruct (set_status_flags fd _ (table s)).
  - intros r Hr. apply total_or_return; [done|]. intros _. by apply ensures_ret; left.
Qed.

Lemma total_win_poll_fds chunks : ensures I errs_in_guest (win_poll_fds chunks : call _).
Proof.
  induction chunks as [|c cs IH]; cbn [win_poll_fds]; [by apply ensures_ret|].
  apply (ensures_bind I errs_in_guest).
  - destruct (_ <? 0); [by apply ensures_ret|]. apply (ensures_bind I errs_in_guest).
    + apply ensures_read. intros ls _. destruct (_ !! _); simpl; [done|compute_decision].
    + intros [k|e] Hr; by apply ensures_ret.
  - intros [entry|e] Hr; [|by apply ensures_ret]. apply (ensures_bind I errs_in_guest); [done|].
    intros [es|e] Hes; by apply ensures_ret.
Qed.

Lemma total_win_write_revents ptr i fds ignored :
  length fds = length ignored ->
  ensures I errs_in_guest (win_write_revents ptr i fds ignored : call _).
Proof.
  revert i ignored. induction fds as [|p fds IH]; intros i [|ig ignored] Hlen; try done;
    cbn [win_write_revents]; [by apply ensures_ret|]. injection Hlen as Hlen.
  apply (ensures_bind I errs_in_guest); [apply total_win_write|].
  intros [[]|e] Hw; [by apply IH|by apply ensures_ret].
Qed.

Lemma total_win_poll ptr nfds timeout : ensures I ok (win_import_poll ptr nfds timeout : call Z).
Proof.
  apply total_or_return.
  { unfold checked_poll_count, unsigned_try_from.
    case_decide; simpl; [case_decide|]; simpl; try done; compute_decision. }
  intros n. apply total_win_read. intros bytes.
  apply (ensures_bind I errs_in_guest); [apply total_win_poll_fds|].
  intros r Hr. apply total_or_return; [done|]. intros entries.
  apply (ensures_bind I (fun r => r.1 = ws_SOCKET_ERROR \/
    (0 <= r.1 /\ length r.2 = length entries.*1))).
  { apply total_ws. intros w. apply ws_poll_fits. }
  intros [rc fds] Hfit. cbn [fst snd] in Hfit.
  destruct (Z.eqb_spec rc ws_SOCKET_ERROR) as [|Hne]; [apply total_last_errno|].
  destruct Hfit as [|[Hrc Hl]]; [done|].
  apply (ensures_bind I errs_in_guest).
  { apply total_win_write_revents. by rewrite Hl, !length_fmap. }
  intros w Hw. apply total_or_return; [done|]. intros _. by apply ensures_ret; left.
Qed.

Lemma total_win_close_import fd : ensures I ok (win_import_close fd : call Z).
Proof.
  apply (ensures_bind I errs_in_guest).
  - apply ensures_atomically. intros [l s] [Hwf Hf Hst]. simpl in *. split.
    + constructor; [exact (fd_wf_remove GUEST_FD_BASE fd (table s) Hwf)| |done].
      by apply map_Forall_delete.
    + destruct (_ !! fd); simpl; [done|compute_decision].
  - intros r Hr. apply total_or_return; [done|]. intros socket.
    apply total_ws_cvt, ws_closesocket_status.
Qed.

Lemma total_win_import net c : ensures I ok (win_sock_import net c : call Z).
Proof.
  destruct c; cbn [win_sock_import];
    lazymatch goal with
    | |- context [win_import_socket] => apply total_win_socket
    | |- context [win_import_accept] => apply total_win_accept
    | |- context [socket_name] => apply total_socket_name
    | |- context [win_import_getsockopt] => apply total_win_getsockopt
    | |- context [win_import_recv] => apply total_win_recv
    | |- context [win_import_recvfrom] => apply total_win_recvfrom
    | |- context [win_import_close] => apply total_win_close_import
    | |- context [win_import_fcntl] => apply total_win_fcntl
    | |- context [win_import_poll] => apply total_win_poll
    | _ => apply total_win_with_socket; intros socket Hf
    end.
  1-3,5-7: try apply total_win_read; intros; try apply total_win_read; intros; cbv zeta;
    apply total_ws_cvt;
    auto using ws_bind_status, ws_listen_status, ws_connect_status, ws_send_status,
      ws_sendto_status, ws_shutdown_status.
  all: apply total_win_read; intros v; destruct (normalize_socket_option level optname);
    apply total_ws_cvt, ws_setsockopt_status.
Qed.
End Total.

Lemma win_ok_new {W} m (w : W) : win_ok (Build_WinSt m win_new None w).
Proof. constructor; [exact win_new_wf|apply map_Forall_empty|done]. Qed.

(** * Properties *)

(** C11. Every Windows socket import ends, without a panic, whatever the guest
    passes and whatever address lengths WinSock reports, with a value of the call
    or the negation of one of the guest's errnos; the table stays well formed,
    with status flags that are only [O_NONBLOCK]. *)
Theorem win_sock_import_returns {W} `{!WinSock W} `{consts : WinSockConsts} `{!WinSockLaws W}
    net c l (s : WinSt W) :
  win_ok s ->
  exists rc l' s', run (win_sock_import net c) (l, s) = (Done rc, (l', s')) /\ win_ok s' /\
    sock_result rc.
Proof.
  intros Hs. destruct (total_win_import net c (l, s) Hs) as (rc & [l' s'] & Hr & Hs' & Hrc).
  by exists rc, l', s'.
Qed.

(** * The in-memory WinSock *)

Section Demo.
Local Existing Instance windows_consts.

#[export] Instance mem_winsock_laws : WinSockLaws MemWinSock.
Proof.
  assert (forall k z w w', 0 <= z -> ws_status (if_socket k ((z, None), w') w).1.1) as Hif.
  { intros k z w w' Hz. unfold if_socket. case_decide; simpl; [by right|by left]. }
  assert (forall data buf, length (fill data buf) = length buf) as Hfill.
  { intros data buf. unfold fill. rewrite length_app, length_take, length_drop. lia. }
  constructor.
  1-8: intros; apply Hif; lia.
  - intros k buf f w. cbn [ws_recv mem_winsock]. case_decide; [right|by left].
    cbn [fst snd]. rewrite Hfill. lia.
  - intros k buf f a n w. cbn [ws_recvfrom mem_winsock]. unfold win_address.
    case_decide; [right|by left]. cbn [fst snd Z.ltb Z.compare]. rewrite Hfill. lia.
  - intros fds t w. right. cbn [ws_poll mem_winsock fst snd]. rewrite length_fmap. lia.
Qed.

(** A guest that leaves room for four bytes of an address: the connection is
  refused with an error, where the Unix code panics. *)
Lemma win_sock_import_returns_witness :
  let s := Build_WinSt (Some (ExtSharedMemory ([4; 0; 0; 0] ++ replicate 12 0))) win_new None
    mem_winsock_init in
  let '(_, (l1, s1)) := run (win_sock_import true (KSocket 1 6 0)) (0, s) in
  (run (win_sock_import true (KAccept 10000 8 0)) (l1, s1)).1 = Done (neg_errno EFAULT) /\
  exists rc l' s', run (win_sock_import true (KAccept 10000 8 0)) (l1, s1) = (Done rc, (l', s'))
    /\ win_ok s' /\ sock_result rc.
Proof.
  intros s.
  destruct (win_sock_import_returns true (KSocket 1 6 0) 0 s (win_ok_new _ _))
    as (rc & l1 & s1 & Hr & Hs1 & _).
  rewrite Hr. split; [|exact (win_sock_import_returns true (KAccept 10000 8 0) l1 s1 Hs1)].
  vm_compute in Hr. injection Hr as <- <- <-. vm_compute. reflexivity.
Defined.
End Demo.
