(* ===== verification/ShutdownSignals.v ===== *)
(** Shutdown signals (src/main.rs): the handlers [run] installs and the two imports
    around the shutdown flag.

    [signal_hook] is a parameter, with its documented behaviour as the laws of its
    class. *)

From S2P Require Import Prelude.
From S2P Require Import HostFiles.

(** What the arrival of a signal does to the one flag the program registers. *)
Inductive delivery := FlagBecomes (flag : bool) | ProcessExits (status : Z).

(** [signal_hook]: the actions registered for each signal, and the arrival of a
    signal while the flag has a value. *)
Class SignalHook (K : Type) := {
  SIGINT : Z;
  SIGTERM : Z;
  hook_none : K;
  hook_register : Z -> K -> option K;
  hook_register_conditional_shutdown : Z -> Z -> K -> option K;
  hook_deliver : Z -> bool -> K -> delivery
}.

(** The documentation of [signal_hook::flag]: the actions of a signal run in
    the order of their registration; [register] sets the flag, and
    [register_conditional_shutdown] ends the process if the flag is set. *)
Class SignalHookLaws (K : Type) `{!SignalHook K} : Prop := {
  signals_differ : SIGINT <> SIGTERM;
  deliver_none : forall s b, hook_deliver s b hook_none = FlagBecomes b;
  deliver_register : forall r k k' s b,
    hook_register r k = Some k' ->
    hook_deliver s b k' =
      match hook_deliver s b k with
      | ProcessExits n => ProcessExits n
      | FlagBecomes b' => FlagBecomes (if s =? r then true else b')
      end;
  deliver_conditional : forall r n k k' s b,
    hook_register_conditional_shutdown r n k = Some k' ->
    hook_deliver s b k' =
      match hook_deliver s b k with
      | ProcessExits n' => ProcessExits n'
      | FlagBecomes b' => if (s =? r) && b' then ProcessExits n else FlagBecomes b'
      end
}.

Section Signals.
Context {K : Type} `{!SignalHook K}.

(** [install_shutdown_signal_handlers]; [None] is an error of a registration. *)
Definition install_shutdown_signal_handlers (plat : Platform) (k : K) : option K :=
  match plat with
  | Unix =>
      k ← hook_register_conditional_shutdown SIGINT 1 k;
      k ← hook_register SIGINT k;
      hook_register SIGTERM k
  | Windows => Some k
  end.

(** The process as the flag [shutdown_requested] sees it. *)
Inductive Process := Running (shutdown_requested : bool) | Exited (status : Z).

(** What can raise the flag: the two signals, and the import
  [request_shutdown], which the server calls for SQL [SHUTDOWN]. *)
Inductive ShutdownEvent := CtrlC | Terminate | SqlShutdown.

Definition arrival (s : Z) (k : K) (p : Process) : Process :=
  match p with
  | Exited n => Exited n
  | Running flag =>
      match hook_deliver s flag k with
      | FlagBecomes flag => Running flag
      | ProcessExits n => Exited n
      end
  end.

(** The import [request_shutdown]. *)
Definition request_shutdown (p : Process) : Process :=
  match p with Running _ => Running true | Exited n => Exited n end.

(** The import [shutdown_requested]: [i32::from(flag)]. *)
Definition shutdown_requested (flag : bool) : Z := if flag then 1 else 0.

Definition on_event (k : K) (p : Process) (e : ShutdownEvent) : Process :=
  match e with
  | CtrlC => arrival SIGINT k p
  | Terminate => arrival SIGTERM k p
  | SqlShutdown => request_shutdown p
  end.

Definition run_events (k : K) (es : list ShutdownEvent) (p : Process) : Process :=
  fold_left (on_event k) es p.

(** The specification: the first event asks for a graceful stop; a [Ctrl+C]
  after it exits at once. *)
Definition is_ctrl_c (e : ShutdownEvent) : bool :=
  match e with CtrlC => true | _ => false end.
Definition shutdown_spec (es : list ShutdownEvent) : Process :=
  match es with
  | [] => Running false
  | _ :: later => if existsb is_ctrl_c later then Exited 1 else Running true
  end.

Lemma deliver_installed `{!SignalHookLaws K} k s flag :
  install_shutdown_signal_handlers Unix hook_none = Some k ->
  hook_deliver s flag k =
    if (s =? SIGINT) && flag then ProcessExits 1
    else FlagBecomes (if (s =? SIGINT) || (s =? SIGTERM) then true else flag).
Proof.
  unfold install_shutdown_signal_handlers. intros Hk.
  apply bind_Some in Hk as (k1 & H1 & Hk). apply bind_Some in Hk as (k2 & H2 & H3).
  rewrite (deliver_register _ _ _ s flag H3), (deliver_register _ _ _ s flag H2),
    (deliver_conditional _ _ _ _ s flag H1), deliver_none.
  destruct (s =? SIGINT), (s =? SIGTERM), flag; done.
Qed.

Lemma run_events_exited k es n : run_events k es (Exited n) = Exited n.
Proof. unfold run_events. induction es as [|[] es IH]; simpl; done. Qed.

Lemma run_events_requested `{!SignalHookLaws K} k es :
  install_shutdown_signal_handlers Unix hook_none = Some k ->
  run_events k es (Running true) =
    if existsb is_ctrl_c es then Exited 1 else Running true.
Proof.
  intros Hk. induction es as [|e es IH]; [done|]. unfold run_events in *. simpl.
  pose proof (signals_differ (K := K)) as Hd.
  destruct e; simpl; rewrite ?(deliver_installed k) by done; rewrite ?Z.eqb_refl; cbn [andb orb].
  - apply run_events_exited.
  - destruct (Z.eqb_spec SIGTERM SIGINT); [congruence|]. cbn [andb orb]. apply IH.
  - apply IH.
Qed.
End Signals.

(** A [signal_hook] that keeps its actions in a list. *)
Inductive HookAction := SetFlag (s : Z) | ExitIfSet (s status : Z).

Definition hook_act (s : Z) (d : delivery) (a : HookAction) : delivery :=
  match d with
  | ProcessExits n => ProcessExits n
  | FlagBecomes b =>
      match a with
      | SetFlag r => FlagBecomes (if s =? r then true else b)
      | ExitIfSet r n => if (s =? r) && b then ProcessExits n else FlagBecomes b
      end
  end.

#[export] Instance list_hooks : SignalHook (list HookAction) := {|
  SIGINT := 2;
  SIGTERM := 15;
  hook_none := [];
  hook_register s k := Some (k ++ [SetFlag s]);
  hook_register_conditional_shutdown s n k := Some (k ++ [ExitIfSet s n]);
  hook_deliver s b k := fold_left (hook_act s) k (FlagBecomes b)
|}.

#[export] Instance list_hooks_laws : SignalHookLaws (list HookAction).
Proof.
  constructor; [done|done| |]; intros; simpl in *; simplify_eq; by rewrite fold_left_app.
Qed.

(** * Properties *)

(** C24. The shutdown protocol on Unix: once the handlers are installed, the
    first of a [Ctrl+C], a [SIGTERM] and an SQL [SHUTDOWN] raises the flag the
    server polls and nothing more; the process is ended at once, with status 1,
    exactly by a [Ctrl+C] after that; no number of other requests ends it. *)
Theorem shutdown_protocol {K} `{!SignalHook K} `{!SignalHookLaws K} (k : K) es :
  install_shutdown_signal_handlers Unix hook_none = Some k ->
  run_events k es (Running false) = shutdown_spec es /\
  forall flag, run_events k es (Running false) = Running flag ->
    (shutdown_requested flag = 1 <-> es <> []).
Proof.
  intros Hk. assert (run_events k es (Running false) = shutdown_spec es) as Hrun.
  { destruct es as [|e es]; [done|]. cbn [shutdown_spec].
    rewrite <- (run_events_requested k es) by done. unfold run_events. simpl. f_equal.
    destruct e; simpl; rewrite ?(deliver_installed k) by done; rewrite ?andb_false_r, ?Z.eqb_refl;
      cbn [orb]; by rewrite ?orb_true_r. }
  split; [done|]. intros flag. rewrite Hrun. destruct es as [|e es]; cbn [shutdown_spec].
  - by intros [= <-].
  - destruct (existsb _ _); [done|]. by intros [= <-].
Qed.

(** * A concrete run *)

(** A [SIGTERM], an SQL [SHUTDOWN] and a [Ctrl+C]: the first [Ctrl+C] the user
    presses already ends the process. *)
Lemma shutdown_protocol_witness :
  run_events [ExitIfSet 2 1; SetFlag 2; SetFlag 15] [Terminate; SqlShutdown] (Running false)
    = Running true /\
  run_events [ExitIfSet 2 1; SetFlag 2; SetFlag 15] [Terminate; SqlShutdown; CtrlC] (Running false)
    = Exited 1.
Proof.
  split.
  - exact (proj1 (shutdown_protocol [ExitIfSet 2 1; SetFlag 2; SetFlag 15]
      [Terminate; SqlShutdown] eq_refl)).
  - exact (proj1 (shutdown_protocol [ExitIfSet 2 1; SetFlag 2; SetFlag 15]
      [Terminate; SqlShutdown; CtrlC] eq_refl)).
Defined.
