(* ===== verification/WasiThreads.v ===== *)
(** WASI threads (src/main.rs): [thread-spawn] and its counter, and how the end of
    a thread is reported.  The threads of the operating system are a parameter. *)

From S2P Require Import Prelude.
From S2P Require Import Prog.
From S2P Require Import GuestErrno.
From S2P Require Import HostPath.
Local Open Scope prog_scope.

(** [thread::Builder::spawn] of a thread that runs [wasi_thread_start] with an id
    and the guest's argument: whether the operating system started it. *)
Class ThreadSpawn (O : Type) := { os_spawn : Z -> Z -> O -> bool * O }.

(** The part of [RuntimeEnv] that threads change, and the operating system. *)
Record RuntimeSt (O : Type) := { next_thread_id : Z; threads : O }.
Arguments next_thread_id {O} _.
Arguments threads {O} _.
Arguments Build_RuntimeSt {O} _ _.

(** [RuntimeEnv::next_thread_id] in [run]. *)
Definition first_thread_id : Z := 1.

Section Threads.
Context {O : Type} `{!ThreadSpawn O}.

(** [AtomicI32::fetch_add(1)], which wraps around. *)
Definition fetch_add (s : RuntimeSt O) : Z * RuntimeSt O :=
  (next_thread_id s, Build_RuntimeSt (as_i32 (next_thread_id s + 1)) (threads s)).

(** [spawn_wasi_thread]. *)
Definition spawn_wasi_thread (start_arg : Z) : prog (RuntimeSt O) Z :=
  thread_id <- atomically fetch_add;;
  if thread_id <=? 0 then Ret (neg_errno EAGAIN)
  else
    started <- atomically (fun s =>
      let '(ok, o) := os_spawn thread_id start_arg (threads s) in
      (ok, Build_RuntimeSt (next_thread_id s) o));;
    Ret (if started : bool then thread_id else neg_errno EAGAIN).

(** Calls of [thread-spawn], in the order of their [fetch_add]. *)
Fixpoint spawn_all (args : list Z) : prog (RuntimeSt O) (list Z) :=
  match args with
  | [] => Ret []
  | a :: args => r <- spawn_wasi_thread a;; rs <- spawn_all args;; Ret (r :: rs)
  end.

(** The result of a call whose [fetch_add] returned [id]. *)
Definition spawn_result (id r : Z) : Prop :=
  r = neg_errno EAGAIN \/ (r = id /\ 0 < id).

Lemma run_spawn a s :
  exists r o, run (spawn_wasi_thread a) s =
      (Done r, Build_RuntimeSt (as_i32 (next_thread_id s + 1)) o) /\
    spawn_result (next_thread_id s) r /\ (next_thread_id s <= 0 -> o = threads s).
Proof.
  unfold spawn_wasi_thread. rewrite run_bind, run_atomically. cbn [fst snd fetch_add].
  destruct (Z.leb_spec (next_thread_id s) 0) as [Hle|Hlt].
  - eexists _, _. split; [reflexivity|]. by split; [left|].
  - rewrite run_bind, run_atomically. cbn [threads next_thread_id].
    destruct (os_spawn _ _ _) as [ok o]. cbn [fst snd]. rewrite run_ret.
    eexists _, _. split; [reflexivity|]. split; [|lia]. destruct ok; [by right|by left].
Qed.

Lemma as_i32_succ x : as_i32 (as_i32 x + 1) = as_i32 (x + 1).
Proof.
  unfold as_i32, wrap_signed. f_equal.
  replace ((x + 2 ^ (32 - 1)) mod 2 ^ 32 - 2 ^ (32 - 1) + 1 + 2 ^ (32 - 1))
    with ((x + 2 ^ (32 - 1)) mod 2 ^ 32 + 1) by lia.
  rewrite Zplus_mod_idemp_l. f_equal. lia.
Qed.

Lemma run_spawn_all args x o :
  exists rs o', run (spawn_all args) (Build_RuntimeSt (as_i32 x) o) =
      (Done rs, Build_RuntimeSt (as_i32 (x + Z.of_nat (length args))) o') /\
    length rs = length args /\
    forall i r, rs !! i = Some r -> spawn_result (as_i32 (x + Z.of_nat i)) r.
Proof.
  revert x o. induction args as [|a args IH]; intros x o; cbn [spawn_all].
  { exists [], o. rewrite Z.add_0_r. split_and!; [done..|]. by intros i r. }
  destruct (run_spawn a (Build_RuntimeSt (as_i32 x) o)) as (r & o1 & Hr & Hspec & _).
  rewrite run_bind, Hr. cbn [next_thread_id] in *. rewrite as_i32_succ.
  destruct (IH (x + 1) o1) as (rs & o2 & Hrs & Hlen & Hall).
  rewrite run_bind, Hrs. exists (r :: rs), o2. rewrite run_ret. simpl length.
  split_and!; [do 3 f_equal; lia|lia|].
  intros [|i] r' Hi; simpl in Hi; [simplify_eq; by rewrite Z.add_0_r|].
  replace (x + Z.of_nat (S i)) with (x + 1 + Z.of_nat i) by lia. by apply Hall.
Qed.
End Threads.

(** An operating system that runs at most two threads. *)
#[export] Instance two_threads : ThreadSpawn (list Z) := {|
  os_spawn id _ running :=
    if decide (length running < 2)%nat then (true, running ++ [id]) else (false, running)
|}.

(** * Properties *)

(** C29. Thread ids: whatever threads the operating system starts, the call of
    [thread-spawn] whose turn on the counter is [i] (from 0) is given the id
    [i + 1] or told [EAGAIN]; an id is always positive and within [i32], the
    calls after the last positive id are told [EAGAIN], and no two of the first
    2^32 calls are given the same id. *)
Theorem thread_ids {O} `{!ThreadSpawn O} args (o : O) :
  Z.of_nat (length args) < 2 ^ 32 ->
  exists rs s', run (spawn_all args) (Build_RuntimeSt first_thread_id o) = (Done rs, s') /\
    length rs = length args /\
    (forall i r, rs !! i = Some r ->
      r = neg_errno EAGAIN \/ (r = Z.of_nat i + 1 /\ 0 < r <= i32_max)) /\
    (forall i j r, rs !! i = Some r -> rs !! j = Some r -> 0 < r -> i = j).
Proof.
  intros Hlen. destruct (run_spawn_all args first_thread_id o) as (rs & o' & Hr & Hl & Hall).
  change (as_i32 first_thread_id) with first_thread_id in Hr.
  assert (forall i r, rs !! i = Some r -> r = neg_errno EAGAIN \/
    (r = Z.of_nat i + 1 /\ 0 < r <= i32_max)) as Hspec.
  { intros i r Hi. destruct (Hall i r Hi) as [->|[-> Hpos]]; [by left|right].
    apply lookup_lt_Some in Hi. unfold first_thread_id in *.
    pose proof (as_i32_range (1 + Z.of_nat i)) as Hb.
    assert (1 + Z.of_nat i < 2 ^ 31) as Hsmall.
    { destruct (Z.ltb_spec (1 + Z.of_nat i) (2 ^ 31)) as [|Hge]; [done|].
      assert (as_i32 (1 + Z.of_nat i) = 1 + Z.of_nat i - 2 ^ 32) as Hneg.
      { rewrite <- (as_i32_id (1 + Z.of_nat i - 2 ^ 32)) by (unfold is_i32, i32_min, i32_max; lia).
        unfold as_i32, wrap_signed. f_equal.
        rewrite <- (Z_mod_plus_full (1 + Z.of_nat i - 2 ^ 32 + 2 ^ (32 - 1)) 1). f_equal. lia. }
      lia. }
    rewrite as_i32_id in * by (unfold is_i32, i32_min, i32_max; lia).
    unfold is_i32 in Hb. lia. }
  exists rs, (Build_RuntimeSt (as_i32 (first_thread_id + Z.of_nat (length args))) o').
  split_and!; [done|done|done|]. intros i j r Hi Hj Hpos.
  assert (neg_errno EAGAIN < 0) by done.
  destruct (Hspec i r Hi) as [->|[? _]], (Hspec j _ Hj) as [?|[? _]]; lia.
Qed.

(** * A concrete run *)

(** Three calls where the system runs two threads. *)
Lemma thread_ids_witness :
  (run (spawn_all [0; 0; 0]) (Build_RuntimeSt first_thread_id ([] : list Z))).1 = Done [1; 2; -6] /\
  exists rs s', run (spawn_all [0; 0; 0]) (Build_RuntimeSt first_thread_id ([] : list Z)) =
    (Done rs, s') /\ length rs = 3%nat.
Proof.
  split; [vm_compute; reflexivity|].
  destruct (thread_ids [0; 0; 0] ([] : list Z) ltac:(by compute)) as (rs & s' & Hr & Hl & _).
  exists rs, s'. by split.
Defined.
