(* ===== verification/ImportedMemories.v ===== *)
(** The memories the module imports (src/main.rs): those [run] defines for the
    main thread and those each other thread is given.

    Wasmtime's memories and linker are a parameter, with the documented behaviour
    of [Linker::define] as the laws of its class. *)

From S2P Require Import Prelude.

(** Wasmtime's memories and linker: the types of the module's memory imports,
    shared and private memories, the store, and a linker's definitions. *)
Class Wasmtime (MemoryType Shared Private Store Linker : Type) := {
  is_shared : MemoryType -> bool;
  new_shared_memory : MemoryType -> Store -> option (Shared * Store);
  new_memory : MemoryType -> Store -> option (Private * Store);
  linker_define : string * string -> Shared + Private -> Linker -> option Linker;
  linker_lookup : string * string -> Linker -> option (Shared + Private)
}.

(** The documentation of [Linker::define]: it fails on a name that is already
    defined, and changes nothing else. *)
Class WasmtimeLaws (MemoryType Shared Private Store Linker : Type)
    `{!Wasmtime MemoryType Shared Private Store Linker} : Prop := {
  define_fresh : forall key e l, is_Some (linker_define key e l) <-> linker_lookup key l = None;
  define_lookup : forall key e l l' key',
    linker_define key e l = Some l' ->
    linker_lookup key' l' = if decide (key' = key) then Some e else linker_lookup key' l
}.

(** [ExternType] of an import. *)
Inductive ExternType (MemoryType : Type) := TyMemory (ty : MemoryType) | TyOther.
Arguments TyMemory {MemoryType} ty.
Arguments TyOther {MemoryType}.

(** [ImportedSharedMemory]: module and name, and the memory. *)
Record ImportedSharedMemory (Shared : Type) := { im_key : string * string; im_memory : Shared }.
Arguments im_key {Shared} _.
Arguments im_memory {Shared} _.
Arguments Build_ImportedSharedMemory {Shared} _ _.

Section Memories.
Context {MemoryType Shared Private Store Linker : Type}.
Context `{!Wasmtime MemoryType Shared Private Store Linker}.

(** The loop of [define_imported_memories] over [module.imports()]; [None] is an
  error of an allocation or a definition. *)
Fixpoint define_memories (imports : list ((string * string) * ExternType MemoryType))
    (seen : gset (string * string)) (l : Linker) (store : Store)
  : option (list (ImportedSharedMemory Shared) * (Linker * Store)) :=
  match imports with
  | [] => Some ([], (l, store))
  | (_, TyOther) :: imports => define_memories imports seen l store
  | (key, TyMemory ty) :: imports =>
      if decide (key ∈ seen) then define_memories imports seen l store
      else
        let seen := {[key]} ∪ seen in
        if is_shared ty then
          '(memory, store) ← new_shared_memory ty store;
          l ← linker_define key (inl memory) l;
          '(memories, rest) ← define_memories imports seen l store;
          Some (Build_ImportedSharedMemory key memory :: memories, rest)
        else
          '(memory, store) ← new_memory ty store;
          l ← linker_define key (inr memory) l;
          define_memories imports seen l store
  end.

(** [define_imported_memories]. *)
Definition define_imported_memories imports (l : Linker) (store : Store) :=
  define_memories imports ∅ l store.

(** [define_shared_memories]. *)
Fixpoint define_shared_memories (memories : list (ImportedSharedMemory Shared)) (l : Linker)
  : option Linker :=
  match memories with
  | [] => Some l
  | m :: memories =>
      l ← linker_define (im_key m) (inl (im_memory m)) l;
      define_shared_memories memories l
  end.

(** The type that counts for a name: that of its first memory import. *)
Fixpoint first_memory (key : string * string)
    (imports : list ((string * string) * ExternType MemoryType)) : option MemoryType :=
  match imports with
  | [] => None
  | (key', TyMemory ty) :: imports => if decide (key' = key) then Some ty else first_memory key imports
  | (_, TyOther) :: imports => first_memory key imports
  end.

(** What a name resolves to in the main linker [l'] and in a thread's linker
  [t'], which were [l] and [t] before. *)
Definition memory_agrees (ty : option MemoryType) key (l l' t t' : Linker) : Prop :=
  match ty with
  | None => linker_lookup key l' = linker_lookup key l /\ linker_lookup key t' = linker_lookup key t
  | Some ty =>
      if is_shared ty then
        exists m, linker_lookup key l' = Some (inl m) /\ linker_lookup key t' = Some (inl m)
      else
        (exists m, linker_lookup key l' = Some (inr m)) /\
        linker_lookup key t' = linker_lookup key t
  end.

Context `{!WasmtimeLaws MemoryType Shared Private Store Linker}.

Lemma define_shared_other ms l l' key :
  define_shared_memories ms l = Some l' -> key ∉ im_key <$> ms ->
  linker_lookup key l' = linker_lookup key l.
Proof.
  revert l. induction ms as [|m ms IH]; intros l; simpl; [by intros [= <-]|].
  intros H Hkey. apply bind_Some in H as (l1 & H1 & H2). apply not_elem_of_cons in Hkey as [Hne Hkey].
  rewrite (IH l1) by done. rewrite (define_lookup _ _ _ _ key H1). by rewrite decide_False.
Qed.

(** The memories of the loop are those of names not seen before it. *)
Lemma define_memories_keys imports seen l store ms l' store' key :
  define_memories imports seen l store = Some (ms, (l', store')) ->
  key ∈ im_key <$> ms -> key ∉ seen /\ exists ty, first_memory key imports = Some ty /\ is_shared ty.
Proof.
  revert seen l store ms. induction imports as [|[k [ty|]] imports IH]; intros seen l store ms; simpl.
  - intros [= <- _ _] Hk. by apply not_elem_of_nil in Hk.
  - case_decide as Hseen.
    { intros H Hk. destruct (IH _ _ _ _ H Hk) as [Hns Hex]. split; [done|].
      rewrite decide_False by (intros ->; done). done. }
    destruct (is_shared ty) eqn:Hsh; intros H.
    + apply bind_Some in H as ([m st] & _ & H). apply bind_Some in H as (l1 & _ & H).
      apply bind_Some in H as ([ms' [l2 st2]] & H & [= <- <- <-]). simpl.
      intros [->|Hk]%elem_of_cons; [simpl; split; [done|]; rewrite decide_True by done; eauto|].
      destruct (IH _ _ _ _ H Hk) as [Hns Hex]. split; [set_solver|].
      rewrite decide_False by set_solver. done.
    + apply bind_Some in H as ([m st] & _ & H). apply bind_Some in H as (l1 & _ & H). intros Hk.
      destruct (IH _ _ _ _ H Hk) as [Hns Hex]. split; [set_solver|].
      rewrite decide_False by set_solver. done.
  - apply IH.
Qed.

Lemma memory_agrees_ext ty key l1 l l' t1 t t' :
  linker_lookup key l1 = linker_lookup key l -> linker_lookup key t1 = linker_lookup key t ->
  memory_agrees ty key l1 l' t1 t' -> memory_agrees ty key l l' t t'.
Proof. unfold memory_agrees. intros -> ->. done. Qed.

Lemma define_memories_agree imports seen l store ms l' store' t t' key :
  define_memories imports seen l store = Some (ms, (l', store')) ->
  define_shared_memories ms t = Some t' ->
  if decide (key ∈ seen)
  then linker_lookup key l' = linker_lookup key l /\ linker_lookup key t' = linker_lookup key t
  else memory_agrees (first_memory key imports) key l l' t t'.
Proof.
  revert seen l store ms t. induction imports as [|[k [ty|]] imports IH]; intros seen l store ms t; simpl.
  - intros [= <- <- _] [= <-]. by case_decide.
  - case_decide as Hseen.
    { intros H Ht. specialize (IH _ _ _ _ _ H Ht). destruct (decide (key ∈ seen)) as [Hk|Hk]; [done|].
      by rewrite decide_False by (intros ->; done). }
    destruct (is_shared ty) eqn:Hsh; intros H Ht.
    + apply bind_Some in H as ([m st] & _ & H). apply bind_Some in H as (l1 & Hl1 & H).
      apply bind_Some in H as ([ms' [l2 st2]] & H & [= <- <- <-]). simpl in Ht.
      apply bind_Some in Ht as (t1 & Ht1 & Ht). specialize (IH _ _ _ _ _ H Ht).
      pose proof (define_lookup _ _ _ _ key Hl1) as HL. pose proof (define_lookup _ _ _ _ key Ht1) as HT.
      destruct (decide (k = key)) as [->|Hne].
      * rewrite decide_True in IH by set_solver. rewrite decide_True in HL, HT by done.
        rewrite decide_False by done. unfold memory_agrees. rewrite Hsh.
        destruct IH as [-> ->]. eauto.
      * rewrite decide_False in HL, HT by congruence. destruct (decide (key ∈ seen)) as [Hk|Hk].
        -- rewrite decide_True in IH by set_solver. by rewrite <- HL, <- HT.
        -- rewrite decide_False in IH by set_solver. by eapply memory_agrees_ext.
    + apply bind_Some in H as ([m st] & _ & H). apply bind_Some in H as (l1 & Hl1 & H).
      specialize (IH _ _ _ _ _ H Ht). pose proof (define_lookup _ _ _ _ key Hl1) as HL.
      destruct (decide (k = key)) as [->|Hne].
      * rewrite decide_True in IH by set_solver. rewrite decide_True in HL by done.
        rewrite decide_False by done. unfold memory_agrees. rewrite Hsh.
        destruct IH as [-> ->]. eauto.
      * rewrite decide_False in HL by congruence. destruct (decide (key ∈ seen)) as [Hk|Hk].
        -- rewrite decide_True in IH by set_solver. by rewrite <- HL.
        -- rewrite decide_False in IH by set_solver. by eapply memory_agrees_ext.
  - apply IH.
Qed.

(** The linkers have no memory import's name yet, and allocations succeed. *)
Definition names_free (imports : list ((string * string) * ExternType MemoryType))
    (seen : gset (string * string)) (l : Linker) : Prop :=
  forall key, key ∉ seen -> is_Some (first_memory key imports) -> linker_lookup key l = None.
Definition allocations_succeed : Prop :=
  (forall ty st, is_Some (new_shared_memory ty st)) /\ (forall ty st, is_Some (new_memory ty st)).

Lemma define_memories_some imports seen l store :
  allocations_succeed -> names_free imports seen l ->
  exists ms l' store', define_memories imports seen l store = Some (ms, (l', store')) /\
    NoDup (im_key <$> ms).
Proof.
  intros [Hs Hp]. revert seen l store.
  induction imports as [|[k [ty|]] imports IH]; intros seen l store Hfree; simpl.
  - eexists _, _, _. split; [done|]. apply NoDup_nil_2.
  - assert (forall e l1, linker_define k e l = Some l1 ->
      names_free imports ({[k]} ∪ seen) l1) as Hnext.
    { intros e l1 Hl1 key Hkey Hf. rewrite (define_lookup _ _ _ _ key Hl1).
      rewrite decide_False by set_solver. apply Hfree; [set_solver|]. simpl.
      by rewrite decide_False by set_solver. }
    assert (k ∉ seen -> forall e, is_Some (linker_define k e l)) as Hdef.
    { intros Hk e. apply define_fresh, Hfree; [done|]. simpl. rewrite decide_True by done. eauto. }
    case_decide as Hseen.
    { apply IH. intros key Hkey Hf. apply Hfree; [done|]. simpl.
      by rewrite decide_False by (intros ->; done). }
    destruct (is_shared ty).
    + destruct (Hs ty store) as [[m st] ->]. simpl. destruct (Hdef Hseen (inl m)) as [l1 Hl1].
      rewrite Hl1. simpl. destruct (IH _ _ st (Hnext _ _ Hl1)) as (ms & l' & st' & H & Hnd).
      rewrite H. simpl. eexists _, _, _. split; [done|]. simpl. apply NoDup_cons. split; [|done].
      intros Hk. destruct (define_memories_keys _ _ _ _ _ _ _ _ H Hk). set_solver.
    + destruct (Hp ty store) as [[m st] ->]. simpl. destruct (Hdef Hseen (inr m)) as [l1 Hl1].
      rewrite Hl1. simpl. apply IH. by eapply Hnext.
  - by apply IH.
Qed.

Lemma define_shared_some ms t :
  NoDup (im_key <$> ms) -> (forall key, key ∈ im_key <$> ms -> linker_lookup key t = None) ->
  is_Some (define_shared_memories ms t).
Proof.
  revert t. induction ms as [|m ms IH]; intros t Hnd Hfree; simpl; [by eexists|].
  apply NoDup_cons in Hnd as [Hm Hnd].
  destruct (proj2 (define_fresh (im_key m) (inl (im_memory m)) t)) as [t1 Ht1].
  { apply Hfree. simpl. set_solver. }
  rewrite Ht1. simpl. apply IH; [done|]. intros key Hkey.
  rewrite (define_lookup _ _ _ _ key Ht1). rewrite decide_False by (intros ->; done).
  apply Hfree. simpl. set_solver.
Qed.

(** When the loop succeeds, no name it defined was known before it, and it lists
  each shared memory once. *)
Lemma define_memories_free imports seen l store ms l' store' :
  define_memories imports seen l store = Some (ms, (l', store')) ->
  names_free imports seen l /\ NoDup (im_key <$> ms).
Proof.
  revert seen l store ms. induction imports as [|[k [ty|]] imports IH]; intros seen l store ms; simpl.
  - intros [= <- _ _]. split; [by intros key _ []|constructor].
  - assert (forall e l1 ms1 st1, k ∉ seen -> linker_define k e l = Some l1 ->
      define_memories imports ({[k]} ∪ seen) l1 st1 = Some (ms1, (l', store')) ->
      names_free ((k, TyMemory ty) :: imports) seen l /\ NoDup (im_key <$> ms1)) as Hstep.
    { intros e l1 ms1 st1 Hk Hl1 H. destruct (IH _ _ _ _ H) as [Hfree Hnd]. split; [|done].
      intros key Hkey Hf. destruct (decide (key = k)) as [->|Hne].
      - apply (define_fresh k e). by rewrite Hl1.
      - simpl in Hf. rewrite decide_False in Hf by done.
        pose proof (Hfree key ltac:(set_solver) Hf) as Hnone.
        rewrite (define_lookup _ _ _ _ key Hl1) in Hnone. by rewrite decide_False in Hnone. }
    case_decide as Hseen.
    { intros H. destruct (IH _ _ _ _ H) as [Hfree Hnd]. split; [|done]. intros key Hkey Hf.
      simpl in Hf. rewrite decide_False in Hf by (intros ->; done). by apply Hfree. }
    destruct (is_shared ty); intros H.
    + apply bind_Some in H as ([m st] & _ & H). apply bind_Some in H as (l1 & Hl1 & H).
      apply bind_Some in H as ([ms' [l2 st2]] & H & [= <- <- <-]).
      destruct (Hstep _ _ _ _ Hseen Hl1 H) as [Hfree Hnd]. split; [done|]. simpl.
      apply NoDup_cons. split; [|done]. intros Hk.
      destruct (define_memories_keys _ _ _ _ _ _ _ _ H Hk). set_solver.
    + apply bind_Some in H as ([m st] & _ & H). apply bind_Some in H as (l1 & Hl1 & H).
      by eapply Hstep.
  - intros H. destruct (IH _ _ _ _ H) as [Hfree Hnd]. by split.
Qed.

(** So the linker of a thread, which starts from the same names, takes them. *)
Lemma define_shared_again imports l store ms l' store' :
  define_imported_memories imports l store = Some (ms, (l', store')) ->
  exists t', define_shared_memories ms l = Some t' /\
    forall key, memory_agrees (first_memory key imports) key l l' l t'.
Proof.
  intros H. destruct (define_memories_free _ _ _ _ _ _ _ H) as [Hfree Hnd].
  assert (is_Some (define_shared_memories ms l)) as [t' Ht'].
  { apply define_shared_some; [done|]. intros key Hkey.
    destruct (define_memories_keys _ _ _ _ _ _ _ _ H Hkey) as [Hk (ty & Hty & _)].
    apply Hfree; [done|]. by rewrite Hty. }
  exists t'. split; [done|]. intros key.
  pose proof (define_memories_agree _ _ _ _ _ _ _ _ _ key H Ht') as Ha.
  by rewrite decide_False in Ha by set_solver.
Qed.
End Memories.

(** A Wasmtime that numbers its memories and keeps a linker's names in a map. *)
#[export] Instance map_wasmtime : Wasmtime bool nat nat nat (gmap (string * string) (nat + nat)) := {|
  is_shared ty := ty;
  new_shared_memory _ st := Some (st, S st);
  new_memory _ st := Some (st, S st);
  linker_define key e l := match l !! key with Some _ => None | None => Some (<[key := e]> l) end;
  linker_lookup key l := l !! key
|}.

#[export] Instance map_wasmtime_laws :
  WasmtimeLaws bool nat nat nat (gmap (string * string) (nat + nat)).
Proof.
  constructor.
  - intros key e l. simpl. destruct (l !! key); split; try done.
  - intros key e l l' key'. simpl. destruct (l !! key); intros [= <-].
    destruct (decide (key' = key)) as [->|]; [apply lookup_insert_eq|by apply lookup_insert_ne].
Qed.

(** * Properties *)

(** Imported memories: when Wasmtime can allocate them and neither linker
    knows their names yet, defining the module's memory imports, repeated ones
    included, never fails, and neither does defining the shared ones for a
    thread; each shared memory import then names the same memory in the main
    linker and in the thread's, each private one a memory of the main linker
    only, and no other name is touched. *)
Lemma memories_agree {MemoryType Shared Private Store Linker}
    `{!Wasmtime MemoryType Shared Private Store Linker}
    `{!WasmtimeLaws MemoryType Shared Private Store Linker}
    (imports : list ((string * string) * ExternType MemoryType)) (l t : Linker) (store : Store) :
  allocations_succeed (MemoryType := MemoryType) (Shared := Shared) (Private := Private)
    (Store := Store) (Linker := Linker) ->
  names_free imports ∅ l -> names_free imports ∅ t ->
  exists ms l' store' t', define_imported_memories imports l store = Some (ms, (l', store')) /\
    define_shared_memories ms t = Some t' /\
    forall key, memory_agrees (first_memory key imports) key l l' t t'.
Proof.
  intros Halloc Hl Ht.
  destruct (define_memories_some imports ∅ l store Halloc Hl) as (ms & l' & store' & H & Hnd).
  destruct (define_shared_some ms t Hnd) as [t' Ht'].
  { intros key Hkey. destruct (define_memories_keys _ _ _ _ _ _ _ _ H Hkey) as [Hk (ty & Hty & _)].
    apply Ht; [done|]. by rewrite Hty. }
  exists ms, l', store', t'. split_and!; [done|done|]. intros key.
  pose proof (define_memories_agree _ _ _ _ _ _ _ _ _ key H Ht') as Ha.
  by rewrite decide_False in Ha by set_solver.
Qed.

(** * A concrete run *)

(** A module that imports a shared memory twice, a private one and a function. *)
Definition demo_imports : list ((string * string) * ExternType bool) :=
  [(("env", "memory"), TyMemory true); (("env", "f"), TyOther); (("env", "memory"), TyMemory true);
   (("env", "scratch"), TyMemory false)]%string.

Lemma memories_agree_witness :
  exists ms l' store' t',
    define_imported_memories demo_imports (∅ : gmap (string * string) (nat + nat)) 0%nat =
      Some (ms, (l', store')) /\
    define_shared_memories ms (∅ : gmap (string * string) (nat + nat)) = Some t' /\
    (exists m : nat, linker_lookup ("env", "memory")%string l' = Some (inl m) /\
      linker_lookup ("env", "memory")%string t' = Some (inl m)).
Proof.
  destruct (memories_agree demo_imports (∅ : gmap (string * string) (nat + nat)) ∅ 0%nat)
    as (ms & l' & store' & t' & H1 & H2 & H3).
  - split; intros; simpl; eauto.
  - intros key _ _. apply lookup_empty.
  - intros key _ _. apply lookup_empty.
  - exists ms, l', store', t'. split_and!; [exact H1|exact H2|].
    exact (H3 ("env", "memory")%string).
Defined.
