(* ===== verification/WasiContext.v ===== *)
(** The WASI context (src/main.rs), next to the configuration of the file imports,
    and the exit status of the process and the end of a thread.  WASI's builder is
    the list of the calls made on it. *)

From S2P Require Import Prelude.
From S2P Require Import HostPath.
From S2P Require Import Cli.
From S2P Require Import GuestPath.
From S2P Require Import HostFiles.

(** The calls [build_wasi] makes on [WasiCtxBuilder]; every preopen is given
    [DirPerms::all()] and [FilePerms::all()]. *)
Inductive WasiCall :=
| InheritStdio
| AllowBlockingCurrentThread (b : bool)
| InheritEnv
| WasiEnv (key value : string)
| WasiArgs (args : list string)
| PreopenedDir (host guest : string)
| InitialCwd (guest : string)
| InheritNetwork
| AllowIpNameLookup (b : bool)
| AllowTcp (b : bool)
| AllowUdp (b : bool).

Inductive WasiError :=
| CurrentDirError
| NotADirectory (host : string)
| PreopenError (host guest : string).

Section Wasi.
(** [Path::is_dir] and whether [WasiCtxBuilder::preopened_dir] succeeds. *)
Context (is_dir : string -> bool) (preopened_dir : string -> string -> bool).

(** [preopen_dir]. *)
Definition preopen_dir (host guest : string) : WasiError + list WasiCall :=
  if negb (is_dir host) then inl (NotADirectory host)
  else if preopened_dir host guest then inr [PreopenedDir host guest]
  else inl (PreopenError host guest).

(** Two groups of calls, the second made only if the first succeeds. *)
Definition and_then (a b : WasiError + list WasiCall) : WasiError + list WasiCall :=
  match a with
  | inl e => inl e
  | inr calls => match b with inl e => inl e | inr calls' => inr (calls ++ calls') end
  end.

Fixpoint preopen_dirs (l : list Preopen) : WasiError + list WasiCall :=
  match l with
  | [] => inr []
  | p :: l => and_then (preopen_dir (preopen_host_path p) (preopen_guest_path p)) (preopen_dirs l)
  end.

(** [build_wasi]; [cwd] is the result of [std::env::current_dir()]. *)
Definition build_wasi (cwd : io_result string) (cli : Cli) : WasiError + list WasiCall :=
  and_then
    (inr ([InheritStdio; AllowBlockingCurrentThread true] ++
          (if no_inherit_env cli then [] else [InheritEnv]) ++
          ((fun e => WasiEnv (key e) (value e)) <$> cli_env cli) ++
          [WasiArgs ("mysqld"%string :: guest_args cli)]))
  (and_then
    (if no_default_preopen cli then inr []
     else match cwd with
          | IoErr _ => inl CurrentDirError
          | IoOk dir => and_then (preopen_dir dir ".") (inr [InitialCwd "."])
          end)
  (and_then
    (preopen_dirs (cli_preopens cli))
    (inr (if no_network cli then []
          else [InheritNetwork; AllowIpNameLookup true; AllowTcp true; AllowUdp true])))).
End Wasi.

(** The directories WASI sees, in order, and the calls that open the network. *)
Definition wasi_dirs (calls : list WasiCall) : list (string * string) :=
  omap (fun c => match c with PreopenedDir h g => Some (h, g) | _ => None end) calls.
Definition network_call (c : WasiCall) : bool :=
  match c with
  | InheritNetwork | AllowIpNameLookup _ | AllowTcp _ | AllowUdp _ => true
  | _ => false
  end.

(** A preopen of the file imports is the WASI one with its guest path
    normalized. *)
Definition same_preopen (d : string * string) (m : PreopenMapping) : Prop :=
  host m = d.1 /\ normalize_guest_path d.2 = Ok (guest m).

Lemma and_then_inr a b calls :
  and_then a b = inr calls <-> exists x y, a = inr x /\ b = inr y /\ calls = x ++ y.
Proof.
  destruct a as [e|x]; simpl; [split; [done|by intros (? & ? & ? & _)]|].
  destruct b as [e|y]; split; try done.
  - by intros (? & ? & _ & ? & _).
  - intros [= <-]. eauto.
  - intros (? & ? & [= <-] & [= <-] & ->). done.
Qed.

Lemma preopen_dir_inr is_dir po h g calls :
  preopen_dir is_dir po h g = inr calls -> is_dir h = true /\ calls = [PreopenedDir h g].
Proof.
  unfold preopen_dir. destruct (is_dir h); [|done]. simpl. destruct (po h g); [|done].
  by intros [= <-].
Qed.

Lemma preopen_dirs_inr is_dir po l calls :
  preopen_dirs is_dir po l = inr calls ->
  calls = (fun p => PreopenedDir (preopen_host_path p) (preopen_guest_path p)) <$> l /\
  Forall (fun p => is_dir (preopen_host_path p) = true) l.
Proof.
  revert calls. induction l as [|p l IH]; intros calls; simpl; [by intros [= <-]|].
  intros (x & y & Hx & Hy & ->)%and_then_inr. apply preopen_dir_inr in Hx as [Hd ->].
  destruct (IH _ Hy) as [-> Hl]. simpl. by split; [|constructor].
Qed.

Lemma cli_mappings_same l ms :
  cli_mappings l = IoOk ms ->
  Forall2 same_preopen ((fun p => (preopen_host_path p, preopen_guest_path p)) <$> l) ms.
Proof.
  revert ms. induction l as [|p l IH]; intros ms; simpl; [by intros [= <-]|].
  destruct (normalize_guest_path _) as [g|e] eqn:Eg; [|done].
  destruct (cli_mappings l) as [ms'|e']; [|done]. intros [= <-].
  constructor; [by split|]. by apply IH.
Qed.

(** What [build_wasi] has done when it succeeds. *)
Lemma build_wasi_inr is_dir po cwd cli calls :
  build_wasi is_dir po cwd cli = inr calls ->
  let cli_dirs := (fun p => (preopen_host_path p, preopen_guest_path p)) <$> cli_preopens cli in
  wasi_dirs calls = (if no_default_preopen cli then cli_dirs
    else match cwd with IoOk dir => (dir, "."%string) :: cli_dirs | IoErr _ => [] end) /\
  Forall (fun d => is_dir d.1 = true) (wasi_dirs calls) /\
  (existsb network_call calls = negb (no_network cli)).
Proof.
  unfold build_wasi. intros H.
  apply and_then_inr in H as (x & y & [= <-] & H & ->).
  apply and_then_inr in H as (d & z & Hd & H & ->).
  apply and_then_inr in H as (ps & n & Hps & [= <-] & ->).
  apply preopen_dirs_inr in Hps as [-> Hps].
  assert (forall a b, wasi_dirs (a ++ b) = wasi_dirs a ++ wasi_dirs b) as Happ
    by (intros; apply omap_app).
  match goal with |- context [wasi_dirs (?x ++ _ ++ _ ++ _)] => set (base := x) end.
  assert (wasi_dirs base = [] /\ existsb network_call base = false) as [Hb1 Hb2].
  { set (envs := (fun e => WasiEnv (key e) (value e)) <$> cli_env cli) in *.
    assert (wasi_dirs envs = [] /\ existsb network_call envs = false) as [He1 He2]
      by (unfold envs; by induction (cli_env cli)).
    assert (wasi_dirs base = wasi_dirs (envs ++ [WasiArgs ("mysqld"%string :: guest_args cli)]) /\
      existsb network_call base = existsb network_call (envs ++ [WasiArgs ("mysqld"%string :: guest_args cli)]))
      as [-> ->] by (unfold base; by destruct (no_inherit_env cli)).
    by rewrite Happ, existsb_app, He1, He2. }
  set (pre := (fun p => PreopenedDir _ _) <$> cli_preopens cli).
  assert (wasi_dirs pre = (fun p => (preopen_host_path p, preopen_guest_path p)) <$> cli_preopens cli
    /\ existsb network_call pre = false) as [Hp1 Hp2].
  { unfold pre. clear. induction (cli_preopens cli) as [|p l [IH1 IH2]]; [done|].
    split; [|done]. cbn. f_equal. exact IH1. }
  assert (wasi_dirs d = (if no_default_preopen cli then [] else
      match cwd with IoOk dir => [(dir, "."%string)] | IoErr _ => [] end) /\
    Forall (fun d => is_dir d.1 = true) (wasi_dirs d) /\ existsb network_call d = false /\
    (no_default_preopen cli = true \/ is_Some (match cwd with IoOk dir => Some dir | IoErr _ => None end)))
    as (Hd1 & Hd2 & Hd3 & Hd4).
  { destruct (no_default_preopen cli); [injection Hd as <-; by auto using Forall_nil_2|].
    destruct cwd as [dir|]; [|done].
    apply and_then_inr in Hd as (a & b & Ha & [= <-] & ->). apply preopen_dir_inr in Ha as [Ha ->].
    cbn. split_and!; eauto. }
  cbv zeta. rewrite !Happ, !existsb_app, Hb1, Hb2, Hd3, Hp1, Hp2. cbn [app orb]. split_and!.
  - rewrite Hd1. destruct (no_network cli), (no_default_preopen cli); cbn; rewrite ?app_nil_r; try done;
      destruct Hd4 as [|[dir Hdir]]; try done; by destruct cwd.
  - rewrite !Forall_app, Forall_fmap. split_and!; [done|exact Hps|].
    by destruct (no_network cli); repeat constructor.
  - by destruct (no_network cli).
Qed.


(** * The end of the process and of a thread *)


(** A Wasmtime error, with the text [{err:#}] prints: the outermost context first.
    An [I32Exit], which the guest raises by [proc_exit], is found by
    [downcast_ref] through any number of contexts. *)
Inductive GuestError := I32Exit (status : Z) (details : string) | OtherError (details : string).

Definition details (e : GuestError) : string :=
  match e with I32Exit _ d | OtherError d => d end.

(** [.context(message)] on an error. *)
Definition add_context (message : string) (e : GuestError) : GuestError :=
  match e with
  | I32Exit status d => I32Exit status (message +:+ ": " +:+ d)
  | OtherError d => OtherError (message +:+ ": " +:+ d)
  end.

(** [main], by the result of [run]. *)
Definition main (run : () + GuestError) : ExitCode :=
  match run with
  | inl _ => ExitCodeSuccess
  | inr (I32Exit status _) => exit_code_from_i32 status
  | inr (OtherError _) => ExitCodeFailure
  end.

(** The end of [run_wasi_thread], by the result of [wasi_thread_start]. *)
Definition thread_result (start : () + GuestError) : () + GuestError :=
  match start with
  | inl _ => inl tt
  | inr (I32Exit _ _) => inl tt
  | inr (OtherError d) => inr (add_context "WASI thread trapped" (OtherError d))
  end.

(** [str::contains]. *)
Fixpoint str_contains (needle s : string) : bool :=
  String.prefix needle s ||
  match s with EmptyString => false | String _ s => str_contains needle s end.

(** The closure of [spawn_wasi_thread]: whether the error of a thread is
    reported. *)
Definition thread_reported (r : () + GuestError) : bool :=
  match r with
  | inr err => negb (str_contains "waasmtime_mysql_pthread_exit" (details err))
  | inl _ => false
  end.

(** * Properties *)

(** C27. The WASI context and the file imports are configured alike: when both
    are built from one command line, the preopens of the file imports are the
    directories WASI was given, with their guest paths normalized, longest first;
    every one of them is a directory of the host; and WASI is given the network
    exactly when the socket imports are. *)
Theorem wasi_matches_host_files {File} is_dir po cwd cli calls (t : HostFilesInner File) :
  build_wasi is_dir po cwd cli = inr calls -> new cwd cli = IoOk t ->
  (exists ms, Forall2 same_preopen (wasi_dirs calls) ms /\ preopens t = sort_preopens ms) /\
  Forall (fun m => is_dir (host m) = true) (preopens t) /\
  existsb network_call calls = negb (no_network cli).
Proof.
  intros Hb Hn. apply build_wasi_inr in Hb as (Hdirs & Hisdir & Hnet).
  assert (exists ms, Forall2 same_preopen (wasi_dirs calls) ms /\ preopens t = sort_preopens ms)
    as (ms & Hms & Ht).
  { rewrite Hdirs. unfold new in Hn. destruct (no_default_preopen cli).
    - destruct (cli_mappings _) as [ms|] eqn:E; [|done]. injection Hn as <-.
      exists ms. split; [by apply cli_mappings_same|done].
    - destruct cwd as [dir|]; [|done]. destruct (cli_mappings _) as [ms|] eqn:E; [|done].
      injection Hn as <-. exists (default_mapping dir :: ms). split; [|done].
      constructor; [by split|by apply cli_mappings_same]. }
  split_and!; [by exists ms| |done]. rewrite Ht, sort_preopens_perm. clear -Hms Hisdir.
  induction Hms as [|d m ds ms [Hh _] _ IH]; [done|]. apply Forall_cons in Hisdir as [Hd Hds].
  constructor; [by rewrite Hh|by apply IH].
Qed.

(** What the outcome of the guest makes of the exit status: 0 when it returns or
    exits with 0, its own status when that fits a byte, and 1 for every other
    status and for every other error. *)
Definition guest_status (outcome : () + GuestError) : Z :=
  match outcome with
  | inl _ => 0
  | inr (I32Exit status _) => if decide (0 <= status < 256) then status else 1
  | inr (OtherError _) => 1
  end.

(** The statuses of [proc_exit] are [i32]. *)
Definition exits_i32 (outcome : () + GuestError) : Prop :=
  forall status d, outcome = inr (I32Exit status d) -> is_i32 status.

Lemma main_exit_status (run : () + GuestError) :
  exits_i32 run -> exit_status (main run) = guest_status run.
Proof.
  intros Hs. destruct run as [[]|[status d|d]]; cbn [main guest_status]; [done| |done].
  exact (proj1 (exit_code_correct status (Hs _ _ eq_refl))).
Qed.

(** Contexts change neither the status nor what is an exit. *)
Lemma guest_status_context message (e : GuestError) :
  guest_status (inr (add_context message e)) = guest_status (inr e).
Proof. by destruct e. Qed.

Lemma exits_i32_context message (e : GuestError) :
  exits_i32 (inr e) -> exits_i32 (inr (add_context message e)).
Proof. intros He status d. destruct e; simpl; [|done]. intros [= -> _]. by eapply He. Qed.

(** * A concrete run *)

Definition demo_runtime_cli : Cli := {|
  show_embedded_source := false; no_default_preopen := false; no_inherit_env := false;
  no_network := true;
  cli_preopens := [{| preopen_host_path := "/srv/db"; preopen_guest_path := "/data/./x" |}];
  cli_env := [{| key := "A"; value := "b" |}]; guest_args := ["--help"%string] |}.

Lemma wasi_matches_host_files_witness :
  exists calls t,
    build_wasi (fun _ => true) (fun _ _ => true) (IoOk "/home"%string) demo_runtime_cli = inr calls /\
    (new (IoOk "/home"%string) demo_runtime_cli : io_result (HostFilesInner Z)) = IoOk t /\
    existsb network_call calls = false /\ length (preopens t) = 2%nat.
Proof.
  eexists _, _. split; [vm_compute; reflexivity|]. split; [vm_compute; reflexivity|].
  split; [|vm_compute; reflexivity].
  refine (proj2 (proj2 (wasi_matches_host_files (File := Z) (fun _ => true) (fun _ _ => true)
    (IoOk "/home"%string) demo_runtime_cli _ _ _ _))); vm_compute; reflexivity.
Defined.
