(* ===== verification/BoundedWork.v ===== *)
(** Bounded work: how many actions of its own an import performs at most, whatever
    the other threads do to the memory, the tables and the host in between.  The
    bounds come from the guards of the code: 16 MiB for a buffer, 16 KiB for a
    path and 16384 entries for a [poll].  They count work, not time: an action is
    the access to a byte of shared memory, a critical section or a system call,
    and how long one waits for its [Mutex] or blocks in the kernel is not part of
    the model. *)

From S2P Require Import Prelude.
From S2P Require Import Prog.
From S2P Require Import GuestErrno.
From S2P Require Import GuestMemory.
From S2P Require Import HostPath.
From S2P Require Import GuestPath.
From S2P Require Import HostFiles.
From S2P Require Import HostFilesProofs.
From S2P Require Import FileCalls.
From S2P Require HostSockets.
From S2P Require HostSocketsProofs.
Local Open Scope prog_scope.

(** * Guest memory *)

Section Memory.
Context (P : Prop).
#[local] Abbreviation within := (ends_within P).

Lemma within_load_cells n a : within (Z.of_nat n) (fun b => length b = n) (load_cells a n).
Proof.
  revert a. induction n as [|n IH]; intros a; cbn [load_cells]; [done|].
  replace (Z.of_nat (S n)) with (1 + Z.of_nat n) by lia.
  apply (ends_within_bind _ _ _ (fun _ => True)); [by apply ends_within_atomically|lia|].
  intros b _. replace (Z.of_nat n) with (Z.of_nat n + 0) by lia.
  eapply ends_within_bind; [apply IH|done|]. intros bs Hbs. split; [done|]. simpl in *. lia.
Qed.

Lemma within_store_cells bs a :
  within (Z.of_nat (length bs)) (fun _ => True) (store_cells a bs).
Proof.
  revert a. induction bs as [|b bs IH]; intros a; cbn [store_cells]; [done|].
  replace (Z.of_nat (length (b :: bs))) with (1 + Z.of_nat (length bs)) by (simpl; lia).
  apply (ends_within_bind _ _ _ (fun _ => True)); [by apply ends_within_atomically|lia|]. auto.
Qed.

Lemma within_load_cstr n a acc : within (Z.of_nat n) (fun _ => True) (load_cstr a n acc).
Proof.
  revert a acc. induction n as [|n IH]; intros a acc; cbn [load_cstr]; [done|].
  replace (Z.of_nat (S n)) with (1 + Z.of_nat n) by lia.
  apply (ends_within_bind _ _ _ (fun _ => True)); [by apply ends_within_atomically|lia|].
  intros b _. destruct (b =? 0); [split; [lia|done]|apply IH].
Qed.

(** An access takes one action to find the memory and one for each byte of a
    shared memory, or a single one for a private memory. *)
Lemma within_read_guest ptr len n :
  Z.min (Z.max 0 len) MAX_IO_LEN + 2 <= n ->
  within n (fun r => match r with
    | Ok b => Z.of_nat (length b) <= Z.max 0 len /\ 0 <= len <= MAX_IO_LEN | Err _ => True end)
    (read_guest ptr len).
Proof.
  intros Hn. unfold read_guest.
  assert (0 <= Z.min (Z.max 0 len) MAX_IO_LEN) by (unfold MAX_IO_LEN; lia).
  apply (ends_within_seq _ 1 _ (fun _ => True)); [by apply ends_within_atomically|lia|].
  intros [[[] data_len]|] _; try (split; [lia|done]).
  all: destruct (checked_range ptr len data_len) as [[s e]|] eqn:E; [|split; [lia|done]].
  all: apply checked_range_Ok in E as ([= -> ->] & H0 & Hl & _).
  - apply (ends_within_seq _ 1 _ (fun b => Z.of_nat (length b) <= len)).
    + apply ends_within_atomically; [done|]. intros m. cbn [fst]. rewrite length_take. lia.
    + lia.
    + intros b Hb. split; [lia|]. lia.
  - eapply ends_within_seq; [apply within_load_cells|lia|].
    intros b Hb. cbv beta in Hb. split; [lia|]. lia.
Qed.

Lemma within_write_guest ptr bytes n :
  Z.min (Z.of_nat (length bytes)) MAX_IO_LEN + 2 <= n ->
  within n (fun _ => True) (write_guest ptr bytes).
Proof.
  intros Hn. unfold write_guest.
  assert (0 <= Z.min (Z.of_nat (length bytes)) MAX_IO_LEN) by (unfold MAX_IO_LEN; lia).
  apply (ends_within_seq _ 1 _ (fun _ => True)); [by apply ends_within_atomically|lia|].
  intros [[[] data_len]|] _; try (split; [lia|done]).
  all: destruct (write_range ptr bytes data_len) as [[s e]|] eqn:E; [|split; [lia|done]].
  all: apply write_range_Ok in E as (_ & _ & _ & Hl & _).
  - apply (ends_within_seq _ 1 _ (fun _ => True)); [by apply ends_within_atomically|lia|].
    by split; [lia|].
  - eapply ends_within_seq; [apply within_store_cells|lia|]. by split; [lia|].
Qed.

Lemma within_read_cstr ptr n :
  MAX_PATH_LEN + 2 <= n -> within n (fun _ => True) (read_cstr ptr).
Proof.
  intros Hn. unfold read_cstr. assert (MAX_PATH_LEN = 16384) as Hmax by done.
  destruct (unsigned_try_from ptr) as [start|]; [|split; [lia|done]].
  apply (ends_within_seq _ 1 _ (fun _ => True)); [by apply ends_within_atomically|lia|].
  intros [[[] data_len]|] _; try (split; [lia|done]); (case_decide; [split; [lia|done]|]).
  - apply (ends_within_seq _ 1 _ (fun _ => True)); [by apply ends_within_atomically|lia|].
    intros b _. destruct (position_nul b); by split; [lia|].
  - eapply ends_within_seq; [apply within_load_cstr|unfold cstr_end; lia|].
    intros [b|] _; split; done || (unfold cstr_end; lia).
Qed.
End Memory.

(** * File imports *)

(** The actions to find the memory and walk a buffer of the length the guest
    gives. *)
Definition walk (len : Z) : Z := Z.min (Z.max 0 len) MAX_IO_LEN + 2.

(** The own actions of a file import: a path or a buffer is walked byte by byte
    at most once, the rest of the call is at most four critical sections. *)
Definition file_budget (c : FileCall) : Z :=
  match c with
  | FOpen _ _ _ | FSyncParent _ => MAX_PATH_LEN + 6
  | FPread _ _ len _ | FPwrite _ _ len _ => walk len + 1
  | _ => 1
  end.

Lemma walk_pos len : 2 <= walk len.
Proof. unfold walk, MAX_IO_LEN. lia. Qed.

(** Follows a call whose parts are hints or single actions. *)
Ltac act := apply (ends_within_seq _ 1 _ (fun _ => True)); [by apply ends_within_atomically|lia|].
Ltac stop := solve [split; [lia|done]].

Section Files.
Context {H File : Type} `{!HostFs H File} `{libc : LibcErrno} (plat : Platform) (P : Prop).
#[local] Abbreviation within n := (ends_within P n (fun _ => True)).

Lemma within_open path flags mode n : 4 <= n -> within n (open plat path flags mode).
Proof.
  intros Hn. unfold open. act. intros r _. apply ends_within_or_return; [lia|done|]. intros hp _.
  destruct (negb _); [stop|]. act. intros [file|err] _; [|stop].
  apply (ends_within_seq _ 1 _ (fun _ => True)); [|lia|].
  { case plat; [stop|]. act. intros; stop. }
  intros lp _. by apply ends_within_atomically; [lia|].
Qed.

Lemma within_sync_parent path n : 4 <= n -> within n (sync_parent plat path).
Proof.
  intros Hn. unfold sync_parent. act. intros r _. apply ends_within_or_return; [lia|done|].
  intros hp _. apply (ends_within_seq _ 3 _ (fun _ => True)); [|lia|intros; stop].
  case plat; [unfold sync_opened|unfold sync_directory]; act.
  - intros [d|e] _; [|stop]. act. intros r' _. act. intros; stop.
  - intros [hd e] _. destruct (hd =? _); [stop|]. act. intros [rc e'] _. act. intros; stop.
Qed.

(** The buffer of [pread] is as long as the guest asked for, and the host fills
    no more of it. *)
Lemma within_pread `{!HostFsLaws H File} fd ptr len off :
  within (walk len + 1) (import_pread plat fd ptr len off).
Proof.
  pose proof (walk_pos len) as Hw. unfold import_pread.
  apply ends_within_or_return; [lia|done|]. intros n [-> Hn]%checked_len_Ok.
  apply (ends_within_seq _ 1 _ (fun r => 0 < r.1 -> r.1 <= Z.of_nat (length r.2) /\ r.1 <= len)); [|lia|].
  - apply ends_within_atomically; [done|]. intros s. destruct (files (inner s) !! fd) as [file|].
    2:{ cbn [fst snd]. pose proof (neg_errno_neg EBADF ltac:(compute_decision)). lia. }
    destruct (fs_read_at file _ _ (os s)) as [[r buf] h] eqn:E. cbn [fst snd].
    destruct r as [k|err]; simpl.
    + apply read_at_count in E as [? ->]. rewrite length_replicate in *.
      unfold i32_try_from. case_decide; simpl; [lia|].
      pose proof (neg_errno_neg EOVERFLOW ltac:(compute_decision)). lia.
    + pose proof (neg_errno_neg _ (io_errno_guest plat err)). lia.
  - intros [rc buf] Hrc. cbn [fst snd] in *. destruct (Z.leb_spec rc 0); [stop|].
    destruct Hrc as [Hrc Hlen]; [done|]. destruct (Z.ltb_spec (Z.of_nat (length buf)) rc); [lia|].
    apply (ends_within_seq _ (walk len) _ (fun _ => True)); [|lia|].
    + apply ends_within_zoom, within_write_guest. rewrite length_take. unfold walk. lia.
    + intros w _. apply ends_within_or_return; [lia|done|]. intros; stop.
Qed.

Lemma within_file_import `{!HostFsLaws H File} c :
  within (file_budget c) (file_import plat c).
Proof.
  assert (MAX_PATH_LEN = 16384) as Hpath by done.
  destruct c; cbn [file_import file_budget]; try apply within_pread.
  all: try by apply ends_within_atomically.
  - unfold import_open. apply (ends_within_seq _ (MAX_PATH_LEN + 2) _ (fun _ => True)); [|lia|].
    + by apply ends_within_zoom, within_read_cstr.
    + intros r _. apply ends_within_or_return; [lia|done|]. intros. apply within_open. lia.
  - pose proof (walk_pos len). unfold import_pwrite.
    apply (ends_within_seq _ (walk len) _ (fun _ => True)); [|lia|].
    + apply ends_within_zoom. eapply ends_within_mono; [apply within_read_guest; reflexivity|unfold walk; lia|done].
    + intros r _. apply ends_within_or_return; [lia|done|]. intros.
      by apply ends_within_atomically; [lia|].
  - unfold import_truncate. destruct (unsigned_try_from size); [|stop].
    by apply ends_within_atomically.
  - unfold import_sync_parent.
    apply (ends_within_seq _ (MAX_PATH_LEN + 2) _ (fun _ => True)); [|lia|].
    + by apply ends_within_zoom, within_read_cstr.
    + intros r _. apply ends_within_or_return; [lia|done|]. intros. apply within_sync_parent. lia.
  - unfold lock_exclusive. case plat; by apply ends_within_atomically.
Qed.
End Files.

(** * Socket imports (Unix) *)

(** [poll(2)] fills in the entries it is given: it does not make new ones. *)
Class UnixPollLaws (U : Type) `{!HostSockets.UnixSockets U} : Prop := {
  poll_length : forall fds timeout u,
    length (HostSockets.sys_poll fds timeout u).1.2 = length fds
}.

(** The own actions of a socket import, on either platform: buffers the guest
    gives are walked at their length, addresses and buffers the system fills in at
    most to 16 MiB, and each entry of a [poll] is read, looked up and written
    back; the rest is a few lookups and system calls. *)
Definition sock_budget (c : HostSockets.SockCall) : Z :=
  match c with
  | HostSockets.KSocket _ _ _ => 8
  | HostSockets.KListen _ _ | HostSockets.KShutdown _ _ | HostSockets.KClose _
  | HostSockets.KFcntl _ _ _ => 4
  | HostSockets.KBind _ _ len | HostSockets.KConnect _ _ len
  | HostSockets.KSetsockopt _ _ _ _ len | HostSockets.KSend _ _ len _ => walk len + 4
  | HostSockets.KSendto _ _ len _ _ addr_len => walk len + walk addr_len + 4
  | HostSockets.KAccept _ _ _ | HostSockets.KGetsockname _ _ _ | HostSockets.KGetpeername _ _ _
  | HostSockets.KGetsockopt _ _ _ _ _ | HostSockets.KRecv _ _ _ _ => MAX_IO_LEN + 24
  | HostSockets.KRecvfrom _ _ _ _ _ _ => 2 * MAX_IO_LEN + 24
  | HostSockets.KPoll _ nfds _ => 13 * Z.min (Z.max 0 nfds) HostSockets.MAX_POLL_FDS + 8
  end.

Lemma poll_count_bounds nfds n :
  HostSockets.checked_poll_count nfds = Ok n -> n = nfds /\ 0 <= n <= HostSockets.MAX_POLL_FDS.
Proof.
  unfold HostSockets.checked_poll_count, ok_or.
  destruct (unsigned_try_from nfds) as [m|] eqn:E; simpl; [|done].
  apply unsigned_try_from_Some in E as [<- H0]. case_decide; [done|]. intros [= <-]. lia.
Qed.

Module Sockets.
Import HostSockets.
Import HostSocketsProofs.

Section Sockets.
Context {U : Type} `{!UnixSockets U} `{libc : LibcErrno} `{consts : LibcConsts}.
#[local] Abbreviation any := (fun _ => True).
#[local] Abbreviation within n := (ends_within True n any).
#[local] Abbreviation call := (prog (SockSt U)).

Lemma within_sys {A} n (f : U -> A * U) : 0 < n -> within n (sys f : call A).
Proof. intros Hn. by apply ends_within_atomically. Qed.

Lemma within_with_socket n fd (k : HostSocket -> call Z) :
  1 <= n -> (forall socket, within (n - 1) (k socket)) -> within n (with_socket fd k).
Proof.
  intros Hn Hk. unfold with_socket, get. act. intros r _.
  apply ends_within_or_return; [lia|done|auto].
Qed.

Lemma within_mem_read n ptr len (k : list Z -> call Z) :
  walk len <= n -> (forall b, within (n - walk len) (k b)) -> within n (mem_read ptr len k).
Proof.
  intros Hn Hk. pose proof (walk_pos len). unfold mem_read.
  eapply ends_within_seq; [apply ends_within_zoom, (within_read_guest _ _ _ (walk len)); reflexivity|done|].
  intros r _. apply ends_within_or_return; [lia|done|]. intros b _.
  eapply ends_within_mono; [apply Hk|lia|done].
Qed.

Lemma within_mem_read_u32 n ptr (k : Z -> call Z) :
  6 <= n -> (forall v, within (n - 6) (k v)) -> within n (mem_read_u32 ptr k).
Proof.
  intros Hn Hk. unfold mem_read_u32, read_u32.
  apply (ends_within_seq _ 6 _ any); [|lia|].
  - apply ends_within_zoom.
    eapply ends_within_seq; [apply within_read_guest; reflexivity|by compute|].
    intros r _. by split.
  - intros r _. apply ends_within_or_return; [lia|done|auto].
Qed.

Lemma within_mem_write n ptr bytes : MAX_IO_LEN + 2 <= n -> within n (mem_write ptr bytes : call _).
Proof. intros Hn. apply ends_within_zoom, within_write_guest. lia. Qed.

Lemma within_mem_write_u32 n ptr v : 6 <= n -> within n (mem_write_u32 ptr v : call _).
Proof.
  intros Hn. apply ends_within_zoom, within_write_guest. rewrite length_to_le_bytes. lia.
Qed.

Lemma within_or_panic {A} n (o : option A) (k : A -> call Z) :
  0 <= n -> (forall a, within n (k a)) -> within n (or_panic o k).
Proof. intros Hn Hk. destruct o; simpl; auto. Qed.

Lemma within_or_cleanup {A} n (r : result A) fd (k : A -> call Z) :
  1 <= n -> (forall a, within n (k a)) -> within n (or_cleanup r (close_raw fd) k).
Proof.
  intros Hn Hk. destruct r; cbn [or_cleanup]; [auto|]. unfold close_raw.
  apply (ends_within_seq _ 1 _ any); [|lia|intros; stop].
  apply (ends_within_seq _ 1 _ any); [by apply within_sys|lia|intros; stop].
Qed.
End Sockets.

(** Follows the structure of a call, spending its budget part by part. *)
Ltac spend :=
  repeat match goal with
  | |- ends_within _ _ _ (with_socket _ _) => apply within_with_socket; [lia|intros ?]
  | |- ends_within _ _ _ (mem_read _ _ _) => apply within_mem_read; [lia|intros ?]
  | |- ends_within _ _ _ (mem_read_u32 _ _) => apply within_mem_read_u32; [lia|intros ?]
  | |- ends_within _ _ _ (bind (sys _) _) =>
      apply (ends_within_seq _ 1 _ (fun _ => True)); [by apply within_sys|lia|intros ? _]
  | |- ends_within _ _ _ (bind (mem_write _ _) _) =>
      apply (ends_within_seq _ (MAX_IO_LEN + 2) _ (fun _ => True));
        [by apply within_mem_write|lia|intros ? _]
  | |- ends_within _ _ _ (bind (mem_write_u32 _ _) _) =>
      apply (ends_within_seq _ 6 _ (fun _ => True)); [by apply within_mem_write_u32|lia|intros ? _]
  | |- ends_within _ _ _ (or_return _ _ _) => apply ends_within_or_return; [lia|done|intros ? _]
  | |- ends_within _ _ _ (or_panic _ _) => apply within_or_panic; [lia|intros ?]
  | |- ends_within _ _ _ (or_cleanup _ _ _) => apply within_or_cleanup; [lia|intros ?]
  | |- ends_within _ _ _ (insert_socket _) => apply ends_within_atomically; [lia|done]
  | |- ends_within _ _ _ (let '(_, _) := ?x in _) => destruct x
  | |- ends_within _ _ _ (match ?x with Ok _ => _ | Err _ => _ end) => destruct x
  | |- ends_within _ _ _ (if ?b then _ else _) => destruct b
  | |- ends_within _ _ _ (Ret _) => split; [lia|exact Logic.I]
  end.

(** Chunks of eight bytes: at most an eighth of the bytes. *)
Lemma length_chunks_8 {A} (l : list A) : 8 * Z.of_nat (length (chunks_exact 8 l)) <= Z.of_nat (length l).
Proof.
  assert (forall fuel l, 8 * Z.of_nat (length (chunks_exact_fuel fuel 8 l : list (list A)))
    <= Z.of_nat (length l)) as Hf; [|apply Hf].
  clear l. induction fuel as [|fuel IH]; intros l; cbn [chunks_exact_fuel]; [simpl; lia|].
  destruct (decide _); [simpl; lia|]. specialize (IH (drop 8 l)). rewrite length_drop in IH.
  cbn [length]. lia.
Qed.

(** Every walk of a call takes at least two actions. *)
Ltac walk_bounds :=
  repeat match goal with
  | |- context [walk ?len] =>
      lazymatch goal with H : 2 <= walk len |- _ => fail | _ => pose proof (walk_pos len) end
  end.

Section Imports.
Context {U : Type} `{!UnixSockets U} `{libc : LibcErrno} `{consts : LibcConsts}.
#[local] Abbreviation any := (fun _ => True).
#[local] Abbreviation within n := (ends_within True n any).
#[local] Abbreviation call := (prog (SockSt U)).

Lemma within_configure fd t : within 4 (configure_socket_type_flags fd t : call _).
Proof.
  unfold configure_socket_type_flags. apply (ends_within_seq _ 2 _ any); [|lia|].
  - destruct (close_on_exec t); spend.
  - intros [|] _; [|spend]. destruct (nonblocking t); spend.
Qed.

(** One lookup for each entry. *)
Lemma within_poll_fds chunks :
  ends_within True (Z.of_nat (length chunks))
    (fun r => match r with Ok fds => length fds = length chunks | Err _ => True end)
    (poll_fds chunks : call _).
Proof.
  induction chunks as [|c cs IH]; cbn [poll_fds]; [done|].
  replace (Z.of_nat (length (c :: cs))) with (1 + Z.of_nat (length cs)) by (simpl; lia).
  apply (ends_within_seq _ 1 _ any); [|lia|].
  { destruct (_ <? 0); [spend|]. unfold get. act. intros; stop. }
  intros [fd|e] _; [|split; [lia|done]].
  eapply ends_within_seq; [exact IH|lia|]. intros [fds|e] Hfds; (split; [lia|]); simpl in *; [lia|done].
Qed.

(** Two bytes are written back for each entry. *)
Lemma within_write_revents ptr i fds :
  within (4 * Z.of_nat (length fds)) (write_revents ptr i fds : call _).
Proof.
  revert i. induction fds as [|p fds IH]; intros i; cbn [write_revents]; [done|].
  apply (ends_within_seq _ 4 _ any); [|simpl; lia|].
  { apply ends_within_zoom, within_write_guest. rewrite length_to_le_bytes. lia. }
  intros [|] _; [|split; [simpl; lia|done]].
  eapply ends_within_mono; [apply IH|simpl; lia|done].
Qed.

Lemma within_poll `{!UnixPollLaws U} ptr nfds timeout :
  within (sock_budget (KPoll ptr nfds timeout)) (import_poll ptr nfds timeout : call Z).
Proof.
  assert (MAX_POLL_FDS = 16384) as Hpoll by done. unfold import_poll, sock_budget.
  apply ends_within_or_return; [lia|done|]. intros n Hn.
  apply poll_count_bounds in Hn as [-> Hmax]. rewrite Z.max_r, Z.min_l by lia.
  unfold mem_read. rewrite as_i32_id by bounds.
  eapply (ends_within_seq _ (nfds * 8 + 2)); [apply ends_within_zoom, within_read_guest; lia|lia|].
  intros r Hr. apply ends_within_or_return; [lia|done|]. intros bytes ->.
  pose proof (length_chunks_8 bytes) as Hlen.
  eapply ends_within_seq; [apply within_poll_fds|lia|].
  intros r Hfds. apply ends_within_or_return; [lia|done|]. intros fds ->.
  apply (ends_within_seq _ 1 _ (fun r => length r.2 = length fds)); [|lia|].
  { apply ends_within_atomically; [done|]. intros s. pose proof (poll_length fds timeout (os s)) as Hp.
    by destruct (sys_poll fds timeout (os s)). }
  intros [[rc e] fds'] Hfds'. cbn [snd] in Hfds'. destruct (rc <? 0); [split; [lia|done]|].
  eapply ends_within_seq; [apply within_write_revents|lia|]. intros w _. spend.
Qed.

Lemma within_sock_import `{!UnixPollLaws U} net c :
  within (sock_budget c) (sock_import net c : call Z).
Proof.
  assert (MAX_IO_LEN = 16777216) as Hio by done.
  destruct c; cbn [sock_import]; try apply within_poll; unfold sock_budget,
    import_socket, import_bind, import_listen, import_accept, import_connect, sock_name,
    import_setsockopt, import_getsockopt, import_send, import_recv, import_sendto,
    import_recvfrom, import_shutdown, import_close, import_fcntl, socket_fcntl, remove_socket;
    walk_bounds; spend.
  - apply (ends_within_seq _ 4 _ any); [apply within_configure|lia|intros ? _]. spend.
  - act. intros r _. spend.
Qed.
End Imports.
End Sockets.
