(* ===== verification/WinBoundedWork.v ===== *)
(** Bounded work of the Windows socket imports: the bounds of BoundedWork, and no
    panic, whatever the other threads do in between. *)

From S2P Require Import Prelude.
From S2P Require Import Prog.
From S2P Require Import GuestErrno.
From S2P Require Import GuestMemory.
From S2P Require Import HostSockets.
From S2P Require Import HostSocketsProofs.
From S2P Require Import HostSocketsWindows.
From S2P Require Import WinSocketSafety.
From S2P Require Import WinSocketTotal.
From S2P Require Import BoundedWork.
Local Open Scope prog_scope.

Section Parts.
Context {W : Type} `{!WinSock W} `{consts : WinSockConsts}.
#[local] Abbreviation any := (fun _ => True).
#[local] Abbreviation within n := (ends_within False n any).
#[local] Abbreviation call := (prog (Z * WinSt W)).

Lemma within_ws {A} n (Q : A -> Prop) (f : W -> (A * option Z) * W) :
  0 < n -> (forall w, Q (f w).1.1) -> ends_within False n Q (ws f).
Proof.
  intros Hn HQ. apply ends_within_atomically; [done|]. intros ls. specialize (HQ (os ls.2)).
  by destruct (f (os ls.2)) as [[a e] w].
Qed.

Lemma within_last_errno n : 0 < n -> within n (neg_last_socket_errno : call Z).
Proof. intros Hn. by apply ends_within_atomically. Qed.

Lemma within_cvt n rc : 0 < n -> within n (cvt_socket_i32 rc : call Z).
Proof.
  intros Hn. unfold cvt_socket_i32. destruct (rc =? _); [by apply within_last_errno|].
  split; [lia|done].
Qed.

Lemma within_win_with_socket n fd (k : WinHostSocket -> call Z) :
  1 <= n -> (forall socket, within (n - 1) (k socket)) -> within n (win_with_socket fd k).
Proof.
  intros Hn Hk. unfold win_with_socket, win_get. act. intros r _.
  apply ends_within_or_return; [lia|done|auto].
Qed.

Lemma within_win_read n ptr len (k : list Z -> call Z) :
  walk len <= n -> (forall b, within (n - walk len) (k b)) -> within n (win_mem_read ptr len k).
Proof.
  intros Hn Hk. pose proof (walk_pos len). unfold win_mem_read.
  eapply ends_within_seq; [apply ends_within_zoom, (within_read_guest _ _ _ (walk len)); reflexivity|done|].
  intros r _. apply ends_within_or_return; [lia|done|]. intros b _.
  eapply ends_within_mono; [apply Hk|lia|done].
Qed.

Lemma within_win_read_len n ptr (k : Z -> call Z) :
  6 <= n -> (forall v, within (n - 6) (k v)) -> within n (win_mem_read_len ptr k).
Proof.
  intros Hn Hk. unfold win_mem_read_len, read_u32.
  apply (ends_within_seq _ 6 _ any); [|lia|].
  - apply ends_within_zoom.
    eapply ends_within_seq; [apply within_read_guest; reflexivity|by compute|].
    intros r _. by split.
  - intros r _. apply ends_within_or_return; [lia|done|auto].
Qed.

Lemma within_win_write n ptr bytes : MAX_IO_LEN + 2 <= n -> within n (win_mem_write ptr bytes : call _).
Proof. intros Hn. apply ends_within_zoom, within_write_guest. lia. Qed.

Lemma within_write_guest_u32 n ptr v : 6 <= n -> within n (write_guest_u32 ptr v : call _).
Proof.
  intros Hn. apply ends_within_zoom, within_write_guest. rewrite length_to_le_bytes. lia.
Qed.

Lemma within_win_cleanup {A} n (r : result A) k (c : A -> call Z) :
  1 <= n -> (forall a, within n (c a)) -> within n (or_cleanup r (close_socket k) c).
Proof.
  intros Hn Hc. destruct r; cbn [or_cleanup]; [auto|]. unfold close_socket.
  apply (ends_within_seq _ 1 _ any); [|lia|intros; stop].
  apply (ends_within_seq _ 1 _ any); [by apply within_ws|lia|intros; stop].
Qed.
End Parts.

(** Follows the structure of a Windows call, like [Sockets.spend]. *)
Ltac win_spend :=
  repeat match goal with
  | |- ends_within _ _ _ (win_with_socket _ _) => apply within_win_with_socket; [lia|intros ?]
  | |- ends_within _ _ _ (win_mem_read _ _ _) => apply within_win_read; [lia|intros ?]
  | |- ends_within _ _ _ (win_mem_read_len _ _) => apply within_win_read_len; [lia|intros ?]
  | |- ends_within _ _ _ (cvt_socket_i32 _) => apply within_cvt; lia
  | |- ends_within _ _ _ neg_last_socket_errno => apply within_last_errno; lia
  | |- ends_within _ _ _ (bind (ws _) _) =>
      apply (ends_within_seq _ 1 _ (fun _ => True)); [by apply within_ws|lia|intros ? _]
  | |- ends_within _ _ _ (bind (close_socket _) _) =>
      unfold close_socket at 1; apply (ends_within_seq _ 1 _ (fun _ => True)); [|lia|intros ? _]
  | |- ends_within _ _ _ (bind (win_mem_write _ _) _) =>
      apply (ends_within_seq _ (MAX_IO_LEN + 2) _ (fun _ => True));
        [by apply within_win_write|lia|intros ? _]
  | |- ends_within _ _ _ (bind (write_guest_u32 _ _) _) =>
      apply (ends_within_seq _ 6 _ (fun _ => True)); [by apply within_write_guest_u32|lia|intros ? _]
  | |- ends_within _ _ _ (or_return _ _ _) => apply ends_within_or_return; [lia|done|intros ? ?]
  | |- ends_within _ _ _ (or_cleanup _ _ _) => apply within_win_cleanup; [lia|intros ?]
  | |- ends_within _ _ _ (win_insert_socket _) => apply ends_within_atomically; [lia|done]
  | |- ends_within _ _ _ (let '(_, _) := ?x in _) => destruct x
  | |- ends_within _ _ _ (if bad_length ?len ?buf then _ else _) =>
      let H := fresh "Hlen" in destruct (bad_length len buf) eqn:H
  | |- ends_within _ _ _ (if ?b then _ else _) => destruct b
  | |- ends_within _ _ _ (Ret _) => split; [lia|exact Logic.I]
  end.

Section Imports.
Context {W : Type} `{!WinSock W} `{consts : WinSockConsts} `{!WinSockLaws W}.
#[local] Abbreviation any := (fun _ => True).
#[local] Abbreviation within n := (ends_within False n any).
#[local] Abbreviation call := (prog (Z * WinSt W)).

Lemma within_win_socket net d t p : within (sock_budget (KSocket d t p)) (win_import_socket net d t p : call Z).
Proof.
  assert (MAX_IO_LEN = 16777216) as Hio by done. unfold win_import_socket, sock_budget.
  destruct (negb net); [stop|].
  apply (ends_within_seq _ 1 _ any); [by apply ends_within_atomically|lia|intros ? _].
  win_spend.
Qed.

Lemma within_win_accept fd ptr lp : within (sock_budget (KAccept fd ptr lp)) (win_import_accept fd ptr lp : call Z).
Proof.
  assert (MAX_IO_LEN = 16777216) as Hio by done. unfold win_import_accept, sock_budget. win_spend.
  apply (good_address_slice _ _ (guest_domain socket)) in Hlen as [b ->]. cbn [or_panic]. win_spend.
Qed.

Lemma within_socket_name fd ptr lp kind : within (MAX_IO_LEN + 24) (socket_name fd ptr lp kind : call Z).
Proof.
  assert (MAX_IO_LEN = 16777216) as Hio by done. unfold socket_name. win_spend.
  apply (good_address_slice _ _ (guest_domain socket)) in Hlen as [b ->]. cbn [or_panic]. win_spend.
Qed.

Lemma within_win_getsockopt fd l o vp lp :
  within (sock_budget (KGetsockopt fd l o vp lp)) (win_import_getsockopt fd l o vp lp : call Z).
Proof.
  assert (MAX_IO_LEN = 16777216) as Hio by done. unfold win_import_getsockopt, sock_budget.
  apply within_win_with_socket; [lia|intros socket]. apply within_win_read_len; [lia|intros n].
  destruct (normalize_socket_option l o) as [hl ho]. cbv zeta. win_spend.
  apply good_length_slice in Hlen as [b ->]. cbn [or_panic]. win_spend.
Qed.

Lemma within_win_recv fd ptr len flags :
  within (sock_budget (KRecv fd ptr len flags)) (win_import_recv fd ptr len flags : call Z).
Proof.
  assert (MAX_IO_LEN = 16777216) as Hio by done. unfold win_import_recv, sock_budget.
  apply within_win_with_socket; [lia|intros socket].
  apply ends_within_or_return; [lia|done|intros n Hn].
  apply (ends_within_seq _ 1 _ (fun r => ws_fits (replicate (Z.to_nat n) 0) r.1 r.2)); [|lia|].
  { apply within_ws; [done|]. intros w. apply ws_recv_fits. }
  intros [rc buf] Hfit. cbn [fst snd] in Hfit.
  destruct (Z.eqb_spec rc ws_SOCKET_ERROR) as [|Hne]; [win_spend|].
  destruct Hfit as [|[Hrc Hb]]; [done|]. erewrite received_bounds by done. cbn [or_panic]. win_spend.
Qed.

Lemma within_win_recvfrom fd ptr len flags ap lp :
  within (sock_budget (KRecvfrom fd ptr len flags ap lp)) (win_import_recvfrom fd ptr len flags ap lp : call Z).
Proof.
  assert (MAX_IO_LEN = 16777216) as Hio by done. unfold win_import_recvfrom, sock_budget.
  apply within_win_with_socket; [lia|intros socket].
  apply ends_within_or_return; [lia|done|intros n Hn]. apply within_win_read_len; [lia|intros m].
  apply (ends_within_seq _ 1 _ (fun r => ws_fits (replicate (Z.to_nat n) 0) r.1 r.2.1)); [|lia|].
  { apply within_ws; [done|]. intros w. apply ws_recvfrom_fits. }
  intros [rc [buf [addr alen]]] Hfit. cbn [fst snd] in Hfit.
  destruct (Z.eqb_spec rc ws_SOCKET_ERROR) as [|Hne]; [win_spend|].
  destruct Hfit as [|[Hrc Hb]]; [done|].
  destruct (bad_length alen addr) eqn:Ha; [win_spend|].
  erewrite received_bounds by done. cbn [or_panic]. cbv zeta. win_spend.
  apply (good_address_slice _ _ (guest_domain socket)) in Ha as [b ->]. cbn [or_panic]. win_spend.
Qed.

Lemma within_win_poll_fds chunks :
  ends_within False (Z.of_nat (length chunks))
    (fun r => match r with Ok entries => length entries = length chunks | Err _ => True end)
    (win_poll_fds chunks : call _).
Proof.
  induction chunks as [|c cs IH]; cbn [win_poll_fds]; [done|].
  replace (Z.of_nat (length (c :: cs))) with (1 + Z.of_nat (length cs)) by (simpl; lia).
  apply (ends_within_seq _ 1 _ any); [|lia|].
  { destruct (_ <? 0); [stop|]. unfold win_get. act. intros; stop. }
  intros [e|e] _; [|split; [lia|done]].
  eapply ends_within_seq; [exact IH|lia|]. intros [es|e'] Hes; (split; [lia|]); simpl in *; [lia|done].
Qed.

(** The flags of the entries are as many as the entries. *)
Lemma within_win_write_revents ptr i fds ignored :
  length ignored = length fds ->
  within (4 * Z.of_nat (length fds)) (win_write_revents ptr i fds ignored : call _).
Proof.
  revert i ignored. induction fds as [|p fds IH]; intros i [|ig ignored] Hlen; try done.
  cbn [win_write_revents].
  apply (ends_within_seq _ 4 _ any); [|simpl; lia|].
  { apply ends_within_zoom, within_write_guest. rewrite length_to_le_bytes. lia. }
  intros [|] _; [|split; [simpl; lia|done]].
  eapply ends_within_mono; [apply IH; by injection Hlen|simpl; lia|done].
Qed.

Lemma within_win_poll ptr nfds timeout : within (sock_budget (KPoll ptr nfds timeout)) (win_import_poll ptr nfds timeout : call Z).
Proof.
  assert (MAX_POLL_FDS = 16384) as Hpoll by done. unfold win_import_poll, sock_budget.
  apply ends_within_or_return; [lia|done|]. intros n Hn. apply poll_count_bounds in Hn as [-> Hmax].
  rewrite Z.max_r, Z.min_l by lia. unfold win_mem_read. rewrite as_i32_id by bounds.
  eapply (ends_within_seq _ (nfds * 8 + 2)); [apply ends_within_zoom, within_read_guest; lia|lia|].
  intros r Hr. apply ends_within_or_return; [lia|done|]. intros bytes ->.
  pose proof (Sockets.length_chunks_8 bytes) as Hlen.
  eapply ends_within_seq; [apply within_win_poll_fds|lia|].
  intros r Hes. apply ends_within_or_return; [lia|done|]. intros entries ->.
  apply (ends_within_seq _ 1 _ (fun r => r.1 = ws_SOCKET_ERROR \/ length r.2 = length entries)); [|lia|].
  { apply within_ws; [done|]. intros w. destruct (ws_poll_fits entries.*1 timeout w) as [|[_ Hl]]; [by left|].
    right. by rewrite Hl, length_fmap. }
  intros [rc fds] Hfit. cbn [fst snd] in Hfit.
  destruct (Z.eqb_spec rc ws_SOCKET_ERROR) as [|Hne]; [win_spend|]. destruct Hfit as [|Hl]; [done|].
  eapply ends_within_seq; [apply within_win_write_revents; by rewrite length_fmap|lia|].
  intros w _. win_spend.
Qed.

Lemma within_win_import net c : within (sock_budget c) (win_sock_import net c : call Z).
Proof.
  assert (MAX_IO_LEN = 16777216) as Hio by done.
  destruct c; cbn [win_sock_import];
    lazymatch goal with
    | |- context [win_import_socket] => apply within_win_socket
    | |- context [win_import_accept] => apply within_win_accept
    | |- context [socket_name] => apply within_socket_name
    | |- context [win_import_getsockopt] => apply within_win_getsockopt
    | |- context [win_import_recv] => apply within_win_recv
    | |- context [win_import_recvfrom] => apply within_win_recvfrom
    | |- context [win_import_poll] => apply within_win_poll
    | _ => idtac
    end;
    unfold sock_budget, win_import_bind, win_import_listen, win_import_connect,
      win_import_setsockopt, win_import_send, win_import_sendto, win_import_shutdown,
      win_import_close, win_import_fcntl, win_remove_socket.
  all: Sockets.walk_bounds; try (act; intros ? _); win_spend.
  act. intros ? _. win_spend.
Qed.
End Imports.
