(* ===== verification/System.v ===== *)
(** The whole host as a guest thread sees it (src/main.rs): one memory, the file
    and the socket table, the shutdown flag and the thread counter, behind the
    imports that the base linker and the thread-spawn definition offer, and what
    holds of them together, on Unix and on Windows. *)

From S2P Require Import Prelude.
From S2P Require Import Prog.
From S2P Require Import GuestErrno.
From S2P Require Import GuestMemory.
From S2P Require Import HostPath.
From S2P Require Import Cli.
From S2P Require Import GuestPath.
From S2P Require HostFiles.
From S2P Require HostSockets.
From S2P Require HostSocketsWindows.
From S2P Require HostFilesProofs.
From S2P Require HostSocketsProofs.
From S2P Require FileSafety.
From S2P Require SocketSafety.
From S2P Require WinSocketSafety.
From S2P Require WinSocketTotal.
From S2P Require Import Sandbox.
From S2P Require MemHost.
From S2P Require MemNet.
From S2P Require MemWinSock.
From S2P Require Import FileCalls.
From S2P Require Import ShutdownSignals.
From S2P Require Import WasiThreads.
From S2P Require Import ImportedMemories.
From S2P Require Import WasiContext.
From S2P Require Import BoundedWork.
From S2P Require Import WinBoundedWork.
Local Open Scope prog_scope.
#[local] Existing Instances HostFilesProofs.logged_fs SocketSafety.logged_net
  FileSafety.wf_invariant FileSafety.sandbox_invariant SocketSafety.wf_invariant
  WinSocketSafety.logged_winsock WinSocketSafety.win_wf_invariant
  MemHost.mem_fs FileCalls.mem_fs_laws MemNet.mem_net MemWinSock.mem_winsock
  WinSocketTotal.mem_winsock_laws.

(** * The socket component, by platform *)

(** What the socket component is to the process: the state a new thread has of its
    own, and the imports, on the memory and the component's state. *)
Class SocketHost (L T : Type) := {
  new_thread : L;
  socket_import : bool -> HostSockets.SockCall -> prog (L * (GuestMem * T)) Z
}.

(** Unix: the table and the kernel. *)
Definition unix_part {U}
  : lens (unit * (GuestMem * (HostSockets.HostSocketsInner * U))) (HostSockets.SockSt U) :=
  Lens (fun s => HostSockets.Build_SockSt s.2.1 s.2.2.1 s.2.2.2)
       (fun t s => (s.1, (HostSockets.mem t, (HostSockets.table t, HostSockets.os t)))).

#[export] Instance unix_sockets {U} `{!HostSockets.UnixSockets U} `{libc : LibcErrno}
    `{consts : HostSockets.LibcConsts} : SocketHost unit (HostSockets.HostSocketsInner * U) := {|
  new_thread := tt;
  socket_import net c := zoom unix_part (HostSockets.sock_import net c)
|}.

(** Windows: the last error of the thread; the table, whether WinSock was
    started, and WinSock. *)
Definition win_part {W}
  : lens (Z * (GuestMem * (HostSocketsWindows.WinHostSocketsInner * option (result unit) * W)))
         (Z * HostSocketsWindows.WinSt W) :=
  Lens (fun s => (s.1, HostSocketsWindows.Build_WinSt s.2.1 s.2.2.1.1 s.2.2.1.2 s.2.2.2))
       (fun t s => (t.1, (HostSocketsWindows.mem t.2,
          (HostSocketsWindows.table t.2, HostSocketsWindows.WINSOCK t.2, HostSocketsWindows.os t.2)))).

#[export] Instance win_sockets {W} `{!HostSocketsWindows.WinSock W}
    `{consts : HostSocketsWindows.WinSockConsts} :
  SocketHost Z (HostSocketsWindows.WinHostSocketsInner * option (result unit) * W) := {|
  new_thread := 0;
  socket_import net c := zoom win_part (HostSocketsWindows.win_sock_import net c)
|}.

#[export] Instance unix_part_laws {U} : LensLaws (unix_part (U := U)).
Proof. split; [by intros []|by intros [[] [? []]]|done]. Qed.
#[export] Instance win_part_laws {W} : LensLaws (win_part (W := W)).
Proof. split; [by intros [? []]|by intros [? [? [[] ?]]]|done]. Qed.

(** * The process *)

(** What the threads of the process share: the memory of the module, the handles
    of [AppState] and [RuntimeEnv], and behind them the file system, the sockets
    of the operating system and its threads. *)
Record System (H File T O : Type) := {
  memory : GuestMem;
  files : HostFiles.HostFilesInner File;
  fs : H;
  sockets : T;
  shutdown_flag : bool;
  runtime : RuntimeSt O
}.
Arguments memory {H File T O} _.
Arguments files {H File T O} _.
Arguments fs {H File T O} _.
Arguments sockets {H File T O} _.
Arguments shutdown_flag {H File T O} _.
Arguments runtime {H File T O} _.
Arguments Build_System {H File T O} _ _ _ _ _ _.

Section Parts.
Context {L H File T O : Type}.
#[local] Abbreviation Sys := (System H File T O).

(** The parts of the state that a thread's call works on. *)
Definition memory_part : lens (L * Sys) GuestMem :=
  Lens (fun ls => memory ls.2)
       (fun m ls => (ls.1, Build_System m (files ls.2) (fs ls.2) (sockets ls.2)
                             (shutdown_flag ls.2) (runtime ls.2))).

Definition files_part : lens (L * Sys) (HostFiles.FileSt H File) :=
  Lens (fun ls => HostFiles.Build_FileSt (memory ls.2) (files ls.2) (fs ls.2))
       (fun t ls => (ls.1, Build_System (HostFiles.mem t) (HostFiles.inner t) (HostFiles.os t)
                             (sockets ls.2) (shutdown_flag ls.2) (runtime ls.2))).

Definition sockets_part : lens (L * Sys) (L * (GuestMem * T)) :=
  Lens (fun ls => (ls.1, (memory ls.2, sockets ls.2)))
       (fun t ls => (t.1, Build_System t.2.1 (files ls.2) (fs ls.2) t.2.2
                            (shutdown_flag ls.2) (runtime ls.2))).

Definition runtime_part : lens (L * Sys) (RuntimeSt O) :=
  Lens (fun ls => runtime ls.2)
       (fun r ls => (ls.1, Build_System (memory ls.2) (files ls.2) (fs ls.2) (sockets ls.2)
                             (shutdown_flag ls.2) r)).

Definition flag_part : lens (L * Sys) bool :=
  Lens (fun ls => shutdown_flag ls.2)
       (fun b ls => (ls.1, Build_System (memory ls.2) (files ls.2) (fs ls.2) (sockets ls.2)
                             b (runtime ls.2))).

#[export] Instance files_part_laws : LensLaws files_part.
Proof. split; [by intros []|by intros [? []]|done]. Qed.
#[export] Instance sockets_part_laws : LensLaws sockets_part.
Proof. split; [by intros [? []]|by intros [? []]|done]. Qed.
End Parts.

(** The functions of the linker, WASI's own apart. *)
Inductive HostCall :=
| CallFile (c : HostFiles.FileCall)
| CallSocket (c : HostSockets.SockCall)
| CallRequestShutdown
| CallShutdownRequested
| CallThreadSpawn (start_arg : Z).

Section Imports.
Context {L H File T O : Type} `{!HostFiles.HostFs H File} `{!SocketHost L T} `{!ThreadSpawn O}.
Context `{libc : LibcErrno} (plat : HostFiles.Platform).
#[local] Abbreviation Sys := (System H File T O).

(** [build_base_linker] and [define_wasi_thread_spawn]: what each import does, as
    a sequence of atomic actions.  A critical section of a [Mutex] and a system
    call are one action each, with whatever time they wait or block;
    [network_allowed] is the field of the calling thread's [AppState].
    [request_shutdown] has no result. *)
Definition host_import (network_allowed : bool) (c : HostCall) : prog (L * Sys) Z :=
  match c with
  | CallFile c => zoom files_part (HostFiles.file_import plat c)
  | CallSocket c => zoom sockets_part (socket_import network_allowed c)
  | CallRequestShutdown => zoom flag_part (modify (fun _ => true));; Ret 0
  | CallShutdownRequested => zoom flag_part (read shutdown_requested)
  | CallThreadSpawn start_arg => zoom runtime_part (spawn_wasi_thread start_arg)
  end.

(** [network_allowed] of the [AppState] of the main thread ([run]) and of every
    other thread ([run_wasi_thread]): both are made from the command line. *)
Definition network_allowed (cli : Cli) : bool := negb (no_network cli).

(** The state [run] builds before it calls [_start]. *)
Definition start (t : HostFiles.HostFilesInner File) (m : GuestMem) (h : H) (k : T) (o : O) : Sys :=
  Build_System m t h k false (Build_RuntimeSt first_thread_id o).

(** Guest threads of one process. *)
Definition system_pool (cli : Cli) (gs : list (GuestMemory.guest HostCall)) : list (thread L Sys unit) :=
  guest_pool new_thread memory_part (host_import (network_allowed cli)) gs.
End Imports.

(** * Lemmas *)

Section Lift.
Context {L H File T O : Type} `{!HostFiles.HostFs H File} `{!SocketHost L T} `{!ThreadSpawn O}.
Context `{libc : LibcErrno} (plat : HostFiles.Platform).
#[local] Abbreviation Sys := (System H File T O).
#[local] Abbreviation shared I := (fun ls : L * Sys => I ls.2).

(** An invariant of the whole that the parts without a component keep, from what
    the two components keep of it. *)
Lemma system_invariant (I : Sys -> Prop) cli gs s ts' s' :
  (forall m (ls : L * Sys), I ls.2 -> I (put memory_part m ls).2) ->
  (forall c, preserves (shared I) (zoom files_part (HostFiles.file_import plat c))) ->
  (forall c, preserves (shared I) (zoom sockets_part (socket_import (network_allowed cli) c))) ->
  (forall b (ls : L * Sys), I ls.2 -> I (put flag_part b ls).2) ->
  (forall r (ls : L * Sys), I ls.2 -> I (put runtime_part r ls).2) ->
  I s -> rtc pool_step (system_pool plat cli gs, s) (ts', s') -> I s'.
Proof.
  intros Hm Hf Hs Hflag Hrt. apply (guest_pool_invariant I); [done|].
  intros c. destruct c; cbn [host_import]; try done.
  - apply preserves_bind; [by apply preserves_zoom_frame|done].
  - by apply preserves_zoom_frame.
  - by apply preserves_zoom_frame.
Qed.

(** An invariant of the file imports is one of the process. *)
Lemma system_file_invariant I path_ok G
    `{!HostFilesProofs.FileInvariant plat I path_ok G} cli gs (s : Sys) ts' s' :
  I (HostFiles.Build_FileSt (memory s) (files s) (fs s)) ->
  rtc pool_step (system_pool plat cli gs, s) (ts', s') ->
  I (HostFiles.Build_FileSt (memory s') (files s') (fs s')).
Proof.
  assert (forall m t, I t -> I (put HostFiles.mem_lens m t)) as Hm.
  { intros m t. apply HostFilesProofs.inv_mem. }
  apply (system_invariant (fun s => I (HostFiles.Build_FileSt (memory s) (files s) (fs s)))); try done.
  - intros m ls Hs. exact (Hm m _ Hs).
  - intros c. apply (preserves_zoom files_part I). by eapply HostFilesProofs.preserves_file_import.
  - intros c. apply preserves_zoom_frame. intros t ls Hs. exact (Hm t.2.1 _ Hs).
Qed.

(** And so is what the socket imports keep, whatever is in memory. *)
Lemma system_socket_invariant (J : GuestMem * T -> Prop) cli gs (s : Sys) ts' s' :
  (forall m m' k, J (m, k) -> J (m', k)) ->
  (forall c, preserves (fun lt : L * (GuestMem * T) => J lt.2)
    (socket_import (network_allowed cli) c)) ->
  J (memory s, sockets s) -> rtc pool_step (system_pool plat cli gs, s) (ts', s') ->
  J (memory s', sockets s').
Proof.
  intros Hm Hc. apply (system_invariant (fun s => J (memory s, sockets s))); try done.
  - intros m ls Hs. by eapply Hm.
  - intros c. apply preserves_zoom_frame. intros t ls Hs. by eapply Hm.
  - intros c. by apply (preserves_zoom sockets_part (fun lt => J lt.2)).
Qed.

(** The own actions of a call. *)
Definition host_budget (c : HostCall) : Z :=
  match c with
  | CallFile c => file_budget c
  | CallSocket c => sock_budget c
  | CallRequestShutdown | CallShutdownRequested => 1
  | CallThreadSpawn _ => 2
  end.

Lemma within_spawn P a :
  ends_within P 2 (fun _ => True) (spawn_wasi_thread a : prog (RuntimeSt O) Z).
Proof.
  unfold spawn_wasi_thread. act. intros id _. destruct (id <=? 0); [stop|]. act. intros; stop.
Qed.

Context `{!HostFilesProofs.HostFsLaws H File}.

(** The bound of a call; only a socket call may panic, and only if [P]. *)
Lemma within_host_import (P : Prop) network c :
  (forall c, ends_within P (sock_budget c) (fun _ => True)
    (socket_import network c : prog (L * (GuestMem * T)) Z)) ->
  ends_within (match c with CallSocket _ => P | _ => False end) (host_budget c) (fun _ => True)
    (host_import plat network c : prog (L * Sys) Z).
Proof.
  intros Hs. destruct c; cbn [host_import host_budget].
  - apply ends_within_zoom, within_file_import, _.
  - apply ends_within_zoom, Hs.
  - apply (ends_within_seq _ 1 _ (fun _ => True)); [|lia|intros; stop].
    apply ends_within_zoom. by apply ends_within_atomically.
  - apply ends_within_zoom. by apply ends_within_atomically.
  - apply ends_within_zoom, within_spawn.
Qed.
End Lift.

(** ** The socket components in the process *)

Section SocketComponents.
Context {H File U W O : Type} `{!HostFiles.HostFs H File} `{!ThreadSpawn O} `{libc : LibcErrno}.
Context `{!HostSockets.UnixSockets U} `{unix_consts : HostSockets.LibcConsts}.
Context `{!HostSocketsWindows.WinSock W} `{win_consts : HostSocketsWindows.WinSockConsts}.
Context (plat : HostFiles.Platform) (cli : Cli) (gs : list (GuestMemory.guest HostCall)).

Lemma unix_sockets_wf s ts' (s' : System H File (HostSockets.HostSocketsInner * U) O) :
  HostSocketsProofs.sockets_wf (sockets s).1 ->
  rtc pool_step (system_pool plat cli gs, s) (ts', s') ->
  HostSocketsProofs.sockets_wf (sockets s').1.
Proof.
  intros Hs. refine (system_socket_invariant plat
    (fun mk => HostSocketsProofs.sockets_wf mk.2.1) cli gs s ts' s' (fun _ _ _ Hk => Hk) _ Hs).
  intros c. apply (preserves_zoom unix_part (fun t => HostSocketsProofs.sockets_wf (HostSockets.table t))).
  by apply (HostSocketsProofs.preserves_sock_import _).
Qed.

Lemma unix_sockets_silent s ts'
    (s' : System H File (HostSockets.HostSocketsInner * (U * list (option (list HostSockets.pollfd)))) O) :
  let silent (k : HostSockets.HostSocketsInner * (U * list (option (list HostSockets.pollfd)))) :=
    HostSockets.sockets k.1 = ∅ /\ Forall SocketSafety.touches_nothing k.2.2 in
  no_network cli = true -> silent (sockets s) ->
  rtc pool_step (system_pool plat cli gs, s) (ts', s') -> silent (sockets s').
Proof.
  intros silent Hnet Hs. refine (system_socket_invariant plat (fun mk => silent mk.2)
    cli gs s ts' s' (fun _ _ _ Hk => Hk) _ Hs).
  intros c. unfold network_allowed. rewrite Hnet.
  exact (preserves_zoom unix_part SocketSafety.silent _ (SocketSafety.silent_import c)).
Qed.

Lemma win_sockets_wf s ts'
    (s' : System H File (HostSocketsWindows.WinHostSocketsInner * option (result unit) * W) O) :
  WinSocketSafety.win_wf (sockets s).1.1 ->
  rtc pool_step (system_pool plat cli gs, s) (ts', s') -> WinSocketSafety.win_wf (sockets s').1.1.
Proof.
  intros Hs. refine (system_socket_invariant plat
    (fun mk => WinSocketSafety.win_wf mk.2.1.1) cli gs s ts' s' (fun _ _ _ Hk => Hk) _ Hs).
  intros c. apply (preserves_zoom win_part
    (fun ls => WinSocketSafety.win_wf (HostSocketsWindows.table ls.2))).
  by apply (WinSocketSafety.win_preserves_import (fun s => WinSocketSafety.win_wf (HostSocketsWindows.table s))).
Qed.

Lemma win_sockets_silent s ts' (s' : System H File (HostSocketsWindows.WinHostSocketsInner *
    option (result unit) * (W * list WinSocketSafety.WinCall)) O) :
  let silent (k : HostSocketsWindows.WinHostSocketsInner * option (result unit) *
      (W * list WinSocketSafety.WinCall)) :=
    HostSocketsWindows.sockets k.1.1 = ∅ /\ k.1.2 = None /\
    Forall WinSocketSafety.win_touches_nothing k.2.2 in
  no_network cli = true -> silent (sockets s) ->
  rtc pool_step (system_pool plat cli gs, s) (ts', s') -> silent (sockets s').
Proof.
  intros silent Hnet Hs. refine (system_socket_invariant plat (fun mk => silent mk.2)
    cli gs s ts' s' (fun _ _ _ Hk => Hk) _ Hs).
  intros c. unfold network_allowed. rewrite Hnet.
  exact (preserves_zoom win_part (fun ls => WinSocketSafety.win_silent ls.2) _
    (WinSocketSafety.win_silent_import c)).
Qed.


Lemma win_sockets_within `{!WinSocketTotal.WinSockLaws W} network c :
  ends_within False (sock_budget c) (fun _ => True)
    (socket_import network c : prog (Z * (GuestMem *
      (HostSocketsWindows.WinHostSocketsInner * option (result unit) * W))) Z).
Proof. apply ends_within_zoom, within_win_import. Qed.
End SocketComponents.

(** * Properties *)

(** C1. The process on Unix: for a parsed command line, from the state [run] builds,
    whatever any number of guest threads do with the memory and with all the
    imports together, and however their actions interleave: both descriptor
    tables stay well formed; the preopens are those of the command line and every
    path the host is asked for is inside one of them (or is a parent that
    [sync_parent] may sync); and with [--no-network] no socket is ever open and
    no system call of the socket imports touches a descriptor. *)
Theorem system_safe {H File U O} `{!HostFiles.HostFs H File} `{!HostSockets.UnixSockets U}
    `{!ThreadSpawn O} `{libc : LibcErrno} `{consts : HostSockets.LibcConsts}
    cwd cli (t : HostFiles.HostFilesInner File) m (h : H) (u : U) (o : O) gs ts' s' :
  cli_parsed cli -> cwd_named cwd -> HostFiles.new cwd cli = HostFiles.IoOk t ->
  rtc pool_step (system_pool HostFiles.Unix cli gs,
                 start t m (h, []) (HostSockets.new, (u, [])) o) (ts', s') ->
  let '(socket_table, (_, calls)) := sockets s' in
  HostFilesProofs.files_wf HostFiles.Unix (files s') /\
  HostSocketsProofs.sockets_wf socket_table /\
  (HostFiles.preopens (files s') = HostFiles.preopens t /\
   Forall (contained (HostFiles.preopens t)) (fs s').2) /\
  (no_network cli = true ->
   HostSockets.sockets socket_table = ∅ /\ Forall SocketSafety.touches_nothing calls).
Proof.
  intros Hcli Hcwd Hnew Hsteps. destruct (new_table _ _ _ Hcli Hcwd Hnew) as (_ & Hok & _).
  pose proof (FileSafety.sandbox_invariant HostFiles.Unix (H := H) (File := File) _ Hok) as Hbox.
  pose proof (FileSafety.new_wf HostFiles.Unix cwd cli t Hnew) as Hnew_wf.
  pose proof (system_file_invariant HostFiles.Unix
    (fun t => HostFilesProofs.files_wf HostFiles.Unix (HostFiles.inner t))
    _ _ cli gs (start _ _ _ _ _) ts' s' Hnew_wf Hsteps) as Hfiles.
  pose proof (system_file_invariant HostFiles.Unix _ _ _ cli gs (start t m (h, []) _ o) ts' s'
    (conj eq_refl (Forall_nil_2 _)) Hsteps) as [Hpre Hlog].
  pose proof (unix_sockets_wf _ _ _ (start t m (h, []) (HostSockets.new, (u, [])) o) _ _
    SocketSafety.new_sockets_wf Hsteps) as Hwf.
  pose proof (fun Hnet => unix_sockets_silent _ _ _
    (start t m (h, []) (HostSockets.new, (u, [])) o) _ _ Hnet
    (conj eq_refl (Forall_nil_2 _)) Hsteps) as Hsilent.
  destruct (sockets s') as [table [u' calls]]. by split_and!.
Qed.

(** C2. The process on Windows: from the state [run] builds, under every
    interleaving of guest threads that use all the imports together: the file
    table stays well formed, with a lock path for exactly the open descriptors,
    and so does the socket table; and with [--no-network] no socket is ever open,
    WinSock is never started, and the only WinSock call made is a [WSAPoll] of
    ignored entries. *)
Theorem win_system_safe {H File W O} `{!HostFiles.HostFs H File} `{!HostSocketsWindows.WinSock W}
    `{!ThreadSpawn O} `{libc : LibcErrno} `{consts : HostSocketsWindows.WinSockConsts}
    cwd cli (t : HostFiles.HostFilesInner File) m (h : H) (w : W) (o : O) gs ts' s' :
  HostFiles.new cwd cli = HostFiles.IoOk t ->
  rtc pool_step (system_pool HostFiles.Windows cli gs,
                 start t m h (HostSocketsWindows.win_new, None, (w, [])) o) (ts', s') ->
  let '(socket_table, started, (_, calls)) := sockets s' in
  HostFilesProofs.files_wf HostFiles.Windows (files s') /\
  WinSocketSafety.win_wf socket_table /\
  (no_network cli = true ->
   HostSocketsWindows.sockets socket_table = ∅ /\ started = None /\
   Forall WinSocketSafety.win_touches_nothing calls).
Proof.
  intros Hnew Hsteps.
  pose proof (FileSafety.new_wf HostFiles.Windows cwd cli t Hnew) as Hnew_wf.
  pose proof (system_file_invariant HostFiles.Windows
    (fun t => HostFilesProofs.files_wf HostFiles.Windows (HostFiles.inner t))
    _ _ cli gs (start _ _ _ _ _) ts' s' Hnew_wf Hsteps) as Hfiles.
  pose proof (win_sockets_wf _ _ _
    (start t m h (HostSocketsWindows.win_new, None, (w, [])) o) _ _ WinSocketSafety.win_new_wf Hsteps) as Hwf.
  pose proof (fun Hnet => win_sockets_silent _ _ _
    (start t m h (HostSocketsWindows.win_new, None, (w, [])) o) _ _ Hnet
    (conj eq_refl (conj eq_refl (Forall_nil_2 _))) Hsteps) as Hsilent.
  destruct (sockets s') as [[table started] [w' calls]]. by split_and!.
Qed.


(** C13. Bounded work on Windows: the same bounds, on a WinSock that fills in no more
    than the buffers it is given, and no import panics, socket calls included. *)
Theorem win_host_import_bounded {H File W O} `{!HostFiles.HostFs H File}
    `{!HostSocketsWindows.WinSock W} `{!ThreadSpawn O} `{libc : LibcErrno}
    `{consts : HostSocketsWindows.WinSockConsts}
    `{!HostFilesProofs.HostFsLaws H File} `{!WinSocketTotal.WinSockLaws W} network c :
  ends_within False (host_budget c) (fun _ => True)
    (host_import HostFiles.Windows network c : prog (Z * System H File
      (HostSocketsWindows.WinHostSocketsInner * option (result unit) * W) O) Z).
Proof.
  eapply ends_within_panic; [|apply (within_host_import HostFiles.Windows False network c),
    (win_sockets_within network)].
  by destruct c.
Qed.

(** * Concrete runs *)

#[export] Instance mem_poll_laws : UnixPollLaws MemNet.MemNet.
Proof. constructor. intros fds timeout u. simpl. apply length_map. Qed.

Definition demo_memory : GuestMem :=
  Some (ExtSharedMemory (HostFiles.string_bytes "/data/ibdata1" ++ replicate 51 0)).

(** Two threads of the guest: one works on a file, the other on a socket, and
    both use the runtime's imports. *)
Definition demo_guests : list (GuestMemory.guest HostCall) :=
  [GuestCall (CallFile FileSafety.demo_open) (fun fd =>
     GuestCall (CallFile (HostFiles.FPwrite fd 0 5 3)) (fun _ =>
     GuestCall CallRequestShutdown (fun _ => GuestCall (CallThreadSpawn 0) (fun _ => GuestDone))));
   GuestCall (CallSocket (HostSockets.KSocket 1 6 0)) (fun fd =>
     GuestCall (CallSocket (HostSockets.KSend fd 0 5 0)) (fun _ =>
     GuestCall (CallSocket (HostSockets.KClose fd)) (fun _ =>
     GuestCall CallShutdownRequested (fun _ => GuestDone))))].

(** Turns for two threads, [n] each. *)
Definition round_robin (n : nat) : list nat := concat (replicate n [0; 1]%nat).

Section Demo.
Local Existing Instance linux_errno.
Local Existing Instance HostSockets.linux_consts.
Local Existing Instance HostSocketsWindows.windows_consts.

Definition unix_demo_end :=
  run_schedule (round_robin 60) (system_pool HostFiles.Unix demo_cli demo_guests,
    start demo_table demo_memory (MemHost.mem_fs_init ∅, [])
      (HostSockets.new, (MemNet.mem_net_init, [])) ([] : list Z)).

Definition win_demo_end :=
  run_schedule (round_robin 60) (system_pool HostFiles.Windows demo_cli demo_guests,
    start demo_table demo_memory (MemHost.mem_fs_init ∅)
      (HostSocketsWindows.win_new, None, (MemWinSock.mem_winsock_init, [])) ([] : list Z)).

Lemma system_safe_witness :
  let s := unix_demo_end.2 in
  (fs s).2 = ["/srv/db/ibdata1"%string] /\ shutdown_flag s = true /\
  HostFilesProofs.files_wf HostFiles.Unix (files s) /\
  HostSocketsProofs.sockets_wf (sockets s).1.
Proof.
  intros s. split; [vm_compute; reflexivity|]. split; [vm_compute; reflexivity|].
  pose proof (system_safe _ demo_cli demo_table demo_memory (MemHost.mem_fs_init ∅)
    MemNet.mem_net_init ([] : list Z) demo_guests unix_demo_end.1 s demo_cli_parsed demo_cwd_named demo_new
    (run_schedule_steps (round_robin 60) _)) as Hsafe.
  destruct (sockets s) as [table [u calls]]. destruct Hsafe as (H1 & H2 & _). by split.
Defined.

Lemma win_system_safe_witness :
  let s := win_demo_end.2 in
  shutdown_flag s = true /\ HostFilesProofs.files_wf HostFiles.Windows (files s) /\
  WinSocketSafety.win_wf (sockets s).1.1.
Proof.
  intros s. split; [vm_compute; reflexivity|].
  pose proof (win_system_safe _ demo_cli demo_table demo_memory (MemHost.mem_fs_init ∅)
    MemWinSock.mem_winsock_init ([] : list Z) demo_guests win_demo_end.1 s demo_new
    (run_schedule_steps (round_robin 60) _)) as Hsafe.
  destruct (sockets s) as [[table started] [w calls]]. destruct Hsafe as (H1 & H2 & _). by split.
Defined.


Lemma win_host_import_bounded_witness :
  ends_within False 34 (fun _ => True)
    (host_import HostFiles.Windows true (CallSocket (HostSockets.KPoll 32 2 0)) :
       prog (Z * System MemHost.MemFs Z (HostSocketsWindows.WinHostSocketsInner * option (result unit)
         * MemWinSock.MemWinSock) (list Z)) Z).
Proof. exact (win_host_import_bounded true (CallSocket (HostSockets.KPoll 32 2 0))). Defined.
End Demo.
