(* ===== verification/Assembly.v ===== *)
(** The assembly of the process (src/main.rs): [run] up to the guest's [_start],
    and [run_wasi_thread] up to [wasi_thread_start].

    Wasmtime's engine, store and instances are parameters.  An [Arc] is the
    number of the object it points to, so that two handles of one object are
    equal and two objects made apart are not. *)

From S2P Require Import Prelude.
From S2P Require Import HostPath.
From S2P Require Import Cli.
From S2P Require Import GuestPath.
From S2P Require Import HostFiles.
From S2P Require Import ShutdownSignals.
From S2P Require Import WasiThreads.
From S2P Require Import ImportedMemories.
From S2P Require Import WasiContext.

Definition Arc : Type := nat.

(** [Arc::new]: the next number. *)
Definition arc_new (heap : nat) : Arc * nat := (heap, S heap).

(** [struct AppState]; of the WASI context, the calls that built it. *)
Record AppState := {
  wasi : list WasiCall;
  app_files : Arc;
  app_sockets : Arc;
  network_allowed : bool;
  app_shutdown_requested : Arc
}.

(** [struct RuntimeEnv]; the counter of thread ids is an object of its own. *)
Record RuntimeEnv (Engine Mod Shared : Type) := {
  engine : Engine;
  module : Mod;
  env_cli : Cli;
  env_files : Arc;
  env_sockets : Arc;
  env_shutdown_requested : Arc;
  memories : list (ImportedSharedMemory Shared);
  env_next_thread_id : Arc
}.
Arguments engine {Engine Mod Shared} _.
Arguments module {Engine Mod Shared} _.
Arguments env_cli {Engine Mod Shared} _.
Arguments env_files {Engine Mod Shared} _.
Arguments env_sockets {Engine Mod Shared} _.
Arguments env_shutdown_requested {Engine Mod Shared} _.
Arguments memories {Engine Mod Shared} _.
Arguments env_next_thread_id {Engine Mod Shared} _.

(** What is registered with a linker besides memories. *)
Inductive HostFunctions (Env : Type) :=
| WasiP1
| HostFileImports
| HostSocketImports
| RequestShutdown
| ShutdownRequested
| ThreadSpawnOf (env : Env).
Arguments WasiP1 {Env}.
Arguments HostFileImports {Env}.
Arguments HostSocketImports {Env}.
Arguments RequestShutdown {Env}.
Arguments ShutdownRequested {Env}.
Arguments ThreadSpawnOf {Env} env.

(** The rest of Wasmtime's interface.  Instantiating a module may run a start
    function of the guest, so that it can fail like a call of the guest; the other
    operations run no guest code, and [None] is an error of theirs, whose own
    message is not modelled.  The engine is made with threads, exceptions and
    shared memories enabled. *)
Class WasmtimeEngine (Engine Mod MemoryType Shared Store Linker Instance_ Func : Type) := {
  engine_new : option Engine;
  module_from_binary : Engine -> list Z -> option Mod;
  module_imports : Mod -> list ((string * string) * ExternType MemoryType);
  linker_new : Engine -> Linker;
  linker_add : HostFunctions (RuntimeEnv Engine Mod Shared) -> Linker -> option Linker;
  define_unknown_imports_as_traps : Mod -> Linker -> option Linker;
  store_new : Engine -> AppState -> Store;
  instantiate : Linker -> Store -> Mod -> (Instance_ * Store) + GuestError;
  get_typed_func : Instance_ -> string -> option Func;
  func_call : Func -> list Z -> Store -> () + GuestError
}.

(** [.context(message)?]. *)
Definition context {A B} (o : option A) (message : string) (k : A -> B + GuestError)
  : B + GuestError :=
  match o with Some a => k a | None => inr (OtherError message) end.

(** [.context(message)?] on an error that may be the guest's. *)
Definition guest_context {A B} (r : A + GuestError) (message : string) (k : A -> B + GuestError)
  : B + GuestError :=
  match r with inl a => k a | inr e => inr (add_context message e) end.

(** [?] on an error that carries its own message, which is not modelled. *)
Definition try_ {A B} (o : option A) (k : A -> B + GuestError) : B + GuestError :=
  context o "" k.
Definition wasi_ok (r : WasiError + list WasiCall) : option (list WasiCall) :=
  match r with inr calls => Some calls | inl _ => None end.
Definition io_ok {A} (r : io_result A) : option A :=
  match r with IoOk a => Some a | IoErr _ => None end.

Section Assembly.
Context {Engine Mod MemoryType Shared Private Store Linker Instance_ Func : Type}.
Context `{!Wasmtime MemoryType Shared Private Store Linker}.
Context `{!WasmtimeEngine Engine Mod MemoryType Shared Store Linker Instance_ Func}.
Context {K : Type} `{!SignalHook K} {File : Type}.
#[local] Abbreviation Env := (RuntimeEnv Engine Mod Shared).

(** The embedded module and the name of its source, from the build script. *)
Context (MYSQLD_WASM : list Z) (MYSQLD_WASM_SOURCE : string) (plat : Platform).

(** [build_base_linker]. *)
Definition build_base_linker (engine : Engine) : option Linker :=
  l ← linker_add WasiP1 (linker_new engine);
  l ← linker_add HostFileImports l;
  l ← linker_add HostSocketImports l;
  l ← linker_add RequestShutdown l;
  linker_add ShutdownRequested l.

(** [define_wasi_thread_spawn]. *)
Definition define_wasi_thread_spawn (l : Linker) (env : Env) : option Linker :=
  linker_add (ThreadSpawnOf env) l.

(** What a thread finds of the host when it starts: the directories and the
    current directory. *)
Record HostView := {
  is_dir : string -> bool;
  preopened_dir : string -> string -> bool;
  cwd : io_result string
}.

(** [run], up to the runtime environment: the state of the main thread, the
    environment of the other ones, and the linker and the store. *)
Definition assemble (cli : Cli) (view : HostView) (heap : nat)
  : (AppState * Env * Linker * Store) + GuestError :=
  context engine_new "failed to create Wasmtime engine" (fun engine =>
  context (module_from_binary engine MYSQLD_WASM)
    "failed to compile embedded mysqld WebAssembly module" (fun module =>
  try_ (wasi_ok (build_wasi (is_dir view) (preopened_dir view) (cwd view) cli)) (fun wasi =>
  let network_allowed := negb (no_network cli) in
  context (io_ok (new (File := File) (cwd view) cli)) "failed to configure host file table" (fun _ =>
  let '(files, heap) := arc_new heap in
  let '(sockets, heap) := arc_new heap in
  let '(shutdown_requested, heap) := arc_new heap in
  try_ (install_shutdown_signal_handlers plat hook_none) (fun _ =>
  try_ (build_base_linker engine) (fun linker =>
  let state := {| wasi := wasi; app_files := files; app_sockets := sockets;
                  network_allowed := network_allowed;
                  app_shutdown_requested := shutdown_requested |} in
  let store := store_new engine state in
  context (define_imported_memories (module_imports module) linker store)
    "failed to define imported memories" (fun '(memories, (linker, store)) =>
  let '(next_thread_id, _) := arc_new heap in
  inl (state,
       {| engine := engine; module := module; env_cli := cli; env_files := files;
          env_sockets := sockets; env_shutdown_requested := shutdown_requested;
          memories := memories; env_next_thread_id := next_thread_id |},
       linker, store)))))))).

(** The rest of [run]: the guest's [_start]. *)
Definition enter (env : Env) (linker : Linker) (store : Store) : () + GuestError :=
  context (define_wasi_thread_spawn linker env) "failed to define WASI thread spawn import" (fun linker =>
  context (define_unknown_imports_as_traps (module env) linker)
    "failed to define trap handlers for unsupported imports" (fun linker =>
  guest_context (instantiate linker store (module env)) "failed to instantiate embedded mysqld module"
    (fun '(inst, store) =>
  context (get_typed_func inst "_start") "embedded module does not export a WASI _start function"
    (fun start =>
  guest_context (func_call start [] store) "embedded mysqld module trapped" (fun _ => inl tt))))).

(** What [Cli::parse] makes of the process's arguments: a command line; or it
    ends the process itself, after printing the help or the version (status 0),
    or because the arguments are wrong (status 2, with a message on the standard
    error output, which is not modelled here or elsewhere). *)
Inductive ParsedArgs := CliParsed (cli : Cli) | CliDisplayed (text : list string) | CliUsageError.

(** [run] after [Cli::parse]: what it prints and its result. *)
Definition run (cli : Cli) (view : HostView) : list string * (() + GuestError) :=
  if show_embedded_source cli then ([MYSQLD_WASM_SOURCE], inl tt)
  else
    ([], match assemble cli view 0 with
         | inr e => inr e
         | inl (_, env, linker, store) => enter env linker store
         end).

(** The process: what [run] prints and the exit status of [main]. *)
Definition process (args : ParsedArgs) (view : HostView) : list string * Z :=
  match args with
  | CliParsed cli => let '(output, result) := run cli view in (output, exit_status (main result))
  | CliDisplayed text => (text, 0)
  | CliUsageError => ([], 2)
  end.

(** [run_wasi_thread], up to the shared memories. *)
Definition assemble_thread (env : Env) (view : HostView)
  : (AppState * Linker * Store) + GuestError :=
  try_ (build_base_linker (engine env)) (fun linker =>
  try_ (wasi_ok (build_wasi (is_dir view) (preopened_dir view) (cwd view) (env_cli env))) (fun wasi =>
  let state := {| wasi := wasi; app_files := env_files env; app_sockets := env_sockets env;
                  network_allowed := negb (no_network (env_cli env));
                  app_shutdown_requested := env_shutdown_requested env |} in
  let store := store_new (engine env) state in
  context (define_shared_memories (memories env) linker)
    "failed to define shared memories for WASI thread" (fun linker =>
  inl (state, linker, store)))).

(** [run_wasi_thread]. *)
Definition run_wasi_thread (env : Env) (view : HostView) (thread_id start_arg : Z)
  : () + GuestError :=
  match assemble_thread env view with
  | inr e => inr e
  | inl (_, linker, store) =>
      context (define_wasi_thread_spawn linker env)
        "failed to define nested WASI thread spawn import" (fun linker =>
      context (define_unknown_imports_as_traps (module env) linker)
        "failed to define trap handlers for WASI thread" (fun linker =>
      guest_context (instantiate linker store (module env)) "failed to instantiate WASI thread module"
        (fun '(inst, store) =>
      context (get_typed_func inst "wasi_thread_start")
        "module does not export wasi_thread_start(thread_id, start_arg)" (fun thread_start =>
      thread_result (func_call thread_start [thread_id; start_arg] store)))))
  end.
End Assembly.

(** * Lemmas *)

Lemma context_inl {A B} (o : option A) message (k : A -> B + GuestError) b :
  context o message k = inl b <-> exists a, o = Some a /\ k a = inl b.
Proof. destruct o; simpl; naive_solver. Qed.

Lemma context_other {A B} (o : option A) message (k : A -> B + GuestError) e :
  (forall a e, k a = inr e -> exists d, e = OtherError d) ->
  context o message k = inr e -> exists d, e = OtherError d.
Proof. intros Hk. destruct o; simpl; [apply Hk|]. intros [= <-]. eauto. Qed.

Section Proofs.
Context {Engine Mod MemoryType Shared Private Store Linker Instance_ Func : Type}.
Context `{!Wasmtime MemoryType Shared Private Store Linker}.
Context `{!WasmtimeEngine Engine Mod MemoryType Shared Store Linker Instance_ Func}.
Context {K : Type} `{!SignalHook K} {File : Type}.
Context (wasm : list Z) (plat : Platform).
#[local] Abbreviation assembled := (assemble (K := K) (File := File) wasm plat).

(** What the steps of [assemble] were when it succeeded. *)
Lemma assemble_inl cli view heap st (env : RuntimeEnv Engine Mod Shared) linker store :
  assembled cli view heap = inl (st, env, linker, store) ->
  exists wasi base store0,
    build_wasi (is_dir view) (preopened_dir view) (cwd view) cli = inr wasi /\
    is_Some (io_ok (new (File := File) (cwd view) cli)) /\
    build_base_linker (engine env) = Some base /\
    define_imported_memories (module_imports (module env)) base store0 =
      Some (memories env, (linker, store)) /\
    st = {| wasi := wasi; app_files := heap; app_sockets := S heap;
            network_allowed := negb (no_network cli);
            app_shutdown_requested := S (S heap) |} /\
    env_cli env = cli /\ env_files env = heap /\ env_sockets env = S heap /\
    env_shutdown_requested env = S (S heap) /\ env_next_thread_id env = S (S (S heap)).
Proof.
  unfold assemble. intros (en & Hen & H)%context_inl.
  apply context_inl in H as (md & Hmd & H). apply context_inl in H as (w & Hw & H).
  apply context_inl in H as (t & Ht & H). cbn [arc_new] in H.
  apply context_inl in H as (hooks & Hk & H). apply context_inl in H as (base & Hb & H).
  apply context_inl in H as ([ms [l st']] & Hm & [= <- <- <- <-]).
  unfold wasi_ok in Hw. destruct (build_wasi _ _ _ _) as [|w'] eqn:E; [done|]. simplify_eq.
  exists w, base. eexists. cbn. by split_and!.
Qed.

(** Before the guest is entered, every error is one of the runtime. *)
Lemma assemble_inr cli view heap e :
  assembled cli view heap = inr e -> exists d, e = OtherError d.
Proof.
  unfold assemble, try_. cbn [arc_new].
  repeat (apply context_other; intros ? ?). destruct_and?. intros.
  repeat match goal with H : context [let '(_, _) := ?x in _] |- _ => destruct x end; done.
Qed.

(** The outcome of the guest, when [run] gets as far as its code: the error of
    instantiating the module, or else the result of [_start]. *)
Definition guest_outcome (cli : Cli) (view : HostView) : option (() + GuestError) :=
  match assembled cli view 0 with
  | inr _ => None
  | inl (_, env, linker, store) =>
      linker ← define_wasi_thread_spawn linker env;
      linker ← define_unknown_imports_as_traps (module env) linker;
      match instantiate linker store (module env) with
      | inr e => Some (inr e)
      | inl (inst, store) =>
          start ← get_typed_func inst "_start";
          Some (func_call start [] store)
      end
  end.

Lemma enter_outcome cli view st env linker store :
  assembled cli view 0 = inl (st, env, linker, store) ->
  match guest_outcome cli view with
  | Some r => guest_status (enter env linker store) = guest_status r /\
      (exits_i32 r -> exits_i32 (enter env linker store))
  | None => exists d, enter env linker store = inr (OtherError d)
  end.
Proof.
  intros H. unfold guest_outcome, enter. rewrite H.
  destruct (define_wasi_thread_spawn linker env); simpl; [|by eauto].
  destruct (define_unknown_imports_as_traps _ _); simpl; [|by eauto].
  destruct (instantiate _ _ _) as [[inst store']|e]; simpl.
  2:{ split; [apply guest_status_context|apply exits_i32_context]. }
  destruct (get_typed_func _ _) as [f|]; simpl; [|by eauto].
  destruct (func_call f [] store') as [[]|e]; simpl; [by split|].
  split; [apply guest_status_context|apply exits_i32_context].
Qed.
End Proofs.

(** * Properties *)

(** C25. Every thread of the guest works on the same host: when [run] has
    assembled the process, the state of any thread [run_wasi_thread] sets up later
    holds the very file table, socket table and shutdown flag of the main thread,
    the three being different objects; it is allowed the network exactly when the
    main thread is, in the socket imports and in WASI alike; and defining the
    shared memories in its linker cannot fail and gives every shared memory import
    of the module the memory that the main thread has. *)
Theorem threads_share_the_host {Engine Mod MemoryType Shared Private Store Linker Instance_ Func}
    `{!Wasmtime MemoryType Shared Private Store Linker}
    `{!WasmtimeLaws MemoryType Shared Private Store Linker}
    `{!WasmtimeEngine Engine Mod MemoryType Shared Store Linker Instance_ Func}
    {K} `{!SignalHook K} {File} wasm plat cli view heap st (env : RuntimeEnv Engine Mod Shared)
    linker (store : Store) :
  assemble (K := K) (File := File) wasm plat cli view heap = inl (st, env, linker, store) ->
  NoDup [app_files st; app_sockets st; app_shutdown_requested st; env_next_thread_id env] /\
  network_allowed st = negb (no_network cli) /\
  existsb network_call (wasi st) = network_allowed st /\
  (exists base thread_linker,
    build_base_linker (engine env) = Some base /\
    define_shared_memories (memories env) base = Some thread_linker) /\
  forall view' st' linker' store',
    assemble_thread env view' = inl (st', linker', store') ->
    app_files st' = app_files st /\ app_sockets st' = app_sockets st /\
    app_shutdown_requested st' = app_shutdown_requested st /\
    network_allowed st' = network_allowed st /\
    existsb network_call (wasi st') = network_allowed st' /\
    forall key ty, first_memory key (module_imports (module env)) = Some ty -> is_shared ty = true ->
      exists m, linker_lookup key linker = Some (inl m) /\ linker_lookup key linker' = Some (inl m).
Proof.
  intros H. apply assemble_inl in H
    as (w & base & store0 & Hw & _ & Hb & Hm & -> & Hcli & Hf & Hs & Hsd & Hid).
  apply build_wasi_inr in Hw as (_ & _ & Hnet).
  destruct (define_shared_again _ _ _ _ _ _ Hm) as (t' & Ht' & Hagree).
  cbn [app_files app_sockets app_shutdown_requested network_allowed wasi].
  split; [rewrite Hid; repeat (constructor; [set_unfold; lia|]); constructor|].
  split; [done|]. split; [exact Hnet|]. split; [by exists base, t'|].
  intros view' st' linker' store' H. unfold assemble_thread in H.
  apply context_inl in H as (b & Hb' & H). apply context_inl in H as (w' & Hw' & H).
  apply context_inl in H as (t & Ht & [= <- <- <-]).
  rewrite Hb in Hb'. injection Hb' as <-. rewrite Ht' in Ht. injection Ht as <-.
  unfold wasi_ok in Hw'. destruct (build_wasi _ _ _ _) as [|x] eqn:E; [done|]. simplify_eq.
  apply build_wasi_inr in E as (_ & _ & Hnet'). cbn. split_and!; try done.
  intros key ty Hkey Hsh. specialize (Hagree key). rewrite Hkey in Hagree. unfold memory_agrees in Hagree.
  by rewrite Hsh in Hagree.
Qed.

(** C26. The exit status of the process: 2 when the arguments are wrong; 0 when
    only the help, the version or the name of the embedded module was asked for,
    which is then what the program prints; 1 when the runtime fails before any code
    of the guest runs, or finds no [_start]; and otherwise what the guest says, be
    it from [_start] or already while its module is instantiated: 0 when it returns
    or exits with 0, its own status when that fits a byte, and 1 for any other
    status and for a trap. *)
Theorem process_exit_status {Engine Mod MemoryType Shared Private Store Linker Instance_ Func}
    `{!Wasmtime MemoryType Shared Private Store Linker}
    `{!WasmtimeEngine Engine Mod MemoryType Shared Store Linker Instance_ Func}
    {K} `{!SignalHook K} {File} wasm source plat args view :
  (forall (f : Func) args (store : Store) status d,
     func_call f args store = inr (I32Exit status d) -> is_i32 status) ->
  (forall linker store md status d,
     instantiate linker store md = inr (I32Exit status d) -> is_i32 status) ->
  process (K := K) (File := File) wasm source plat args view =
  match args with
  | CliUsageError => ([], 2)
  | CliDisplayed text => (text, 0)
  | CliParsed cli =>
      if show_embedded_source cli then ([source], 0)
      else ([], match guest_outcome (K := K) (File := File) wasm plat cli view with
                | None | Some (inr (OtherError _)) => 1
                | Some (inl _) => 0
                | Some (inr (I32Exit status _)) => if decide (0 <= status < 256) then status else 1
                end)
  end.
Proof.
  intros Hcall Hinst. destruct args as [cli|text|]; [|done..]. unfold process, run.
  destruct (show_embedded_source cli); [done|]. f_equal.
  destruct (assemble _ _ _ _ _) as [[[[st env] linker] store]|e] eqn:E.
  2:{ unfold guest_outcome. rewrite E. by apply assemble_inr in E as [d ->]. }
  pose proof (enter_outcome wasm plat cli view _ _ _ _ E) as He.
  destruct (guest_outcome wasm plat cli view) as [r|] eqn:Er; [|by destruct He as [d ->]].
  destruct He as [He Hexit]. rewrite main_exit_status, He; [by destruct r as [|[]]|].
  apply Hexit. intros status d ->. unfold guest_outcome in Er. rewrite E in Er.
  apply bind_Some in Er as (l1 & _ & Er). apply bind_Some in Er as (l2 & _ & Er).
  destruct (instantiate l2 store (module env)) as [[inst st']|e'] eqn:Ei; simplify_eq; [|by eapply Hinst].
  apply bind_Some in Er as (f & _ & [= Er]). by eapply Hcall.
Qed.

(** * A concrete process *)

(** A Wasmtime whose module is a shared memory and whose guest exits with 42. *)
#[export] Instance toy_engine :
  WasmtimeEngine unit unit bool nat nat (gmap (string * string) (nat + nat)) unit string := {|
  engine_new := Some tt;
  module_from_binary _ wasm := if decide (wasm = []) then None else Some tt;
  module_imports _ := demo_imports;
  linker_new _ := ∅;
  linker_add _ l := Some l;
  define_unknown_imports_as_traps _ l := Some l;
  store_new _ _ := 0%nat;
  instantiate _ store _ := inl (tt, store);
  get_typed_func _ name := Some name;
  func_call name _ _ := if decide (name = "_start"%string) then inr (I32Exit 42 "") else inl tt
|}.

Definition demo_view : HostView := {|
  is_dir _ := true; preopened_dir _ _ := true; cwd := IoOk "/home"%string |}.

Definition demo_process :=
  assemble (K := list HookAction) (File := Z) [0] Unix demo_runtime_cli demo_view 0.

Lemma threads_share_the_host_witness :
  match demo_process with
  | inl (st, env, linker, _) =>
      match assemble_thread env demo_view with
      | inl (st', linker', _) =>
          app_files st' = app_files st /\ network_allowed st' = false /\
          exists m : nat, linker_lookup ("env", "memory")%string linker = Some (inl m) /\
            linker_lookup ("env", "memory")%string linker' = Some (inl m)
      | inr _ => False
      end
  | inr _ => False
  end.
Proof.
  destruct demo_process as [[[[st env] linker] store]|e] eqn:E; [|vm_compute in E; discriminate E].
  destruct (threads_share_the_host (K := list HookAction) (File := Z) [0] Unix demo_runtime_cli
    demo_view 0 st env linker store E) as (_ & Hnet & _ & _ & Hthread).
  assert (match demo_process with
    | inl (_, env, _, _) => match assemble_thread env demo_view with inl _ => true | inr _ => false end
    | inr _ => false end = true) as Hsome by (vm_compute; reflexivity).
  rewrite E in Hsome.
  destruct (assemble_thread env demo_view) as [[[st' linker'] store']|e] eqn:E'; [|discriminate Hsome].
  destruct (Hthread _ _ _ _ E') as (Hf & _ & _ & Hnet' & _ & Hm).
  split; [exact Hf|]. split; [by rewrite Hnet', Hnet|].
  exact (Hm ("env", "memory")%string true eq_refl eq_refl).
Defined.

(** A Wasmtime whose guest exits with 7 while its module is instantiated. *)
Definition early_exit_engine :
  WasmtimeEngine unit unit bool nat nat (gmap (string * string) (nat + nat)) unit string := {|
  engine_new := engine_new (WasmtimeEngine := toy_engine);
  module_from_binary := module_from_binary (WasmtimeEngine := toy_engine);
  module_imports := module_imports (WasmtimeEngine := toy_engine);
  linker_new := linker_new (WasmtimeEngine := toy_engine);
  linker_add := linker_add (WasmtimeEngine := toy_engine);
  define_unknown_imports_as_traps := define_unknown_imports_as_traps (WasmtimeEngine := toy_engine);
  store_new := store_new (WasmtimeEngine := toy_engine);
  instantiate _ _ _ := inr (I32Exit 7 "");
  get_typed_func := get_typed_func (WasmtimeEngine := toy_engine);
  func_call := func_call (WasmtimeEngine := toy_engine)
|}.

Lemma process_exit_status_witness :
  (process (K := list HookAction) (File := Z) [0] "mysqld.wasm" Unix (CliParsed demo_runtime_cli)
    demo_view).2 = 42 /\
  (process (K := list HookAction) (File := Z) [] "mysqld.wasm" Unix (CliParsed demo_runtime_cli)
    demo_view).2 = 1 /\
  (process (WasmtimeEngine0 := early_exit_engine) (K := list HookAction) (File := Z) [0] "mysqld.wasm"
    Unix (CliParsed demo_runtime_cli) demo_view).2 = 7.
Proof.
  split_and!; (etransitivity; [apply (f_equal snd), process_exit_status|vm_compute; reflexivity]).
  all: try by intros.
  all: try (intros f args store status d; simpl; case_decide; intros [= <- _]; by compute).
  intros linker store md status d [= <- _]. by compute.
Defined.
