(* ===== verification/BuildScript.v ===== *)
(** The build script (src/build.rs): which module is embedded, and under which
    name [--show-embedded-source] reports it.

    The environment, the file system and the [wat] compiler are parameters. *)

From S2P Require Import Prelude.
From S2P Require Import HostPath.
From S2P Require Import GuestMemory.

(** The end of the script: a panic, or the lines Cargo reads and the file
    written. *)
Inductive BuildResult :=
| BuildPanic (message : string)
| Built (cargo_lines : list string) (written : string * list Z).

(** [wasm.starts_with(b"\0asm")]. *)
Definition WASM_MAGIC : list Z := [0; 97; 115; 109].
Definition starts_with (bytes prefix : list Z) : bool := bool_decide (take (length prefix) bytes = prefix).

(** A panic, or the next step. *)
Definition expect {A} (o : option A) (message : string) (k : A -> BuildResult) : BuildResult :=
  match o with Some a => k a | None => BuildPanic message end.

Section Build.
Context (var_os : string -> option string).
Context (fs_read : string -> option (list Z)) (fs_read_to_string : string -> option string).
Context (fs_write : string -> list Z -> option unit) (wat_parse_str : string -> option (list Z)).

(** [validate_wasm]. *)
Definition validate_wasm (wasm : list Z) (path : string) (k : BuildResult) : BuildResult :=
  if negb (starts_with wasm WASM_MAGIC) then
    BuildPanic ("MYSQLD_WASM at " +:+ path +:+
      " is not a WebAssembly binary; expected magic bytes 00 61 73 6d")
  else k.

(** [main]. The error of the system that a panic message ends with is left out. *)
Definition main : BuildResult :=
  let line0 := "cargo:rerun-if-env-changed=MYSQLD_WASM"%string in
  expect (var_os "OUT_DIR") "OUT_DIR is set by Cargo" (fun out_dir =>
  let out_wasm := path_push out_dir "mysqld.wasm" in
  match var_os "MYSQLD_WASM" with
  | Some path =>
      let line1 := ("cargo:rerun-if-changed=" +:+ path)%string in
      expect (fs_read path) ("failed to read MYSQLD_WASM at " +:+ path) (fun wasm =>
      validate_wasm wasm path (
      expect (fs_write out_wasm wasm) ("failed to write embedded wasm to " +:+ out_wasm) (fun _ =>
      Built [line0; line1; "cargo:rustc-env=EMBEDDED_MYSQLD_WASM_SOURCE=" +:+ path]%string
        (out_wasm, wasm))))
  | None =>
      match var_os "CARGO_FEATURE_DEV_FIXTURE" with
      | Some _ =>
          let line1 := "cargo:rerun-if-changed=fixtures/dev-command.wat"%string in
          expect (fs_read_to_string "fixtures/dev-command.wat")
            "failed to read fixtures/dev-command.wat" (fun wat =>
          expect (wat_parse_str wat) "failed to compile dev fixture WAT" (fun wasm =>
          expect (fs_write out_wasm wasm) ("failed to write dev fixture wasm to " +:+ out_wasm) (fun _ =>
          Built [line0; line1;
            "cargo:rustc-env=EMBEDDED_MYSQLD_WASM_SOURCE=fixtures/dev-command.wat"]%string
            (out_wasm, wasm))))
      | None =>
          BuildPanic ("MYSQLD_WASM must point to a compiled MySQL server WebAssembly module. " +:+
            "For runner-only verification, build with --features dev-fixture.")
      end
  end).

(** The name of the embedded module that the script passes to the compiler. *)
Definition source_line (source : string) : string :=
  ("cargo:rustc-env=EMBEDDED_MYSQLD_WASM_SOURCE=" +:+ source)%string.

(** C38. What a successful build embeds: the bytes of the file [MYSQLD_WASM] names,
    which start with the magic number, and otherwise, only with the feature
    [dev-fixture], the compiled fixture; and the name reported for it is that of
    the file the bytes came from. *)
Theorem build_embeds lines out wasm :
  main = Built lines (out, wasm) ->
  exists out_dir source, var_os "OUT_DIR" = Some out_dir /\ out = path_push out_dir "mysqld.wasm" /\
    last lines = Some (source_line source) /\
    match var_os "MYSQLD_WASM" with
    | Some path => source = path /\ fs_read path = Some wasm /\ take 4 wasm = WASM_MAGIC
    | None => is_Some (var_os "CARGO_FEATURE_DEV_FIXTURE") /\
        source = "fixtures/dev-command.wat"%string /\
        exists wat, fs_read_to_string source = Some wat /\ wat_parse_str wat = Some wasm
    end.
Proof.
  unfold main, expect, validate_wasm. destruct (var_os "OUT_DIR") as [dir|]; [|done].
  destruct (var_os "MYSQLD_WASM") as [path|].
  - destruct (fs_read path) as [w|]; [|done]. destruct (starts_with w WASM_MAGIC) eqn:Hm; [|done].
    cbn [negb]. destruct (fs_write _ _); [|done]. intros [= <- <- <-].
    exists dir, path. apply bool_decide_eq_true in Hm. by split_and!.
  - destruct (var_os _); [|done]. destruct (fs_read_to_string _) as [wat|] eqn:Hw; [|done].
    destruct (wat_parse_str wat) as [w|] eqn:Hp; [|done]. destruct (fs_write _ _); [|done].
    intros [= <- <- <-]. eexists dir, _. split_and!; [done..|eauto|done|]. by exists wat.
Qed.
End Build.

(** A build with a module. *)
Definition demo_vars (name : string) : option string :=
  if decide (name = "OUT_DIR"%string) then Some "/out"%string
  else if decide (name = "MYSQLD_WASM"%string) then Some "/m.wasm"%string else None.
Definition demo_build : BuildResult :=
  main demo_vars (fun _ => Some [0; 97; 115; 109; 1; 0; 0; 0]) (fun _ => Some "(module)"%string)
    (fun _ _ => Some tt) (fun _ => Some WASM_MAGIC).

Lemma build_embeds_witness :
  match demo_build with
  | Built lines (out, wasm) =>
      take 4 wasm = WASM_MAGIC /\ last lines = Some (source_line "/m.wasm")
  | BuildPanic _ => False
  end.
Proof.
  destruct demo_build as [message|lines [out wasm]] eqn:E; [vm_compute in E; discriminate E|].
  destruct (build_embeds demo_vars (fun _ => Some [0; 97; 115; 109; 1; 0; 0; 0])
    (fun _ => Some "(module)"%string) (fun _ _ => Some tt) (fun _ => Some WASM_MAGIC) _ _ _ E)
    as (dir & source & _ & _ & Hlast & Hsrc & _ & Hmagic).
  split; [exact Hmagic|]. rewrite Hsrc in Hlast. exact Hlast.
Defined.
